(** * camera-to-immich: the processed-state store, the scanner and the
      conversion pipeline, embedded in Rocq.

    The Go packages [state], [scanner], [processor], [config], [drive],
    [uploader] and [main] are translated function by function.  Pointer
    receivers become explicit state passing; Go maps become [gmap]; Go
    [int] becomes [Z] (no arithmetic in the modelled code can overflow a
    64-bit int); a Go [error] becomes an [option string] holding the
    message. *)

From Stdlib Require Import ZArith String Ascii List Lia.
From stdpp Require Import gmap strings list fin_maps sorting pretty relations.

Local Open Scope string_scope.
Local Open Scope Z_scope.

(** ** package time (the part the program uses) *)

(** A [time.Time] is modelled by its wall-clock instant, in nanoseconds
    since the Unix epoch. *)
Definition Time : Type := Z.

(** [time.Time{}]: January 1, year 1, 00:00:00 UTC. *)
Definition time_zero : Time := -62135596800 * 1000000000.

Definition time_IsZero (t : Time) : bool := Z.eqb t time_zero.

(** The system clock: an unbounded sequence of readings and the number of
    readings already taken.  [time_Now] is [time.Now()]. *)
Record Clock := mkClock { reading : nat → Time; ticks : nat }.

Definition time_Now (c : Clock) : Time * Clock :=
  (reading c (ticks c), mkClock (reading c) (S (ticks c))).

(** [Time.MarshalJSON] and [Time.UnmarshalJSON]: the RFC 3339 rendering of
    an instant (without the surrounding quotes) and its parser.  Rendering
    fails for a year outside 0..9999; parsing fails on a malformed text.
    The two functions belong to the Go library, not to the program: the
    development is parametric in them. *)
Class TimeJSON := {
  time_MarshalJSON : Time → option string;
  time_UnmarshalJSON : string → option Time
}.

(** Three instants with their RFC 3339 rendering, as Go prints and reads
    them: a finite part of the library's codec, for running the model on
    concrete states. *)
Definition sample_times : TimeJSON := {|
  time_MarshalJSON t :=
    if Z.eqb t time_zero then Some "0001-01-01T00:00:00Z"
    else if Z.eqb t 0 then Some "1970-01-01T00:00:00Z"
    else if Z.eqb t (1700000000 * 1000000000) then Some "2023-11-14T22:13:20Z"
    else None;
  time_UnmarshalJSON s :=
    if String.eqb s "0001-01-01T00:00:00Z" then Some time_zero
    else if String.eqb s "1970-01-01T00:00:00Z" then Some 0
    else if String.eqb s "2023-11-14T22:13:20Z" then Some (1700000000 * 1000000000)
    else None
|}.

(** [strings.ToUpper] and [strings.ToLower] map a text of ASCII bytes byte
    by byte.  A text with a byte above 127 goes through [strings.Map] with
    [unicode.ToUpper] or [unicode.ToLower]: it is decoded as UTF-8, every
    character is mapped by the Unicode tables, and a byte that is not part
    of a well-formed character is replaced by U+FFFD.  These two mappings
    belong to the Go library, not to the program: the development is
    parametric in them, and they are consulted only on a text with a byte
    above 127. *)
Class Unicode := {
  Map_unicode_ToUpper : string → string;
  Map_unicode_ToLower : string → string
}.

(** [m[k]] on a Go [map[string]bool]: the zero value [false] when the key
    is missing. *)
Definition index_bool (m : gmap string bool) (k : string) : bool :=
  default false (m !! k).

(** ** package strings (the functions the program uses) *)

Module go_strings.

Definition HasPrefix (s prefix : string) : bool := String.prefix prefix s.

Definition HasSuffix (s suffix : string) : bool :=
  (String.length suffix <=? String.length s)%nat
  && String.eqb
       (substring (String.length s - String.length suffix)
          (String.length suffix) s)
       suffix.

Definition TrimSuffix (s suffix : string) : string :=
  if HasSuffix s suffix
  then substring 0 (String.length s - String.length suffix) s
  else s.

(** The first loop of [ToUpper] and [ToLower]: no byte reaches
    [utf8.RuneSelf], which is 128. *)
Fixpoint is_ascii (s : string) : bool :=
  match s with
  | EmptyString => true
  | String c r => (nat_of_ascii c <? 128)%nat && is_ascii r
  end.

Fixpoint map_bytes (f : ascii → ascii) (s : string) : string :=
  match s with
  | EmptyString => EmptyString
  | String c r => String (f c) (map_bytes f r)
  end.

(** [c -= 'a' - 'A'] for a byte between ['a'] and ['z'] *)
Definition upper_ascii (c : ascii) : ascii :=
  let n := nat_of_ascii c in
  if (97 <=? n)%nat && (n <=? 122)%nat then ascii_of_nat (n - 32) else c.

(** [strings.ToUpper]: a text of ASCII bytes is mapped byte by byte (and
    returned as it is when it has no lower-case letter, which the byte map
    gives as well); any other text is mapped by
    [Map(unicode.ToUpper, s)]. *)
Definition ToUpper `{Unicode} (s : string) : string :=
  if is_ascii s then map_bytes upper_ascii s else Map_unicode_ToUpper s.

(** [strings.Join] *)
Fixpoint Join (elems : list string) (sep : string) : string :=
  match elems with
  | [] => ""
  | [e] => e
  | e :: r => e ++ sep ++ Join r sep
  end.

(** [strings.Split(s, "/")] *)
Fixpoint split_slash (s : string) (cur : string) : list string :=
  match s with
  | EmptyString => [String.rev cur]
  | String c r =>
      if Ascii.eqb c "/" then String.rev cur :: split_slash r ""
      else split_slash r (String c cur)
  end.

(** [c += 'a' - 'A'] for a byte between ['A'] and ['Z'] *)
Definition lower_ascii (c : ascii) : ascii :=
  let n := nat_of_ascii c in
  if (65 <=? n)%nat && (n <=? 90)%nat then ascii_of_nat (n + 32) else c.

(** [strings.ToLower]: byte by byte on a text of ASCII bytes, by
    [Map(unicode.ToLower, s)] on any other text. *)
Definition ToLower `{Unicode} (s : string) : string :=
  if is_ascii s then map_bytes lower_ascii s else Map_unicode_ToLower s.

End go_strings.

(** The library's two mappings on a text whose characters above ASCII have
    no case (Chinese or Japanese text, say, in well-formed UTF-8): the
    ASCII letters are mapped and every other byte is kept.  For running
    the model on concrete names. *)
Definition caseless : Unicode := {|
  Map_unicode_ToUpper := go_strings.map_bytes go_strings.upper_ascii;
  Map_unicode_ToLower := go_strings.map_bytes go_strings.lower_ascii
|}.

(** ** package path/filepath, Unix flavour (separator [/], no volume names) *)

Module filepath.

(** [Ext]: the suffix starting at the last dot of the last path element. *)
Fixpoint ext_scan (rev_path : string) (acc : string) : string :=
  match rev_path with
  | EmptyString => ""
  | String c r =>
      if Ascii.eqb c "/" then ""
      else if Ascii.eqb c "." then String "." acc
      else ext_scan r (String c acc)
  end.

Definition Ext (path : string) : string := ext_scan (String.rev path) "".

(** One path element processed by [Clean]: [out] holds the elements
    written so far, last one first, and [dotdot] counts the leading [..]
    elements that may not be removed. *)
Definition clean_step (rooted : bool) (st : list string * nat) (e : string)
    : list string * nat :=
  let '(out, dotdot) := st in
  if String.eqb e "" || String.eqb e "." then st
  else if String.eqb e ".." then
    if (dotdot <? length out)%nat then (tail out, dotdot)
    else if rooted then st
    else (".." :: out, S dotdot)
  else (e :: out, dotdot).

(** [Clean], element by element; an empty result becomes [.] *)
Definition Clean (path : string) : string :=
  if String.eqb path "" then "."
  else
    let rooted := go_strings.HasPrefix path "/" in
    let out :=
      (foldl (clean_step rooted) ([], 0%nat) (go_strings.split_slash path "")).1 in
    let r := (if rooted then "/" else "") ++ go_strings.Join (reverse out) "/" in
    if String.eqb r "" then "." else r.

(** [Join]: leading empty elements are ignored, the rest is joined and
    cleaned; all elements empty gives the empty string. *)
Fixpoint Join (elem : list string) : string :=
  match elem with
  | [] => ""
  | e :: r =>
      if String.eqb e "" then Join r
      else Clean (go_strings.Join (e :: r) "/")
  end.

Fixpoint drop_slashes (rev_path : string) : string :=
  match rev_path with
  | EmptyString => ""
  | String c r => if Ascii.eqb c "/" then drop_slashes r else rev_path
  end.

Fixpoint take_element (rev_path : string) (acc : string) : string :=
  match rev_path with
  | EmptyString => acc
  | String c r => if Ascii.eqb c "/" then acc else take_element r (String c acc)
  end.

(** [Base] *)
Definition Base (path : string) : string :=
  if String.eqb path "" then "."
  else
    let stripped := drop_slashes (String.rev path) in
    let last := take_element stripped "" in
    if String.eqb last "" then "/" else last.

Fixpoint drop_element (rev_path : string) : string :=
  match rev_path with
  | EmptyString => ""
  | String c r => if Ascii.eqb c "/" then rev_path else drop_element r
  end.

(** [Dir] *)
Definition Dir (path : string) : string :=
  Clean (String.rev (drop_element (String.rev path))).

(** A file name extension without its dot: no dot and no separator. *)
Fixpoint plain (e : string) : bool :=
  match e with
  | EmptyString => true
  | String c r => negb (Ascii.eqb c "/") && negb (Ascii.eqb c ".") && plain r
  end.

End filepath.

(** ** package encoding/json, at the level of JSON values

    A complete JSON text is identified with the value it denotes: the
    printer of [MarshalIndent] and the parser of [Unmarshal] are the Go
    library's, and a text that has been printed parses back to the value
    it was printed from (strings are taken to be valid UTF-8; the Go
    printer replaces other bytes).  What is modelled is how a value is
    stored into a Go target: which keys reach which fields, what a
    mismatch does, what is left untouched. *)

Module json.

#[local] Unset Elimination Schemes.
Inductive value :=
| Null
| Bool (b : bool)
| Int (z : Z)            (* a number literal of the form -?digits *)
| Real (lit : string)    (* any other number literal *)
| Str (s : string)
| Arr (elems : list value)
| Obj (members : list (string * value)).
#[local] Set Elimination Schemes.

(** The decoder's [errorContext] at a value: the innermost struct that is
    being filled and the JSON names of the fields on the way from the root
    struct down to the value; nothing outside of any struct. *)
Definition context : Type := option (string * list string).

(** How the decoding of a value ended: nothing wrong; a type mismatch that
    was recorded while decoding went on (the earliest one is reported at
    the end), whose message depends on the context of the value; or an
    error that stopped the decoder at once. *)
Inductive status :=
| Good
| Saved (e : context → string)
| Aborted (e : string).

Definition then_status (s1 s2 : status) : status :=
  match s1 with
  | Good => s2
  | Saved e => match s2 with Aborted e' => Aborted e' | _ => Saved e end
  | Aborted e => Aborted e
  end.

(** The error [Unmarshal] returns, the decoding having started outside of
    any struct. *)
Definition status_error (s : status) : option string :=
  match s with
  | Good => None
  | Saved e => Some (e None)
  | Aborted e => Some e
  end.

(** The status of a value that was decoded into the field [name] of the
    struct [struct]: the field's name is pushed on the context and the
    struct becomes the innermost one. *)
Definition in_field (struct name : string) (s : status) : status :=
  match s with
  | Saved e =>
      Saved (λ ctx, e (Some (struct,
                             (match ctx with Some (_, fields) => fields | None => [] end)
                             ++ [name])%list))
  | _ => s
  end.

Definition kind_of (v : value) : string :=
  match v with
  | Null => "null"
  | Bool _ => "bool"
  | Int _ => "number"
  | Real _ => "number"
  | Str _ => "string"
  | Arr _ => "array"
  | Obj _ => "object"
  end.

(** [UnmarshalTypeError]: [what] describes the JSON value and [ty] is the
    Go type it could not be stored in. *)
Definition type_error (what ty : string) (ctx : context) : string :=
  match ctx with
  | Some (struct, fields) =>
      "json: cannot unmarshal " ++ what ++ " into Go struct field " ++ struct ++ "."
      ++ go_strings.Join fields "." ++ " of type " ++ ty
  | None => "json: cannot unmarshal " ++ what ++ " into Go value of type " ++ ty
  end.

(** [foldName] on a key, as far as a comparison with a name of ASCII
    bytes can tell: an ASCII letter is put in upper case; of the characters
    above ASCII, the two that Unicode folds onto an ASCII letter are
    replaced by it, U+017F (bytes C5 BF) by [S] and U+212A (bytes E2 84 AA)
    by [K]; every other one folds onto a character above ASCII again, and
    its bytes are kept. *)
Fixpoint fold_name (s : string) : string :=
  match s with
  | EmptyString => EmptyString
  | String c r =>
      let kept := String (go_strings.upper_ascii c) (fold_name r) in
      if (nat_of_ascii c =? 197)%nat then
        match r with
        | String d r' =>
            if (nat_of_ascii d =? 191)%nat then String "S" (fold_name r') else kept
        | EmptyString => kept
        end
      else if (nat_of_ascii c =? 226)%nat then
        match r with
        | String d (String e r') =>
            if (nat_of_ascii d =? 132)%nat && (nat_of_ascii e =? 170)%nat
            then String "K" (fold_name r') else kept
        | _ => kept
        end
      else kept
  end.

(** A key selects a struct field when the two names have the same fold
    (the field names of the program are ASCII, and their fold is their
    upper case). *)
Definition key_is (name key : string) : bool :=
  String.eqb (fold_name key) (go_strings.map_bytes go_strings.upper_ascii name).

(** The values of a Go [int] (64 bits). *)
Definition is_int64 (z : Z) : bool :=
  (-9223372036854775808 <=? z) && (z <=? 9223372036854775807).

(** Storing into an [int]; a number that [strconv.ParseInt] refuses is
    reported with its literal. *)
Definition into_int (cur : Z) (v : value) : Z * status :=
  match v with
  | Null => (cur, Good)
  | Int z =>
      if is_int64 z
      then (z, Good)
      else (cur, Saved (type_error ("number " ++ pretty z) "int"))
  | Real lit => (cur, Saved (type_error ("number " ++ lit) "int"))
  | _ => (cur, Saved (type_error (kind_of v) "int"))
  end.

(** Storing into a [string]. *)
Definition into_string (cur : string) (v : value) : string * status :=
  match v with
  | Null => (cur, Good)
  | Str s => (s, Good)
  | _ => (cur, Saved (type_error (kind_of v) "string"))
  end.

(** Storing into a [time.Time], through its [UnmarshalJSON]: [null] is
    accepted and changes nothing; a string is parsed, and a parse failure
    leaves the zero time behind; both failures stop the decoder.  The
    library's message for a text it cannot parse quotes the text and the
    layout; it is abridged here. *)
Definition into_time `{TimeJSON} (cur : Time) (v : value) : Time * status :=
  match v with
  | Null => (cur, Good)
  | Str s =>
      match time_UnmarshalJSON s with
      | Some t => (t, Good)
      | None => (time_zero, Aborted "parsing time: cannot parse as RFC 3339")
      end
  | _ => (cur, Aborted "Time.UnmarshalJSON: input is not a JSON string")
  end.

(** Storing the members of an object into a struct: [field] maps a key to
    the decoder of the field it selects; members with an unknown key are
    skipped; a later member for the same field overwrites an earlier
    one. *)
Fixpoint object_into {A : Type}
    (field : string → option (A → value → A * status))
    (members : list (string * value)) (a : A) : A * status :=
  match members with
  | [] => (a, Good)
  | (k, v) :: rest =>
      match field k with
      | None => object_into field rest a
      | Some dec =>
          let '(a', st) := dec a v in
          match st with
          | Aborted e => (a', Aborted e)
          | _ =>
              let '(a'', st') := object_into field rest a' in
              (a'', then_status st st')
          end
      end
  end.

End json.

(** ** package os: the files the program reads and writes *)

Module os.

(** What a file holds: a complete JSON text, a proper non-empty prefix of
    the text of a value (the trace of an interrupted write; for the
    objects the program writes, such a prefix is never a JSON text), or
    nothing. *)
Inductive content :=
| Document (j : json.value)
| Partial (j : json.value)
| Empty.

(** How a call of [os.WriteFile] fails: when the file is opened, and
    then nothing is touched; in the write, when the file has been
    truncated and nothing or a part of the text is written; or in the
    close, after the write. *)
Inductive write_failure :=
| OpenFails (e : string)
| WriteFails (e : string) (partly : bool)
| CloseFails (e : string).

(** The file system: the regular files by path, and for each path the
    error, if any, with which creating the directory or reading the file
    fails, and how, if at all, writing the file fails. *)
Record FS := mkFS {
  files : gmap string content;
  mkdir_err : string → option string;
  read_err : string → option string;
  write_err : string → option write_failure
}.

Definition with_files (fs : FS) (m : gmap string content) : FS :=
  mkFS m (mkdir_err fs) (read_err fs) (write_err fs).

(** The system calls behind the writes. *)
Inductive op :=
| OpenTrunc (path : string)                 (* open with O_CREATE|O_TRUNC *)
| WriteAll (path : string) (j : json.value) (* write the whole text *)
| Rename (src dst : string).

Definition apply_op (o : op) (m : gmap string content) : gmap string content :=
  match o with
  | OpenTrunc p => <[p := Empty]> m
  | WriteAll p j => <[p := Document j]> m
  | Rename a b =>
      match m !! a with
      | Some c => <[b := c]> (delete a m)
      | None => m
      end
  end.

Definition run_ops (ops : list op) (m : gmap string content) : gmap string content :=
  foldl (λ acc o, apply_op o acc) m ops.

(** The files as an interruption in the middle of one call leaves them:
    only a write can be cut short. *)
Definition torn_op (o : op) (m : gmap string content)
    : list (gmap string content) :=
  match o with
  | WriteAll p j => [<[p := Partial j]> m]
  | _ => []
  end.

(** Every state of the files in which a crash during [ops] can leave
    them: before any call, in the middle of a call, between two calls,
    after the last one. *)
Fixpoint crash_states (ops : list op) (m : gmap string content)
    : list (gmap string content) :=
  m :: match ops with
       | [] => []
       | o :: rest => torn_op o m ++ crash_states rest (apply_op o m)
       end.

(** A sequence of calls replaces the file at [path] safely when every
    state a crash can leave shows, at [path], either what was there before
    or what the complete sequence puts there. *)
Definition crash_safe (path : string) (ops : list op) (m : gmap string content)
    : Prop :=
  ∀ m', m' ∈ crash_states ops m →
    m' !! path = m !! path ∨ m' !! path = run_ops ops m !! path.

(** The replacement the specification describes: the complete text is
    written to a temporary file, which is then renamed over [path]. *)
Definition write_then_rename_ops (tmp path : string) (j : json.value) : list op :=
  [OpenTrunc tmp; WriteAll tmp j; Rename tmp path].

(** [os.WriteFile(path, data, perm)]: truncate, then write. *)
Definition WriteFile_ops (path : string) (j : json.value) : list op :=
  [OpenTrunc path; WriteAll path j].

(** The call returns the error of [OpenFile], else that of [Write], else
    that of [Close]; the file is truncated when it is opened. *)
Definition WriteFile (fs : FS) (path : string) (j : json.value)
    : option string * FS :=
  match write_err fs path with
  | Some (OpenFails e) => (Some e, fs)
  | Some (WriteFails e partly) =>
      (Some e,
       with_files fs
         (<[path := if partly then Partial j else Empty]>
            (apply_op (OpenTrunc path) (files fs))))
  | Some (CloseFails e) =>
      (Some e, with_files fs (run_ops (WriteFile_ops path j) (files fs)))
  | None => (None, with_files fs (run_ops (WriteFile_ops path j) (files fs)))
  end.

Inductive read_result :=
| ReadNotExist
| ReadError (e : string)
| ReadData (c : content).

(** [os.ReadFile] *)
Definition ReadFile (fs : FS) (path : string) : read_result :=
  match read_err fs path with
  | Some e => ReadError e
  | None =>
      match files fs !! path with
      | None => ReadNotExist
      | Some c => ReadData c
      end
  end.

End os.

(** ** package state *)

Module state.

Record ProcessedFile := mkProcessedFile {
  Filename : string;
  ProcessedAt : Time;
  ProfileUsed : string
}.

Record State := mkState {
  Version : Z;
  CardID : string;
  LastRun : Time;
  ProcessedFiles : gmap string ProcessedFile;
  statePath : string
}.

(** [IsProcessed] *)
Definition IsProcessed (s : State) (filename : string) : bool :=
  bool_decide (is_Some (ProcessedFiles s !! filename)).

(** [MarkProcessed]: the clock is read twice, once for the entry and once
    for [LastRun]; [outputPath] is not used by the source either. *)
Definition MarkProcessed (s : State) (filename profileUsed outputPath : string)
    (c : Clock) : State * Clock :=
  let '(t1, c1) := time_Now c in
  let '(t2, c2) := time_Now c1 in
  (mkState (Version s) (CardID s) t2
     (<[filename := mkProcessedFile filename t1 profileUsed]> (ProcessedFiles s))
     (statePath s),
   c2).

(** [GetProcessedFilesMap] *)
Definition GetProcessedFilesMap (s : State) : gmap string bool :=
  (λ _, true) <$> ProcessedFiles s.

(** [GetProcessedCount] *)
Definition GetProcessedCount (s : State) : Z :=
  Z.of_nat (size (ProcessedFiles s)).

(** One iteration of the loop of [SyncWithCard]. *)
Definition SyncWithCard_step (filesOnCard : gmap string bool)
    (acc : gmap string ProcessedFile * Z) (filename : string)
    : gmap string ProcessedFile * Z :=
  if negb (index_bool filesOnCard filename)
  then (delete filename acc.1, acc.2 + 1)
  else acc.

(** The loop of [SyncWithCard] over the keys in the order [keys] in which
    the [range] statement happens to yield them. *)
Definition SyncWithCard_loop (filesOnCard : gmap string bool)
    (keys : list string) (m : gmap string ProcessedFile)
    : gmap string ProcessedFile * Z :=
  foldl (SyncWithCard_step filesOnCard) (m, 0) keys.

(** [SyncWithCard] *)
Definition SyncWithCard (s : State) (filesOnCard : gmap string bool)
    : State * Z :=
  let r := SyncWithCard_loop filesOnCard
             (map_to_list (ProcessedFiles s)).*1 (ProcessedFiles s) in
  (mkState (Version s) (CardID s) (LastRun s) r.1 (statePath s), r.2).

(** [SetCardID] *)
Definition SetCardID (s : State) (id : string) : State :=
  mkState (Version s) id (LastRun s) (ProcessedFiles s) (statePath s).

(** [Clear] *)
Definition Clear (s : State) : State * Z :=
  let count := Z.of_nat (size (ProcessedFiles s)) in
  (mkState (Version s) "" time_zero ∅ (statePath s), count).

(** *** The persisted document *)

(** The zero [ProcessedFile]. *)
Definition zero_ProcessedFile : ProcessedFile := mkProcessedFile "" time_zero "".

(** [LegacyState] *)
Record LegacyState := mkLegacyState {
  LastProcessedFile : string;
  LastProcessedTimestamp : Time;
  LegacyProcessedFiles : list ProcessedFile
}.

Definition zero_LegacyState : LegacyState := mkLegacyState "" time_zero [].

(** The exported fields of a [State] while it is being decoded; the map
    may be [nil] ([None]) there. *)
Record StateFields := mkStateFields {
  fVersion : Z;
  fCardID : string;
  fLastRun : Time;
  fProcessedFiles : option (gmap string ProcessedFile)
}.

Section codec.
Context `{TimeJSON}.

(** Encoding of a [ProcessedFile]; [profile_used] is [omitempty]. *)
Definition marshal_ProcessedFile (pf : ProcessedFile) : option json.value :=
  t ← time_MarshalJSON (ProcessedAt pf);
  Some (json.Obj
    ([("filename", json.Str (Filename pf)); ("processed_at", json.Str t)]
     ++ (if String.eqb (ProfileUsed pf) "" then []
         else [("profile_used", json.Str (ProfileUsed pf))]))).

Definition key_le (a b : string * ProcessedFile) : Prop := String.le a.1 b.1.

#[local] Instance key_le_dec : RelDecision key_le.
Proof. intros a b. unfold key_le. apply _. Defined.

(** Encoding of the map: one member per key, keys in increasing order. *)
Definition marshal_ProcessedFiles (m : gmap string ProcessedFile)
    : option json.value :=
  members ← mapM (λ kv : string * ProcessedFile,
                    v ← marshal_ProcessedFile kv.2; Some (kv.1, v))
                 (merge_sort key_le (map_to_list m));
  Some (json.Obj members).

(** [json.MarshalIndent(s, "", "  ")]; [card_id] is [omitempty] and
    [statePath] is not exported. *)
Definition marshal_State (s : State) : option json.value :=
  t ← time_MarshalJSON (LastRun s);
  pfs ← marshal_ProcessedFiles (ProcessedFiles s);
  Some (json.Obj
    ([("version", json.Int (Version s))]
     ++ (if String.eqb (CardID s) "" then []
         else [("card_id", json.Str (CardID s))])
     ++ [("last_run", json.Str t); ("processed_files", pfs)])).

(** The fields of [ProcessedFile] by JSON key. *)
Definition ProcessedFile_field (k : string)
    : option (ProcessedFile → json.value → ProcessedFile * json.status) :=
  if json.key_is "filename" k then
    Some (λ pf v, let '(x, st) := json.into_string (Filename pf) v in
                  (mkProcessedFile x (ProcessedAt pf) (ProfileUsed pf),
                   json.in_field "ProcessedFile" "filename" st))
  else if json.key_is "processed_at" k then
    Some (λ pf v, let '(x, st) := json.into_time (ProcessedAt pf) v in
                  (mkProcessedFile (Filename pf) x (ProfileUsed pf),
                   json.in_field "ProcessedFile" "processed_at" st))
  else if json.key_is "profile_used" k then
    Some (λ pf v, let '(x, st) := json.into_string (ProfileUsed pf) v in
                  (mkProcessedFile (Filename pf) (ProcessedAt pf) x,
                   json.in_field "ProcessedFile" "profile_used" st))
  else None.

Definition into_ProcessedFile (cur : ProcessedFile) (v : json.value)
    : ProcessedFile * json.status :=
  match v with
  | json.Null => (cur, json.Good)
  | json.Obj members => json.object_into ProcessedFile_field members cur
  | _ => (cur, json.Saved (json.type_error (json.kind_of v) "state.ProcessedFile"))
  end.

(** The members of an object stored into a [map[string]ProcessedFile]:
    each value is decoded into a fresh element, which is then stored under
    the member's key. *)
Fixpoint map_members (members : list (string * json.value))
    (m : gmap string ProcessedFile) : gmap string ProcessedFile * json.status :=
  match members with
  | [] => (m, json.Good)
  | (k, v) :: rest =>
      let '(e, st) := into_ProcessedFile zero_ProcessedFile v in
      match st with
      | json.Aborted err => (m, json.Aborted err)
      | _ =>
          let '(m', st') := map_members rest (<[k := e]> m) in
          (m', json.then_status st st')
      end
  end.

Definition into_ProcessedFiles (cur : option (gmap string ProcessedFile))
    (v : json.value) : option (gmap string ProcessedFile) * json.status :=
  match v with
  | json.Null => (None, json.Good)
  | json.Obj members =>
      let '(m, st) := map_members members (default ∅ cur) in (Some m, st)
  | _ => (cur, json.Saved
            (json.type_error (json.kind_of v) "map[string]state.ProcessedFile"))
  end.

(** The elements of an array stored into a [[]ProcessedFile]: element [i]
    is decoded into the slice's element [i] when there is one, and into a
    zero element otherwise. *)
Fixpoint slice_elems (elems : list json.value) (cur : list ProcessedFile)
    : list ProcessedFile * json.status :=
  match elems with
  | [] => ([], json.Good)
  | v :: rest =>
      let '(e, st) := into_ProcessedFile (hd zero_ProcessedFile cur) v in
      match st with
      | json.Aborted err => ([e], json.Aborted err)
      | _ =>
          let '(l, st') := slice_elems rest (tl cur) in
          (e :: l, json.then_status st st')
      end
  end.

Definition into_slice (cur : list ProcessedFile) (v : json.value)
    : list ProcessedFile * json.status :=
  match v with
  | json.Null => ([], json.Good)
  | json.Arr elems => slice_elems elems cur
  | _ => (cur, json.Saved (json.type_error (json.kind_of v) "[]state.ProcessedFile"))
  end.

(** The exported fields of [State] by JSON key. *)
Definition State_field (k : string)
    : option (StateFields → json.value → StateFields * json.status) :=
  if json.key_is "version" k then
    Some (λ s v, let '(x, st) := json.into_int (fVersion s) v in
                 (mkStateFields x (fCardID s) (fLastRun s) (fProcessedFiles s),
                  json.in_field "State" "version" st))
  else if json.key_is "card_id" k then
    Some (λ s v, let '(x, st) := json.into_string (fCardID s) v in
                 (mkStateFields (fVersion s) x (fLastRun s) (fProcessedFiles s),
                  json.in_field "State" "card_id" st))
  else if json.key_is "last_run" k then
    Some (λ s v, let '(x, st) := json.into_time (fLastRun s) v in
                 (mkStateFields (fVersion s) (fCardID s) x (fProcessedFiles s),
                  json.in_field "State" "last_run" st))
  else if json.key_is "processed_files" k then
    Some (λ s v, let '(x, st) := into_ProcessedFiles (fProcessedFiles s) v in
                 (mkStateFields (fVersion s) (fCardID s) (fLastRun s) x,
                  json.in_field "State" "processed_files" st))
  else None.

(** The fields of [LegacyState] by JSON key. *)
Definition LegacyState_field (k : string)
    : option (LegacyState → json.value → LegacyState * json.status) :=
  if json.key_is "last_processed_file" k then
    Some (λ s v, let '(x, st) := json.into_string (LastProcessedFile s) v in
                 (mkLegacyState x (LastProcessedTimestamp s) (LegacyProcessedFiles s),
                  json.in_field "LegacyState" "last_processed_file" st))
  else if json.key_is "last_processed_timestamp" k then
    Some (λ s v, let '(x, st) := json.into_time (LastProcessedTimestamp s) v in
                 (mkLegacyState (LastProcessedFile s) x (LegacyProcessedFiles s),
                  json.in_field "LegacyState" "last_processed_timestamp" st))
  else if json.key_is "processed_files" k then
    Some (λ s v, let '(x, st) := into_slice (LegacyProcessedFiles s) v in
                 (mkLegacyState (LastProcessedFile s) (LastProcessedTimestamp s) x,
                  json.in_field "LegacyState" "processed_files" st))
  else None.

Definition syntax_error : string := "unexpected end of JSON input".

(** [json.Unmarshal(data, state)]: the text is checked first, and nothing
    is stored when it is not a JSON text. *)
Definition Unmarshal_State (data : os.content) (cur : StateFields)
    : StateFields * option string :=
  match data with
  | os.Document (json.Obj members) =>
      let '(s, st) := json.object_into State_field members cur in
      (s, json.status_error st)
  | os.Document json.Null => (cur, None)
  | os.Document v => (cur, Some (json.type_error (json.kind_of v) "state.State" None))
  | _ => (cur, Some syntax_error)
  end.

(** [json.Unmarshal(data, &legacy)] *)
Definition Unmarshal_LegacyState (data : os.content) (cur : LegacyState)
    : LegacyState * option string :=
  match data with
  | os.Document (json.Obj members) =>
      let '(s, st) := json.object_into LegacyState_field members cur in
      (s, json.status_error st)
  | os.Document json.Null => (cur, None)
  | os.Document v =>
      (cur, Some (json.type_error (json.kind_of v) "state.LegacyState" None))
  | _ => (cur, Some syntax_error)
  end.

(** [Save]: the calls it makes on the file system, when the state can be
    encoded. *)
Definition Save_ops (s : State) : list os.op :=
  match marshal_State s with
  | None => []
  | Some data => os.WriteFile_ops (statePath s) data
  end.

(** [Save] *)
Definition Save (s : State) (fs : os.FS) : option string * os.FS :=
  match marshal_State s with
  | None =>
      (Some ("failed to marshal state: "
             ++ "json: error calling MarshalJSON for type time.Time: "
             ++ "Time.MarshalJSON: year outside of range [0,9999]"),
       fs)
  | Some data =>
      match os.WriteFile fs (statePath s) data with
      | (Some e, fs') => (Some ("failed to write state file: " ++ e), fs')
      | (None, fs') => (None, fs')
      end
  end.

(** The loop that migrates the legacy list into the map. *)
Definition migrate (l : list ProcessedFile) : gmap string ProcessedFile :=
  foldl (λ m pf, <[Filename pf := pf]> m) ∅ l.

(** [Load].  The warning printed when the migrated state cannot be saved
    is not modelled; the file system after the call is returned. *)
Definition Load (path : string) (fs : os.FS) : (State + string) * os.FS :=
  let state := mkStateFields 2 "" time_zero (Some ∅) in
  match os.mkdir_err fs (filepath.Dir path) with
  | Some e => (inr ("failed to create state directory: " ++ e), fs)
  | None =>
      match os.ReadFile fs path with
      | os.ReadNotExist => (inl (mkState 2 "" time_zero ∅ path), fs)
      | os.ReadError e => (inr ("failed to read state file: " ++ e), fs)
      | os.ReadData data =>
          match Unmarshal_State data state with
          | (state', Some err) =>
              match Unmarshal_LegacyState data zero_LegacyState with
              | (legacy, None) =>
                  let migrated :=
                    mkState 2 (fCardID state') (LastProcessedTimestamp legacy)
                      (migrate (LegacyProcessedFiles legacy)) path in
                  (inl migrated, (Save migrated fs).2)
              | (_, Some _) =>
                  (inr ("failed to parse state file: " ++ err), fs)
              end
          | (state', None) =>
              (inl (mkState (fVersion state') (fCardID state') (fLastRun state')
                      (default ∅ (fProcessedFiles state')) path),
               fs)
          end
      end
  end.

(** *** The documents and records the properties below speak of *)

(** The codec reads back what it has written. *)
Definition reads_back : Prop :=
  ∀ t ts, time_MarshalJSON t = Some ts → is_Some (time_UnmarshalJSON ts).

(** The codec reads the zero time back as the zero time. *)
Definition reads_zero_back : Prop :=
  ∀ ts, time_MarshalJSON time_zero = Some ts → time_UnmarshalJSON ts = Some time_zero.

(** The instant a timestamp comes back as, after it has been written and
    read again. *)
Definition reparse (t : Time) : Time :=
  default time_zero (time_MarshalJSON t ≫= time_UnmarshalJSON).

(** A record after it has been written and read again. *)
Definition reloaded (pf : ProcessedFile) : ProcessedFile :=
  mkProcessedFile (Filename pf) (reparse (ProcessedAt pf)) (ProfileUsed pf).





End codec.

(** [Stats] and [GetStats]: the size of the state file is the one the
    file system reports, [size_of] standing for [os.Stat(...).Size()]. *)
Record Stats := mkStats {
  ProcessedCount : Z;
  StatsLastRun : Time;
  StatsCardID : string;
  FileSizeBytes : Z
}.

Definition GetStats (s : State) (size_of : string → option Z) : Stats :=
  mkStats (Z.of_nat (size (ProcessedFiles s))) (LastRun s) (CardID s)
    (default 0 (size_of (statePath s))).

End state.


(** ** package scanner *)

Module scanner.

Record FileInfo := mkFileInfo {
  Path : string;
  Name : string;
  Size : Z;
  ModTime : Z;
  IsRAW : bool;
  IsJPG : bool;
  BaseName : string;
  Extension : string
}.

Record ScanResult := mkScanResult {
  RAWFiles : list FileInfo;
  JPGFiles : list FileInfo;
  BasePath : string
}.

(** The tree of a mounted volume: a regular file with its size and
    modification time, or a directory with its entries, listed in the
    order in which [filepath.Walk] reads them (sorted by name). *)
#[local] Unset Elimination Schemes.
Inductive node :=
| File (size mtime : Z)
| Dir (entries : list (string * node)).
#[local] Set Elimination Schemes.

(** What [filepath.Walk] hands to its callback: the path and the
    [os.FileInfo] of the entry. *)
Record visit := mkVisit {
  vPath : string;
  vName : string;
  vSize : Z;
  vModTime : Z;
  vIsDir : bool
}.

(** [filepath.Walk]: the entry itself, then, for a directory, every entry
    below it, depth first.  The callback of [ScanForImages] never returns
    an error, so no subtree is skipped. *)
Fixpoint walk (path name : string) (n : node) : list visit :=
  match n with
  | File size mtime => [mkVisit path name size mtime false]
  | Dir entries =>
      mkVisit path name 0 0 true ::
      (fix walk_entries (l : list (string * node)) : list visit :=
         match l with
         | [] => []
         | (nm, child) :: rest =>
             (walk (filepath.Join [path; nm]) nm child ++ walk_entries rest)%list
         end) entries
  end.

Fixpoint entry (name : string) (l : list (string * node)) : option node :=
  match l with
  | [] => None
  | (nm, child) :: rest => if String.eqb nm name then Some child else entry name rest
  end.

Fixpoint descend (n : node) (elems : list string) : option node :=
  match elems with
  | [] => Some n
  | e :: rest =>
      match n with
      | Dir entries =>
          match entry e entries with
          | Some child => descend child rest
          | None => None
          end
      | File _ _ => None
      end
  end.

(** [os.Stat] on a volume mounted at [basePath]: the node at [path], if
    there is one. *)
Definition stat (basePath : string) (volume : node) (path : string) : option node :=
  if String.eqb path basePath then Some volume
  else
    let pre := if go_strings.HasSuffix basePath "/" then basePath
               else basePath ++ "/" in
    if go_strings.HasPrefix path pre then
      descend volume
        (go_strings.split_slash
           (substring (String.length pre) (String.length path - String.length pre) path)
           "")
    else None.

(** The callback that [ScanForImages] passes to [filepath.Walk]. *)
Definition scan_visit `{Unicode} (rawExtensions : gmap string bool) (result : ScanResult)
    (v : visit) : ScanResult :=
  if vIsDir v then result
  else if go_strings.HasPrefix (vName v) "._" then result
  else
    let ext := go_strings.ToUpper (filepath.Ext (vPath v)) in
    let baseName := go_strings.TrimSuffix (vName v) (filepath.Ext (vName v)) in
    let fileInfo (raw jpg : bool) :=
      mkFileInfo (vPath v) (vName v) (vSize v) (vModTime v) raw jpg baseName ext in
    if index_bool rawExtensions ext then
      mkScanResult (RAWFiles result ++ [fileInfo true false]) (JPGFiles result)
        (BasePath result)
    else if String.eqb ext ".JPG" || String.eqb ext ".JPEG" then
      mkScanResult (RAWFiles result) (JPGFiles result ++ [fileInfo false true])
        (BasePath result)
    else result.

(** [ScanForImages] on the volume [volume] mounted at [basePath].  The
    walk cannot fail, its callback returning [nil] in every case, so the
    error result of the source is always [nil]. *)
Definition ScanForImages `{Unicode} (volume : node) (basePath : string)
    (rawExtensions : gmap string bool) : ScanResult :=
  let searchPaths := [filepath.Join [basePath; "DCIM"]; basePath] in
  foldl
    (λ result searchPath,
       match stat basePath volume searchPath with
       | None => result
       | Some n =>
           foldl (scan_visit rawExtensions) result
             (walk searchPath (filepath.Base searchPath) n)
       end)
    (mkScanResult [] [] basePath) searchPaths.

(** [FindMatchingJPG] *)
Fixpoint FindMatchingJPG (rawFile : FileInfo) (jpgFiles : list FileInfo)
    : option FileInfo :=
  match jpgFiles with
  | [] => None
  | jpg :: rest =>
      if String.eqb (BaseName jpg) (BaseName rawFile) then Some jpg
      else FindMatchingJPG rawFile rest
  end.

(** The files of [files] whose name the map [m] does not hold. *)
Definition absent_files {A : Type} (m : gmap string A) (files : list FileInfo)
    : list FileInfo :=
  filter (λ f, m !! Name f = None) files.

(** [FilterNewFiles] *)
Fixpoint FilterNewFiles (files : list FileInfo) (processedFiles : gmap string bool)
    : list FileInfo :=
  match files with
  | [] => []
  | f :: rest =>
      if negb (index_bool processedFiles (Name f))
      then f :: FilterNewFiles rest processedFiles
      else FilterNewFiles rest processedFiles
  end.

End scanner.

(** ** What one scan looks at *)

Module scanned.

(** The record the callback of [ScanForImages] fills in for the entry it
    is called on. *)
Definition file_info `{Unicode} (v : scanner.visit) (raw jpg : bool) : scanner.FileInfo :=
  scanner.mkFileInfo (scanner.vPath v) (scanner.vName v) (scanner.vSize v)
    (scanner.vModTime v) raw jpg
    (go_strings.TrimSuffix (scanner.vName v) (filepath.Ext (scanner.vName v)))
    (go_strings.ToUpper (filepath.Ext (scanner.vPath v))).

(** The entries the callback does not return from at once: no directory,
    no name that starts with [._]. *)
Definition considered (v : scanner.visit) : bool :=
  negb (scanner.vIsDir v) && negb (go_strings.HasPrefix (scanner.vName v) "._").

Definition is_raw `{Unicode} (rawExtensions : gmap string bool) (v : scanner.visit) : bool :=
  considered v
  && index_bool rawExtensions (go_strings.ToUpper (filepath.Ext (scanner.vPath v))).

Definition is_jpg `{Unicode} (rawExtensions : gmap string bool) (v : scanner.visit) : bool :=
  let ext := go_strings.ToUpper (filepath.Ext (scanner.vPath v)) in
  considered v && negb (index_bool rawExtensions ext)
  && (String.eqb ext ".JPG" || String.eqb ext ".JPEG").

(** Every entry [filepath.Walk] hands to the callback in the course of
    [ScanForImages], in order: the walk of [basePath/DCIM], if it exists,
    then the walk of [basePath], if it exists. *)
Definition visited (volume : scanner.node) (basePath : string) : list scanner.visit :=
  let walk_of searchPath :=
    match scanner.stat basePath volume searchPath with
    | None => []
    | Some n => scanner.walk searchPath (filepath.Base searchPath) n
    end in
  (walk_of (filepath.Join [basePath; "DCIM"]) ++ walk_of basePath)%list.

End scanned.

(** ** package processor *)

Module processor.

(** The outcome of [os.Stat] on a path. *)
Inductive stat_result := StatOk | StatNotExist | StatFailed.

(** The outside world as one conversion call meets it: what running a
    command yields (its combined output and its error, if any), and what
    [os.Stat] reports once the command has returned. *)
Record Sys := mkSys {
  CombinedOutput : string → list string → string * option string;
  Stat : string → stat_result
}.

(** The external programs a call has started. *)
Inductive ext_call :=
| RunDNGConverter (exe : string) (args : list string)
| RunRawTherapee (exe : string) (args : list string).

Definition newline : string := String (ascii_of_nat 10) "".

Record RawTherapeeConfig := mkRawTherapeeConfig {
  ExecutablePath : string;
  ProfilePath : string;
  OutputDir : string;
  Quality : Z
}.

(** [RawTherapee.ProcessFile] *)
Definition ProcessFile (rt : RawTherapeeConfig) (sys : Sys) (inputPath : string)
    : (string * option string) * list ext_call :=
  let baseName :=
    go_strings.TrimSuffix (filepath.Base inputPath) (filepath.Ext inputPath) in
  let outputPath := filepath.Join [OutputDir rt; baseName ++ ".jpg"] in
  let args :=
    (["-o"; outputPath; "-j" +:+ pretty (Quality rt); "-Y"]
     ++ (if String.eqb (ProfilePath rt) "" then [] else ["-p"; ProfilePath rt])
     ++ ["-c"; inputPath])%list in
  let calls := [RunRawTherapee (ExecutablePath rt) args] in
  match CombinedOutput sys (ExecutablePath rt) args with
  | (output, Some err) =>
      (("", Some ("rawtherapee-cli failed: " ++ err ++ newline ++ "Output: " ++ output)),
       calls)
  | (_, None) =>
      match Stat sys outputPath with
      | StatNotExist =>
          (("", Some ("output file was not created: " ++ outputPath)), calls)
      | _ => ((outputPath, None), calls)
      end
  end.

(** [RawTherapee.GetProfileName] *)
Definition GetProfileName (rt : RawTherapeeConfig) : string :=
  if String.eqb (ProfilePath rt) "" then "default"
  else go_strings.TrimSuffix (filepath.Base (ProfilePath rt)) ".pp3".

Record DNGConverterConfig := mkDNGConverterConfig {
  DNGExecutablePath : string;
  DNGOutputDir : string;
  Compressed : bool;
  EmbedOriginal : bool
}.

(** [DNGConverter.ConvertFile]; the half-second pause before the
    output is looked for is left out. *)
Definition ConvertFile (dc : DNGConverterConfig) (sys : Sys) (inputPath : string)
    : (string * option string) * list ext_call :=
  let baseName :=
    go_strings.TrimSuffix (filepath.Base inputPath) (filepath.Ext inputPath) in
  let outputPath := filepath.Join [DNGOutputDir dc; baseName ++ ".dng"] in
  let args :=
    (["-c"; "-d"; DNGOutputDir dc; "-o"; baseName +:+ ".dng"]
     ++ (if Compressed dc then ["-lossy"] else [])
     ++ (if EmbedOriginal dc then ["-e"] else [])
     ++ [inputPath])%list in
  let calls := [RunDNGConverter (DNGExecutablePath dc) args] in
  match CombinedOutput sys (DNGExecutablePath dc) args with
  | (output, Some err) =>
      (("", Some ("Adobe DNG Converter failed: " ++ err ++ newline ++ "Output: " ++ output)),
       calls)
  | (output, None) =>
      match Stat sys outputPath with
      | StatNotExist =>
          let alternateOutputPath :=
            filepath.Join [DNGOutputDir dc; baseName ++ ".DNG"] in
          match Stat sys alternateOutputPath with
          | StatOk => ((alternateOutputPath, None), calls)
          | _ =>
              (("", Some ("DNG output file was not created: " ++ outputPath
                          ++ newline ++ "Command output: " ++ output)),
               calls)
          end
      | _ => ((outputPath, None), calls)
      end
  end.

End processor.

(** ** package config *)

Module config.

Record Config := mkConfig {
  DriveLabel : string;
  RawExtensions : list string;
  ConvertToDNG : bool;
  DNGConverterPath : string;
  DNGOutputDirectory : string;
  DNGCompressed : bool;
  DNGEmbedOriginal : bool;
  CleanupDNGFiles : bool;
  RawTherapeeExecutable : string;
  PP3ProfilePath : string;
  JPEGQuality : Z;
  OutputDirectory : string;
  ImmichExecutable : string;
  ImmichServerURL : string;
  ImmichAPIKey : string;
  ImmichAlbum : string;
  ImmichTags : list string;
  ProcessRAWFiles : bool;
  UploadCameraJPGs : bool;
  TagWithProfileName : bool;
  CleanupAfterUpload : bool;
  DryRun : bool;
  SkipUpload : bool;
  Limit : Z;
  Workers : Z
}.

(** [DefaultConfig]; [homeDir] is what [os.UserHomeDir] returns, the empty
    string when it fails. *)
Definition DefaultConfig (homeDir : string) : Config := {|
  DriveLabel := "OM SYSTEM";
  RawExtensions := [".ORF"];
  ConvertToDNG := false;
  DNGConverterPath := "";
  DNGOutputDirectory := "";
  DNGCompressed := false;
  DNGEmbedOriginal := false;
  CleanupDNGFiles := true;
  RawTherapeeExecutable := "";
  PP3ProfilePath := "";
  JPEGQuality := 92;
  OutputDirectory := filepath.Join [homeDir; ".camera-to-immich"; "output"];
  ImmichExecutable := "";
  ImmichServerURL := "";
  ImmichAPIKey := "";
  ImmichAlbum := "";
  ImmichTags := [];
  ProcessRAWFiles := true;
  UploadCameraJPGs := true;
  TagWithProfileName := true;
  CleanupAfterUpload := true;
  DryRun := false;
  SkipUpload := false;
  Limit := 0;
  Workers := 0
|}.

(** [Validate]; [stat] is [os.Stat] at the time of the call. *)
Definition Validate (c : Config) (stat : string → processor.stat_result)
    : option string :=
  if String.eqb (DriveLabel c) "" then Some "drive_label is required"
  else if ProcessRAWFiles c && String.eqb (PP3ProfilePath c) "" then
    Some "pp3_profile_path is required when process_raw_files is enabled"
  else if ProcessRAWFiles c
          && match stat (PP3ProfilePath c) with
             | processor.StatNotExist => true
             | _ => false
             end then
    Some ("PP3 profile not found: " ++ PP3ProfilePath c)
  else if negb (SkipUpload c) && String.eqb (ImmichServerURL c) "" then
    Some "immich_server_url is required (use --skip-upload to skip Immich upload)"
  else if negb (SkipUpload c) && String.eqb (ImmichAPIKey c) "" then
    Some "immich_api_key is required (use --skip-upload to skip Immich upload)"
  else if (JPEGQuality c <? 1) || (JPEGQuality c >? 100) then
    Some "jpeg_quality must be between 1 and 100"
  else None.

(** The key under which [GetRawExtensionsMap] enters an extension: upper
    case, with a leading dot. *)
Definition normalized `{Unicode} (ext : string) : string :=
  let normalized := go_strings.ToUpper ext in
  if negb (go_strings.HasPrefix normalized ".") then "." ++ normalized
  else normalized.

(** [GetRawExtensionsMap] *)
Definition GetRawExtensionsMap `{Unicode} (c : Config) : gmap string bool :=
  foldl (λ (extMap : gmap string bool) ext, <[normalized ext := true]> extMap)
    ∅ (RawExtensions c).

End config.

(** ** package drive *)

Module drive.

Record DriveInfo := mkDriveInfo {
  Path : string;
  VolumeLabel : string;
  Letter : string
}.

(** The loop of [findDriveByLabelImpl], the same on both platforms. *)
Fixpoint find_label `{Unicode} (labelLower : string) (drives : list DriveInfo)
    : option DriveInfo :=
  match drives with
  | [] => None
  | drive :: rest =>
      if String.eqb (go_strings.ToLower (VolumeLabel drive)) labelLower
      then Some drive
      else find_label labelLower rest
  end.

(** [findDriveByLabelImpl], given what [listAllDrivesImpl] returns. *)
Definition findDriveByLabelImpl `{Unicode} (listed : list DriveInfo + string) (label : string)
    : DriveInfo + string :=
  match listed with
  | inr err => inr err
  | inl drives =>
      match find_label (go_strings.ToLower label) drives with
      | Some drive => inl drive
      | None => inr ("drive with label '" ++ label ++ "' not found")
      end
  end.

(** *** macOS *)

Definition volumesPath : string := "/Volumes".

(** [listAllDrivesImpl] on macOS: [entries] is what [os.ReadDir] returns
    for [/Volumes], each entry with its name and whether it is a
    directory, and [accessible] tells whether [os.Stat] succeeds. *)
Definition listAllDrivesImpl_darwin (entries : list (string * bool) + string)
    (accessible : string → bool) : list DriveInfo + string :=
  match entries with
  | inr err => inr ("failed to read " ++ volumesPath ++ ": " ++ err)
  | inl entries =>
      inl (foldl
             (λ drives (entry : string * bool),
                if negb entry.2 then drives
                else
                  let volumeName := entry.1 in
                  let volumePath := filepath.Join [volumesPath; volumeName] in
                  if negb (accessible volumePath) then drives
                  else (drives ++ [mkDriveInfo volumePath volumeName ""])%list)
             [] entries)
  end.

(** A name as [os.ReadDir] lists it: not empty, not [.] or [..], and
    without a separator. *)
Fixpoint no_separator (s : string) : bool :=
  match s with
  | EmptyString => true
  | String c r => negb (Ascii.eqb c "/") && no_separator r
  end.

Definition entry_name (s : string) : bool :=
  no_separator s && negb (String.eqb s "") && negb (String.eqb s ".")
  && negb (String.eqb s "..").

(** *** Windows *)

(** How a loop over the buffer ends: it returns, it reads past the end of
    the buffer (Go panics with an index out of range), or the model has
    run out of steps. *)
Inductive ending (A : Type) :=
| Returns (a : A)
| IndexOutOfRange
| OutOfFuel.
Arguments Returns {A} a.
Arguments IndexOutOfRange {A}.
Arguments OutOfFuel {A}.

(** The inner loop: [for j < ret && buffer[j] != 0 { j++ }].  It returns
    the final [j]. *)
Fixpoint string_end (buffer : list Z) (ret : nat) (j : nat) (fuel : nat)
    : ending nat :=
  if negb (j <? ret)%nat then Returns j
  else
    match buffer !! j with
    | None => IndexOutOfRange
    | Some unit =>
        if unit =? 0 then Returns j
        else
          match fuel with
          | O => OutOfFuel
          | S fuel' => string_end buffer ret (S j) fuel'
          end
    end.

(** The outer loop of [listAllDrivesImpl] on Windows, from index [i] on.
    [decode] is [syscall.UTF16ToString] and [getVolumeLabel] the function
    of that name. *)
Fixpoint parse_drives (decode : list Z → string) (getVolumeLabel : string → string)
    (buffer : list Z) (ret : nat) (i : nat) (drives : list DriveInfo) (fuel : nat)
    : ending (list DriveInfo) :=
  if negb (i <? ret)%nat then Returns drives
  else
    match string_end buffer ret i ret with
    | IndexOutOfRange => IndexOutOfRange
    | OutOfFuel => OutOfFuel
    | Returns j =>
        let drives :=
          if (i <? j)%nat then
            let drivePath := decode (take (j - i) (drop i buffer)) in
            let volumeLabel := getVolumeLabel drivePath in
            let driveLetter :=
              if (2 <=? String.length drivePath)%nat then substring 0 2 drivePath
              else "" in
            (drives ++ [mkDriveInfo drivePath volumeLabel driveLetter])%list
          else drives in
        match fuel with
        | O => OutOfFuel
        | S fuel' =>
            parse_drives decode getVolumeLabel buffer ret (S j) drives fuel'
        end
    end.

(** [listAllDrivesImpl] on Windows: [buffer] is the buffer of 256 code
    units after the call of [GetLogicalDriveStringsW], [ret] is what the
    call has returned, [err] the error that goes with it. *)
Definition listAllDrivesImpl_windows (decode : list Z → string)
    (getVolumeLabel : string → string) (buffer : list Z) (ret : nat) (err : string)
    : ending (list DriveInfo + string) :=
  if (ret =? 0)%nat then
    Returns (inr ("GetLogicalDriveStrings failed: " ++ err))
  else
    match parse_drives decode getVolumeLabel buffer ret 0 [] ret with
    | Returns drives => Returns (inl drives)
    | IndexOutOfRange => IndexOutOfRange
    | OutOfFuel => OutOfFuel
    end.

(** The code units [GetLogicalDriveStringsW] writes for the root paths
    [paths]: each path followed by a NUL.  The call returns their number;
    one more NUL follows them in the buffer. *)
Definition drive_strings (paths : list (list Z)) : list Z :=
  concat ((λ p : list Z, (p ++ [0])%list) <$> paths).

(** The [DriveInfo] the loop builds for the code units of one path. *)
Definition drive_of (decode : list Z → string) (getVolumeLabel : string → string)
    (units : list Z) : DriveInfo :=
  let drivePath := decode units in
  mkDriveInfo drivePath (getVolumeLabel drivePath)
    (if (2 <=? String.length drivePath)%nat then substring 0 2 drivePath else "").

End drive.

(** ** The operating system as the uploader and [main] call it

    The calls are answered by the outside world; a call's answer may
    depend on everything that has happened before, so the world answers
    by the number of calls made so far.  The calls made are logged, in
    order. *)

Module sys.

Inductive call :=
| Stat (path : string)                     (* os.Stat *)
| LookPath (file : string)                 (* exec.LookPath *)
| MkdirTemp (dir pattern : string)         (* os.MkdirTemp *)
| MkdirAll (path : string)                 (* os.MkdirAll *)
| CopyFile (src dst : string)              (* os.Open, os.Create, ReadFrom *)
| Run (exe : string) (args : list string)  (* cmd.Run, cmd.CombinedOutput *)
| Remove (path : string)                   (* os.Remove *)
| RemoveAll (path : string).               (* os.RemoveAll *)

Record World := mkWorld {
  stat : nat → string → processor.stat_result;
  look_path : nat → string → string + string;        (* the path found, or the error *)
  mkdir_temp : nat → string → string → string + string; (* the directory, or the error *)
  mkdir_all : nat → string → option string;
  copy_file : nat → string → string → option string;
  run : nat → string → list string → string * option string; (* output and error *)
  remove : nat → string → option string
}.

(** How a computation ends: with a value, or in a Go panic. *)
Inductive result (A : Type) :=
| Value (a : A)
| Panic (msg : string).
Arguments Value {A} a.
Arguments Panic {A} msg.

(** A computation in a world, from the log of the calls made before it
    to its result and the log after it. *)
Definition M (A : Type) : Type := World → list call → result A * list call.

Definition ret {A : Type} (a : A) : M A := λ _ log, (Value a, log).

Definition bind {A B : Type} (m : M A) (k : A → M B) : M B :=
  λ w log,
    match m w log with
    | (Value a, log') => k a w log'
    | (Panic msg, log') => (Panic msg, log')
    end.

Definition panic {A : Type} (msg : string) : M A := λ _ log, (Panic msg, log).

(** [defer cleanup] before [body]: the deferred call runs when [body]
    is over, also when it has panicked. *)
Definition defer {A : Type} (cleanup : M unit) (body : M A) : M A :=
  λ w log,
    let '(r, log') := body w log in
    (r, (cleanup w log').2).

Definition os_Stat (path : string) : M processor.stat_result :=
  λ w log, (Value (stat w (length log) path), (log ++ [Stat path])%list).

Definition exec_LookPath (file : string) : M (string + string) :=
  λ w log, (Value (look_path w (length log) file), (log ++ [LookPath file])%list).

Definition os_MkdirTemp (dir pattern : string) : M (string + string) :=
  λ w log,
    (Value (mkdir_temp w (length log) dir pattern), (log ++ [MkdirTemp dir pattern])%list).

Definition os_MkdirAll (path : string) : M (option string) :=
  λ w log, (Value (mkdir_all w (length log) path), (log ++ [MkdirAll path])%list).

Definition copy (src dst : string) : M (option string) :=
  λ w log, (Value (copy_file w (length log) src dst), (log ++ [CopyFile src dst])%list).

Definition cmd_Run (exe : string) (args : list string) : M (string * option string) :=
  λ w log, (Value (run w (length log) exe args), (log ++ [Run exe args])%list).

Definition os_Remove (path : string) : M (option string) :=
  λ w log, (Value (remove w (length log) path), (log ++ [Remove path])%list).

Definition os_RemoveAll (path : string) : M unit :=
  λ w log, (Value tt, (log ++ [RemoveAll path])%list).

(** Worlds and logs the properties speak of: a successful run of a
    command between two logs; a world in which a file can always be
    staged in a temporary directory; a world in which every command
    succeeds. *)
Definition ran_between (w : World) (log log' : list call) : Prop :=
  ∃ i exe args, log' !! i = Some (Run exe args)
    ∧ (length log ≤ i)%nat ∧ (run w i exe args).2 = None.

Definition staging_succeeds (w : World) : Prop :=
  (∀ i path, stat w i path ≠ processor.StatNotExist)
  ∧ (∀ i dir pattern, ∃ made, mkdir_temp w i dir pattern = inl made)
  ∧ (∀ i src dst, copy_file w i src dst = None).

Definition commands_succeed (w : World) : Prop :=
  ∀ i exe args, (run w i exe args).2 = None.

Definition commands_fail (w : World) : Prop :=
  ∀ i exe args, is_Some (run w i exe args).2.

(** Every temporary directory made after [log] is removed later in
    [log']: a call of [os.MkdirTemp] that has returned a directory is
    followed by the [os.RemoveAll] of that directory. *)
Definition temp_dirs_removed (w : World) (log log' : list call) : Prop :=
  ∀ i dir pattern made,
    (length log ≤ i)%nat →
    log' !! i = Some (MkdirTemp dir pattern) →
    mkdir_temp w i dir pattern = inl made →
    ∃ j, (i < j)%nat ∧ log' !! j = Some (RemoveAll made).

(** Only such directories are removed: every [os.RemoveAll] after [log]
    is for a directory that an [os.MkdirTemp] after [log] has made
    before. *)
Definition removes_own_dirs (w : World) (log log' : list call) : Prop :=
  ∀ j made,
    (length log ≤ j)%nat →
    log' !! j = Some (RemoveAll made) →
    ∃ i dir pattern,
      (length log ≤ i < j)%nat
      ∧ log' !! i = Some (MkdirTemp dir pattern)
      ∧ mkdir_temp w i dir pattern = inl made.

(** A computation that only adds to the log, removes the temporary
    directories it makes, however it ends, and no other directory, and
    calls [os.Remove] only for paths in [P]. *)
Definition tidy {A : Type} (P : string → Prop) (m : M A) : Prop :=
  ∀ w log,
    (∃ calls, (m w log).2 = (log ++ calls)%list
              ∧ ∀ path, Remove path ∈ calls → P path)
    ∧ temp_dirs_removed w log (m w log).2
    ∧ removes_own_dirs w log (m w log).2.

(** The calls that only look at the outside world or make a directory. *)
Definition probe (c : call) : Prop :=
  match c with
  | Stat _ | LookPath _ | MkdirAll _ => True
  | _ => False
  end.

(** A computation that returns a value after calls of that kind only. *)
Definition probing {A : Type} (m : M A) : Prop :=
  ∀ w log, ∃ a calls, m w log = (Value a, (log ++ calls)%list) ∧ Forall probe calls.

(** The calls that run no command and copy or delete no file (they may
    make and remove a temporary directory). *)
Definition quiet (c : call) : Prop :=
  match c with
  | Run _ _ | CopyFile _ _ | Remove _ => False
  | _ => True
  end.

End sys.

Notation "x <- c1 ;; c2" := (sys.bind c1 (λ x, c2))
  (at level 100, c1 at next level, right associativity).

(** ** package uploader *)

(** ** package processor: the constructors *)

Module processor_init.
Import processor.

(** [runtime.GOOS], as far as the program tells its values apart. *)
Inductive GOOS := windows | darwin | other_os.

(** The loop of [findRawTherapeeExecutable] over the names that are
    left. *)
Fixpoint find_rawtherapee (names : list string) : sys.M string :=
  match names with
  | [] => sys.ret "rawtherapee-cli"
  | name :: rest =>
      found <- sys.exec_LookPath name;;
      match found with
      | inl path => sys.ret path
      | inr _ =>
          st <- sys.os_Stat name;;
          match st with
          | StatOk => sys.ret name
          | _ => find_rawtherapee rest
          end
      end
  end.

(** [findRawTherapeeExecutable] *)
Definition findRawTherapeeExecutable (goos : GOOS) : sys.M string :=
  let names :=
    ("rawtherapee-cli"
     :: match goos with
        | windows =>
            ["rawtherapee-cli.exe";
             "C:\Program Files\RawTherapee\rawtherapee-cli.exe";
             "C:\Program Files (x86)\RawTherapee\rawtherapee-cli.exe"]
        | darwin =>
            ["/Applications/RawTherapee.app/Contents/MacOS/rawtherapee-cli";
             "/usr/local/bin/rawtherapee-cli";
             "/opt/homebrew/bin/rawtherapee-cli"]
        | other_os => []
        end)%list in
  find_rawtherapee names.

(** [NewRawTherapee]: the configuration of the processor it returns, or
    the error. *)
Definition NewRawTherapee (goos : GOOS) (config : RawTherapeeConfig)
    : sys.M (RawTherapeeConfig + string) :=
  exe <- (if String.eqb (ExecutablePath config) "" then findRawTherapeeExecutable goos
          else sys.ret (ExecutablePath config));;
  let config :=
    mkRawTherapeeConfig exe (ProfilePath config) (OutputDir config)
      (if Quality config =? 0 then 92 else Quality config) in
  found <- sys.exec_LookPath (ExecutablePath config);;
  match found with
  | inr err =>
      sys.ret (inr ("rawtherapee-cli not found at '" ++ ExecutablePath config
                    ++ "': " ++ err))
  | inl _ =>
      let output_directory :=
        if negb (String.eqb (OutputDir config) "") then
          made <- sys.os_MkdirAll (OutputDir config);;
          match made with
          | Some err => sys.ret (inr ("failed to create output directory: " ++ err))
          | None => sys.ret (inl config)
          end
        else sys.ret (inl config) in
      if negb (String.eqb (ProfilePath config) "") then
        st <- sys.os_Stat (ProfilePath config);;
        match st with
        | StatNotExist =>
            sys.ret (inr ("PP3 profile not found at '" ++ ProfilePath config ++ "'"))
        | _ => output_directory
        end
      else output_directory
  end.

(** The loop of [findDNGConverterExecutable] over the paths that are
    left. *)
Fixpoint find_dng_converter (paths : list string) : sys.M string :=
  match paths with
  | [] => sys.ret ""
  | path :: rest =>
      st <- sys.os_Stat path;;
      match st with
      | StatOk => sys.ret path
      | _ => find_dng_converter rest
      end
  end.

(** [findDNGConverterExecutable] *)
Definition findDNGConverterExecutable (goos : GOOS) : sys.M string :=
  let paths :=
    match goos with
    | windows =>
        ["C:\Program Files\Adobe\Adobe DNG Converter\Adobe DNG Converter.exe";
         "C:\Program Files (x86)\Adobe\Adobe DNG Converter\Adobe DNG Converter.exe"]
    | darwin =>
        ["/Applications/Adobe DNG Converter.app/Contents/MacOS/Adobe DNG Converter"]
    | other_os => []
    end in
  find_dng_converter paths.

(** [NewDNGConverter]: the configuration of the converter it returns, or
    the error. *)
Definition NewDNGConverter (goos : GOOS) (config : DNGConverterConfig)
    : sys.M (DNGConverterConfig + string) :=
  exe <- (if String.eqb (DNGExecutablePath config) ""
          then findDNGConverterExecutable goos
          else sys.ret (DNGExecutablePath config));;
  let config :=
    mkDNGConverterConfig exe (DNGOutputDir config) (Compressed config)
      (EmbedOriginal config) in
  if String.eqb (DNGExecutablePath config) "" then
    sys.ret (inr ("Adobe DNG Converter not found. "
                  ++ "Please install it or specify the path in config"))
  else
    st <- sys.os_Stat (DNGExecutablePath config);;
    match st with
    | StatNotExist =>
        sys.ret (inr ("Adobe DNG Converter not found at '" ++ DNGExecutablePath config
                      ++ "'"))
    | _ =>
        if negb (String.eqb (DNGOutputDir config) "") then
          made <- sys.os_MkdirAll (DNGOutputDir config);;
          match made with
          | Some err =>
              sys.ret (inr ("failed to create DNG output directory: " ++ err))
          | None => sys.ret (inl config)
          end
        else sys.ret (inl config)
    end.

End processor_init.

Module uploader.

Record ImmichConfig := mkImmichConfig {
  ExecutablePath : string;
  ServerURL : string;
  APIKey : string;
  Album : string;
  Tags : list string;
  ShowProgress : bool
}.

(** A [*Immich]: [nil], or an uploader with its configuration. *)
Definition Immich : Type := option ImmichConfig.

Definition nil_dereference : string :=
  "runtime error: invalid memory address or nil pointer dereference".

(** [NewImmich]; [find] is [findImmichGoExecutable]. *)
Definition NewImmich (config : ImmichConfig) (find : sys.M string)
    : sys.M (ImmichConfig + string) :=
  config <- (if String.eqb (ExecutablePath config) ""
             then exe <- find;;
                  sys.ret (mkImmichConfig exe (ServerURL config) (APIKey config)
                             (Album config) (Tags config) (ShowProgress config))
             else sys.ret config);;
  found <- sys.exec_LookPath (ExecutablePath config);;
  match found with
  | inr err =>
      sys.ret (inr ("immich-go not found at '" ++ ExecutablePath config ++ "': " ++ err))
  | inl _ =>
      if String.eqb (ServerURL config) "" then
        sys.ret (inr "immich server URL is required")
      else if String.eqb (APIKey config) "" then
        sys.ret (inr "immich API key is required")
      else sys.ret (inl config)
  end.

(** The arguments [uploadDirectory] passes to [immich-go]. *)
Definition upload_args (config : ImmichConfig) (dirPath : string)
    (additionalTags : list string) (recursive : bool) : list string :=
  (["upload"; "from-folder";
    "--server"; ServerURL config;
    "--api-key"; APIKey config;
    "--on-errors"; "continue";
    "--skip-verify-ssl"]
   ++ (if negb (ShowProgress config) then ["--no-ui"] else [])
   ++ (if negb recursive then ["--recursive=false"] else [])
   ++ flat_map (λ tag, ["--tag"; tag]) (Tags config ++ additionalTags)
   ++ (if negb (String.eqb (Album config) "") then ["--into-album"; Album config]
       else [])
   ++ [dirPath])%list.

(** [uploadDirectory]: the receiver's configuration is read first, which
    panics for a [nil] receiver. *)
Definition uploadDirectory (im : Immich) (dirPath : string)
    (additionalTags : list string) (recursive : bool) : sys.M (option string) :=
  match im with
  | None => sys.panic nil_dereference
  | Some config =>
      let args := upload_args config dirPath additionalTags recursive in
      r <- sys.cmd_Run (ExecutablePath config) args;;
      match r with
      | (_, None) => sys.ret None
      | (output, Some err) =>
          if ShowProgress config then
            sys.ret (Some ("immich-go upload failed: " ++ err))
          else
            sys.ret (Some ("immich-go upload failed: " ++ err ++ processor.newline
                           ++ "Output: " ++ output))
      end
  end.

(** [UploadFolder] *)
Definition UploadFolder (im : Immich) (folderPath : string)
    (additionalTags : list string) (recursive : bool) : sys.M (option string) :=
  uploadDirectory im folderPath additionalTags recursive.

(** [uploadSingleFile] *)
Definition uploadSingleFile (im : Immich) (filePath : string)
    (additionalTags : list string) : sys.M (option string) :=
  st <- sys.os_Stat filePath;;
  match st with
  | processor.StatNotExist => sys.ret (Some ("file not found: " ++ filePath))
  | _ =>
      made <- sys.os_MkdirTemp "" "immich-upload-*";;
      match made with
      | inr err => sys.ret (Some ("failed to create temp directory: " ++ err))
      | inl tempDir =>
          sys.defer (sys.os_RemoveAll tempDir)
            (let fileName := filepath.Base filePath in
             let destPath := filepath.Join [tempDir; fileName] in
             copied <- sys.copy filePath destPath;;
             match copied with
             | Some err =>
                 sys.ret (Some ("failed to copy file to temp directory: " ++ err))
             | None => uploadDirectory im tempDir additionalTags false
             end)
      end
  end.

(** [UploadFile] *)
Definition UploadFile (im : Immich) (filePath : string) (additionalTags : list string)
    : sys.M (option string) :=
  uploadSingleFile im filePath additionalTags.

Record UploadResult := mkUploadResult {
  FilePath : string;
  Success : bool;
  Error : option string
}.

(** [UploadFiles]: the error it returns is always [nil], and is left out. *)
Fixpoint UploadFiles (im : Immich) (filePaths : list string)
    (additionalTags : list string) : sys.M (list UploadResult) :=
  match filePaths with
  | [] => sys.ret []
  | filePath :: rest =>
      err <- uploadSingleFile im filePath additionalTags;;
      let result :=
        match err with
        | Some e => mkUploadResult filePath false (Some e)
        | None => mkUploadResult filePath true None
        end in
      results <- UploadFiles im rest additionalTags;;
      sys.ret (result :: results)
  end.

End uploader.

(** ** package main: [runWithRAWProcessing] *)

Module main.

(** The fields of [config.Config] that the modelled code reads. *)
Record Config := mkConfig {
  Limit : Z;
  Workers : Z;
  DryRun : bool;
  UploadCameraJPGs : bool
}.

(** [run]: the set of names on the card, built before [SyncWithCard]. *)
Definition filesOnCard (scanResult : scanner.ScanResult) : gmap string bool :=
  let add := λ (m : gmap string bool) (f : scanner.FileInfo),
               <[scanner.Name f := true]> m in
  foldl add (foldl add ∅ (scanner.RAWFiles scanResult)) (scanner.JPGFiles scanResult).

Record job := mkJob { jobIndex : Z; jobRawFile : scanner.FileInfo }.

(** How [runWithRAWProcessing] goes on after it has looked for new files:
    it returns at once when there is none, it lists the files on a dry
    run, it converts them otherwise. *)
Inductive selection :=
| NoNewFiles
| DryRunOf (files : list scanner.FileInfo)
| Selected (files : list scanner.FileInfo).

(** The head of [runWithRAWProcessing]: the filter, the early return, the
    limit, the dry run. *)
Definition select_new_files (cfg : Config) (appState : state.State)
    (scanResult : scanner.ScanResult) : selection :=
  let processedMap := state.GetProcessedFilesMap appState in
  let newRAWFiles :=
    scanner.FilterNewFiles (scanner.RAWFiles scanResult) processedMap in
  if (length newRAWFiles =? 0)%nat then NoNewFiles
  else
    let newRAWFiles :=
      if (Limit cfg >? 0) && (Z.of_nat (length newRAWFiles) >? Limit cfg)
      then take (Z.to_nat (Limit cfg)) newRAWFiles
      else newRAWFiles in
    if DryRun cfg then DryRunOf newRAWFiles else Selected newRAWFiles.

(** The value of the variable [newRAWFiles] where the function leaves the
    head. *)
Definition newRAWFiles (cfg : Config) (appState : state.State)
    (scanResult : scanner.ScanResult) : list scanner.FileInfo :=
  match select_new_files cfg appState scanResult with
  | NoNewFiles => []
  | DryRunOf files => files
  | Selected files => files
  end.

(** The loop that sends the jobs: one per new file, numbered from 0. *)
Definition make_jobs (files : list scanner.FileInfo) : list job :=
  imap (λ i f, mkJob (Z.of_nat i) f) files.

(** The jobs a run sends to the workers, provided the converters can be
    set up: none when there is no new file or on a dry run. *)
Definition submitted_jobs (cfg : Config) (appState : state.State)
    (scanResult : scanner.ScanResult) : list job :=
  match select_new_files cfg appState scanResult with
  | Selected files => make_jobs files
  | _ => []
  end.

(** [run] followed by [runWithRAWProcessing], from the scan to the job
    list, on a volume mounted at [basePath], when RAW processing is on and
    the uploader can be set up: the scan, the set of names on the card,
    [SyncWithCard], the selection of the new files. *)
Definition plan `{Unicode} (cfg : Config) (appState : state.State) (volume : scanner.node)
    (basePath : string) (rawExtensions : gmap string bool)
    : state.State * list job :=
  let scanResult := scanner.ScanForImages volume basePath rawExtensions in
  let synced := (state.SyncWithCard appState (filesOnCard scanResult)).1 in
  (synced, submitted_jobs cfg synced scanResult).

(** The lines [showStateInfo] prints below its title. *)
Inductive info_line :=
| PathLine (path : string)
| TrackedLine (n : Z)
| FileSizeLine (n : Z)
| LastRunLine (t : Time)
| CardIDLine (id : string).

Definition stats_lines (statePath : string) (stats : state.Stats) : list info_line :=
  ([PathLine statePath; TrackedLine (state.ProcessedCount stats)]
   ++ (if state.FileSizeBytes stats >? 0
       then [FileSizeLine (state.FileSizeBytes stats)] else [])
   ++ (if negb (time_IsZero (state.StatsLastRun stats))
       then [LastRunLine (state.StatsLastRun stats)] else [])
   ++ (if negb (String.eqb (state.StatsCardID stats) "")
       then [CardIDLine (state.StatsCardID stats)] else []))%list.

(** [showStateInfo], for the state file at [statePath]. *)
Definition showStateInfo `{TimeJSON} (statePath : string) (fs : os.FS)
    (size_of : string → option Z) : list info_line + string :=
  match (state.Load statePath fs).1 with
  | inr e => inr ("Error loading state: " ++ e)%string
  | inl appState => inl (stats_lines statePath (state.GetStats appState size_of))
  end.

(** [clearStateFile], for the state file at [statePath]: the number of
    entries it reports as cleared, or the error, and the files after it. *)
Definition clearStateFile `{TimeJSON} (statePath : string) (fs : os.FS)
    : (Z + string) * os.FS :=
  match state.Load statePath fs with
  | (inr e, fs1) => (inr ("Error loading state: " ++ e)%string, fs1)
  | (inl appState, fs1) =>
      let '(cleared, count) := state.Clear appState in
      match state.Save cleared fs1 with
      | (Some e, fs2) => (inr ("Error saving state: " ++ e)%string, fs2)
      | (None, fs2) => (inl count, fs2)
      end
  end.

Definition defaultMaxWorkers : Z := 4.

(** The number of workers, from the configured count, the number of CPU
    cores and the number of new files. *)
Definition numWorkers (cfgWorkers numCPU nFiles : Z) : Z :=
  let n := cfgWorkers in
  let n :=
    if n <=? 0
    then (if numCPU >? defaultMaxWorkers then defaultMaxWorkers else numCPU)
    else n in
  if n >? nFiles then nFiles else n.

(** The identifiers of the worker goroutines the start loop spawns. *)
Definition spawned_workers (numWorkers : Z) : list Z := seqZ 0 numWorkers.

Record processResult := mkProcessResult {
  index : Z;
  rawFile : scanner.FileInfo;
  outputPath : string;
  dngPath : string;
  elapsed : Z;
  err : option string
}.

(** The body of a worker's loop for one job: the result it sends, the
    external programs it has started, and the clock after the job. *)
Definition process_job (dngConverter : option processor.DNGConverterConfig)
    (rt : processor.RawTherapeeConfig) (sys : processor.Sys) (c : Clock) (j : job)
    : processResult * list processor.ext_call * Clock :=
  let '(rtStart, c1) := time_Now c in
  let rtCall (inputPath dngPath : string) (before : list processor.ext_call) :=
    let '((outputPath, err), calls) := processor.ProcessFile rt sys inputPath in
    let '(now, c2) := time_Now c1 in
    (mkProcessResult (jobIndex j) (jobRawFile j) outputPath dngPath
       (now - rtStart) err,
     (before ++ calls)%list, c2) in
  match dngConverter with
  | Some dc =>
      match processor.ConvertFile dc sys (scanner.Path (jobRawFile j)) with
      | ((_, Some err), calls) =>
          let '(now, c2) := time_Now c1 in
          (mkProcessResult (jobIndex j) (jobRawFile j) "" "" (now - rtStart)
             (Some ("DNG conversion failed: " ++ err)),
           calls, c2)
      | ((dngPath, None), calls) => rtCall dngPath dngPath calls
      end
  | None => rtCall (scanner.Path (jobRawFile j)) "" []
  end.

Definition result_of (x : processResult * list processor.ext_call * Clock)
    : processResult := x.1.1.

Definition calls_of (x : processResult * list processor.ext_call * Clock)
    : list processor.ext_call := x.1.2.

(** What the loop that collects the results carries along. *)
Record collected := mkCollected {
  appState : state.State;
  clock : Clock;
  processedCount : Z;
  totalRawProcessingTime : Z;
  processedJPGs : list string;
  cameraJPGs : list string;
  dngFilesToCleanup : list string
}.

(** One iteration of the loop over the results channel (the log lines
    are left out). *)
Definition collect_step (cfg : Config) (scanResult : scanner.ScanResult)
    (profileName : string) (acc : collected) (result : processResult) : collected :=
  let processedCount' := processedCount acc + 1 in
  let total' := totalRawProcessingTime acc + elapsed result in
  match err result with
  | Some _ =>
      mkCollected (appState acc) (clock acc) processedCount' total'
        (processedJPGs acc) (cameraJPGs acc) (dngFilesToCleanup acc)
  | None =>
      let processedJPGs' := (processedJPGs acc ++ [outputPath result])%list in
      let dng' :=
        if String.eqb (dngPath result) "" then dngFilesToCleanup acc
        else (dngFilesToCleanup acc ++ [dngPath result])%list in
      let camera' :=
        if UploadCameraJPGs cfg then
          match scanner.FindMatchingJPG (rawFile result) (scanner.JPGFiles scanResult) with
          | Some matchingJPG => (cameraJPGs acc ++ [scanner.Path matchingJPG])%list
          | None => cameraJPGs acc
          end
        else cameraJPGs acc in
      let '(appState', clock') :=
        state.MarkProcessed (appState acc) (scanner.Name (rawFile result))
          profileName (outputPath result) (clock acc) in
      mkCollected appState' clock' processedCount' total' processedJPGs' camera' dng'
  end.

(** The loop over the results, in the order [results] in which the
    workers have sent them. *)
Definition collect (cfg : Config) (scanResult : scanner.ScanResult)
    (profileName : string) (acc : collected) (results : list processResult)
    : collected :=
  foldl (collect_step cfg scanResult profileName) acc results.

(** *** The worker pool of [runWithRAWProcessing]

    The goroutines between the start of the workers and the end of the
    collecting loop, and the two buffered channels between them, as a
    transition system: one step is one channel operation of one
    goroutine.  A step that Go would block on is not enabled. *)

(** What a worker goroutine is at. *)
Inductive worker :=
| Waiting               (* at [for job := range jobs] *)
| Working (j : job)     (* in the loop body; its result is not yet sent *)
| Exited.               (* the loop over [jobs] is over, [wg.Done] has run *)

Record pool := mkPool {
  to_send : list job;              (* the jobs the sending loop has yet to send *)
  jobs : list job;                 (* the content of the channel [jobs] *)
  jobs_closed : bool;
  workers : list worker;
  results : list processResult;    (* the content of the channel [results] *)
  results_closed : bool;
  received : list processResult    (* what the collecting loop has received *)
}.

(** The pool when the workers have been started: nothing is sent yet. *)
Definition start (newRAWFiles : list scanner.FileInfo) (numWorkers : nat) : pool :=
  mkPool (make_jobs newRAWFiles) [] false (replicate numWorkers Waiting) [] false [].

(** The result a worker may send for a job: what the loop body computes
    in some state of the outside world and of the clock. *)
Definition outcome (dngConverter : option processor.DNGConverterConfig)
    (rt : processor.RawTherapeeConfig) (j : job) (r : processResult) : Prop :=
  ∃ (sys : processor.Sys) (c : Clock), r = result_of (process_job dngConverter rt sys c j).

(** One step of the pool; [capacity] is the capacity of both channels,
    [len(newRAWFiles)]. *)
Inductive step (capacity : nat) (dngConverter : option processor.DNGConverterConfig)
    (rt : processor.RawTherapeeConfig) : pool → pool → Prop :=
| step_send p j rest :                      (* [jobs <- ...] in the sending loop *)
    to_send p = j :: rest →
    (length (jobs p) < capacity)%nat →
    step capacity dngConverter rt p
      (mkPool rest (jobs p ++ [j]) (jobs_closed p) (workers p) (results p)
         (results_closed p) (received p))
| step_close_jobs p :                       (* [close(jobs)] *)
    to_send p = [] →
    jobs_closed p = false →
    step capacity dngConverter rt p
      (mkPool [] (jobs p) true (workers p) (results p) (results_closed p) (received p))
| step_take p w j rest :                    (* a worker receives a job *)
    workers p !! w = Some Waiting →
    jobs p = j :: rest →
    step capacity dngConverter rt p
      (mkPool (to_send p) rest (jobs_closed p) (<[w := Working j]> (workers p))
         (results p) (results_closed p) (received p))
| step_finish p w j r :                     (* [results <- ...] in a worker *)
    workers p !! w = Some (Working j) →
    outcome dngConverter rt j r →
    (length (results p) < capacity)%nat →
    step capacity dngConverter rt p
      (mkPool (to_send p) (jobs p) (jobs_closed p) (<[w := Waiting]> (workers p))
         (results p ++ [r]) (results_closed p) (received p))
| step_exit p w :                           (* [jobs] is closed and empty *)
    workers p !! w = Some Waiting →
    jobs p = [] →
    jobs_closed p = true →
    step capacity dngConverter rt p
      (mkPool (to_send p) (jobs p) (jobs_closed p) (<[w := Exited]> (workers p))
         (results p) (results_closed p) (received p))
| step_close_results p :                    (* [wg.Wait(); close(results)] *)
    jobs_closed p = true →
    Forall (λ w, w = Exited) (workers p) →
    results_closed p = false →
    step capacity dngConverter rt p
      (mkPool (to_send p) (jobs p) (jobs_closed p) (workers p) (results p) true
         (received p))
| step_receive p r rest :                   (* the collecting loop receives *)
    jobs_closed p = true →
    results p = r :: rest →
    step capacity dngConverter rt p
      (mkPool (to_send p) (jobs p) (jobs_closed p) (workers p) rest
         (results_closed p) (received p ++ [r])).

(** The collecting loop is over: [results] is closed and empty. *)
Definition finished (p : pool) : Prop :=
  results_closed p = true ∧ results p = [].

(** The job a result answers. *)
Definition job_of (r : processResult) : job := mkJob (index r) (rawFile r).

(** The jobs the workers hold. *)
Definition working (ws : list worker) : list job :=
  flat_map (λ w, match w with Working j => [j] | _ => [] end) ws.

(** What holds of every pool that a run has reached: each job is in
    exactly one place; the workers are as many as were started; [jobs]
    is closed only when everything is sent; a worker has exited only
    when [jobs] was closed and empty; [results] is closed only when all
    workers have exited; and every result answers its job. *)
Definition pool_ok (dngConverter : option processor.DNGConverterConfig)
    (rt : processor.RawTherapeeConfig) (newRAWFiles : list scanner.FileInfo)
    (numWorkers : nat) (p : pool) : Prop :=
  (to_send p ++ jobs p ++ working (workers p)
   ++ (job_of <$> results p) ++ (job_of <$> received p) ≡ₚ make_jobs newRAWFiles)%list
  ∧ length (workers p) = numWorkers
  ∧ (jobs_closed p = true → to_send p = [])
  ∧ (Exited ∈ workers p → jobs p = [] ∧ jobs_closed p = true)
  ∧ (results_closed p = true → Forall (λ w, w = Exited) (workers p))
  ∧ Forall (λ r, outcome dngConverter rt (job_of r) r) (results p ++ received p).

(** A bound on the number of steps the pool can still take. *)
Definition steps_left (p : pool) : nat :=
  (5 * length (to_send p) + 4 * length (jobs p)
   + (if jobs_closed p then 0 else 1)
   + list_sum ((λ w : worker,
                  match w with Waiting => 1 | Working _ => 4 | Exited => 0 end)
                 <$> workers p)
   + 2 * length (results p)
   + (if results_closed p then 0 else 1))%nat.

(** *** [main]: the command line *)

(** The flags, with the names of the variables of [main]. *)
Record Flags := mkFlags {
  configPath : string;
  profilePath : string;
  serverURL : string;
  apiKey : string;
  outputDir : string;
  driveLabel : string;
  dryRun : bool;
  jpgOnly : bool;
  skipUpload : bool;
  noCameraJPGs : bool;
  limit : Z;
  workers_flag : Z;      (* the variable [workers] *)
  listDrives : bool;
  initConfig : bool;
  showVersion : bool;
  verbose : bool;
  keepFiles : bool;
  clearState : bool;
  stateInfo : bool
}.

(** The values of the flags when the command line gives none. *)
Definition no_flags : Flags :=
  mkFlags "" "" "" "" "" "" false false false false 0 0
    false false false false false false false.

(** [main], "Apply command-line overrides": each [if] of the source
    assigns one field, and no two assign the same one. *)
Definition apply_overrides (f : Flags) (cfg : config.Config) : config.Config := {|
  config.DriveLabel :=
    if negb (String.eqb (driveLabel f) "") then driveLabel f else config.DriveLabel cfg;
  config.RawExtensions := config.RawExtensions cfg;
  config.ConvertToDNG := config.ConvertToDNG cfg;
  config.DNGConverterPath := config.DNGConverterPath cfg;
  config.DNGOutputDirectory := config.DNGOutputDirectory cfg;
  config.DNGCompressed := config.DNGCompressed cfg;
  config.DNGEmbedOriginal := config.DNGEmbedOriginal cfg;
  config.CleanupDNGFiles := config.CleanupDNGFiles cfg;
  config.RawTherapeeExecutable := config.RawTherapeeExecutable cfg;
  config.PP3ProfilePath :=
    if negb (String.eqb (profilePath f) "") then profilePath f
    else config.PP3ProfilePath cfg;
  config.JPEGQuality := config.JPEGQuality cfg;
  config.OutputDirectory :=
    if negb (String.eqb (outputDir f) "") then outputDir f
    else config.OutputDirectory cfg;
  config.ImmichExecutable := config.ImmichExecutable cfg;
  config.ImmichServerURL :=
    if negb (String.eqb (serverURL f) "") then serverURL f
    else config.ImmichServerURL cfg;
  config.ImmichAPIKey :=
    if negb (String.eqb (apiKey f) "") then apiKey f else config.ImmichAPIKey cfg;
  config.ImmichAlbum := config.ImmichAlbum cfg;
  config.ImmichTags := config.ImmichTags cfg;
  config.ProcessRAWFiles := if jpgOnly f then false else config.ProcessRAWFiles cfg;
  config.UploadCameraJPGs :=
    if noCameraJPGs f then false else config.UploadCameraJPGs cfg;
  config.TagWithProfileName := config.TagWithProfileName cfg;
  config.CleanupAfterUpload :=
    if keepFiles f then false else config.CleanupAfterUpload cfg;
  config.DryRun := if dryRun f then true else config.DryRun cfg;
  config.SkipUpload := if skipUpload f then true else config.SkipUpload cfg;
  config.Limit := if limit f >? 0 then limit f else config.Limit cfg;
  config.Workers := if workers_flag f >? 0 then workers_flag f else config.Workers cfg
|}.

(** The part of the configuration the head of [runWithRAWProcessing]
    and the collecting loop read. *)
Definition settings (cfg : config.Config) : Config :=
  mkConfig (config.Limit cfg) (config.Workers cfg) (config.DryRun cfg)
    (config.UploadCameraJPGs cfg).

(** *** [run], step 4: the uploader *)

(** The [ImmichConfig] that [run] builds. *)
Definition immichConfig (cfg : config.Config) (verbose : bool) : uploader.ImmichConfig :=
  uploader.mkImmichConfig (config.ImmichExecutable cfg) (config.ImmichServerURL cfg)
    (config.ImmichAPIKey cfg) (config.ImmichAlbum cfg) (config.ImmichTags cfg) verbose.

(** The variable [im] of [run] after step 4, or the error [run] returns
    there: [im] stays [nil] when the upload is to be skipped. *)
Definition init_uploader (cfg : config.Config) (verbose : bool) (find : sys.M string)
    : sys.M (uploader.Immich + string) :=
  if negb (config.SkipUpload cfg) then
    made <- uploader.NewImmich (immichConfig cfg verbose) find;;
    match made with
    | inr err => sys.ret (inr ("failed to initialize Immich uploader: " ++ err)%string)
    | inl im => sys.ret (inl (Some im))
    end
  else sys.ret (inl None).

(** *** [runJPGOnlyMode] *)

(** What the program itself holds: the state, the clock, the state
    file's file system. *)
Record store := mkStore {
  the_state : state.State;
  the_clock : Clock;
  the_files : os.FS
}.

(** The upload loop of [runJPGOnlyMode] over the files that are left;
    returns the state, the clock and [uploadedCount]. *)
Fixpoint upload_jpgs (im : uploader.Immich) (tags : list string)
    (files : list scanner.FileInfo) (appState : state.State) (c : Clock)
    (uploadedCount : Z) : sys.M (state.State * Clock * Z) :=
  match files with
  | [] => sys.ret (appState, c, uploadedCount)
  | jpgFile :: rest =>
      err <- uploader.UploadFile im (scanner.Path jpgFile) tags;;
      match err with
      | Some _ => upload_jpgs im tags rest appState c uploadedCount
      | None =>
          let '(appState', c') :=
            state.MarkProcessed appState (scanner.Name jpgFile) "jpg-only"
              (scanner.Path jpgFile) c in
          upload_jpgs im tags rest appState' c' (uploadedCount + 1)
      end
  end.

(** [runJPGOnlyMode]: the error it returns and what the program holds
    afterwards. *)
Definition runJPGOnlyMode `{TimeJSON} (cfg : config.Config) (st : store)
    (scanResult : scanner.ScanResult) (im : uploader.Immich)
    : sys.M (option string * store) :=
  let processedMap := state.GetProcessedFilesMap (the_state st) in
  let newJPGFiles :=
    scanner.FilterNewFiles (scanner.JPGFiles scanResult) processedMap in
  if (length newJPGFiles =? 0)%nat then sys.ret (None, st)
  else if config.DryRun cfg then sys.ret (None, st)
  else
    let tags := ["camera-original"] in
    r <- upload_jpgs im tags newJPGFiles (the_state st) (the_clock st) 0;;
    let '(appState, c, _) := r in
    match state.Save appState (the_files st) with
    | (Some err, fs) =>
        sys.ret (Some ("failed to save state: " ++ err)%string, mkStore appState c fs)
    | (None, fs) => sys.ret (None, mkStore appState c fs)
    end.

(** *** [runWithRAWProcessing] after the collecting loop *)

(** The loops that copy files into a temporary directory; a failure is
    logged and the loop goes on. *)
Fixpoint copy_into (tempDir : string) (paths : list string) : sys.M unit :=
  match paths with
  | [] => sys.ret tt
  | jpgPath :: rest =>
      let destPath := filepath.Join [tempDir; filepath.Base jpgPath] in
      _ <- sys.copy jpgPath destPath;;
      copy_into tempDir rest
  end.

(** The loops that delete files; they return the number of files
    deleted. *)
Fixpoint remove_each (paths : list string) (count : Z) : sys.M Z :=
  match paths with
  | [] => sys.ret count
  | path :: rest =>
      err <- sys.os_Remove path;;
      match err with
      | Some _ => remove_each rest count
      | None => remove_each rest (count + 1)
      end
  end.

(** From "Cleanup processed files" to the end of the function. *)
Definition cleanup_and_save `{TimeJSON} (cfg : config.Config)
    (processedJPGs dngFilesToCleanup : list string) (st : store)
    : sys.M (option string * store) :=
  _ <- (if config.CleanupAfterUpload cfg && negb (config.SkipUpload cfg)
           && (0 <? length processedJPGs)%nat
        then remove_each processedJPGs 0 else sys.ret 0);;
  _ <- (if config.ConvertToDNG cfg && config.CleanupDNGFiles cfg
           && (0 <? length dngFilesToCleanup)%nat
        then remove_each dngFilesToCleanup 0 else sys.ret 0);;
  match state.Save (the_state st) (the_files st) with
  | (Some err, fs) =>
      sys.ret (Some ("failed to save state: " ++ err)%string,
               mkStore (the_state st) (the_clock st) fs)
  | (None, fs) => sys.ret (None, mkStore (the_state st) (the_clock st) fs)
  end.

(** From "Upload camera JPGs" to the end of the function. *)
Definition upload_camera_JPGs `{TimeJSON} (cfg : config.Config) (im : uploader.Immich)
    (processedJPGs cameraJPGs dngFilesToCleanup : list string) (st : store)
    : sys.M (option string * store) :=
  let rest := cleanup_and_save cfg processedJPGs dngFilesToCleanup st in
  if negb (config.SkipUpload cfg) && (0 <? length cameraJPGs)%nat
     && config.UploadCameraJPGs cfg then
    let tags := ["camera-original"] in
    made <- sys.os_MkdirTemp "" "camera-jpgs-*";;
    match made with
    | inr _ => rest
    | inl tempDir =>
        sys.defer (sys.os_RemoveAll tempDir)
          (_ <- copy_into tempDir cameraJPGs;;
           _ <- uploader.UploadFolder im tempDir tags false;;
           rest)
    end
  else rest.

(** [runWithRAWProcessing] from "Upload processed JPGs" to its end: the
    error it returns and what the program holds afterwards.  The deferred
    removals of the temporary directories run when the function
    returns, the last one first. *)
Definition upload_and_finish `{TimeJSON} (cfg : config.Config) (im : uploader.Immich)
    (profileName : string) (processedJPGs cameraJPGs dngFilesToCleanup : list string)
    (st : store) : sys.M (option string * store) :=
  let rest :=
    upload_camera_JPGs cfg im processedJPGs cameraJPGs dngFilesToCleanup st in
  if config.SkipUpload cfg then rest
  else if (0 <? length processedJPGs)%nat then
    let tags :=
      ((if config.TagWithProfileName cfg then ["profile:" +:+ profileName] else [])
       ++ ["processed"])%list in
    made <- sys.os_MkdirTemp "" "processed-jpgs-*";;
    match made with
    | inr _ => rest
    | inl tempDir =>
        sys.defer (sys.os_RemoveAll tempDir)
          (_ <- copy_into tempDir processedJPGs;;
           _ <- uploader.UploadFolder im tempDir tags false;;
           rest)
    end
  else rest.

(** *** The calls of [upload_and_finish], for stating what it does *)

(** What the final [Save] makes of the store, and the error the function
    returns with it. *)
Definition saved `{TimeJSON} (st : store) : option string * store :=
  match state.Save (the_state st) (the_files st) with
  | (Some err, fs) =>
      (Some ("failed to save state: " ++ err)%string,
       mkStore (the_state st) (the_clock st) fs)
  | (None, fs) => (None, mkStore (the_state st) (the_clock st) fs)
  end.

(** The removals of the two cleanup loops. *)
Definition removals (cfg : config.Config) (processedJPGs dngFilesToCleanup : list string)
    : list sys.call :=
  ((if config.CleanupAfterUpload cfg && negb (config.SkipUpload cfg)
    then sys.Remove <$> processedJPGs else [])
   ++ (if config.ConvertToDNG cfg && config.CleanupDNGFiles cfg
       then sys.Remove <$> dngFilesToCleanup else []))%list.

(** The calls of one batch upload, given what [os.MkdirTemp] has
    returned: those made at once, and the deferred one. *)
Definition batch_calls (config : uploader.ImmichConfig) (pattern : string)
    (tags : list string) (paths : list string) (made : string + string)
    : list sys.call * list sys.call :=
  match made with
  | inr _ => ([sys.MkdirTemp "" pattern], [])
  | inl tempDir =>
      ((sys.MkdirTemp "" pattern
        :: ((λ p, sys.CopyFile p (filepath.Join [tempDir; filepath.Base p])) <$> paths)
        ++ [sys.Run (uploader.ExecutablePath config)
              (uploader.upload_args config tempDir tags false)])%list,
       [sys.RemoveAll tempDir])
  end.

(** *** [runWithRAWProcessing] from the initialisation of the processors *)

(** The [DNGConverterConfig] and the [RawTherapeeConfig] that
    [runWithRAWProcessing] builds. *)
Definition dngConfig (cfg : config.Config) (dngOutputDir : string)
    : processor.DNGConverterConfig :=
  processor.mkDNGConverterConfig (config.DNGConverterPath cfg) dngOutputDir
    (config.DNGCompressed cfg) (config.DNGEmbedOriginal cfg).

Definition rtConfig (cfg : config.Config) : processor.RawTherapeeConfig :=
  processor.mkRawTherapeeConfig (config.RawTherapeeExecutable cfg)
    (config.PP3ProfilePath cfg) (config.OutputDirectory cfg) (config.JPEGQuality cfg).

(** [runWithRAWProcessing] from "Initialize DNG converter" to its end,
    that is, once there are new files and the run is no dry run.
    [deliver] gives the results in the order in which the collecting
    loop receives them from the workers that run with the two
    processors.  The temporary directory for the DNG files is removed
    when the function returns. *)
Definition process_and_upload `{TimeJSON} (cfg : config.Config) (im : uploader.Immich)
    (goos : processor_init.GOOS) (scanResult : scanner.ScanResult) (st : store)
    (deliver : option processor.DNGConverterConfig → processor.RawTherapeeConfig
               → list processResult)
    : sys.M (option string * store) :=
  let with_rawtherapee (dngConverter : option processor.DNGConverterConfig) :=
    made <- processor_init.NewRawTherapee goos (rtConfig cfg);;
    match made with
    | inr err => sys.ret (Some ("failed to initialize RawTherapee: " ++ err)%string, st)
    | inl rt =>
        let profileName := processor.GetProfileName rt in
        let final :=
          collect (settings cfg) scanResult profileName
            (mkCollected (the_state st) (the_clock st) 0 0 [] [] [])
            (deliver dngConverter rt) in
        upload_and_finish cfg im profileName (processedJPGs final) (cameraJPGs final)
          (dngFilesToCleanup final)
          (mkStore (appState final) (clock final) (the_files st))
    end in
  if config.ConvertToDNG cfg then
    let with_converter (dngOutputDir : string) :=
      made <- processor_init.NewDNGConverter goos (dngConfig cfg dngOutputDir);;
      match made with
      | inr err =>
          sys.ret (Some ("failed to initialize DNG Converter: " ++ err)%string, st)
      | inl dngConverter => with_rawtherapee (Some dngConverter)
      end in
    if String.eqb (config.DNGOutputDirectory cfg) "" then
      made <- sys.os_MkdirTemp "" "camera-to-immich-dng-*";;
      match made with
      | inr err =>
          sys.ret (Some ("failed to create temp directory for DNG files: "
                         ++ err)%string, st)
      | inl dngOutputDir =>
          sys.defer (sys.os_RemoveAll dngOutputDir) (with_converter dngOutputDir)
      end
    else
      made <- sys.os_MkdirAll (config.DNGOutputDirectory cfg);;
      match made with
      | Some err =>
          sys.ret (Some ("failed to create DNG output directory: " ++ err)%string, st)
      | None => with_converter (config.DNGOutputDirectory cfg)
      end
  else with_rawtherapee None.

End main.

(** ** Sample states, files and volumes *)

Module samples.

Definition state_path : string := "/Users/u/.camera-to-immich/state.json".

(** A state with two processed files, one of them without a profile. *)
Definition two_files : state.State :=
  state.mkState 2 "OM SYSTEM" 0
    (<["P1010002.ORF" := state.mkProcessedFile "P1010002.ORF" 0 ""]>
       {["P1010001.ORF" :=
           state.mkProcessedFile "P1010001.ORF" (1700000000 * 1000000000) "vivid"]})
    state_path.

(** The state of a first run, and of a run after [-clear-state]. *)
Definition fresh : state.State := state.mkState 2 "" time_zero ∅ state_path.

(** The document [Save] writes for [fresh]. *)
Definition fresh_document : json.value :=
  json.Obj [("version", json.Int 2);
            ("last_run", json.Str "0001-01-01T00:00:00Z");
            ("processed_files", json.Obj [])].

(** A file system without files on which no call fails. *)
Definition empty_disk : os.FS := os.mkFS ∅ (λ _, None) (λ _, None) (λ _, None).

Definition disk_with (c : os.content) : os.FS :=
  os.with_files empty_disk {[ state_path := c ]}.


(** A card with one RAW file in the usual place. *)
Definition card_with_DCIM : scanner.node :=
  scanner.Dir
    [("DCIM",
      scanner.Dir
        [("100OLYMP", scanner.Dir [("P1010001.ORF", scanner.File 100 0)])])].

Definition card_path : string := "/Volumes/OM SYSTEM".

Definition raw_file (name : string) : scanner.FileInfo :=
  scanner.mkFileInfo (card_path ++ "/DCIM/100OLYMP/" ++ name ++ ".ORF")
    (name ++ ".ORF") 100 0 true false name ".ORF".

(** A clock that ticks once per reading. *)
Definition ticking : Clock := mkClock (λ n, Z.of_nat n) 0.

(** A world in which every external program fails. *)
Definition failing_sys : processor.Sys :=
  processor.mkSys (λ _ _, ("", Some "exit status 1")) (λ _, processor.StatNotExist).

Definition rawtherapee : processor.RawTherapeeConfig :=
  processor.mkRawTherapeeConfig "rawtherapee-cli" "/Users/u/vivid.pp3" "/Users/u/out" 92.

Definition dng_converter : processor.DNGConverterConfig :=
  processor.mkDNGConverterConfig "Adobe DNG Converter" "/tmp/dng" false false.

(** A result for each of two files: the first conversion has failed, the
    second has succeeded. *)
Definition failed_A : main.processResult :=
  main.mkProcessResult 0 (raw_file "A") "" "" 5 (Some "rawtherapee-cli failed").

Definition converted_B : main.processResult :=
  main.mkProcessResult 1 (raw_file "B") "/Users/u/out/B.jpg" "" 7 None.

(** A camera JPG. *)
Definition jpg_file (name : string) : scanner.FileInfo :=
  scanner.mkFileInfo (card_path ++ "/DCIM/100OLYMP/" ++ name ++ ".JPG")
    (name ++ ".JPG") 50 0 false true name ".JPG".

(** A clock that stands at the epoch. *)
Definition epoch : Clock := mkClock (λ _, 0) 0.

(** A world in which every call succeeds, and one in which no command
    does. *)
Definition obliging : sys.World :=
  sys.mkWorld (λ _ _, processor.StatOk) (λ _ file, inl file)
    (λ _ _ _, inl "/tmp/immich-upload-1") (λ _ _, None) (λ _ _ _, None)
    (λ _ _ _, ("", None)) (λ _ _, None).

Definition offline : sys.World :=
  sys.mkWorld (λ _ _, processor.StatOk) (λ _ file, inl file)
    (λ _ _ _, inl "/tmp/immich-upload-1") (λ _ _, None) (λ _ _ _, None)
    (λ _ _ _, ("", Some "exit status 1")) (λ _ _, None).

Definition immich : uploader.ImmichConfig :=
  uploader.mkImmichConfig "immich-go" "https://photos.example" "key" "" [] false.

(** The default configuration with the server set, and the same with
    [-jpg-only -skip-upload] on the command line. *)
Definition configured : config.Config :=
  main.apply_overrides
    (main.mkFlags "" "/Users/u/vivid.pp3" "https://photos.example" "key" "" ""
       false false false false 0 0 false false false false false false false)
    (config.DefaultConfig "/Users/u").

Definition skipping : config.Config :=
  main.apply_overrides
    (main.mkFlags "" "" "" "" "" "" false true true false 0 0
       false false false false false false false)
    configured.

(** A system that converts every file. *)
Definition converting_sys : processor.Sys :=
  processor.mkSys (λ _ _, ("", None)) (λ _, processor.StatOk).

(** The pool of one worker after it has converted the one new file and
    the result has been received. *)
Definition pool_done : main.pool :=
  main.mkPool [] [] true [main.Exited] [] true
    [main.result_of
       (main.process_job None rawtherapee converting_sys epoch
          (main.mkJob 0 (raw_file "A")))].

(** UTF-16 code units of ASCII text, decoded. *)
Definition utf16 (units : list Z) : string :=
  string_of_list_ascii ((λ u, ascii_of_nat (Z.to_nat u)) <$> units).

End samples.

(** * Properties *)

(** The runs on concrete names use [caseless] where a statement has no
    [Unicode] in its context; a statement with one holds whatever the
    library's mapping is on the text above ASCII. *)
#[local] Existing Instance caseless.

(** ** The path and string functions on the inputs the program meets *)

Example Join_card_DCIM :
  filepath.Join ["/Volumes/OM SYSTEM"; "DCIM"] = "/Volumes/OM SYSTEM/DCIM".
Proof. reflexivity. Qed.

Example Join_skips_empty_directory : filepath.Join [""; "P1010001.jpg"] = "P1010001.jpg".
Proof. reflexivity. Qed.

Example Clean_elements : filepath.Clean "a//b/../c/./d/" = "a/c/d".
Proof. reflexivity. Qed.

Example Clean_keeps_leading_dotdot : filepath.Clean "../a/../.." = "../..".
Proof. reflexivity. Qed.

Example Clean_rooted_dotdot : filepath.Clean "/../a" = "/a".
Proof. reflexivity. Qed.

Example Ext_of_raw_file : filepath.Ext "/Volumes/OM SYSTEM/DCIM/100OLYMP/P1010001.orf" = ".orf".
Proof. reflexivity. Qed.

Example Ext_stops_at_separator : filepath.Ext "/a.b/c" = "".
Proof. reflexivity. Qed.

Example Base_of_raw_file : filepath.Base "/Volumes/OM SYSTEM/DCIM/100OLYMP/P1010001.ORF" = "P1010001.ORF".
Proof. reflexivity. Qed.

Example Dir_of_state_path : filepath.Dir samples.state_path = "/Users/u/.camera-to-immich".
Proof. reflexivity. Qed.

Example TrimSuffix_extension : go_strings.TrimSuffix "P1010001.ORF" ".ORF" = "P1010001".
Proof. reflexivity. Qed.

Example ToUpper_extension `{Unicode} : go_strings.ToUpper ".orf" = ".ORF".
Proof. reflexivity. Qed.

Example key_is_folds_case : json.key_is "processed_files" "Processed_Files" = true.
Proof. reflexivity. Qed.

(** The long s (U+017F) of a key folds onto [S], the Kelvin sign (U+212A)
    onto [K]; a letter that folds onto nothing in ASCII matches no field. *)
Example key_is_folds_long_s :
  json.key_is "version" ("ver" ++ String (ascii_of_nat 197) (String (ascii_of_nat 191) "ion"))
  = true.
Proof. reflexivity. Qed.

Example key_is_folds_kelvin :
  json.key_is "k"
    (String (ascii_of_nat 226) (String (ascii_of_nat 132) (String (ascii_of_nat 170) "")))
  = true.
Proof. reflexivity. Qed.

Example key_is_other_letter :
  json.key_is "version" ("versio" ++ String (ascii_of_nat 195) (String (ascii_of_nat 177) ""))
  = false.
Proof. reflexivity. Qed.

Example ToLower_label `{Unicode} : go_strings.ToLower "OM SYSTEM" = "om system".
Proof. reflexivity. Qed.

(** The messages of type mismatches: in a field of the root struct, in a
    field of a struct below it, for a number that is no [int], and for the
    document itself. *)
Example type_error_of_field :
  (@state.Unmarshal_State sample_times
     (os.Document (json.Obj [("version", json.Str "2")]))
     (state.mkStateFields 2 "" time_zero (Some ∅))).2
  = Some "json: cannot unmarshal string into Go struct field State.version of type int".
Proof. reflexivity. Qed.

Example type_error_of_nested_field :
  (@state.Unmarshal_State sample_times
     (os.Document (json.Obj [("processed_files",
        json.Obj [("P1010001.ORF", json.Obj [("filename", json.Int 1)])])]))
     (state.mkStateFields 2 "" time_zero (Some ∅))).2
  = Some ("json: cannot unmarshal number into Go struct field "
          ++ "ProcessedFile.processed_files.filename of type string").
Proof. reflexivity. Qed.

Example type_error_of_number :
  (@state.Unmarshal_State sample_times
     (os.Document (json.Obj [("version", json.Real "2.5")]))
     (state.mkStateFields 2 "" time_zero (Some ∅))).2
  = Some "json: cannot unmarshal number 2.5 into Go struct field State.version of type int".
Proof. reflexivity. Qed.

Example type_error_of_document :
  (@state.Unmarshal_State sample_times (os.Document (json.Arr []))
     (state.mkStateFields 2 "" time_zero (Some ∅))).2
  = Some "json: cannot unmarshal array into Go value of type state.State".
Proof. reflexivity. Qed.

(** ** The processed-state store in memory *)

Section sync.
Import state.
Implicit Types (m : gmap string ProcessedFile) (P : gmap string bool).

Lemma SyncWithCard_loop_lookup P keys m n k :
  (foldl (SyncWithCard_step P) (m, n) keys).1 !! k =
  if decide (k ∈ keys ∧ index_bool P k = false) then None else m !! k.
Proof.
  revert m n. induction keys as [|a keys IH]; intros m n; cbn [foldl].
  - destruct (decide _) as [[Hd _]|]; [|done]. by apply elem_of_nil in Hd.
  - unfold SyncWithCard_step at 2. cbn [fst snd].
    destruct (index_bool P a) eqn:Ha; cbn [negb]; rewrite IH.
    + destruct (decide (k ∈ keys ∧ _)) as [[H1 H2]|Hn];
        destruct (decide (k ∈ a :: keys ∧ _)) as [[H3 H4]|Hn']; try done.
      * exfalso. apply Hn'. split; [by right|done].
      * exfalso. apply elem_of_cons in H3 as [->|H3]; [congruence|tauto].
    + destruct (decide (k ∈ keys ∧ _)) as [[H1 H2]|Hn];
        destruct (decide (k ∈ a :: keys ∧ _)) as [[H3 H4]|Hn']; try done.
      * exfalso. apply Hn'. split; [by right|done].
      * apply elem_of_cons in H3 as [->|H3]; [by rewrite lookup_delete_eq|tauto].
      * rewrite lookup_delete_ne; [done|]. intros ->. apply Hn'. split; [by left|done].
Qed.

Lemma SyncWithCard_loop_count P keys m n :
  NoDup keys → (∀ k, k ∈ keys → is_Some (m !! k)) →
  let r := foldl (SyncWithCard_step P) (m, n) keys in
  r.2 - n = Z.of_nat (size m) - Z.of_nat (size r.1).
Proof.
  revert m n. induction keys as [|a keys IH]; intros m n Hnd Hin; cbn [foldl].
  - cbn. lia.
  - apply NoDup_cons in Hnd as [Hna Hnd].
    unfold SyncWithCard_step at 2 4. cbn [fst snd].
    destruct (index_bool P a) eqn:Ha; cbn [negb].
    + apply IH; [done|]. intros k Hk. apply Hin. by right.
    + specialize (IH (delete a m) (n + 1) Hnd). cbn zeta in IH.
      assert (is_Some (m !! a)) as Hsome by (apply Hin; by left).
      pose proof (map_size_delete_Some a m Hsome) as Hsz.
      destruct Hsome as [x Hx].
      assert (size m ≠ 0%nat) as Hpos.
      { intros Hz. apply map_size_empty_inv in Hz. subst m. by rewrite lookup_empty in Hx. }
      rewrite Hsz in IH.
      assert (∀ k, k ∈ keys → is_Some (delete a m !! k)) as Hin'.
      { intros k Hk. rewrite lookup_delete_ne; [apply Hin; by right|]. intros ->. done. }
      specialize (IH Hin'). lia.
Qed.

Lemma size_filter_complement {A} (Q : string * A → Prop) `{!∀ x, Decision (Q x)}
    (m : gmap string A) :
  size (filter (λ kv, ¬ Q kv) m) = (size m - size (filter Q m))%nat.
Proof.
  pose proof (map_size_disj_union _ _ (map_disjoint_filter_complement Q m)) as Hsz.
  rewrite map_filter_union_complement in Hsz. lia.
Qed.

Lemma keys_of_map {A : Type} (m : gmap string A) (k : string) :
  k ∈ (map_to_list m).*1 ↔ is_Some (m !! k).
Proof.
  rewrite list_elem_of_fmap. split.
  - intros [[k' v] [-> Hin]]. apply elem_of_map_to_list in Hin. eauto.
  - intros [v Hv]. exists (k, v). split; [done|]. by apply elem_of_map_to_list.
Qed.

(** After [SyncWithCard] an entry is there exactly when it was there
    before and its name is on the card. *)
Lemma SyncWithCard_lookup (s : State) (P : gmap string bool) (k : string) :
  ProcessedFiles (SyncWithCard s P).1 !! k
  = if index_bool P k then ProcessedFiles s !! k else None.
Proof.
  unfold SyncWithCard, SyncWithCard_loop. cbn [fst ProcessedFiles].
  rewrite SyncWithCard_loop_lookup.
  destruct (index_bool P k) eqn:Hk.
  - destruct (decide _) as [[_ ?]|]; [congruence|done].
  - destruct (decide _) as [|Hn]; [done|].
    destruct (ProcessedFiles s !! k) eqn:HM; [|done]. exfalso. apply Hn.
    split; [|done]. apply keys_of_map. eauto.
Qed.

Lemma SyncWithCard_filter (s : State) (P : gmap string bool) :
  ProcessedFiles (SyncWithCard s P).1
  = filter (λ kv, index_bool P kv.1 = true) (ProcessedFiles s).
Proof.
  apply map_eq. intros k. rewrite SyncWithCard_lookup, map_lookup_filter.
  destruct (ProcessedFiles s !! k) as [v|] eqn:HM; cbn.
  - destruct (index_bool P k) eqn:Hk.
    + by rewrite option_guard_True.
    + rewrite option_guard_False; [done|]. cbn. congruence.
  - by destruct (index_bool P k).
Qed.

(** C3.  [SyncWithCard] leaves in the processed mapping exactly the
    entries whose file name is on the card, each one as it was (time stamp
    and profile included), deletes every other entry, and returns the
    number of entries it has deleted; the other fields of the state are
    not touched. *)
Theorem SyncWithCard_removes_exactly_the_absent (s : State) (P : gmap string bool) :
  let s' := (SyncWithCard s P).1 in
  let removed := (SyncWithCard s P).2 in
  ProcessedFiles s' = filter (λ kv, index_bool P kv.1 = true) (ProcessedFiles s)
  ∧ (∀ f, index_bool P f = true → ProcessedFiles s' !! f = ProcessedFiles s !! f)
  ∧ (∀ f, index_bool P f = false → ProcessedFiles s' !! f = None)
  ∧ removed = Z.of_nat (size (filter (λ kv, ¬ index_bool P kv.1 = true) (ProcessedFiles s)))
  ∧ removed = Z.of_nat (size (ProcessedFiles s)) - Z.of_nat (size (ProcessedFiles s'))
  ∧ Version s' = Version s ∧ CardID s' = CardID s ∧ LastRun s' = LastRun s
  ∧ statePath s' = statePath s.
Proof.
  intros s' removed.
  pose proof (SyncWithCard_filter s P) as Hfilter.
  pose proof (SyncWithCard_lookup s P) as Hlook.
  assert (Hcount : removed
                   = Z.of_nat (size (ProcessedFiles s)) - Z.of_nat (size (ProcessedFiles s'))).
  { subst s' removed. unfold SyncWithCard, SyncWithCard_loop. cbn [fst snd ProcessedFiles].
    pose proof (SyncWithCard_loop_count P (map_to_list (ProcessedFiles s)).*1
                  (ProcessedFiles s) 0 (NoDup_fst_map_to_list _)
                  (λ k Hk, proj1 (keys_of_map _ k) Hk)) as Hc.
    cbn zeta in Hc. lia. }
  fold s' in Hfilter, Hlook.
  split_and!; try done.
  - intros f Hf. by rewrite Hlook, Hf.
  - intros f Hf. by rewrite Hlook, Hf.
  - rewrite Hcount, size_filter_complement, <- Hfilter.
    pose proof (map_size_filter (λ kv : string * ProcessedFile, index_bool P kv.1 = true)
                  (ProcessedFiles s)) as Hle.
    rewrite <- Hfilter in Hle. lia.
Qed.

(** The order in which the [range] statement yields the keys does not matter. *)
Lemma SyncWithCard_loop_any_order P (keys : list string) m :
  NoDup keys → (∀ k, k ∈ keys ↔ is_Some (m !! k)) →
  SyncWithCard_loop P keys m = SyncWithCard_loop P (map_to_list m).*1 m.
Proof.
  intros Hnd Hkeys.
  pose proof (keys_of_map m) as Hkeys'.
  unfold SyncWithCard_loop.
  pose proof (SyncWithCard_loop_count P keys m 0 Hnd (λ k Hk, proj1 (Hkeys k) Hk)) as H1.
  pose proof (SyncWithCard_loop_count P _ m 0 (NoDup_fst_map_to_list m)
                (λ k Hk, proj1 (Hkeys' k) Hk)) as H2.
  cbn zeta in H1, H2.
  assert (Heq : (foldl (SyncWithCard_step P) (m, 0) keys).1
                = (foldl (SyncWithCard_step P) (m, 0) (map_to_list m).*1).1).
  { apply map_eq. intros k. rewrite !SyncWithCard_loop_lookup.
    destruct (decide (k ∈ keys ∧ _)) as [[Ha Hb]|Hn];
      destruct (decide (k ∈ (map_to_list m).*1 ∧ _)) as [[Hc Hd]|Hn']; try done.
    - exfalso. apply Hn'. split; [|done]. apply Hkeys', Hkeys, Ha.
    - exfalso. apply Hn. split; [|done]. apply Hkeys, Hkeys', Hc. }
  destruct (foldl _ _ keys) as [m1 n1], (foldl _ _ (map_to_list m).*1) as [m2 n2].
  cbn in *. subst. f_equal. lia.
Qed.
End sync.

Section mark.
Import state.

Lemma filter_none {A} (Q : A → Prop) `{!∀ x, Decision (Q x)} (l : list A) :
  (∀ x, x ∈ l → ¬ Q x) → filter Q l = [].
Proof.
  induction l as [|a l IH]; intros Hall; [done|].
  rewrite filter_cons_False by (apply Hall; by left).
  apply IH. intros x Hx. apply Hall. by right.
Qed.

Lemma one_entry_per_key {A} (l : list (string * A)) (k : string) (v : A) :
  NoDup l.*1 → (k, v) ∈ l →
  length (filter (λ kv : string * A, kv.1 = k) l) = 1%nat.
Proof.
  induction l as [|[k' v'] l IH]; intros Hnd Hin.
  - by apply elem_of_nil in Hin.
  - cbn in Hnd. apply NoDup_cons in Hnd as [Hk' Hnd].
    apply elem_of_cons in Hin as [Heq|Hin].
    + inversion Heq; subst k' v'. rewrite filter_cons_True by done.
      rewrite filter_none; [done|].
      intros [k2 v2] Hx Hk2. cbn in Hk2. subst k2. apply Hk'.
      apply list_elem_of_fmap. by exists (k, v2).
    + rewrite filter_cons_False; [by apply IH|].
      cbn. intros ->. apply Hk'. apply list_elem_of_fmap. by exists (k, v).
Qed.

(** C5.  After [MarkProcessed] has been called twice for one file name,
    the processed mapping holds one entry for that name, with the time
    stamp read during the second call and the second call's profile; the
    second call adds no entry and no other entry changes; and each call
    sets [LastRun] to the clock reading it takes for it. *)
Theorem MarkProcessed_twice_keeps_one_entry (s : State)
    (filename profile1 profile2 out1 out2 : string) (c : Clock) :
  let r1 := MarkProcessed s filename profile1 out1 c in
  let r2 := MarkProcessed r1.1 filename profile2 out2 r1.2 in
  let n := ticks c in
  ProcessedFiles r2.1 !! filename
    = Some (mkProcessedFile filename (reading c (S (S n))) profile2)
  ∧ length (filter (λ kv : string * ProcessedFile, kv.1 = filename)
              (map_to_list (ProcessedFiles r2.1))) = 1%nat
  ∧ size (ProcessedFiles r2.1) = size (ProcessedFiles r1.1)
  ∧ dom (ProcessedFiles r2.1) = {[filename]} ∪ dom (ProcessedFiles s)
  ∧ (∀ g, g ≠ filename → ProcessedFiles r2.1 !! g = ProcessedFiles s !! g)
  ∧ ProcessedFiles r1.1 !! filename
    = Some (mkProcessedFile filename (reading c n) profile1)
  ∧ LastRun r1.1 = reading c (S n)
  ∧ LastRun r2.1 = reading c (S (S (S n)))
  ∧ ticks r1.2 = S (S n) ∧ ticks r2.2 = S (S (S (S n))).
Proof.
  intros r1 r2 n. subst r1 r2 n. unfold MarkProcessed, time_Now.
  cbn [fst snd ProcessedFiles LastRun ticks reading Version CardID statePath].
  split_and!.
  - by rewrite lookup_insert_eq.
  - eapply one_entry_per_key; [apply NoDup_fst_map_to_list|].
    apply elem_of_map_to_list. by rewrite lookup_insert_eq.
  - rewrite map_size_insert_Some; [done|]. rewrite lookup_insert_eq. eauto.
  - rewrite insert_insert_eq, dom_insert_L. done.
  - intros g Hg. by rewrite !lookup_insert_ne.
  - by rewrite lookup_insert_eq.
  - done.
  - done.
  - done.
  - done.
Qed.
End mark.

Section filtering.
Import state scanner main.

Lemma index_GetProcessedFilesMap (s : State) (name : string) :
  index_bool (GetProcessedFilesMap s) name = true ↔ is_Some (ProcessedFiles s !! name).
Proof.
  unfold index_bool, GetProcessedFilesMap. rewrite lookup_fmap.
  destruct (ProcessedFiles s !! name) as [pf|]; cbn; split; intros Hx;
    [by exists pf | done | done | by destruct Hx].
Qed.

Lemma FilterNewFiles_filter (files : list FileInfo) (processed : gmap string bool) :
  FilterNewFiles files processed
  = filter (λ f, index_bool processed (Name f) = false) files.
Proof.
  induction files as [|f files IH]; [done|]. cbn [FilterNewFiles].
  destruct (index_bool processed (Name f)) eqn:Hf; cbn [negb].
  - rewrite filter_cons_False by congruence. done.
  - rewrite filter_cons_True by done. by f_equal.
Qed.

Lemma FilterNewFiles_absent (s : State) (files : list FileInfo) :
  FilterNewFiles files (GetProcessedFilesMap s) = absent_files (ProcessedFiles s) files.
Proof.
  rewrite FilterNewFiles_filter. unfold absent_files. apply list_filter_iff.
  intros f. pose proof (index_GetProcessedFilesMap s (Name f)) as Hi.
  destruct Hi as [H1 H2].
  destruct (index_bool _ _), (ProcessedFiles s !! Name f) as [pf|];
    split; intros Hx; try done.
  - by destruct (H1 eq_refl).
  - by discriminate (H2 (ex_intro _ pf eq_refl)).
Qed.

(** Every file selected as new is a scanned file whose name the mapping
    does not hold. *)
Lemma newRAWFiles_are_absent (cfg : Config) (s : State) (scanResult : ScanResult)
    (f : FileInfo) :
  f ∈ newRAWFiles cfg s scanResult →
  f ∈ RAWFiles scanResult ∧ ProcessedFiles s !! Name f = None.
Proof.
  unfold newRAWFiles, select_new_files. rewrite FilterNewFiles_absent.
  set (new := absent_files (ProcessedFiles s) (RAWFiles scanResult)).
  assert (Hnew : ∀ g, g ∈ new → g ∈ RAWFiles scanResult ∧ ProcessedFiles s !! Name g = None).
  { intros g Hg. unfold new, absent_files in Hg.
    apply list_elem_of_filter in Hg. tauto. }
  destruct (length new =? 0)%nat; [by intros ?%elem_of_nil|].
  destruct ((Limit cfg >? 0) && _); destruct (DryRun cfg); intros Hf;
    try (by apply Hnew); by apply Hnew, (subseteq_take (Z.to_nat (Limit cfg))).
Qed.

Lemma make_jobs_files (files : list FileInfo) :
  jobRawFile <$> make_jobs files = files.
Proof.
  unfold make_jobs. rewrite fmap_imap. cbn.
  induction files as [|f files IH] using rev_ind; [done|].
  rewrite imap_app. cbn. by rewrite IH.
Qed.

(** C6.  The files submitted as new are the scanned RAW files whose name
    the processed mapping does not hold, in the order of the scan; when a
    positive limit smaller than their number is configured, they are the
    first [Limit] of them; with limit 1 and the new files [A; B; ...] only
    [A] is submitted.  Unless the run is a dry run, the jobs carry these
    files in this order. *)
Theorem new_files_are_the_absent_ones_in_order (cfg : Config) (s : State)
    (scanResult : ScanResult) :
  let new := absent_files (ProcessedFiles s) (RAWFiles scanResult) in
  let L := Limit cfg in
  (0 < L < Z.of_nat (length new) →
     newRAWFiles cfg s scanResult = take (Z.to_nat L) new)
  ∧ (¬ (0 < L < Z.of_nat (length new)) → newRAWFiles cfg s scanResult = new)
  ∧ (∀ f, f ∈ new ↔ f ∈ RAWFiles scanResult ∧ ProcessedFiles s !! Name f = None)
  ∧ new `sublist_of` RAWFiles scanResult
  ∧ (DryRun cfg = false →
     jobRawFile <$> submitted_jobs cfg s scanResult = newRAWFiles cfg s scanResult)
  ∧ (∀ A B rest, L = 1 → new = A :: B :: rest →
     newRAWFiles cfg s scanResult = [A]).
Proof.
  intros new L.
  assert (Hnew : ∀ limited,
            (if (L >? 0) && (Z.of_nat (length new) >? L)
             then take (Z.to_nat L) new else new) = limited →
            newRAWFiles cfg s scanResult = limited).
  { intros limited <-. unfold newRAWFiles, select_new_files.
    rewrite FilterNewFiles_absent. fold new L.
    destruct (length new =? 0)%nat eqn:E.
    - apply Nat.eqb_eq, length_zero_iff_nil in E. rewrite E.
      destruct ((L >? 0) && _); [by rewrite take_nil|done].
    - by destruct (DryRun cfg). }
  split_and!.
  - intros [H1 H2]. apply Hnew.
    rewrite (proj2 (Z.gtb_gt _ _)) by lia. by rewrite (proj2 (Z.gtb_gt _ _)) by lia.
  - intros Hn. apply Hnew. destruct (L >? 0) eqn:E1; [|done].
    destruct (Z.of_nat (length new) >? L) eqn:E2; [|done].
    exfalso. apply Hn. apply Z.gtb_gt in E1, E2. lia.
  - intros f. unfold new, absent_files. rewrite list_elem_of_filter. tauto.
  - apply sublist_filter.
  - intros Hdry. unfold submitted_jobs, newRAWFiles.
    destruct (select_new_files cfg s scanResult) as [|files|files] eqn:E.
    + done.
    + unfold select_new_files in E. rewrite Hdry in E.
      by destruct (length _ =? 0)%nat.
    + apply make_jobs_files.
  - intros A B rest HL Hnew'. apply Hnew. rewrite HL, Hnew'.
    replace (Z.of_nat (length (A :: B :: rest)) >? 1) with true
      by (symmetry; apply Z.gtb_gt; cbn [length]; lia).
    reflexivity.
Qed.
End filtering.

Section workers.
Import main.

Ltac Z_of_bool :=
  repeat match goal with
  | H : (_ >? _) = true |- _ => apply Z.gtb_gt in H
  | H : (_ >? _) = false |- _ => rewrite Z.gtb_ltb in H; apply Z.ltb_ge in H
  | H : (_ <? _) = true |- _ => apply Z.ltb_lt in H
  | H : (_ <? _) = false |- _ => apply Z.ltb_ge in H
  | H : (_ <=? _) = true |- _ => apply Z.leb_le in H
  | H : (_ <=? _) = false |- _ => apply Z.leb_gt in H
  end.

(** C7.  For a non-empty job list of length [N] and at least one CPU
    core, the number of workers is [max 1 (min w N)], where [w] is the
    configured count when it is positive and the core count capped at 4
    otherwise; that many workers are spawned; and a configured count that
    does not exceed [N] is used as it is, above 4 as well. *)
Theorem numWorkers_is_clamped (cfgWorkers numCPU : Z) (jobs : list job) :
  jobs ≠ [] → 1 ≤ numCPU →
  let N := Z.of_nat (length jobs) in
  let w := if 0 <? cfgWorkers then cfgWorkers else Z.min numCPU 4 in
  numWorkers cfgWorkers numCPU N = Z.max 1 (Z.min w N)
  ∧ length (spawned_workers (numWorkers cfgWorkers numCPU N))
    = Z.to_nat (Z.max 1 (Z.min w N))
  ∧ (0 < cfgWorkers ≤ N → numWorkers cfgWorkers numCPU N = cfgWorkers).
Proof.
  intros Hjobs Hcpu N w.
  assert (1 ≤ N) as HN.
  { subst N. destruct jobs; [done|]. cbn [length]. lia. }
  assert (Hnum : numWorkers cfgWorkers numCPU N = Z.max 1 (Z.min w N)).
  { subst w. unfold numWorkers, defaultMaxWorkers.
    destruct (0 <? cfgWorkers) eqn:E0; destruct (cfgWorkers <=? 0) eqn:E1;
      [ | destruct (cfgWorkers >? N) eqn:E2
        | destruct (numCPU >? 4) eqn:E3;
          [destruct (4 >? N) eqn:E2 | destruct (numCPU >? N) eqn:E2]
        | ];
      Z_of_bool; lia. }
  split_and!.
  - done.
  - rewrite Hnum. unfold spawned_workers. apply length_seqZ.
  - intros Hc. rewrite Hnum. subst w.
    rewrite (proj2 (Z.ltb_lt _ _)) by lia. lia.
Qed.
End workers.

Section conversion.
Import processor main.

Lemma Clean_nonempty (path : string) : filepath.Clean path ≠ "".
Proof.
  unfold filepath.Clean. destruct (String.eqb path ""); [done|].
  match goal with |- (if String.eqb ?r "" then _ else _) ≠ _ =>
    destruct (String.eqb r "") eqn:E; [done|by apply String.eqb_neq in E] end.
Qed.

Lemma Join_nonempty (dir file : string) : file ≠ "" → filepath.Join [dir; file] ≠ "".
Proof.
  intros Hf. cbn [filepath.Join].
  destruct (String.eqb dir ""); [|apply Clean_nonempty].
  destruct (String.eqb file "") eqn:E; [by apply String.eqb_eq in E|apply Clean_nonempty].
Qed.

Lemma append_nonempty (a b : string) : b ≠ "" → (a ++ b)%string ≠ "".
Proof. intros Hb. destruct a; [done|]. cbn. discriminate. Qed.

(** [ProcessFile] returns either an output path and no error, or an error
    and no path; it starts RawTherapee once. *)
Lemma ProcessFile_outcome (rt : RawTherapeeConfig) (sys : Sys) (inputPath : string) :
  let r := ProcessFile rt sys inputPath in
  ((r.1.2 = None ∧ r.1.1 ≠ "") ∨ (is_Some r.1.2 ∧ r.1.1 = ""))
  ∧ ∃ args, r.2 = [RunRawTherapee (ExecutablePath rt) args].
Proof.
  cbv zeta. unfold ProcessFile.
  destruct (CombinedOutput sys _ _) as [output [e|]]; cbn [fst snd].
  - split; [right; eauto|eauto].
  - destruct (Stat sys _); cbn [fst snd]; (split; [|eauto]).
    + left. split; [done|]. apply Join_nonempty, append_nonempty. done.
    + right. eauto.
    + left. split; [done|]. apply Join_nonempty, append_nonempty. done.
Qed.

Lemma ConvertFile_calls (dc : DNGConverterConfig) (sys : Sys) (inputPath : string) :
  ∃ args, (ConvertFile dc sys inputPath).2 = [RunDNGConverter (DNGExecutablePath dc) args].
Proof.
  unfold ConvertFile.
  destruct (CombinedOutput sys _ _) as [output [e|]]; cbn [snd]; [eauto|].
  destruct (Stat sys _); cbn [snd]; eauto.
  destruct (Stat sys _); cbn [snd]; eauto.
Qed.


(** C8.  The outcome a worker sends for a job has either no error and a
    non-empty output path, or an error and the empty output path, and
    which of the two is decided by the external calls.  When the DNG
    converter exits with an error, or leaves no DNG file, the outcome
    carries that error and no output path, and RawTherapee has not been
    started.  Otherwise RawTherapee is started once, on the RAW file or
    on the DNG file: when it exits with an error, or its output file
    does not exist afterwards, the outcome carries that error and no
    output path; when it exits without error and the file is there, the
    outcome carries the path of that file and no error. *)
Theorem worker_outcome_has_path_or_error
    (dngConverter : option DNGConverterConfig) (rt : RawTherapeeConfig)
    (sys : Sys) (c : Clock) (j : job) :
  let out := process_job dngConverter rt sys c j in
  let r := result_of out in
  let raw := scanner.Path (jobRawFile j) in
  let stem p := go_strings.TrimSuffix (filepath.Base p) (filepath.Ext p) in
  let jpeg p := filepath.Join [OutputDir rt; stem p ++ ".jpg"] in
  let rawtherapee p :=
    RunRawTherapee (ExecutablePath rt)
      (["-o"; jpeg p; "-j" +:+ pretty (Quality rt); "-Y"]
       ++ (if String.eqb (ProfilePath rt) "" then [] else ["-p"; ProfilePath rt])
       ++ ["-c"; p])%list in
  let run call :=
    match call with
    | RunRawTherapee exe args | RunDNGConverter exe args => CombinedOutput sys exe args
    end in
  (* what the RawTherapee step makes of the input [p], after the calls [before] *)
  let rawtherapee_step before p :=
    calls_of out = (before ++ [rawtherapee p])%list
    ∧ (∀ output e, run (rawtherapee p) = (output, Some e) →
         err r = Some ("rawtherapee-cli failed: " ++ e ++ newline
                       ++ "Output: " ++ output)%string
         ∧ outputPath r = "")
    ∧ (∀ output, run (rawtherapee p) = (output, None) →
         Stat sys (jpeg p) = StatNotExist →
         err r = Some ("output file was not created: " ++ jpeg p)%string
         ∧ outputPath r = "")
    ∧ (∀ output, run (rawtherapee p) = (output, None) →
         Stat sys (jpeg p) ≠ StatNotExist →
         err r = None ∧ outputPath r = jpeg p ∧ outputPath r ≠ "") in
  ((err r = None ∧ outputPath r ≠ "") ∨ (is_Some (err r) ∧ outputPath r = ""))
  ∧ (dngConverter = None → rawtherapee_step [] raw ∧ dngPath r = "")
  ∧ (∀ dc, dngConverter = Some dc →
       let dng := filepath.Join [DNGOutputDir dc; stem raw ++ ".dng"] in
       let alternate := filepath.Join [DNGOutputDir dc; stem raw ++ ".DNG"] in
       let converter :=
         RunDNGConverter (DNGExecutablePath dc)
           (["-c"; "-d"; DNGOutputDir dc; "-o"; stem raw +:+ ".dng"]
            ++ (if Compressed dc then ["-lossy"] else [])
            ++ (if EmbedOriginal dc then ["-e"] else [])
            ++ [raw])%list in
       (∀ output e, run converter = (output, Some e) →
          err r = Some ("DNG conversion failed: " ++ "Adobe DNG Converter failed: "
                        ++ e ++ newline ++ "Output: " ++ output)%string
          ∧ outputPath r = "" ∧ calls_of out = [converter])
       ∧ (∀ output, run converter = (output, None) →
            Stat sys dng = StatNotExist → Stat sys alternate ≠ StatOk →
            err r = Some ("DNG conversion failed: "
                          ++ "DNG output file was not created: " ++ dng ++ newline
                          ++ "Command output: " ++ output)%string
            ∧ outputPath r = "" ∧ calls_of out = [converter])
       ∧ (∀ output, run converter = (output, None) →
            Stat sys dng ≠ StatNotExist →
            rawtherapee_step [converter] dng ∧ dngPath r = dng)
       ∧ (∀ output, run converter = (output, None) →
            Stat sys dng = StatNotExist → Stat sys alternate = StatOk →
            rawtherapee_step [converter] alternate ∧ dngPath r = alternate))
  ∧ index r = jobIndex j ∧ rawFile r = jobRawFile j.
Proof.
  assert (Hjpeg : ∀ p,
            filepath.Join
              [OutputDir rt;
               go_strings.TrimSuffix (filepath.Base p) (filepath.Ext p) ++ ".jpg"] ≠ "").
  { intros p. apply Join_nonempty, append_nonempty. done. }
  cbv zeta. cbv beta iota. unfold process_job, result_of, calls_of, time_Now.
  destruct dngConverter as [dc|].
  - unfold ConvertFile. cbv zeta.
    destruct (CombinedOutput sys (DNGExecutablePath dc) _) as [output1 [e1|]] eqn:Hdng.
    { cbn [fst snd err outputPath dngPath index rawFile].
      split_and!; [right; eauto|done| |done|done].
      intros dc' [= <-]. rewrite Hdng.
      split_and!; intros; simplify_eq; done. }
    destruct (Stat sys (filepath.Join [DNGOutputDir dc; _ ++ ".dng"])) eqn:Hst1;
      [|destruct (Stat sys (filepath.Join [DNGOutputDir dc; _ ++ ".DNG"])) eqn:Hst2|].
    all: cbn [fst snd].
    all: try (unfold ProcessFile; cbv zeta;
              destruct (CombinedOutput sys (ExecutablePath rt) _) as [output2 [e2|]] eqn:Hrt;
              [|destruct (Stat sys (filepath.Join [OutputDir rt; _])) eqn:Hst3]).
    all: cbn [fst snd err outputPath dngPath index rawFile].
    all: (split_and!; [first [left; split; [done|apply Hjpeg]|right; eauto]
                      |done| |done|done]).
    all: intros dc' [= <-]; rewrite ?Hdng, ?Hst1, ?Hst2.
    all: split_and!; intros; simplify_eq; try done; try congruence.
    all: try (rewrite ?Hrt, ?Hst3; split_and!; intros; simplify_eq; try done; try congruence).
    all: try (split_and!; [done|done|apply Hjpeg]).
  - unfold ProcessFile. cbv zeta.
    destruct (CombinedOutput sys (ExecutablePath rt) _) as [output2 [e2|]] eqn:Hrt;
      [|destruct (Stat sys (filepath.Join [OutputDir rt; _])) eqn:Hst3].
    all: cbn [fst snd err outputPath dngPath index rawFile].
    all: (split_and!; [first [left; split; [done|apply Hjpeg]|right; eauto]
                      | |done|done|done]).
    all: intros _; rewrite ?Hrt, ?Hst3; split_and!; intros; simplify_eq; try done;
         try congruence.
    all: try (split_and!; [done|done|apply Hjpeg]).
Qed.
End conversion.

Section collecting.
Import state scanner main.

Lemma collect_step_failed (cfg : Config) (scanResult : ScanResult)
    (profileName : string) (acc : collected) (r : processResult) :
  is_Some (err r) →
  appState (collect_step cfg scanResult profileName acc r) = appState acc
  ∧ clock (collect_step cfg scanResult profileName acc r) = clock acc.
Proof. intros [e He]. unfold collect_step. rewrite He. done. Qed.

Lemma collect_step_succeeded (cfg : Config) (scanResult : ScanResult)
    (profileName : string) (acc : collected) (r : processResult) :
  err r = None →
  appState (collect_step cfg scanResult profileName acc r)
  = (MarkProcessed (appState acc) (Name (rawFile r)) profileName (outputPath r)
       (clock acc)).1.
Proof. intros He. unfold collect_step. rewrite He. done. Qed.

Lemma collect_lookup (cfg : Config) (scanResult : ScanResult)
    (profileName : string) (results : list processResult) (acc : collected)
    (name : string) :
  is_Some (ProcessedFiles (appState (collect cfg scanResult profileName acc results)) !! name)
  ↔ is_Some (ProcessedFiles (appState acc) !! name)
    ∨ ∃ r, r ∈ results ∧ err r = None ∧ Name (rawFile r) = name.
Proof.
  unfold collect. revert acc.
  induction results as [|r results IH]; intros acc; cbn [foldl].
  - split; [by left|]. intros [H|(r & Hr & _)]; [done|]. by apply elem_of_nil in Hr.
  - rewrite IH. destruct (err r) as [e|] eqn:He.
    + destruct (collect_step_failed cfg scanResult profileName acc r) as [-> _]; [eauto|].
      split.
      * intros [H|(r' & Hr' & H1 & H2)]; [by left|].
        right. exists r'. split_and!; [by right|done|done].
      * intros [H|(r' & Hr' & H1 & H2)]; [by left|].
        apply elem_of_cons in Hr' as [->|Hr']; [congruence|].
        right. exists r'. done.
    + rewrite (collect_step_succeeded _ _ _ _ _ He).
      unfold MarkProcessed, time_Now. cbn [fst ProcessedFiles].
      split.
      * intros [H|(r' & Hr' & H1 & H2)].
        -- destruct (decide (Name (rawFile r) = name)) as [Heq|Hne].
           ++ right. exists r. split_and!; [by left|done|done].
           ++ left. by rewrite lookup_insert_ne in H.
        -- right. exists r'. split_and!; [by right|done|done].
      * intros [H|(r' & Hr' & H1 & H2)].
        -- destruct (decide (Name (rawFile r) = name)) as [Heq|Hne].
           ++ left. rewrite Heq, lookup_insert_eq. eauto.
           ++ left. by rewrite lookup_insert_ne.
        -- apply elem_of_cons in Hr' as [->|Hr'].
           ++ left. rewrite H2, lookup_insert_eq. eauto.
           ++ right. exists r'. done.
Qed.


End collecting.

(** ** The persisted document *)

Section round_trip.
Import state.
Context `{TimeJSON}.

Lemma into_time_marshal (t cur : Time) (ts : string) :
  reads_back → time_MarshalJSON t = Some ts →
  json.into_time cur (json.Str ts) = (reparse t, json.Good).
Proof.
  intros Hrb Hts. unfold json.into_time, reparse. rewrite Hts. cbn.
  destruct (Hrb t ts Hts) as [t' ->]. done.
Qed.

Lemma into_ProcessedFile_marshal (pf : ProcessedFile) (v : json.value) :
  reads_back → marshal_ProcessedFile pf = Some v →
  into_ProcessedFile zero_ProcessedFile v = (reloaded pf, json.Good).
Proof.
  intros Hrb. unfold marshal_ProcessedFile.
  destruct (time_MarshalJSON (ProcessedAt pf)) as [ts|] eqn:Hts; [|done].
  cbn. intros [= <-]. unfold into_ProcessedFile.
  cbn [json.object_into app].
  change (ProcessedFile_field "filename") with
    (Some (λ (pf : ProcessedFile) (v : json.value),
             let '(x, st) := json.into_string (Filename pf) v in
             (mkProcessedFile x (ProcessedAt pf) (ProfileUsed pf),
              json.in_field "ProcessedFile" "filename" st))).
  cbn [json.into_string zero_ProcessedFile Filename ProcessedAt ProfileUsed].
  change (ProcessedFile_field "processed_at") with
    (Some (λ (pf : ProcessedFile) (v : json.value),
             let '(x, st) := json.into_time (ProcessedAt pf) v in
             (mkProcessedFile (Filename pf) x (ProfileUsed pf),
              json.in_field "ProcessedFile" "processed_at" st))).
  cbn [Filename ProcessedAt ProfileUsed].
  rewrite (into_time_marshal _ _ _ Hrb Hts).
  unfold reloaded.
  destruct (String.eqb (ProfileUsed pf) "") eqn:Hp.
  - apply String.eqb_eq in Hp. rewrite Hp. reflexivity.
  - cbn [json.object_into].
    change (ProcessedFile_field "profile_used") with
      (Some (λ (pf : ProcessedFile) (v : json.value),
               let '(x, st) := json.into_string (ProfileUsed pf) v in
               (mkProcessedFile (Filename pf) (ProcessedAt pf) x,
                json.in_field "ProcessedFile" "profile_used" st))).
    reflexivity.
Qed.

Lemma map_members_marshal (l : list (string * ProcessedFile))
    (members : list (string * json.value)) (m0 : gmap string ProcessedFile) :
  reads_back →
  Forall2 (λ (kv : string * ProcessedFile) (kj : string * json.value),
             (v ← marshal_ProcessedFile kv.2; Some (kv.1, v)) = Some kj) l members →
  map_members members m0
  = (foldl (λ m (kv : string * ProcessedFile), <[kv.1 := reloaded kv.2]> m) m0 l,
     json.Good).
Proof.
  intros Hrb Hall. revert m0.
  induction Hall as [|[k pf] [k' v] l members Hhd Htl IH]; intros m0; [done|].
  cbn in Hhd. destruct (marshal_ProcessedFile pf) as [v'|] eqn:Hm; [|done].
  cbn in Hhd. injection Hhd as <- <-.
  cbn [map_members foldl fst snd].
  rewrite (into_ProcessedFile_marshal pf v' Hrb Hm), IH. done.
Qed.

Lemma foldl_insert_lookup {A B : Type} (f : A → B) (l : list (string * A))
    (m0 : gmap string B) (k : string) :
  NoDup l.*1 →
  foldl (λ m (kv : string * A), <[kv.1 := f kv.2]> m) m0 l !! k
  = match list_to_map (M := gmap string A) l !! k with
    | Some a => Some (f a)
    | None => m0 !! k
    end.
Proof.
  revert m0. induction l as [|[k' a] l IH]; intros m0 Hnd.
  - cbn. by rewrite lookup_empty.
  - cbn in Hnd. apply NoDup_cons in Hnd as [Hk' Hnd].
    rewrite list_to_map_cons. cbn [foldl fst snd]. rewrite IH by done.
    destruct (decide (k = k')) as [->|Hne].
    + rewrite (not_elem_of_list_to_map_1 (M := gmap string) l k') by done.
      rewrite !lookup_insert_eq. reflexivity.
    + rewrite (lookup_insert_ne (list_to_map l)) by done.
      destruct (list_to_map l !! k); [done|]. by rewrite lookup_insert_ne.
Qed.

Lemma sorted_entries `{!RelDecision key_le} (m : gmap string ProcessedFile) :
  NoDup (merge_sort key_le (map_to_list m)).*1
  ∧ list_to_map (merge_sort key_le (map_to_list m)) = m.
Proof.
  pose proof (merge_sort_Permutation key_le (map_to_list m)) as Hp.
  assert (Hnd : NoDup (merge_sort key_le (map_to_list m)).*1).
  { rewrite Hp. apply NoDup_fst_map_to_list. }
  split; [done|].
  rewrite <- (list_to_map_to_list m) at 2.
  apply list_to_map_proper; [done|]. done.
Qed.

Lemma into_ProcessedFiles_marshal (m : gmap string ProcessedFile)
    (v : json.value) (cur : option (gmap string ProcessedFile)) :
  reads_back → marshal_ProcessedFiles m = Some v → default ∅ cur = ∅ →
  into_ProcessedFiles cur v = (Some (reloaded <$> m), json.Good).
Proof.
  intros Hrb Hm Hcur. unfold marshal_ProcessedFiles in Hm.
  destruct (mapM _ _) as [members|] eqn:Hmembers; [|done].
  cbn in Hm. injection Hm as <-.
  apply mapM_Some_1 in Hmembers.
  unfold into_ProcessedFiles. rewrite Hcur.
  rewrite (map_members_marshal _ _ _ Hrb Hmembers).
  f_equal. f_equal. apply map_eq. intros k.
  destruct (@sorted_entries key_le_dec m) as [Hnd Hmap].
  rewrite foldl_insert_lookup by done. rewrite Hmap, lookup_fmap, lookup_empty.
  by destruct (m !! k).
Qed.

Lemma object_into_step {A : Type}
    (field : string → option (A → json.value → A * json.status))
    (dec : A → json.value → A * json.status)
    (k : string) (v : json.value) (rest : list (string * json.value)) (a a' : A) :
  field k = Some dec → dec a v = (a', json.Good) →
  json.object_into field ((k, v) :: rest) a = json.object_into field rest a'.
Proof.
  intros Hf Hd. cbn [json.object_into]. rewrite Hf, Hd.
  destruct (json.object_into field rest a') as [a'' st']. done.
Qed.

Lemma Unmarshal_State_marshal (s : State) (doc : json.value) :
  reads_back → json.is_int64 (Version s) = true → marshal_State s = Some doc →
  Unmarshal_State (os.Document doc) (mkStateFields 2 "" time_zero (Some ∅))
  = (mkStateFields (Version s) (CardID s) (reparse (LastRun s))
       (Some (reloaded <$> ProcessedFiles s)), None).
Proof.
  intros Hrb Hv. unfold marshal_State.
  destruct (time_MarshalJSON (LastRun s)) as [ts|] eqn:Hts; [|done]. cbn.
  destruct (marshal_ProcessedFiles (ProcessedFiles s)) as [pfs|] eqn:Hpfs; [|done].
  cbn. intros [= <-]. unfold Unmarshal_State.
  assert (Hrest : ∀ card,
    json.object_into State_field
      [("last_run", json.Str ts); ("processed_files", pfs)]
      (mkStateFields (Version s) card time_zero (Some ∅))
    = (mkStateFields (Version s) card (reparse (LastRun s))
         (Some (reloaded <$> ProcessedFiles s)), json.Good)).
  { intros card.
    erewrite object_into_step; [|reflexivity|]; cycle 1.
    { cbn [fVersion fCardID fLastRun fProcessedFiles].
      rewrite (into_time_marshal _ _ _ Hrb Hts). reflexivity. }
    erewrite object_into_step; [|reflexivity|]; cycle 1.
    { cbn [fVersion fCardID fLastRun fProcessedFiles].
      rewrite (into_ProcessedFiles_marshal _ _ _ Hrb Hpfs) by done. reflexivity. }
    reflexivity. }
  cbn [app].
  erewrite object_into_step; [|reflexivity|]; cycle 1.
  { cbn [json.into_int fVersion fCardID fLastRun fProcessedFiles]. rewrite Hv.
    reflexivity. }
  destruct (String.eqb (CardID s) "") eqn:Hc.
  - apply String.eqb_eq in Hc. rewrite Hc. cbn [app]. rewrite Hrest. done.
  - cbn [app].
    erewrite object_into_step; [|reflexivity|]; cycle 1.
    { cbn [json.into_string fVersion fCardID fLastRun fProcessedFiles]. reflexivity. }
    rewrite Hrest. done.
Qed.

(** What [Load] returns for the file [Save] has just written. *)
Lemma Load_after_Save (s : State) (fs fs' : os.FS) :
  reads_back → json.is_int64 (Version s) = true →
  Save s fs = (None, fs') →
  os.mkdir_err fs' (filepath.Dir (statePath s)) = None →
  os.read_err fs' (statePath s) = None →
  Load (statePath s) fs'
  = (inl (mkState (Version s) (CardID s) (reparse (LastRun s))
            (reloaded <$> ProcessedFiles s) (statePath s)), fs').
Proof.
  intros Hrb Hv Hsave Hmk Hrd. unfold Save in Hsave.
  destruct (marshal_State s) as [doc|] eqn:Hdoc; [|done].
  unfold os.WriteFile in Hsave.
  destruct (os.write_err fs (statePath s)) as [[e|e partly|e]|]; [done..|].
  injection Hsave as <-.
  unfold Load. rewrite Hmk. unfold os.ReadFile. rewrite Hrd.
  cbn [os.files os.with_files os.run_ops os.WriteFile_ops foldl os.apply_op].
  rewrite lookup_insert_eq.
  rewrite (Unmarshal_State_marshal s doc Hrb Hv Hdoc). done.
Qed.

Lemma object_into_skip {A : Type}
    (field : string → option (A → json.value → A * json.status))
    (k : string) (v : json.value) (rest : list (string * json.value)) (a : A) :
  field k = None →
  json.object_into field ((k, v) :: rest) a = json.object_into field rest a.
Proof. intros Hf. cbn [json.object_into]. by rewrite Hf. Qed.





Lemma then_status_Good (a b : json.status) :
  json.then_status a b = json.Good ↔ a = json.Good ∧ b = json.Good.
Proof. destruct a, b; cbn; split; (intros [? ?] || intros ?); done. Qed.

Lemma status_error_None (st : json.status) :
  json.status_error st = None ↔ st = json.Good.
Proof. by destruct st. Qed.

Lemma in_field_Good (struct name : string) (st : json.status) :
  json.in_field struct name st = json.Good ↔ st = json.Good.
Proof. by destruct st. Qed.







End round_trip.

(** The sample codec reads back what it writes. *)
Lemma sample_times_reads_back : @state.reads_back sample_times.
Proof.
  intros t ts. unfold time_MarshalJSON, time_UnmarshalJSON, sample_times.
  destruct (t =? time_zero); [intros [= <-]; by eexists|].
  destruct (t =? 0); [intros [= <-]; by eexists|].
  destruct (t =? _); [intros [= <-]; by eexists|done].
Qed.


Section clearing.
Import state main.
Context `{TimeJSON}.

Lemma into_int_int64 (cur : Z) (v : json.value) :
  json.is_int64 cur = true → json.is_int64 (json.into_int cur v).1 = true.
Proof.
  intros Hc. destruct v; cbn; try done.
  destruct (json.is_int64 z) eqn:Hz; done.
Qed.

Lemma State_field_version (k : string) (a : StateFields) (v : json.value)
    (dec : StateFields → json.value → StateFields * json.status) :
  State_field k = Some dec → json.is_int64 (fVersion a) = true →
  json.is_int64 (fVersion (dec a v).1) = true.
Proof.
  unfold State_field. intros Hf Ha.
  repeat (destruct (json.key_is _ k); [injection Hf as <- | ]); try done.
  - pose proof (into_int_int64 (fVersion a) v Ha).
    by destruct (json.into_int (fVersion a) v).
  - by destruct (json.into_string (fCardID a) v).
  - by destruct (json.into_time (fLastRun a) v).
  - by destruct (into_ProcessedFiles (fProcessedFiles a) v).
Qed.

Lemma object_into_version (members : list (string * json.value)) (a : StateFields) :
  json.is_int64 (fVersion a) = true →
  json.is_int64 (fVersion (json.object_into State_field members a).1) = true.
Proof.
  revert a. induction members as [|[k v] members IH]; intros a Ha; [done|].
  cbn [json.object_into].
  destruct (State_field k) as [dec|] eqn:Hf; [|by apply IH].
  pose proof (State_field_version k a v dec Hf Ha) as Hd.
  destruct (dec a v) as [a' st]. cbn [fst] in Hd.
  destruct st; try done.
  - specialize (IH a' Hd). by destruct (json.object_into State_field members a').
  - specialize (IH a' Hd). by destruct (json.object_into State_field members a').
Qed.

Lemma Unmarshal_State_version (data : os.content) (cur : StateFields) :
  json.is_int64 (fVersion cur) = true →
  json.is_int64 (fVersion (Unmarshal_State data cur).1) = true.
Proof.
  intros Hc. destruct data as [j| |]; try done. destruct j; try done.
  cbn [Unmarshal_State]. pose proof (object_into_version members cur Hc).
  by destruct (json.object_into State_field members cur).
Qed.

(** A loaded state holds a 64-bit version and the path it was loaded from. *)
Lemma Load_well_formed (path : string) (fs fs' : os.FS) (s : State) :
  Load path fs = (inl s, fs') →
  json.is_int64 (Version s) = true ∧ statePath s = path.
Proof.
  unfold Load. destruct (os.mkdir_err fs _); [done|].
  destruct (os.ReadFile fs path) as [|e|data]; [by intros [= <- _]|done|].
  pose proof (Unmarshal_State_version data (mkStateFields 2 "" time_zero (Some ∅)) eq_refl)
    as Hv.
  destruct (Unmarshal_State data _) as [state' [e|]]; cbn [fst] in Hv.
  - destruct (Unmarshal_LegacyState data zero_LegacyState) as [legacy [e'|]]; [done|].
    by intros [= <- _].
  - by intros [= <- _].
Qed.

Lemma stats_lines_no_last_run (path : string) (stats : Stats) (t : Time) :
  time_IsZero (StatsLastRun stats) = true → LastRunLine t ∉ stats_lines path stats.
Proof.
  intros Hz Hin. unfold stats_lines in Hin. rewrite Hz in Hin. cbn [negb] in Hin.
  rewrite !elem_of_app in Hin. destruct Hin as [Hin|[Hin|[Hin|Hin]]].
  - apply elem_of_cons in Hin as [|Hin]; [done|].
    apply elem_of_cons in Hin as [|Hin]; [done|]. by apply elem_of_nil in Hin.
  - destruct (FileSizeBytes stats >? 0); [|by apply elem_of_nil in Hin].
    apply elem_of_cons in Hin as [|Hin]; [done|]. by apply elem_of_nil in Hin.
  - by apply elem_of_nil in Hin.
  - destruct (negb _); [|by apply elem_of_nil in Hin].
    apply elem_of_cons in Hin as [|Hin]; [done|]. by apply elem_of_nil in Hin.
Qed.

(** C10, amended.  [Clear] returns the number of entries the mapping
    held, empties the mapping, drops the card identifier and resets
    [LastRun] to the zero time; it leaves the format version and the path
    of the state file as they were.  The state information printed for the
    cleared state has no last-run line, and neither has the one printed,
    with a codec that reads back what it writes and the zero time as the
    zero time, from the file that [clearStateFile] has saved. *)
Theorem Clear_keeps_version_and_path (s : State) (size_of : string → option Z) :
  (Clear s).2 = Z.of_nat (size (ProcessedFiles s))
  ∧ ProcessedFiles (Clear s).1 = ∅
  ∧ CardID (Clear s).1 = ""
  ∧ LastRun (Clear s).1 = time_zero
  ∧ Version (Clear s).1 = Version s
  ∧ statePath (Clear s).1 = statePath s
  ∧ (∀ t, LastRunLine t ∉ stats_lines (statePath s) (GetStats (Clear s).1 size_of))
  ∧ (reads_back → reads_zero_back →
     ∀ (path : string) (fs fs' : os.FS) (n : Z),
       clearStateFile path fs = (inl n, fs') →
       os.mkdir_err fs' (filepath.Dir path) = None →
       os.read_err fs' path = None →
       ∃ lines, showStateInfo path fs' size_of = inl lines
         ∧ TrackedLine 0 ∈ lines
         ∧ ∀ t, LastRunLine t ∉ lines).
Proof.
  split_and!; try done.
  - intros t. by apply stats_lines_no_last_run.
  - intros Hrb Hzero path fs fs' n Hclear Hmk Hrd.
    unfold clearStateFile in Hclear.
    destruct (Load path fs) as [[appState|e] fs1] eqn:Hload; [|done].
    destruct (Load_well_formed _ _ _ _ Hload) as [Hv Hpath].
    cbn [Clear] in Hclear.
    set (cleared := mkState (Version appState) "" time_zero ∅ (statePath appState)) in *.
    destruct (Save cleared fs1) as [[e|] fs2] eqn:Hsave; [done|].
    injection Hclear as _ <-.
    assert (Hre : reparse time_zero = time_zero).
    { unfold reparse. unfold Save in Hsave.
      destruct (marshal_State cleared) as [doc|] eqn:Hdoc; [|done].
      unfold marshal_State in Hdoc. cbn [LastRun cleared] in Hdoc.
      destruct (time_MarshalJSON time_zero) as [ts|] eqn:Hts; [|done].
      cbn. by rewrite (Hzero ts Hts). }
    pose proof (Load_after_Save cleared fs1 fs2 Hrb Hv Hsave) as Hl.
    cbn [statePath cleared Version CardID LastRun ProcessedFiles] in Hl.
    rewrite Hpath, Hre, fmap_empty in Hl. specialize (Hl Hmk Hrd).
    unfold showStateInfo. rewrite Hl. cbn [fst].
    eexists. split; [reflexivity|]. split.
    + unfold stats_lines, GetStats. cbn [ProcessedCount ProcessedFiles].
      rewrite map_size_empty. apply elem_of_app. left.
      apply elem_of_cons. right. by left.
    + intros t. by apply stats_lines_no_last_run.
Qed.
End clearing.

(** C10 as stated fails: were the path the only field [Clear] leaves
    unchanged, the cleared state would depend on the path alone; the
    version survives as well. *)
Lemma Clear_forgets_all_but_the_path_counterexample :
  ¬ (∀ s1 s2 : state.State,
       state.statePath s1 = state.statePath s2 →
       (state.Clear s1).1 = (state.Clear s2).1).
Proof.
  intros Hall.
  specialize (Hall (state.mkState 1 "" time_zero ∅ "state.json")
                   (state.mkState 2 "" time_zero ∅ "state.json") eq_refl).
  discriminate Hall.
Qed.

(** ** Saving and scanning *)

Section saving.
Import state.
Context `{TimeJSON}.

Lemma Save_ops_marshal (s : State) (doc : json.value) :
  marshal_State s = Some doc →
  Save_ops s = [os.OpenTrunc (statePath s); os.WriteAll (statePath s) doc].
Proof. intros Hdoc. unfold Save_ops. by rewrite Hdoc. Qed.

(** Truncating a file that holds a document loses it at once: a crash
    right after shows neither the old text nor the new one. *)
Lemma WriteFile_ops_not_crash_safe (path : string) (old new : json.value)
    (m : gmap string os.content) :
  m !! path = Some (os.Document old) →
  ¬ os.crash_safe path (os.WriteFile_ops path new) m.
Proof.
  intros Hold Hsafe.
  destruct (Hsafe (<[path := os.Empty]> m)) as [Hx|Hx].
  - cbn. apply elem_of_cons. right. apply elem_of_cons. by left.
  - rewrite lookup_insert_eq, Hold in Hx. done.
  - cbn in Hx. rewrite !lookup_insert_eq in Hx. done.
Qed.

Lemma Unmarshal_State_not_JSON (c : os.content) (cur : StateFields) :
  c = os.Empty ∨ (∃ j, c = os.Partial j) →
  Unmarshal_State c cur = (cur, Some syntax_error).
Proof. intros [->|[j ->]]; done. Qed.

Lemma Unmarshal_LegacyState_not_JSON (c : os.content) (cur : LegacyState) :
  c = os.Empty ∨ (∃ j, c = os.Partial j) →
  Unmarshal_LegacyState c cur = (cur, Some syntax_error).
Proof. intros [->|[j ->]]; done. Qed.

(** C2, amended.  When the state can be encoded, [Save] makes one
    [os.WriteFile] call on the state file itself: it truncates the file
    and then writes the complete document into it.  It uses no temporary
    file and no rename and touches no other file, and where the file can
    be opened it leaves the complete document there.  A crash can leave
    the file empty or partly written; a previous document is then lost,
    and [Load] rejects what is left. *)
Theorem Save_overwrites_in_place (s : State) (doc : json.value) :
  marshal_State s = Some doc →
  let path := statePath s in
  Save_ops s = [os.OpenTrunc path; os.WriteAll path doc]
  ∧ (∀ src dst, os.Rename src dst ∉ Save_ops s)
  ∧ (∀ fs, os.write_err fs path = None →
       Save s fs = (None, os.with_files fs (os.run_ops (Save_ops s) (os.files fs))))
  ∧ (∀ m, os.run_ops (Save_ops s) m !! path = Some (os.Document doc)
          ∧ ∀ q, q ≠ path → os.run_ops (Save_ops s) m !! q = m !! q)
  ∧ (∀ m, os.crash_states (Save_ops s) m
          = [m; <[path := os.Empty]> m;
             <[path := os.Partial doc]> (<[path := os.Empty]> m);
             <[path := os.Document doc]> (<[path := os.Empty]> m)])
  ∧ (∀ m old, m !! path = Some (os.Document old) →
       ¬ os.crash_safe path (Save_ops s) m)
  ∧ (∀ fs c, c = os.Empty ∨ c = os.Partial doc →
       os.mkdir_err fs (filepath.Dir path) = None →
       os.read_err fs path = None →
       (Load path (os.with_files fs (<[path := c]> (os.files fs)))).1
       = inr ("failed to parse state file: " ++ syntax_error)%string).
Proof.
  intros Hdoc path. subst path. rewrite (Save_ops_marshal s doc Hdoc).
  split_and!.
  - done.
  - intros src dst Hin.
    apply elem_of_cons in Hin as [|Hin]; [done|].
    apply elem_of_cons in Hin as [|Hin]; [done|]. by apply elem_of_nil in Hin.
  - intros fs Hw. unfold Save, os.WriteFile. by rewrite Hdoc, Hw.
  - intros m. cbn. split; [by rewrite lookup_insert_eq|].
    intros q Hq. by rewrite !lookup_insert_ne.
  - done.
  - intros m old Hold. by apply (WriteFile_ops_not_crash_safe _ old).
  - intros fs c Hc Hmk Hrd. unfold Load.
    cbn [os.mkdir_err os.with_files]. rewrite Hmk.
    unfold os.ReadFile. cbn [os.read_err os.files os.with_files].
    rewrite Hrd, lookup_insert_eq.
    assert (Hnot : c = os.Empty ∨ (∃ j, c = os.Partial j)) by (destruct Hc; eauto).
    rewrite (Unmarshal_State_not_JSON c _ Hnot).
    rewrite (Unmarshal_LegacyState_not_JSON c _ Hnot). done.
Qed.
End saving.

(** The replacement through a temporary file and a rename, as the
    specification has it, does survive a crash. *)
Lemma write_then_rename_is_crash_safe (tmp path : string) (j : json.value)
    (m : gmap string os.content) :
  tmp ≠ path → os.crash_safe path (os.write_then_rename_ops tmp path j) m.
Proof.
  intros Hne m' Hin. cbn in Hin.
  rewrite lookup_insert_eq in Hin.
  repeat (apply elem_of_cons in Hin as [->|Hin]).
  - by left.
  - left. by rewrite lookup_insert_ne.
  - left. by rewrite !lookup_insert_ne.
  - left. by rewrite !lookup_insert_ne.
  - right. unfold os.run_ops, os.write_then_rename_ops.
    cbn [foldl os.apply_op]. by rewrite (lookup_insert_eq _ tmp).
  - by apply elem_of_nil in Hin.
Qed.

(** C2 as stated fails: a crash during [Save] can leave the state file
    neither as it was nor as [Save] would have left it. *)
Lemma Save_is_crash_safe_counterexample :
  ¬ (∀ (codec : TimeJSON) (s : state.State) (m : gmap string os.content),
       os.crash_safe (state.statePath s) (@state.Save_ops codec s) m).
Proof.
  intros Hall.
  specialize (Hall sample_times samples.fresh
                {[ state.statePath samples.fresh := os.Document (json.Obj []) ]}).
  rewrite (@Save_ops_marshal sample_times samples.fresh samples.fresh_document eq_refl) in Hall.
  revert Hall. apply WriteFile_ops_not_crash_safe with (old := json.Obj []).
  apply lookup_singleton_eq.
Qed.

(** The fresh state is saved over an earlier document. *)
Lemma Save_overwrites_in_place_witness :
  @state.Save_ops sample_times samples.fresh
  = [os.OpenTrunc (state.statePath samples.fresh);
     os.WriteAll (state.statePath samples.fresh) samples.fresh_document]
  ∧ ¬ os.crash_safe (state.statePath samples.fresh)
        (@state.Save_ops sample_times samples.fresh)
        {[ state.statePath samples.fresh := os.Document (json.Obj []) ]}.
Proof.
  destruct (@Save_overwrites_in_place sample_times samples.fresh samples.fresh_document eq_refl)
    as (Hops & _ & _ & _ & _ & Hcrash & _).
  split; [exact Hops|].
  apply (Hcrash _ (json.Obj [])). apply lookup_singleton_eq.
Defined.

(** C1.  On a card whose only RAW file lies under [DCIM], with an empty
    processed mapping, the run submits two jobs for that one file: the
    scanner finds it once below [DCIM] and once more below the root. *)
Theorem DCIM_file_is_submitted_twice `{Unicode} :
  let f := scanner.mkFileInfo "/Volumes/OM SYSTEM/DCIM/100OLYMP/P1010001.ORF"
             "P1010001.ORF" 100 0 true false "P1010001" ".ORF" in
  let jobs := (main.plan (main.mkConfig 0 0 false true) samples.fresh samples.card_with_DCIM
                 "/Volumes/OM SYSTEM" {[ ".ORF" := true ]}).2 in
  jobs = [main.mkJob 0 f; main.mkJob 1 f]
  ∧ ¬ NoDup (scanner.Path <$> (main.jobRawFile <$> jobs)).
Proof.
  cbv zeta.
  assert (Hjobs : (main.plan (main.mkConfig 0 0 false true) samples.fresh samples.card_with_DCIM
                     "/Volumes/OM SYSTEM" {[ ".ORF" := true ]}).2
                  = [main.mkJob 0 (scanner.mkFileInfo
                        "/Volumes/OM SYSTEM/DCIM/100OLYMP/P1010001.ORF"
                        "P1010001.ORF" 100 0 true false "P1010001" ".ORF");
                     main.mkJob 1 (scanner.mkFileInfo
                        "/Volumes/OM SYSTEM/DCIM/100OLYMP/P1010001.ORF"
                        "P1010001.ORF" 100 0 true false "P1010001" ".ORF")]).
  { vm_compute. reflexivity. }
  split; [exact Hjobs|]. rewrite Hjobs. cbn.
  intros Hnd. apply NoDup_cons in Hnd as [Hnotin _]. apply Hnotin. by left.
Qed.

(** A state file may hold any version: [Load] keeps the one it finds. *)
Lemma Load_keeps_the_stored_version `{TimeJSON} :
  (state.Load samples.state_path
     (samples.disk_with (os.Document (json.Obj [("version", json.Int 1)])))).1
  = inl (state.mkState 1 "" time_zero ∅ samples.state_path).
Proof. reflexivity. Qed.

(** ** The properties at work on the samples *)

(** The sample codec reads the zero time back as the zero time. *)
Lemma sample_times_reads_zero_back : @state.reads_zero_back sample_times.
Proof. intros ts [= <-]. reflexivity. Qed.

(** The card holds the first of the two recorded files only: the second
    entry goes, the count is 1. *)
Lemma SyncWithCard_witness :
  let card : gmap string bool := {[ "P1010001.ORF" := true ]} in
  state.ProcessedFiles (state.SyncWithCard samples.two_files card).1 !! "P1010001.ORF"
  = state.ProcessedFiles samples.two_files !! "P1010001.ORF"
  ∧ state.ProcessedFiles (state.SyncWithCard samples.two_files card).1 !! "P1010002.ORF"
    = None
  ∧ (state.SyncWithCard samples.two_files card).2 = 1.
Proof.
  cbv zeta.
  destruct (SyncWithCard_removes_exactly_the_absent samples.two_files
              {[ "P1010001.ORF" := true ]}) as (_ & Hkeep & Hrem & _ & Hcount & _).
  split_and!.
  - apply Hkeep. reflexivity.
  - apply Hrem. reflexivity.
  - rewrite Hcount. vm_compute. reflexivity.
Defined.

(** A third file is marked twice, first with one profile and then with
    another, on a clock that shows 0, 1, 2, 3. *)
Lemma MarkProcessed_twice_witness :
  let r1 := state.MarkProcessed samples.two_files "P1010003.ORF" "vivid" ""
              samples.ticking in
  let r2 := state.MarkProcessed r1.1 "P1010003.ORF" "mono" "" r1.2 in
  state.ProcessedFiles r2.1 !! "P1010003.ORF"
  = Some (state.mkProcessedFile "P1010003.ORF" 2 "mono")
  ∧ state.ProcessedFiles r2.1 !! "P1010001.ORF"
    = state.ProcessedFiles samples.two_files !! "P1010001.ORF"
  ∧ state.LastRun r2.1 = 3.
Proof.
  cbv zeta.
  destruct (MarkProcessed_twice_keeps_one_entry samples.two_files "P1010003.ORF"
              "vivid" "mono" "" "" samples.ticking)
    as (Hentry & _ & _ & _ & Hother & _ & _ & Hlast & _).
  split_and!.
  - exact Hentry.
  - apply Hother. discriminate.
  - exact Hlast.
Defined.

(** Limit 1 and two new files: only the first one is submitted. *)
Lemma new_files_witness :
  main.newRAWFiles (main.mkConfig 1 0 false true) samples.fresh
    (scanner.mkScanResult [samples.raw_file "A"; samples.raw_file "B"] []
       samples.card_path)
  = [samples.raw_file "A"].
Proof.
  destruct (new_files_are_the_absent_ones_in_order (main.mkConfig 1 0 false true)
              samples.fresh
              (scanner.mkScanResult [samples.raw_file "A"; samples.raw_file "B"] []
                 samples.card_path))
    as (_ & _ & _ & _ & _ & Hscenario).
  apply (Hscenario (samples.raw_file "A") (samples.raw_file "B") []); reflexivity.
Defined.

(** Ten jobs on sixteen cores: eight workers when eight are asked for,
    four when none is. *)
Lemma numWorkers_witness :
  main.numWorkers 8 16 10 = 8 ∧ main.numWorkers 0 16 10 = 4.
Proof.
  pose (jobs := replicate 10 (main.mkJob 0 (samples.raw_file "A"))).
  destruct (numWorkers_is_clamped 8 16 jobs ltac:(discriminate) ltac:(lia))
    as (_ & _ & Hasked).
  destruct (numWorkers_is_clamped 0 16 jobs ltac:(discriminate) ltac:(lia))
    as (Hauto & _).
  split.
  - apply Hasked. cbn. lia.
  - exact Hauto.
Defined.

(** Three jobs: the DNG converter fails, and RawTherapee is not started;
    RawTherapee fails; RawTherapee converts the file. *)
Lemma worker_outcome_witness :
  let job := main.mkJob 0 (samples.raw_file "P1010001") in
  let failed_dng :=
    main.process_job (Some samples.dng_converter) samples.rawtherapee
      samples.failing_sys samples.ticking job in
  let failed :=
    main.process_job None samples.rawtherapee samples.failing_sys samples.ticking job in
  let converted :=
    main.process_job None samples.rawtherapee samples.converting_sys samples.ticking
      job in
  (is_Some (main.err (main.result_of failed_dng))
   ∧ main.outputPath (main.result_of failed_dng) = ""
   ∧ processor.RunRawTherapee "rawtherapee-cli" [] ∉ main.calls_of failed_dng)
  ∧ (main.err (main.result_of failed)
     = Some ("rawtherapee-cli failed: exit status 1" ++ processor.newline ++ "Output: ")
     ∧ main.outputPath (main.result_of failed) = "")
  ∧ (main.err (main.result_of converted) = None
     ∧ main.outputPath (main.result_of converted) = "/Users/u/out/P1010001.jpg").
Proof.
  cbv zeta. split_and!.
  - destruct (worker_outcome_has_path_or_error (Some samples.dng_converter)
                samples.rawtherapee samples.failing_sys samples.ticking
                (main.mkJob 0 (samples.raw_file "P1010001")))
      as (_ & _ & Hdng & _).
    destruct (Hdng samples.dng_converter eq_refl) as (Hfails & _).
    destruct (Hfails "" "exit status 1" eq_refl) as (-> & _). eauto.
  - destruct (worker_outcome_has_path_or_error (Some samples.dng_converter)
                samples.rawtherapee samples.failing_sys samples.ticking
                (main.mkJob 0 (samples.raw_file "P1010001")))
      as (_ & _ & Hdng & _).
    destruct (Hdng samples.dng_converter eq_refl) as (Hfails & _).
    by destruct (Hfails "" "exit status 1" eq_refl) as (_ & -> & _).
  - destruct (worker_outcome_has_path_or_error (Some samples.dng_converter)
                samples.rawtherapee samples.failing_sys samples.ticking
                (main.mkJob 0 (samples.raw_file "P1010001")))
      as (_ & _ & Hdng & _).
    destruct (Hdng samples.dng_converter eq_refl) as (Hfails & _).
    destruct (Hfails "" "exit status 1" eq_refl) as (_ & _ & Hcalls).
    rewrite Hcalls. intros Hin. apply list_elem_of_singleton in Hin. done.
  - destruct (worker_outcome_has_path_or_error None samples.rawtherapee
                samples.failing_sys samples.ticking
                (main.mkJob 0 (samples.raw_file "P1010001")))
      as (_ & Hrt & _).
    destruct (Hrt eq_refl) as ((_ & Hfails & _) & _).
    by destruct (Hfails "" "exit status 1" eq_refl) as (-> & _).
  - destruct (worker_outcome_has_path_or_error None samples.rawtherapee
                samples.failing_sys samples.ticking
                (main.mkJob 0 (samples.raw_file "P1010001")))
      as (_ & Hrt & _).
    destruct (Hrt eq_refl) as ((_ & Hfails & _) & _).
    by destruct (Hfails "" "exit status 1" eq_refl) as (_ & ->).
  - destruct (worker_outcome_has_path_or_error None samples.rawtherapee
                samples.converting_sys samples.ticking
                (main.mkJob 0 (samples.raw_file "P1010001")))
      as (_ & Hrt & _).
    destruct (Hrt eq_refl) as ((_ & _ & _ & Hok) & _).
    by destruct (Hok "" eq_refl ltac:(discriminate)) as (-> & _).
  - destruct (worker_outcome_has_path_or_error None samples.rawtherapee
                samples.converting_sys samples.ticking
                (main.mkJob 0 (samples.raw_file "P1010001")))
      as (_ & Hrt & _).
    destruct (Hrt eq_refl) as ((_ & _ & _ & Hok) & _).
    destruct (Hok "" eq_refl ltac:(discriminate)) as (_ & -> & _). reflexivity.
Defined.


(** Two recorded files are saved, then cleared: the state information
    read from the file afterwards counts no file and names no last run. *)
Lemma Clear_witness :
  let saved := (@state.Save sample_times samples.two_files samples.empty_disk).2 in
  let cleared := (@main.clearStateFile sample_times samples.state_path saved).2 in
  ∃ lines,
    @main.showStateInfo sample_times samples.state_path cleared (λ _, None) = inl lines
    ∧ main.TrackedLine 0 ∈ lines
    ∧ main.LastRunLine time_zero ∉ lines.
Proof.
  cbv zeta.
  destruct (@Clear_keeps_version_and_path sample_times samples.two_files (λ _, None))
    as (_ & _ & _ & _ & _ & _ & _ & Hdisk).
  destruct (Hdisk sample_times_reads_back sample_times_reads_zero_back
              samples.state_path
              (@state.Save sample_times samples.two_files samples.empty_disk).2
              (@main.clearStateFile sample_times samples.state_path
                 (@state.Save sample_times samples.two_files samples.empty_disk).2).2
              2)
    as (lines & Hshow & Htracked & Hnone).
  - vm_compute. reflexivity.
  - reflexivity.
  - reflexivity.
  - exists lines. split_and!; [exact Hshow|exact Htracked|apply Hnone].
Defined.

(** * Further properties of the modelled code *)

(** ** The state store *)

Section sync_again.
Import state.

Lemma SyncWithCard_count (s : State) (P : gmap string bool) :
  (SyncWithCard s P).2
  = Z.of_nat (size (ProcessedFiles s)) - Z.of_nat (size (ProcessedFiles (SyncWithCard s P).1)).
Proof.
  unfold SyncWithCard, SyncWithCard_loop. cbn [fst snd ProcessedFiles].
  pose proof (SyncWithCard_loop_count P (map_to_list (ProcessedFiles s)).*1
                (ProcessedFiles s) 0) as Hc.
  cbv zeta in Hc. rewrite <- Hc; [lia| |].
  - apply NoDup_fst_map_to_list.
  - intros k Hk. by apply keys_of_map.
Qed.

Lemma SyncWithCard_fields (s : State) (P : gmap string bool) :
  SyncWithCard s P
  = (mkState (Version s) (CardID s) (LastRun s)
       (filter (λ kv, index_bool P kv.1 = true) (ProcessedFiles s)) (statePath s),
     Z.of_nat (size (ProcessedFiles s))
     - Z.of_nat (size (filter (λ kv : string * ProcessedFile,
                                 index_bool P kv.1 = true) (ProcessedFiles s)))).
Proof.
  rewrite (surjective_pairing (SyncWithCard s P)).
  rewrite SyncWithCard_count, SyncWithCard_filter.
  f_equal. unfold SyncWithCard. cbn [fst].
  f_equal. change (ProcessedFiles (SyncWithCard s P).1
                   = filter (λ kv, index_bool P kv.1 = true) (ProcessedFiles s)).
  apply SyncWithCard_filter.
Qed.

(** X1: [SyncWithCard] is idempotent: a second call with the same names
    changes nothing and reports 0 removals.  The number it reports lies
    between 0 and the number of entries, and it is 0 exactly when no
    entry was removed, which is when every entry's name is on the
    card. *)
Theorem SyncWithCard_is_idempotent (s : State) (P : gmap string bool) :
  let r1 := SyncWithCard s P in
  SyncWithCard r1.1 P = (r1.1, 0)
  ∧ 0 ≤ r1.2 ≤ Z.of_nat (size (ProcessedFiles s))
  ∧ (r1.2 = 0 ↔ ProcessedFiles r1.1 = ProcessedFiles s)
  ∧ ((∀ k, is_Some (ProcessedFiles s !! k) → index_bool P k = true) ↔ r1.2 = 0).
Proof.
  cbv zeta.
  assert (Hsub : filter (λ kv : string * ProcessedFile, index_bool P kv.1 = true)
                   (ProcessedFiles s) ⊆ ProcessedFiles s) by apply map_filter_subseteq.
  pose proof (map_subseteq_size _ _ Hsub) as Hsize.
  assert (Hzero : Z.of_nat (size (ProcessedFiles s))
            - Z.of_nat (size (filter (λ kv : string * ProcessedFile,
                                 index_bool P kv.1 = true) (ProcessedFiles s))) = 0
          ↔ filter (λ kv : string * ProcessedFile, index_bool P kv.1 = true)
              (ProcessedFiles s) = ProcessedFiles s).
  { split.
    - intros Hz. apply map_subseteq_size_eq; [done|lia].
    - intros ->. lia. }
  rewrite !SyncWithCard_fields. cbn [fst snd ProcessedFiles Version CardID LastRun statePath].
  split_and!.
  - f_equal.
    + f_equal. apply map_filter_id. intros k pf Hk.
      by apply map_lookup_filter_Some in Hk as [_ Hk].
    + rewrite (map_filter_id _ (filter _ _)); [lia|].
      intros k pf Hk. by apply map_lookup_filter_Some in Hk as [_ Hk].
  - lia.
  - lia.
  - exact Hzero.
  - rewrite Hzero. split.
    + intros Hall. apply map_filter_id. intros k pf Hk. apply Hall. by exists pf.
    + intros Hid k [pf Hk]. rewrite <- Hid in Hk.
      by apply map_lookup_filter_Some in Hk as [_ Hk].
Qed.

End sync_again.

Section marking.
Import state.

Lemma IsProcessed_true (s : State) (f : string) :
  IsProcessed s f = true ↔ is_Some (ProcessedFiles s !! f).
Proof. unfold IsProcessed. by rewrite bool_decide_eq_true. Qed.

(** X2: after [MarkProcessed] the file is reported by [IsProcessed] and
    no other answer of [IsProcessed] changes; [GetProcessedCount] grows
    by one for a new name and stays for a name already marked;
    [IsProcessed] agrees with the map of [GetProcessedFilesMap];
    [Clear] makes every name unprocessed and [SetCardID] none. *)
Theorem MarkProcessed_then_IsProcessed (s : State) (f profile out : string) (c : Clock) :
  let s' := (MarkProcessed s f profile out c).1 in
  IsProcessed s' f = true
  ∧ (∀ g, g ≠ f → IsProcessed s' g = IsProcessed s g)
  ∧ GetProcessedCount s' = GetProcessedCount s + (if IsProcessed s f then 0 else 1)
  ∧ (∀ g, IsProcessed s' g = index_bool (GetProcessedFilesMap s') g)
  ∧ (∀ g, IsProcessed (Clear s').1 g = false)
  ∧ (∀ id g, IsProcessed (SetCardID s' id) g = IsProcessed s' g).
Proof.
  cbv zeta. unfold MarkProcessed, time_Now. cbn [fst snd].
  split_and!.
  - apply IsProcessed_true. cbn. rewrite lookup_insert_eq. by eexists.
  - intros g Hg. unfold IsProcessed. cbn. by rewrite lookup_insert_ne.
  - unfold GetProcessedCount, IsProcessed. cbn.
    case_bool_decide as Hin.
    + destruct Hin as [pf Hpf]. rewrite map_size_insert_Some; [lia|by eexists].
    + rewrite map_size_insert_None; [lia|]. by apply eq_None_not_Some.
  - intros g. unfold IsProcessed, GetProcessedFilesMap, index_bool.
    rewrite lookup_fmap. cbn.
    destruct (<[f:=_]> (ProcessedFiles s) !! g) eqn:E; cbn; [|];
      first [ done
            | apply bool_decide_eq_true; by eexists
            | apply bool_decide_eq_false; by intros [? ?] ].
  - intros g. unfold IsProcessed, Clear. cbn. apply bool_decide_eq_false.
    rewrite lookup_empty. by intros [? ?].
  - done.
Qed.

End marking.

Section matching.
Import scanner.

(** X3: [FindMatchingJPG] returns the first file of the list whose
    [BaseName] equals that of the RAW file, whatever its directory, and
    nothing exactly when no file of the list has that [BaseName]. *)
Theorem FindMatchingJPG_is_the_first_match (rawFile : FileInfo) (jpgFiles : list FileInfo) :
  (∀ jpg, FindMatchingJPG rawFile jpgFiles = Some jpg ↔
     ∃ before after, jpgFiles = (before ++ jpg :: after)%list
       ∧ BaseName jpg = BaseName rawFile
       ∧ ∀ x, x ∈ before → BaseName x ≠ BaseName rawFile)
  ∧ (FindMatchingJPG rawFile jpgFiles = None ↔
       ∀ x, x ∈ jpgFiles → BaseName x ≠ BaseName rawFile).
Proof.
  induction jpgFiles as [|j rest [IHs IHn]]; cbn [FindMatchingJPG].
  - split.
    + intros jpg. split; [done|]. intros (before & after & Heq & _).
      by destruct before.
    + split; [|done]. intros _ x Hx. by apply elem_of_nil in Hx.
  - destruct (String.eqb (BaseName j) (BaseName rawFile)) eqn:E.
    + apply String.eqb_eq in E. split.
      * intros jpg. split.
        -- intros [= Hj]. subst jpg. exists [], rest. split_and!; [done|done|].
           intros x Hx. by apply elem_of_nil in Hx.
        -- intros (before & after & Heq & Hb & Hnot).
           destruct before as [|b before]; cbn in Heq.
           ++ by injection Heq as <- _.
           ++ injection Heq as <- _. exfalso. apply (Hnot j); [left|done].
      * split; [done|]. intros Hall. exfalso. by apply (Hall j); [left|].
    + apply String.eqb_neq in E. split.
      * intros jpg. rewrite IHs. split.
        -- intros (before & after & -> & Hb & Hnot).
           exists (j :: before), after. split_and!; [done|done|].
           intros x [->|Hx]%elem_of_cons; [done|by apply Hnot].
        -- intros (before & after & Heq & Hb & Hnot).
           destruct before as [|b before]; cbn in Heq.
           ++ injection Heq as <- _. done.
           ++ injection Heq as <- ->. exists before, after. split_and!; [done|done|].
              intros x Hx. apply Hnot. by right.
      * rewrite IHn. split.
        -- intros Hall x [->|Hx]%elem_of_cons; [done|by apply Hall].
        -- intros Hall x Hx. apply Hall. by right.
Qed.

End matching.

(** ** The scan *)

Section scanning.
Import scanner scanned.
Context `{Unicode}.

Lemma scan_visit_cases (rawExtensions : gmap string bool) (r : ScanResult) (v : visit) :
  scan_visit rawExtensions r v
  = mkScanResult
      (RAWFiles r ++ if is_raw rawExtensions v then [file_info v true false] else [])
      (JPGFiles r ++ if is_jpg rawExtensions v then [file_info v false true] else [])
      (BasePath r).
Proof.
  unfold scan_visit, is_raw, is_jpg, considered, file_info.
  destruct r as [raws jpgs base]. cbn [RAWFiles JPGFiles BasePath].
  destruct (vIsDir v); cbn [negb andb]; [by rewrite !app_nil_r|].
  destruct (go_strings.HasPrefix (vName v) "._"); cbn [negb andb];
    [by rewrite !app_nil_r|].
  destruct (index_bool rawExtensions _); cbn [negb andb]; [by rewrite !app_nil_r|].
  destruct (String.eqb _ ".JPG" || String.eqb _ ".JPEG"); by rewrite !app_nil_r.
Qed.

Lemma scan_visits (rawExtensions : gmap string bool) (visits : list visit)
    (r : ScanResult) :
  foldl (scan_visit rawExtensions) r visits
  = mkScanResult
      (RAWFiles r ++ ((λ v, file_info v true false)
                        <$> filter (λ v, is_raw rawExtensions v = true) visits))
      (JPGFiles r ++ ((λ v, file_info v false true)
                        <$> filter (λ v, is_jpg rawExtensions v = true) visits))
      (BasePath r).
Proof.
  revert r. induction visits as [|v visits IH]; intros r; cbn [foldl].
  - rewrite !filter_nil. cbn. rewrite !app_nil_r. by destruct r.
  - rewrite IH, scan_visit_cases. cbn [RAWFiles JPGFiles BasePath].
    rewrite !filter_cons.
    destruct (is_raw rawExtensions v) eqn:Er, (is_jpg rawExtensions v) eqn:Ej;
      repeat case_decide; try done; cbn [fmap list_fmap];
      by rewrite <- ?app_assoc, ?app_nil_r.
Qed.

Lemma ScanForImages_visited (volume : node) (basePath : string)
    (rawExtensions : gmap string bool) :
  ScanForImages volume basePath rawExtensions
  = foldl (scan_visit rawExtensions) (mkScanResult [] [] basePath)
      (visited volume basePath).
Proof.
  unfold ScanForImages, visited. cbn [foldl]. rewrite foldl_app.
  destruct (stat basePath volume (filepath.Join [basePath; "DCIM"]));
    destruct (stat basePath volume basePath); done.
Qed.

(** X4: the two lists [ScanForImages] returns are the RAW and the JPG files
    among the entries it has visited, in the order of the visit; a file
    is RAW by its upper-cased extension, which takes precedence over
    JPG; directories and [._] files are in neither list. *)
Theorem ScanForImages_classifies (volume : node) (basePath : string)
    (rawExtensions : gmap string bool) :
  let result := ScanForImages volume basePath rawExtensions in
  RAWFiles result
    = (λ v, file_info v true false)
        <$> filter (λ v, is_raw rawExtensions v = true) (visited volume basePath)
  ∧ JPGFiles result
    = (λ v, file_info v false true)
        <$> filter (λ v, is_jpg rawExtensions v = true) (visited volume basePath)
  ∧ BasePath result = basePath
  ∧ (∀ f, f ∈ RAWFiles result →
       IsRAW f = true ∧ IsJPG f = false
       ∧ index_bool rawExtensions (Extension f) = true
       ∧ go_strings.HasPrefix (Name f) "._" = false
       ∧ Extension f = go_strings.ToUpper (filepath.Ext (Path f))
       ∧ BaseName f = go_strings.TrimSuffix (Name f) (filepath.Ext (Name f)))
  ∧ (∀ f, f ∈ JPGFiles result →
       IsJPG f = true ∧ IsRAW f = false
       ∧ (Extension f = ".JPG" ∨ Extension f = ".JPEG")
       ∧ index_bool rawExtensions (Extension f) = false
       ∧ go_strings.HasPrefix (Name f) "._" = false)
  ∧ (∀ f, f ∈ RAWFiles result → f ∉ JPGFiles result).
Proof.
  cbv zeta. rewrite ScanForImages_visited, scan_visits.
  cbn [RAWFiles JPGFiles BasePath app].
  assert (Hraw : ∀ f,
    f ∈ (λ v, file_info v true false)
          <$> filter (λ v, is_raw rawExtensions v = true) (visited volume basePath) →
    IsRAW f = true ∧ IsJPG f = false
    ∧ index_bool rawExtensions (Extension f) = true
    ∧ go_strings.HasPrefix (Name f) "._" = false
    ∧ Extension f = go_strings.ToUpper (filepath.Ext (Path f))
    ∧ BaseName f = go_strings.TrimSuffix (Name f) (filepath.Ext (Name f))).
  { intros f (v & -> & Hv)%list_elem_of_fmap.
    apply list_elem_of_filter in Hv as [Hv _].
    unfold is_raw, considered in Hv.
    apply andb_prop in Hv as [[_ Hh%negb_true_iff]%andb_prop Hx].
    by cbn. }
  assert (Hjpg : ∀ f,
    f ∈ (λ v, file_info v false true)
          <$> filter (λ v, is_jpg rawExtensions v = true) (visited volume basePath) →
    IsJPG f = true ∧ IsRAW f = false
    ∧ (Extension f = ".JPG" ∨ Extension f = ".JPEG")
    ∧ index_bool rawExtensions (Extension f) = false
    ∧ go_strings.HasPrefix (Name f) "._" = false).
  { intros f (v & -> & Hv)%list_elem_of_fmap.
    apply list_elem_of_filter in Hv as [Hv _].
    unfold is_jpg, considered in Hv. cbv zeta in Hv.
    apply andb_prop in Hv as [[[_ Hh%negb_true_iff]%andb_prop Hx%negb_true_iff]%andb_prop He].
    cbn. split_and!; try done.
    apply orb_prop in He as [He|He]; apply String.eqb_eq in He; auto. }
  split_and!; try done.
  intros f Hf Hf'. apply Hraw in Hf as (Hr & _). apply Hjpg in Hf' as (_ & Hr' & _).
  congruence.
Qed.

End scanning.

(** ** From one run to the next *)

Section on_card.
Import state scanner main.
Context `{Unicode}.

Lemma add_names_index (files : list FileInfo) (m : gmap string bool) (name : string) :
  index_bool (foldl (λ (m : gmap string bool) (f : FileInfo), <[Name f := true]> m) m files)
    name = true
  ↔ index_bool m name = true ∨ ∃ f, f ∈ files ∧ Name f = name.
Proof.
  revert m. induction files as [|f files IH]; intros m; cbn [foldl].
  - split; [by left|]. intros [?|(f & Hf & _)]; [done|]. by apply elem_of_nil in Hf.
  - rewrite IH. unfold index_bool at 1.
    destruct (decide (Name f = name)) as [<-|Hne].
    + rewrite lookup_insert_eq. cbn. split; [|by left].
      intros _. right. exists f. split; [left|done].
    + rewrite lookup_insert_ne by done. fold (index_bool m name). split.
      * intros [?|(g & Hg & Hn)]; [by left|]. right. exists g. split; [by right|done].
      * intros [?|(g & Hg & Hn)]; [by left|]. right.
        apply elem_of_cons in Hg as [->|Hg]; [done|]. by exists g.
Qed.

Lemma filesOnCard_index (scanResult : ScanResult) (name : string) :
  index_bool (filesOnCard scanResult) name = true
  ↔ ∃ f, f ∈ (RAWFiles scanResult ++ JPGFiles scanResult)%list ∧ Name f = name.
Proof.
  unfold filesOnCard. cbv zeta. rewrite !add_names_index.
  unfold index_bool at 1. rewrite lookup_empty. cbn. split.
  - intros [[?|(f & Hf & Hn)]|(f & Hf & Hn)]; [done| |];
      exists f; (split; [|done]); apply elem_of_app; auto.
  - intros (f & [Hf|Hf]%elem_of_app & Hn); [left; right|right]; by exists f.
Qed.

(** X5: the names [run] hands to [SyncWithCard] are the names of the RAW
    and JPG files of the scan, so the state after the call keeps exactly
    the entries whose name some scanned RAW or JPG file bears; and a job
    is only ever made for a scanned RAW file whose name had no entry
    before the run. *)
Theorem plan_keeps_the_entries_of_scanned_names (cfg : Config) (s : State)
    (volume : node) (basePath : string) (rawExtensions : gmap string bool) :
  let scan := ScanForImages volume basePath rawExtensions in
  let synced := (plan cfg s volume basePath rawExtensions).1 in
  (∀ name, index_bool (filesOnCard scan) name = true
           ↔ ∃ f, f ∈ (RAWFiles scan ++ JPGFiles scan)%list ∧ Name f = name)
  ∧ (∀ name pf,
       ProcessedFiles synced !! name = Some pf
       ↔ ProcessedFiles s !! name = Some pf
         ∧ ∃ f, f ∈ (RAWFiles scan ++ JPGFiles scan)%list ∧ Name f = name)
  ∧ (∀ j, j ∈ (plan cfg s volume basePath rawExtensions).2 →
       jobRawFile j ∈ RAWFiles scan
       ∧ ProcessedFiles s !! Name (jobRawFile j) = None)
  ∧ Version synced = Version s ∧ CardID synced = CardID s
  ∧ LastRun synced = LastRun s ∧ statePath synced = statePath s.
Proof.
  cbv zeta. unfold plan. cbn [fst snd].
  set (scan := ScanForImages volume basePath rawExtensions).
  split_and!; try done.
  - apply filesOnCard_index.
  - intros name pf. rewrite SyncWithCard_lookup, <- filesOnCard_index.
    destruct (index_bool (filesOnCard scan) name).
    + split; [by intros ?|by intros [? _]].
    + split; [done|]. by intros [_ Hf].
  - intros j Hj.
    assert (Hin : jobRawFile j ∈ newRAWFiles cfg (SyncWithCard s (filesOnCard scan)).1 scan).
    { unfold submitted_jobs in Hj. unfold newRAWFiles.
      destruct (select_new_files _ _ _) as [|files|files];
        try by apply elem_of_nil in Hj.
      rewrite <- (make_jobs_files files). apply list_elem_of_fmap. by exists j. }
    apply newRAWFiles_are_absent in Hin as [Hraw Hnone]. split; [done|].
    rewrite SyncWithCard_lookup in Hnone.
    assert (Hcard : index_bool (filesOnCard scan) (Name (jobRawFile j)) = true).
    { apply filesOnCard_index. exists (jobRawFile j). split; [|done].
      apply elem_of_app. by left. }
    by rewrite Hcard in Hnone.
Qed.

Lemma submitted_are_new (cfg : Config) (s : State) (scanResult : ScanResult) (j : job) :
  j ∈ submitted_jobs cfg s scanResult → jobRawFile j ∈ newRAWFiles cfg s scanResult.
Proof.
  intros Hj. unfold submitted_jobs in Hj. unfold newRAWFiles.
  destruct (select_new_files _ _ _) as [|files|files];
    try by apply elem_of_nil in Hj.
  rewrite <- (make_jobs_files files). apply list_elem_of_fmap. by exists j.
Qed.

(** X6: a file whose conversion has succeeded in one run is not submitted
    in the next: after the results have been collected, no job of a later
    plan bears the name of a file that was converted without error,
    whatever the card then holds. *)
Theorem converted_file_is_not_resubmitted (cfg cfg' : Config) (scanResult : ScanResult)
    (profileName : string) (acc : collected) (results : list processResult)
    (r : processResult) (volume : node) (basePath : string)
    (rawExtensions : gmap string bool) :
  r ∈ results → err r = None →
  let final := collect cfg scanResult profileName acc results in
  IsProcessed (appState final) (Name (rawFile r)) = true
  ∧ ∀ j, j ∈ (plan cfg' (appState final) volume basePath rawExtensions).2 →
         Name (jobRawFile j) ≠ Name (rawFile r).
Proof.
  intros Hr Herr final.
  assert (Hmarked : is_Some (ProcessedFiles (appState final) !! Name (rawFile r))).
  { apply collect_lookup. right. by exists r. }
  split.
  - unfold IsProcessed. by apply bool_decide_eq_true.
  - intros j Hj Hname. unfold plan in Hj. cbn [snd] in Hj.
    apply submitted_are_new, newRAWFiles_are_absent in Hj as [Hraw Hnone].
    rewrite SyncWithCard_lookup in Hnone.
    set (scan := ScanForImages volume basePath rawExtensions) in *.
    assert (Hcard : index_bool (filesOnCard scan) (Name (jobRawFile j)) = true).
    { apply filesOnCard_index. exists (jobRawFile j). split; [|done].
      apply elem_of_app. by left. }
    rewrite Hcard, Hname in Hnone. rewrite Hnone in Hmarked. by destruct Hmarked.
Qed.

End on_card.

Section arrival_order.
Import state scanner main.

Lemma collect_counts (cfg : Config) (scanResult : ScanResult) (profileName : string)
    (results : list processResult) (acc : collected) :
  let final := collect cfg scanResult profileName acc results in
  processedCount final = processedCount acc + Z.of_nat (length results)
  ∧ totalRawProcessingTime final
    = totalRawProcessingTime acc + foldr Z.add 0 (elapsed <$> results)
  ∧ processedJPGs final
    = (processedJPGs acc
       ++ (outputPath <$> filter (λ r, err r = None) results))%list
  ∧ dngFilesToCleanup final
    = (dngFilesToCleanup acc
       ++ (dngPath <$> filter (λ r, err r = None ∧ dngPath r ≠ "") results))%list.
Proof.
  cbv zeta. revert acc. induction results as [|r results IH]; intros acc.
  - cbn. rewrite !app_nil_r. split_and!; try done; lia.
  - unfold collect in *. cbn [foldl].
    destruct (IH (collect_step cfg scanResult profileName acc r)) as (-> & -> & -> & ->).
    rewrite !filter_cons. unfold collect_step.
    destruct (err r) as [e|] eqn:Eerr.
    + cbn [processedCount totalRawProcessingTime processedJPGs dngFilesToCleanup].
      rewrite decide_False by done.
      rewrite decide_False by (by intros [? _]).
      cbn [fmap list_fmap length foldr]. split_and!; try done; lia.
    + destruct (MarkProcessed _ _ _ _ _) as [s' c'].
      cbn [processedCount totalRawProcessingTime processedJPGs dngFilesToCleanup].
      rewrite (decide_True (P := None = None)) by done.
      destruct (String.eqb (dngPath r) "") eqn:Ed.
      * apply String.eqb_eq in Ed.
        rewrite decide_False by (intros [_ ?]; done).
        cbn [fmap list_fmap length foldr]. rewrite <- !app_assoc. cbn [app].
        split_and!; try done; lia.
      * apply String.eqb_neq in Ed.
        rewrite decide_True by done.
        cbn [fmap list_fmap length foldr]. rewrite <- !app_assoc. cbn [app].
        split_and!; try done; lia.
Qed.

Lemma sum_Permutation (l l' : list Z) :
  l ≡ₚ l' → foldr Z.add 0 l = foldr Z.add 0 l'.
Proof. induction 1; cbn; lia. Qed.

(** X7: what the collecting loop leaves behind does not depend on the
    order in which the workers deliver their results, the time stamps
    apart: the same names are marked, the same number of results is
    counted, the same conversion time is added up, and the same JPEGs are
    queued for upload. *)
Theorem marks_do_not_depend_on_arrival_order (cfg : Config) (scanResult : ScanResult)
    (profileName : string) (acc : collected) (results results' : list processResult) :
  results ≡ₚ results' →
  let final := collect cfg scanResult profileName acc results in
  let final' := collect cfg scanResult profileName acc results' in
  dom (ProcessedFiles (appState final)) = dom (ProcessedFiles (appState final'))
  ∧ processedCount final = processedCount final'
  ∧ processedCount final = processedCount acc + Z.of_nat (length results)
  ∧ totalRawProcessingTime final = totalRawProcessingTime final'
  ∧ processedJPGs final ≡ₚ processedJPGs final'
  ∧ dngFilesToCleanup final ≡ₚ dngFilesToCleanup final'.
Proof.
  intros Hperm final final'.
  destruct (collect_counts cfg scanResult profileName results acc) as (Hc & Ht & Hj & Hd).
  destruct (collect_counts cfg scanResult profileName results' acc) as (Hc' & Ht' & Hj' & Hd').
  cbv zeta in *. fold final in Hc, Ht, Hj, Hd. fold final' in Hc', Ht', Hj', Hd'.
  split_and!.
  - apply set_eq. intros name. rewrite !elem_of_dom.
    unfold final, final'. rewrite !collect_lookup.
    split; (intros [?|(r & Hr & He & Hn)]; [by left|right; exists r; split_and!; try done]).
    + by rewrite <- Hperm.
    + by rewrite Hperm.
  - rewrite Hc, Hc'. by rewrite Hperm.
  - done.
  - rewrite Ht, Ht'. f_equal. apply sum_Permutation. by rewrite Hperm.
  - rewrite Hj, Hj'. by rewrite Hperm.
  - rewrite Hd, Hd'. by rewrite Hperm.
Qed.

End arrival_order.

(** ** Loading and migrating the state file *)

Section loading.
Import state.
Context `{TimeJSON}.

Lemma Save_files (s : State) (fs : os.FS) :
  let fs' := (Save s fs).2 in
  (∀ q, q ≠ statePath s → os.files fs' !! q = os.files fs !! q)
  ∧ os.mkdir_err fs' = os.mkdir_err fs
  ∧ os.read_err fs' = os.read_err fs
  ∧ os.write_err fs' = os.write_err fs.
Proof.
  cbv zeta. unfold Save, os.WriteFile.
  destruct (marshal_State s) as [doc|]; [|by cbn; split_and!].
  destruct (os.write_err fs (statePath s)) as [[e|e partly|e]|].
  all: cbn [fst snd os.with_files os.files os.mkdir_err os.read_err os.write_err
            os.run_ops os.WriteFile_ops foldl os.apply_op].
  all: split_and!; try done.
  all: intros q Hq; by rewrite !lookup_insert_ne.
Qed.


(** X8: [Load] writes nothing unless it migrates a legacy document, and
    then only to the state file: no other file changes; a failed load
    leaves every file as it was; a missing state file gives the empty
    state of version 2 and is not created; and a document that decodes in
    the current schema is not rewritten. *)
Theorem Load_writes_only_when_it_migrates (path : string) (fs : os.FS) :
  let r := Load path fs in
  (∀ q, q ≠ path → os.files r.2 !! q = os.files fs !! q)
  ∧ (∀ e, r.1 = inr e → r.2 = fs)
  ∧ (os.mkdir_err fs (filepath.Dir path) = None →
     os.ReadFile fs path = os.ReadNotExist →
     r = (inl (mkState 2 "" time_zero ∅ path), fs))
  ∧ (∀ data, os.ReadFile fs path = os.ReadData data →
       (Unmarshal_State data (mkStateFields 2 "" time_zero (Some ∅))).2 = None →
       r.2 = fs)
  ∧ (∀ e, os.mkdir_err fs (filepath.Dir path) = Some e →
       r = (inr ("failed to create state directory: " ++ e)%string, fs))
  ∧ (∀ e, os.mkdir_err fs (filepath.Dir path) = None →
       os.ReadFile fs path = os.ReadError e →
       r = (inr ("failed to read state file: " ++ e)%string, fs)).
Proof.
  cbv zeta. unfold Load.
  destruct (os.mkdir_err fs (filepath.Dir path)) as [e|] eqn:Hmk.
  { cbn [fst snd]. split_and!; try done. by intros ? [= ->]. }
  destruct (os.ReadFile fs path) as [|e|data] eqn:Hrd.
  { cbn [fst snd]. split_and!; done. }
  { cbn [fst snd]. split_and!; try done. by intros ? _ [= ->]. }
  destruct (Unmarshal_State data _) as [state' [err|]] eqn:Hst.
  - destruct (Unmarshal_LegacyState data zero_LegacyState) as [legacy [err'|]] eqn:Hlg.
    + cbn [fst snd]. split_and!; done.
    + cbn [fst snd]. split_and!; try done.
      * intros q Hq.
        by apply (Save_files (mkState 2 (fCardID state') (LastProcessedTimestamp legacy)
                                (migrate (LegacyProcessedFiles legacy)) path) fs).
      * intros data0 [= <-]. by rewrite Hst.
  - cbn [fst snd]. split_and!; done.
Qed.



End loading.

(** ** The raw extensions of the configuration *)

Section extensions.
Import config scanner scanned.
Context `{Unicode}.

Ltac each_ascii c :=
  destruct c as [[] [] [] [] [] [] [] []]; reflexivity.

Lemma upper_ascii_idem (c : ascii) :
  go_strings.upper_ascii (go_strings.upper_ascii c) = go_strings.upper_ascii c.
Proof. each_ascii c. Qed.

Lemma upper_lower_ascii (c : ascii) :
  go_strings.upper_ascii (go_strings.lower_ascii c) = go_strings.upper_ascii c.
Proof. each_ascii c. Qed.

Lemma upper_ascii_dot (c : ascii) :
  (if ascii_dec "." (go_strings.upper_ascii c) then true else false)
  = (if ascii_dec "." c then true else false).
Proof. each_ascii c. Qed.

Lemma upper_ascii_below (c : ascii) :
  (nat_of_ascii (go_strings.upper_ascii c) <? 128)%nat = (nat_of_ascii c <? 128)%nat.
Proof. each_ascii c. Qed.

Lemma lower_ascii_below (c : ascii) :
  (nat_of_ascii (go_strings.lower_ascii c) <? 128)%nat = (nat_of_ascii c <? 128)%nat.
Proof. each_ascii c. Qed.

Lemma is_ascii_upper (s : string) :
  go_strings.is_ascii (go_strings.map_bytes go_strings.upper_ascii s) = go_strings.is_ascii s.
Proof.
  induction s as [|c s IH]; cbn [go_strings.map_bytes go_strings.is_ascii]; [done|].
  by rewrite upper_ascii_below, IH.
Qed.

Lemma is_ascii_lower (s : string) :
  go_strings.is_ascii (go_strings.map_bytes go_strings.lower_ascii s) = go_strings.is_ascii s.
Proof.
  induction s as [|c s IH]; cbn [go_strings.map_bytes go_strings.is_ascii]; [done|].
  by rewrite lower_ascii_below, IH.
Qed.

Lemma map_upper_idem (s : string) :
  go_strings.map_bytes go_strings.upper_ascii (go_strings.map_bytes go_strings.upper_ascii s)
  = go_strings.map_bytes go_strings.upper_ascii s.
Proof.
  induction s as [|c s IH]; cbn [go_strings.map_bytes]; [done|].
  by rewrite upper_ascii_idem, IH.
Qed.

Lemma map_upper_lower (s : string) :
  go_strings.map_bytes go_strings.upper_ascii (go_strings.map_bytes go_strings.lower_ascii s)
  = go_strings.map_bytes go_strings.upper_ascii s.
Proof.
  induction s as [|c s IH]; cbn [go_strings.map_bytes]; [done|].
  by rewrite upper_lower_ascii, IH.
Qed.

(** On a text of ASCII bytes the library's tables are not consulted. *)
Lemma ToUpper_ascii (s : string) :
  go_strings.is_ascii s = true →
  go_strings.ToUpper s = go_strings.map_bytes go_strings.upper_ascii s
  ∧ go_strings.is_ascii (go_strings.ToUpper s) = true.
Proof.
  intros Hs. unfold go_strings.ToUpper. rewrite Hs. split; [done|].
  by rewrite is_ascii_upper.
Qed.

Lemma ToLower_ascii (s : string) :
  go_strings.is_ascii s = true →
  go_strings.ToLower s = go_strings.map_bytes go_strings.lower_ascii s
  ∧ go_strings.is_ascii (go_strings.ToLower s) = true.
Proof.
  intros Hs. unfold go_strings.ToLower. rewrite Hs. split; [done|].
  by rewrite is_ascii_lower.
Qed.

Lemma ToUpper_idem (s : string) :
  go_strings.is_ascii s = true →
  go_strings.ToUpper (go_strings.ToUpper s) = go_strings.ToUpper s.
Proof.
  intros Hs. destruct (ToUpper_ascii s Hs) as [Hup Hascii].
  destruct (ToUpper_ascii _ Hascii) as [-> _]. rewrite Hup. apply map_upper_idem.
Qed.

Lemma ToUpper_ToLower (s : string) :
  go_strings.is_ascii s = true →
  go_strings.ToUpper (go_strings.ToLower s) = go_strings.ToUpper s.
Proof.
  intros Hs. destruct (ToLower_ascii s Hs) as [Hlow Hascii].
  destruct (ToUpper_ascii _ Hascii) as [-> _].
  destruct (ToUpper_ascii s Hs) as [-> _]. rewrite Hlow. apply map_upper_lower.
Qed.

Lemma HasPrefix_dot (s : string) :
  go_strings.HasPrefix s "."
  = match s with
    | String c _ => if ascii_dec "." c then true else false
    | EmptyString => false
    end.
Proof.
  unfold go_strings.HasPrefix. destruct s as [|c s]; [done|].
  change (String.prefix "." (String c s))
    with (if ascii_dec "." c then String.prefix "" s else false).
  destruct (ascii_dec "." c); [|done]. by destruct s.
Qed.

Lemma HasPrefix_dot_ToUpper (s : string) :
  go_strings.is_ascii s = true →
  go_strings.HasPrefix (go_strings.ToUpper s) "." = go_strings.HasPrefix s ".".
Proof.
  intros Hs. destruct (ToUpper_ascii s Hs) as [-> _].
  rewrite !HasPrefix_dot. destruct s as [|c s]; [done|]. cbn [go_strings.map_bytes].
  apply upper_ascii_dot.
Qed.

Lemma is_ascii_dotted (s : string) :
  go_strings.is_ascii ("." ++ s) = go_strings.is_ascii s.
Proof. reflexivity. Qed.

(** Every key starts with a dot, whatever the text of the extension. *)
Lemma normalized_dotted (x : string) : go_strings.HasPrefix (normalized x) "." = true.
Proof.
  unfold normalized. cbv zeta.
  destruct (go_strings.HasPrefix (go_strings.ToUpper x) ".") eqn:E; cbn [negb]; [done|].
  rewrite HasPrefix_dot. reflexivity.
Qed.

Lemma normalized_ascii (x : string) :
  go_strings.is_ascii x = true → go_strings.is_ascii (normalized x) = true.
Proof.
  intros Hx. destruct (ToUpper_ascii x Hx) as [_ Hup]. unfold normalized. cbv zeta.
  destruct (negb _); [|done]. by rewrite is_ascii_dotted.
Qed.

Lemma normalized_upper (x : string) :
  go_strings.is_ascii x = true → go_strings.ToUpper (normalized x) = normalized x.
Proof.
  intros Hx. destruct (ToUpper_ascii x Hx) as [Hup Hascii].
  unfold normalized. cbv zeta.
  destruct (go_strings.HasPrefix (go_strings.ToUpper x) ".") eqn:E; cbn [negb].
  - by apply ToUpper_idem.
  - assert (go_strings.is_ascii ("." ++ go_strings.ToUpper x) = true) as Hdot
      by (by rewrite is_ascii_dotted).
    destruct (ToUpper_ascii _ Hdot) as [-> _].
    change (go_strings.map_bytes go_strings.upper_ascii ("." ++ go_strings.ToUpper x))
      with ("." ++ go_strings.map_bytes go_strings.upper_ascii (go_strings.ToUpper x)).
    destruct (ToUpper_ascii _ Hascii) as [<- _]. by rewrite ToUpper_idem.
Qed.

Lemma normalized_ToUpper (x : string) :
  go_strings.is_ascii x = true → normalized (go_strings.ToUpper x) = normalized x.
Proof. intros Hx. unfold normalized. by rewrite ToUpper_idem. Qed.

Lemma normalized_ToLower (x : string) :
  go_strings.is_ascii x = true → normalized (go_strings.ToLower x) = normalized x.
Proof. intros Hx. unfold normalized. by rewrite ToUpper_ToLower. Qed.

Lemma normalized_dot (x : string) :
  go_strings.is_ascii x = true →
  go_strings.HasPrefix x "." = false → normalized ("." ++ x) = normalized x.
Proof.
  intros Hascii Hx. unfold normalized. cbv zeta.
  assert (go_strings.is_ascii ("." ++ x) = true) as Hdot by (by rewrite is_ascii_dotted).
  rewrite (HasPrefix_dot_ToUpper x Hascii), Hx. cbn [negb].
  destruct (ToUpper_ascii _ Hdot) as [-> _]. destruct (ToUpper_ascii _ Hascii) as [-> _].
  rewrite HasPrefix_dot. reflexivity.
Qed.

(** An extension with a byte above 127 is keyed by the library's mapping of
    its text, with a dot in front when the mapping has none. *)
Lemma normalized_above_ascii (x : string) :
  go_strings.is_ascii x = false →
  normalized x = (if go_strings.HasPrefix (Map_unicode_ToUpper x) "."
                  then Map_unicode_ToUpper x else "." ++ Map_unicode_ToUpper x).
Proof.
  intros Hx. unfold normalized, go_strings.ToUpper. rewrite Hx. cbv zeta.
  by destruct (go_strings.HasPrefix _ ".").
Qed.

Lemma GetRawExtensionsMap_index (c : Config) (e : string) :
  index_bool (GetRawExtensionsMap c) e = true
  ↔ ∃ x, x ∈ RawExtensions c ∧ e = normalized x.
Proof.
  unfold GetRawExtensionsMap.
  assert (Hgen : ∀ l (m : gmap string bool),
    index_bool (foldl (λ (extMap : gmap string bool) ext,
                         <[normalized ext := true]> extMap) m l) e = true
    ↔ index_bool m e = true ∨ ∃ x, x ∈ l ∧ e = normalized x).
  { induction l as [|x l IH]; intros m; cbn [foldl].
    - split; [by left|]. intros [?|(x & Hx & _)]; [done|]. by apply elem_of_nil in Hx.
    - rewrite IH. unfold index_bool at 1.
      destruct (decide (normalized x = e)) as [<-|Hne].
      + rewrite lookup_insert_eq. cbn. split; [|by left].
        intros _. right. exists x. split; [left|done].
      + rewrite lookup_insert_ne by done. fold (index_bool m e). split.
        * intros [?|(y & Hy & Hn)]; [by left|]. right. exists y. split; [by right|done].
        * intros [?|(y & Hy & Hn)]; [by left|]. right.
          apply elem_of_cons in Hy as [->|Hy]; [done|]. by exists y. }
  rewrite Hgen. unfold index_bool at 1. rewrite lookup_empty. cbn.
  split; [by intros [?|?]|by right].
Qed.

(** X10: the RAW extensions of the configuration are matched with or
    without their leading dot and, when they are ASCII text, without regard
    to case.  Every key of [GetRawExtensionsMap] starts with a dot.  For an
    extension of ASCII bytes the key is ASCII and upper case, and the
    extension, its upper-case and lower-case spellings and (when it has no
    dot) its dotted spelling give the same key.  For an extension with a
    byte above 127 the key is what the library's [unicode.ToUpper] mapping
    makes of it, dotted.  The scan takes a file for RAW exactly when its
    upper-cased extension is the key of a configured extension; a file
    without extension never is. *)
Theorem raw_extensions_are_matched_without_case (c : Config) :
  (∀ e, index_bool (GetRawExtensionsMap c) e = true
        ↔ ∃ x, x ∈ RawExtensions c ∧ e = normalized x)
  ∧ (∀ x, go_strings.HasPrefix (normalized x) "." = true)
  ∧ (∀ x, go_strings.is_ascii x = true →
          go_strings.is_ascii (normalized x) = true
          ∧ go_strings.ToUpper (normalized x) = normalized x
          ∧ normalized (go_strings.ToUpper x) = normalized x
          ∧ normalized (go_strings.ToLower x) = normalized x
          ∧ (go_strings.HasPrefix x "." = false → normalized ("." ++ x) = normalized x))
  ∧ (∀ x, go_strings.is_ascii x = false →
          normalized x = (if go_strings.HasPrefix (Map_unicode_ToUpper x) "."
                          then Map_unicode_ToUpper x else "." ++ Map_unicode_ToUpper x))
  ∧ (∀ v, is_raw (GetRawExtensionsMap c) v = true
          ↔ considered v = true
            ∧ ∃ x, x ∈ RawExtensions c
                   ∧ go_strings.ToUpper (filepath.Ext (vPath v)) = normalized x)
  ∧ (∀ v, filepath.Ext (vPath v) = "" → is_raw (GetRawExtensionsMap c) v = false).
Proof.
  split_and!.
  - apply GetRawExtensionsMap_index.
  - apply normalized_dotted.
  - intros x Hx. split_and!.
    + by apply normalized_ascii.
    + by apply normalized_upper.
    + by apply normalized_ToUpper.
    + by apply normalized_ToLower.
    + by apply normalized_dot.
  - apply normalized_above_ascii.
  - intros v. unfold is_raw. rewrite andb_true_iff, GetRawExtensionsMap_index. done.
  - intros v Hext. unfold is_raw. rewrite Hext.
    change (go_strings.ToUpper "") with "".
    apply andb_false_iff. right. apply not_true_iff_false.
    rewrite GetRawExtensionsMap_index. intros (x & _ & Hx).
    pose proof (normalized_dotted x) as Hp. by rewrite <- Hx in Hp.
Qed.

End extensions.

(** ** Finding the drive *)

Section drives.
Import drive.
Context `{Unicode}.

Lemma find_label_Some (labelLower : string) (drives : list DriveInfo) (d : DriveInfo) :
  find_label labelLower drives = Some d
  ↔ ∃ before after, drives = (before ++ d :: after)%list
      ∧ go_strings.ToLower (VolumeLabel d) = labelLower
      ∧ ∀ x, x ∈ before → go_strings.ToLower (VolumeLabel x) ≠ labelLower.
Proof.
  induction drives as [|a rest IH]; cbn [find_label].
  - split; [done|]. intros (before & after & Heq & _). by destruct before.
  - destruct (String.eqb (go_strings.ToLower (VolumeLabel a)) labelLower) eqn:E.
    + apply String.eqb_eq in E. split.
      * intros [= Ha]. subst d. exists [], rest. split_and!; [done|done|].
        intros x Hx. by apply elem_of_nil in Hx.
      * intros (before & after & Heq & Hb & Hnot).
        destruct before as [|b before]; cbn in Heq.
        -- by injection Heq as <- _.
        -- injection Heq as <- _. exfalso. apply (Hnot a); [left|done].
    + apply String.eqb_neq in E. rewrite IH. split.
      * intros (before & after & -> & Hb & Hnot).
        exists (a :: before), after. split_and!; [done|done|].
        intros x [->|Hx]%elem_of_cons; [done|by apply Hnot].
      * intros (before & after & Heq & Hb & Hnot).
        destruct before as [|b before]; cbn in Heq.
        -- injection Heq as <- _. done.
        -- injection Heq as <- ->. exists before, after. split_and!; [done|done|].
           intros x Hx. apply Hnot. by right.
Qed.

Lemma find_label_None (labelLower : string) (drives : list DriveInfo) :
  find_label labelLower drives = None
  ↔ ∀ x, x ∈ drives → go_strings.ToLower (VolumeLabel x) ≠ labelLower.
Proof.
  induction drives as [|a rest IH]; cbn [find_label].
  - split; [|done]. intros _ x Hx. by apply elem_of_nil in Hx.
  - destruct (String.eqb (go_strings.ToLower (VolumeLabel a)) labelLower) eqn:E.
    + apply String.eqb_eq in E. split; [done|].
      intros Hall. exfalso. by apply (Hall a); [left|].
    + apply String.eqb_neq in E. rewrite IH. split.
      * intros Hall x [->|Hx]%elem_of_cons; [done|by apply Hall].
      * intros Hall x Hx. apply Hall. by right.
Qed.

(** X11: [findDriveByLabelImpl] returns the first listed drive whose volume
    label equals the wanted label up to the case of its letters, and the
    error [drive with label '...' not found] exactly when no listed
    drive has such a label; an error of the listing is passed on; and two
    spellings of a label that differ in case only find the same drive. *)
Theorem drive_is_found_by_label_without_case (drives : list DriveInfo) (label : string) :
  (∀ d, findDriveByLabelImpl (inl drives) label = inl d
        ↔ ∃ before after, drives = (before ++ d :: after)%list
            ∧ go_strings.ToLower (VolumeLabel d) = go_strings.ToLower label
            ∧ ∀ x, x ∈ before →
                go_strings.ToLower (VolumeLabel x) ≠ go_strings.ToLower label)
  ∧ (findDriveByLabelImpl (inl drives) label
       = inr ("drive with label '" ++ label ++ "' not found")%string
     ↔ ∀ x, x ∈ drives → go_strings.ToLower (VolumeLabel x) ≠ go_strings.ToLower label)
  ∧ (∀ e, findDriveByLabelImpl (inl drives) label = inr e →
          e = ("drive with label '" ++ label ++ "' not found")%string)
  ∧ (∀ err, findDriveByLabelImpl (inr err) label = inr err)
  ∧ (∀ label' d, go_strings.ToLower label' = go_strings.ToLower label →
       (findDriveByLabelImpl (inl drives) label' = inl d
        ↔ findDriveByLabelImpl (inl drives) label = inl d)).
Proof.
  unfold findDriveByLabelImpl. split_and!.
  - intros d. rewrite <- find_label_Some.
    destruct (find_label _ drives); split; congruence.
  - rewrite <- find_label_None.
    destruct (find_label _ drives); split; congruence.
  - intros e. destruct (find_label _ drives); congruence.
  - done.
  - intros label' d Heq. rewrite Heq.
    destruct (find_label _ drives); split; congruence.
Qed.

End drives.

Section volumes.
Import drive.
Context `{Unicode}.

Lemma split_slash_no_separator (s cur : string) :
  no_separator s = true → go_strings.split_slash s cur = [String.rev_app cur s].
Proof.
  revert cur. induction s as [|c s IH]; intros cur Hs; cbn [go_strings.split_slash].
  - done.
  - cbn [no_separator] in Hs. apply andb_prop in Hs as [Hc Hs].
    apply negb_true_iff in Hc. rewrite Hc. by rewrite IH.
Qed.

Lemma Join_Volumes (name : string) :
  entry_name name = true →
  filepath.Join [volumesPath; name] = ("/Volumes/" ++ name)%string.
Proof.
  unfold entry_name. intros Hn.
  apply andb_prop in Hn as [[[Hsep He%negb_true_iff]%andb_prop Hd%negb_true_iff]%andb_prop
                              Hdd%negb_true_iff].
  unfold volumesPath.
  change (filepath.Join ["/Volumes"; name])
    with (filepath.Clean (String "/" (String "V" (String "o" (String "l" (String "u"
            (String "m" (String "e" (String "s" (String "/" name)))))))))).
  unfold filepath.Clean.
  cbn [String.eqb Ascii.eqb Bool.eqb].
  change (go_strings.HasPrefix _ "/") with true. cbv zeta.
  cbn [go_strings.split_slash Ascii.eqb Bool.eqb].
  rewrite (split_slash_no_separator name "" Hsep).
  cbn [String.rev String.rev_app foldl].
  change (filepath.clean_step true ([], 0%nat) "") with (@nil string, 0%nat).
  change (filepath.clean_step true ([], 0%nat) "Volumes") with (["Volumes"], 0%nat).
  unfold filepath.clean_step. rewrite He, Hd, Hdd. cbn [orb fst].
  reflexivity.
Qed.

Lemma darwin_loop (entries : list (string * bool)) (accessible : string → bool)
    (drives : list DriveInfo) :
  Forall (λ e : string * bool, entry_name e.1 = true) entries →
  foldl
    (λ drives (entry : string * bool),
       if negb entry.2 then drives
       else
         let volumeName := entry.1 in
         let volumePath := filepath.Join [volumesPath; volumeName] in
         if negb (accessible volumePath) then drives
         else (drives ++ [mkDriveInfo volumePath volumeName ""])%list)
    drives entries
  = (drives
     ++ ((λ e : string * bool, mkDriveInfo ("/Volumes/" ++ e.1) e.1 "")
           <$> filter (λ e : string * bool,
                         e.2 = true ∧ accessible ("/Volumes/" ++ e.1)%string = true)
                      entries))%list.
Proof.
  intros Hall. revert drives.
  induction Hall as [|[name dir] entries Hname _ IH]; intros drives; cbn [foldl].
  - by rewrite filter_nil, app_nil_r.
  - rewrite IH, filter_cons. cbn [fst snd] in *. cbv zeta.
    rewrite (Join_Volumes name Hname).
    destruct dir; cbn [negb].
    + destruct (accessible ("/Volumes/" ++ name)) eqn:Ea; cbn [negb].
      * rewrite decide_True by done. cbn [fmap list_fmap]. by rewrite <- app_assoc.
      * rewrite decide_False by (intros [_ ?]; done). done.
    + rewrite decide_False by (intros [? _]; done). done.
Qed.

(** X12: on macOS the drives listed are the accessible directories of
    [/Volumes], in the order of the directory listing, each at
    [/Volumes/<name>] with its name as label and no letter; so the drive
    found for a label lies at [/Volumes/] followed by the volume's own
    spelling of the label.  A failure to read [/Volumes] is the error of
    both functions. *)
Theorem volumes_are_listed_under_Volumes (entries : list (string * bool))
    (accessible : string → bool) :
  Forall (λ e : string * bool, entry_name e.1 = true) entries →
  listAllDrivesImpl_darwin (inl entries) accessible
  = inl ((λ e : string * bool, mkDriveInfo ("/Volumes/" ++ e.1) e.1 "")
           <$> filter (λ e : string * bool,
                         e.2 = true ∧ accessible ("/Volumes/" ++ e.1)%string = true)
                      entries)
  ∧ (∀ label d,
       findDriveByLabelImpl (listAllDrivesImpl_darwin (inl entries) accessible) label
       = inl d →
       Path d = ("/Volumes/" ++ VolumeLabel d)%string
       ∧ Letter d = ""
       ∧ go_strings.ToLower (VolumeLabel d) = go_strings.ToLower label
       ∧ (VolumeLabel d, true) ∈ entries
       ∧ accessible (Path d) = true)
  ∧ (∀ err label,
       findDriveByLabelImpl (listAllDrivesImpl_darwin (inr err) accessible) label
       = inr ("failed to read /Volumes: " ++ err)%string).
Proof.
  intros Hall.
  assert (Hlist : listAllDrivesImpl_darwin (inl entries) accessible
    = inl ((λ e : string * bool, mkDriveInfo ("/Volumes/" ++ e.1) e.1 "")
           <$> filter (λ e : string * bool,
                         e.2 = true ∧ accessible ("/Volumes/" ++ e.1)%string = true)
                      entries)).
  { unfold listAllDrivesImpl_darwin. f_equal.
    exact (darwin_loop entries accessible [] Hall). }
  split_and!; [done| |done].
  intros label d. rewrite Hlist. unfold findDriveByLabelImpl.
  destruct (find_label _ _) as [d'|] eqn:Hfind; [|done].
  intros [= ->]. apply find_label_Some in Hfind as (before & after & Heq & Hlabel & _).
  assert (Hin : d ∈ (λ e : string * bool, mkDriveInfo ("/Volumes/" ++ e.1) e.1 "")
           <$> filter (λ e : string * bool,
                         e.2 = true ∧ accessible ("/Volumes/" ++ e.1)%string = true)
                      entries).
  { rewrite Heq. apply elem_of_app. right. left. }
  apply list_elem_of_fmap in Hin as ([name dir] & -> & Hin).
  apply list_elem_of_filter in Hin as [[Hdir Hacc] Hin]. cbn [fst snd] in *. subst dir.
  cbn [Path VolumeLabel Letter] in *. done.
Qed.

End volumes.

Section windows.
Import drive.
Context (decode : list Z → string) (getVolumeLabel : string → string).

Lemma string_end_eq (buffer : list Z) (ret j fuel : nat) :
  string_end buffer ret j fuel
  = if negb (j <? ret)%nat then Returns j
    else
      match buffer !! j with
      | None => IndexOutOfRange
      | Some unit =>
          if unit =? 0 then Returns j
          else
            match fuel with
            | O => OutOfFuel
            | S fuel' => string_end buffer ret (S j) fuel'
            end
      end.
Proof. destruct fuel; reflexivity. Qed.

Lemma parse_drives_eq (buffer : list Z) (ret i : nat) (drives : list DriveInfo)
    (fuel : nat) :
  parse_drives decode getVolumeLabel buffer ret i drives fuel
  = if negb (i <? ret)%nat then Returns drives
    else
      match string_end buffer ret i ret with
      | IndexOutOfRange => IndexOutOfRange
      | OutOfFuel => OutOfFuel
      | Returns j =>
          let drives :=
            if (i <? j)%nat
            then (drives ++ [drive_of decode getVolumeLabel
                               (take (j - i) (drop i buffer))])%list
            else drives in
          match fuel with
          | O => OutOfFuel
          | S fuel' =>
              parse_drives decode getVolumeLabel buffer ret (S j) drives fuel'
          end
      end.
Proof. destruct fuel; reflexivity. Qed.

Lemma string_end_spec (buffer : list Z) (ret fuel j : nat) :
  (ret - j ≤ fuel)%nat →
  match string_end buffer ret j fuel with
  | Returns j' =>
      (j ≤ j')%nat ∧ (j' ≤ ret ∨ j' = j)%nat
      ∧ ((j' < ret)%nat → buffer !! j' = Some 0)
      ∧ (∀ k, (j ≤ k < j')%nat → ∃ u, buffer !! k = Some u ∧ u ≠ 0)
  | IndexOutOfRange => (length buffer < ret)%nat
  | OutOfFuel => False
  end.
Proof.
  revert j. induction fuel as [|fuel IH]; intros j Hfuel; rewrite string_end_eq.
  - destruct (j <? ret)%nat eqn:Hj; cbn [negb].
    + apply Nat.ltb_lt in Hj. lia.
    + apply Nat.ltb_ge in Hj. split_and!; lia.
  - destruct (j <? ret)%nat eqn:Hj; cbn [negb].
    + apply Nat.ltb_lt in Hj.
      destruct (buffer !! j) as [u|] eqn:Hu.
      * destruct (u =? 0) eqn:Hz.
        -- apply Z.eqb_eq in Hz. subst u. split_and!; try lia. done.
        -- apply Z.eqb_neq in Hz.
           specialize (IH (S j) ltac:(lia)).
           destruct (string_end buffer ret (S j) fuel) as [j'| |]; [|done|done].
           destruct IH as (H1 & H2 & H3 & H4). split_and!; try lia; [done|].
           intros k Hk. destruct (decide (k = j)) as [->|Hne]; [by exists u|].
           apply H4. lia.
      * apply lookup_ge_None in Hu. lia.
    + apply Nat.ltb_ge in Hj. split_and!; lia.
Qed.

Lemma parse_drives_in_bounds (buffer : list Z) (ret fuel i : nat)
    (drives : list DriveInfo) :
  (ret ≤ length buffer)%nat → (ret - i ≤ fuel)%nat →
  ∃ r, parse_drives decode getVolumeLabel buffer ret i drives fuel = Returns r.
Proof.
  intros Hret. revert i drives.
  induction fuel as [|fuel IH]; intros i drives Hfuel; rewrite parse_drives_eq.
  - destruct (i <? ret)%nat eqn:Hi; cbn [negb]; [|by eexists].
    apply Nat.ltb_lt in Hi. lia.
  - destruct (i <? ret)%nat eqn:Hi; cbn [negb]; [|by eexists].
    apply Nat.ltb_lt in Hi.
    pose proof (string_end_spec buffer ret ret i ltac:(lia)) as Hs.
    destruct (string_end buffer ret i ret) as [j| |]; [|lia|done].
    destruct Hs as (H1 & _). cbv zeta. apply IH. lia.
Qed.

Lemma parse_drives_overrun (buffer : list Z) (ret fuel i : nat)
    (drives : list DriveInfo) :
  (length buffer < ret)%nat → (i ≤ length buffer)%nat → (ret - i ≤ fuel)%nat →
  parse_drives decode getVolumeLabel buffer ret i drives fuel = IndexOutOfRange.
Proof.
  intros Hret. revert i drives.
  induction fuel as [|fuel IH]; intros i drives Hi Hfuel; [lia|].
  rewrite parse_drives_eq.
  assert (Hlt : (i <? ret)%nat = true) by (apply Nat.ltb_lt; lia).
  rewrite Hlt. cbn [negb].
  pose proof (string_end_spec buffer ret ret i ltac:(lia)) as Hs.
  destruct (string_end buffer ret i ret) as [j| |]; [|done|done].
  destruct Hs as (H1 & H2 & H3 & H4). cbv zeta.
  assert (Hj : (j < length buffer)%nat).
  { destruct (decide (j < length buffer)%nat) as [|Hge]; [done|]. exfalso.
    destruct (decide (j = length buffer)) as [->|Hne].
    - specialize (H3 ltac:(lia)). apply lookup_lt_Some in H3. lia.
    - destruct (H4 (length buffer) ltac:(lia)) as (u & Hu & _).
      apply lookup_lt_Some in Hu. lia. }
  apply IH; lia.
Qed.

(** X13: the loop that splits the buffer of [GetLogicalDriveStringsW]
    stays inside the buffer exactly when the count the call has returned
    does not exceed the buffer's length: then [listAllDrivesImpl]
    returns, and for a larger count (the call reports the length it
    needs when 256 code units are too few) it always reads past the end
    of the buffer.  The loop ends in either case. *)
Theorem drive_buffer_is_read_within_bounds (buffer : list Z) (ret : nat) (err : string) :
  ((ret ≤ length buffer)%nat →
     ∃ r, listAllDrivesImpl_windows decode getVolumeLabel buffer ret err = Returns r)
  ∧ ((length buffer < ret)%nat →
     listAllDrivesImpl_windows decode getVolumeLabel buffer ret err = IndexOutOfRange)
  ∧ listAllDrivesImpl_windows decode getVolumeLabel buffer ret err ≠ OutOfFuel
  ∧ (ret = 0%nat →
     listAllDrivesImpl_windows decode getVolumeLabel buffer ret err
     = Returns (inr ("GetLogicalDriveStrings failed: " ++ err)%string)).
Proof.
  unfold listAllDrivesImpl_windows.
  assert (Hin : (ret ≤ length buffer)%nat →
    ∃ r, (if (ret =? 0)%nat
          then Returns (inr ("GetLogicalDriveStrings failed: " ++ err)%string)
          else match parse_drives decode getVolumeLabel buffer ret 0 [] ret with
               | Returns drives => Returns (inl drives)
               | IndexOutOfRange => IndexOutOfRange
               | OutOfFuel => OutOfFuel
               end) = Returns r).
  { intros Hle. destruct (ret =? 0)%nat; [by eexists|].
    destruct (parse_drives_in_bounds buffer ret ret 0 [] Hle ltac:(lia)) as [r ->].
    by eexists. }
  assert (Hout : (length buffer < ret)%nat →
    (if (ret =? 0)%nat
     then Returns (inr ("GetLogicalDriveStrings failed: " ++ err)%string)
     else match parse_drives decode getVolumeLabel buffer ret 0 [] ret with
          | Returns drives => Returns (inl drives)
          | IndexOutOfRange => IndexOutOfRange
          | OutOfFuel => OutOfFuel
          end) = IndexOutOfRange).
  { intros Hlt. destruct (ret =? 0)%nat eqn:Hz; [apply Nat.eqb_eq in Hz; lia|].
    by rewrite (parse_drives_overrun buffer ret ret 0 [] Hlt ltac:(lia) ltac:(lia)). }
  split_and!; [done|done| |].
  - destruct (decide (ret ≤ length buffer)%nat) as [Hle|Hgt].
    + destruct (Hin Hle) as [r ->]. done.
    + rewrite Hout by lia. done.
  - intros ->. done.
Qed.

Lemma drive_strings_cons (p : list Z) (paths : list (list Z)) :
  drive_strings (p :: paths) = (p ++ 0 :: drive_strings paths)%list.
Proof. unfold drive_strings. cbn. by rewrite <- app_assoc. Qed.

Lemma string_end_of_path (pre p rest : list Z) (ret : nat) :
  Forall (λ u, u ≠ 0) p →
  (length pre + length p < ret)%nat →
  (ret ≤ length (pre ++ p ++ 0%Z :: rest)%list)%nat →
  string_end (pre ++ p ++ 0 :: rest)%list ret (length pre) ret
  = Returns (length pre + length p)%nat.
Proof.
  intros Hp Hret Hlen.
  assert (Hat : ∀ k, (k < length p)%nat →
            ∃ u, (pre ++ p ++ 0 :: rest)%list !! (length pre + k)%nat = Some u ∧ u ≠ 0).
  { intros k Hk. rewrite lookup_app_r by lia.
    replace (length pre + k - length pre)%nat with k by lia.
    rewrite lookup_app_l by done.
    destruct (lookup_lt_is_Some_2 p k Hk) as [u Hu]. exists u. split; [done|].
    by eapply Forall_lookup_1 in Hp. }
  assert (Hzero : (pre ++ p ++ 0 :: rest)%list !! (length pre + length p)%nat = Some 0).
  { rewrite lookup_app_r by lia.
    replace (length pre + length p - length pre)%nat with (length p) by lia.
    rewrite lookup_app_r by lia. by rewrite Nat.sub_diag. }
  pose proof (string_end_spec (pre ++ p ++ 0 :: rest)%list ret ret (length pre)
                ltac:(lia)) as Hs.
  destruct (string_end _ ret (length pre) ret) as [j| |]; [|lia|done].
  destruct Hs as (H1 & H2 & H3 & H4). f_equal.
  destruct (decide (j < length pre + length p)%nat) as [Hlt|Hge].
  - specialize (H3 ltac:(lia)).
    destruct (Hat (j - length pre)%nat ltac:(lia)) as (u & Hu & Hnz).
    replace (length pre + (j - length pre))%nat with j in Hu by lia. congruence.
  - destruct (decide (j = length pre + length p)%nat) as [|Hne]; [done|].
    destruct (H4 (length pre + length p)%nat ltac:(lia)) as (u & Hu & Hnz). congruence.
Qed.

Lemma drive_strings_length (paths : list (list Z)) :
  (length paths ≤ length (drive_strings paths))%nat.
Proof.
  induction paths as [|p paths IH]; [done|].
  rewrite drive_strings_cons, length_app. cbn [length]. lia.
Qed.

Lemma parse_drives_strings (paths : list (list Z)) (pre rest : list Z)
    (drives : list DriveInfo) (fuel : nat) :
  Forall (λ p, p ≠ [] ∧ Forall (λ u, u ≠ 0) p) paths →
  (length paths ≤ fuel)%nat →
  parse_drives decode getVolumeLabel (pre ++ drive_strings paths ++ rest)%list
    (length pre + length (drive_strings paths)) (length pre) drives fuel
  = Returns (drives ++ (drive_of decode getVolumeLabel <$> paths))%list.
Proof.
  intros Hall. revert pre drives fuel.
  induction Hall as [|p paths [Hne Hp] _ IH]; intros pre drives fuel Hfuel;
    rewrite parse_drives_eq.
  - cbn [drive_strings fmap list_fmap concat length].
    rewrite Nat.add_0_r, Nat.ltb_irrefl. cbn [negb]. by rewrite app_nil_r.
  - rewrite drive_strings_cons. rewrite <- (app_assoc p). cbn [app].
    assert (Hlt : (length pre <? length pre + length (p ++ 0%Z :: drive_strings paths)%list)%nat
                  = true).
    { apply Nat.ltb_lt. rewrite length_app. cbn [length]. lia. }
    rewrite Hlt. cbn [negb].
    rewrite string_end_of_path; [|done| |].
    + cbv zeta.
      assert (Hpos : (length pre <? length pre + length p)%nat = true).
      { apply Nat.ltb_lt. destruct p; [done|]. cbn [length]. lia. }
      rewrite Hpos.
      replace (length pre + length p - length pre)%nat with (length p) by lia.
      rewrite drop_app_length, take_app_length.
      destruct fuel as [|fuel]; [cbn [length] in Hfuel; lia|].
      specialize (IH (pre ++ p ++ [0])%list
                    (drives ++ [drive_of decode getVolumeLabel p])%list fuel
                    ltac:(cbn [length] in Hfuel; lia)).
      rewrite !length_app in IH. cbn [length] in IH.
      rewrite <- !app_assoc in IH. cbn [app] in IH.
      rewrite length_app. cbn [length].
      replace (length pre + (length p + S (length (drive_strings paths))))%nat
        with (length pre + (length p + 1) + length (drive_strings paths))%nat by lia.
      replace (S (length pre + length p)) with (length pre + (length p + 1))%nat by lia.
      rewrite IH. done.
    + rewrite length_app. cbn [length]. lia.
    + rewrite !length_app. cbn [length]. rewrite !length_app. lia.
Qed.

(** X14: the buffer of [GetLogicalDriveStringsW] is split back into the
    root paths the call has written: for non-empty paths without NUL,
    each followed by a NUL, and the count of these code units as the
    call's result, [listAllDrivesImpl] returns one drive per path, in
    order, whatever follows in the buffer. *)
Theorem drive_strings_are_parsed_back (paths : list (list Z)) (rest : list Z)
    (err : string) :
  paths ≠ [] →
  Forall (λ p, p ≠ [] ∧ Forall (λ u, u ≠ 0) p) paths →
  listAllDrivesImpl_windows decode getVolumeLabel (drive_strings paths ++ rest)%list
    (length (drive_strings paths)) err
  = Returns (inl (drive_of decode getVolumeLabel <$> paths)).
Proof.
  intros Hne Hall. unfold listAllDrivesImpl_windows.
  pose proof (drive_strings_length paths) as Hlen.
  destruct (length (drive_strings paths) =? 0)%nat eqn:Hz.
  { apply Nat.eqb_eq in Hz. destruct paths; [done|]. cbn [length] in Hlen. lia. }
  pose proof (parse_drives_strings paths [] rest [] (length (drive_strings paths))
                Hall Hlen) as Hparse.
  cbn [app length Nat.add] in Hparse. rewrite Hparse. done.
Qed.

End windows.

(** ** The worker pool *)

Section pool.
Import scanner processor main.
Context (dngConverter : option DNGConverterConfig) (rt : RawTherapeeConfig).

Lemma working_insert (ws : list worker) (w : nat) (old new : worker) :
  ws !! w = Some old →
  (working (<[w := new]> ws) ++ working [old] ≡ₚ working ws ++ working [new])%list.
Proof.
  revert w. induction ws as [|a ws IH]; intros [|w] Hw; try done.
  - injection Hw as ->. cbn [insert list_insert working flat_map]. rewrite !app_nil_r.
    solve_Permutation.
  - specialize (IH w Hw). unfold working in *. cbn [insert list_insert flat_map].
    rewrite <- !app_assoc. f_equiv. exact IH.
Qed.

Lemma weight_insert (f : worker → nat) (ws : list worker) (w : nat) (old new : worker) :
  ws !! w = Some old →
  (list_sum (f <$> <[w := new]> ws) + f old = list_sum (f <$> ws) + f new)%nat.
Proof.
  revert w. induction ws as [|a ws IH]; intros [|w] Hw; try done.
  - injection Hw as ->. unfold list_sum.
    cbn [insert list_insert fmap list_fmap fold_right]. lia.
  - specialize (IH w Hw).
    change (<[S w := new]> (a :: ws)) with (a :: <[w := new]> ws).
    unfold list_sum in *. cbn [fmap list_fmap fold_right]. lia.
Qed.

(** X15: every step of the worker pool uses up one of a bounded number of
    steps: no run of the pool is longer than five steps per file plus one
    per worker plus two, so the sending loop, the workers and the
    collecting loop cannot go on for ever. *)
Theorem pool_steps_are_bounded (newRAWFiles : list FileInfo) (numWorkers : nat) :
  (∀ p p', step (length newRAWFiles) dngConverter rt p p' →
           (steps_left p' < steps_left p)%nat)
  ∧ steps_left (start newRAWFiles numWorkers)
    = (5 * length newRAWFiles + numWorkers + 2)%nat
  ∧ (∀ n p, nsteps (step (length newRAWFiles) dngConverter rt) n
              (start newRAWFiles numWorkers) p →
            (n + steps_left p ≤ 5 * length newRAWFiles + numWorkers + 2)%nat).
Proof.
  assert (Hstep : ∀ p p', step (length newRAWFiles) dngConverter rt p p' →
                          (steps_left p' < steps_left p)%nat).
  { intros p p' Hs. destruct Hs as [p j rest Hts Hcap|p Hts Hcl|p w j rest Hw Hj
      |p w j r Hw Hout Hcap|p w Hw Hj Hcl|p Hcl Hall Hrc|p r rest Hcl Hr];
      unfold steps_left;
      cbn [to_send jobs jobs_closed workers results results_closed received].
    - rewrite Hts, length_app. cbn [length]. lia.
    - rewrite Hts, Hcl. cbn [length]. lia.
    - rewrite Hj. cbn [length].
      pose proof (weight_insert (λ w : worker,
                    match w with Waiting => 1 | Working _ => 4 | Exited => 0 end)%nat
                    (workers p) w Waiting (Working j) Hw) as Hwt. cbv beta iota in Hwt. lia.
    - rewrite length_app. cbn [length].
      pose proof (weight_insert (λ w : worker,
                    match w with Waiting => 1 | Working _ => 4 | Exited => 0 end)%nat
                    (workers p) w (Working j) Waiting Hw) as Hwt. cbv beta iota in Hwt. lia.
    - pose proof (weight_insert (λ w : worker,
                    match w with Waiting => 1 | Working _ => 4 | Exited => 0 end)%nat
                    (workers p) w Waiting Exited Hw) as Hwt. cbv beta iota in Hwt. lia.
    - rewrite Hrc. lia.
    - rewrite Hr. cbn [length]. lia. }
  assert (Hstart : steps_left (start newRAWFiles numWorkers)
                   = (5 * length newRAWFiles + numWorkers + 2)%nat).
  { unfold steps_left, start, make_jobs.
    cbn [to_send jobs jobs_closed workers results results_closed received length].
    rewrite length_imap, fmap_replicate.
    assert (Hsum : ∀ n, list_sum (replicate n 1%nat) = n).
    { induction n as [|n IH]; [done|]. cbn [replicate].
      unfold list_sum in *. cbn [fold_right]. by rewrite IH. }
    rewrite Hsum. lia. }
  split_and!; [done|done|].
  intros n p Hn.
  assert (Hgen : ∀ n p0 p, nsteps (step (length newRAWFiles) dngConverter rt) n p0 p →
                   (n + steps_left p ≤ steps_left p0)%nat).
  { clear n p Hn. induction 1 as [|n p0 p1 p Hs _ IH]; [lia|].
    apply Hstep in Hs. lia. }
  apply Hgen in Hn. lia.
Qed.

Lemma working_replicate (n : nat) : working (replicate n Waiting) = [].
Proof. induction n as [|n IH]; [done|]. cbn. exact IH. Qed.

Lemma outcome_job_of (j : job) (r : processResult) :
  outcome dngConverter rt j r → job_of r = j.
Proof.
  intros (sys & c & ->). unfold job_of, result_of, process_job, time_Now.
  destruct j as [i f]. cbn [jobIndex jobRawFile].
  destruct dngConverter as [dc|].
  - destruct (ConvertFile dc sys (Path f)) as [[dng [e|]] calls]; cbn.
    + done.
    + destruct (ProcessFile rt sys dng) as [[out e] calls']. done.
  - cbn. destruct (ProcessFile rt sys (Path f)) as [[out e] calls']. done.
Qed.

Lemma pool_ok_start (newRAWFiles : list FileInfo) (numWorkers : nat) :
  pool_ok dngConverter rt newRAWFiles numWorkers (start newRAWFiles numWorkers).
Proof.
  unfold pool_ok, start.
  cbn [to_send jobs jobs_closed workers results results_closed received].
  rewrite working_replicate, length_replicate. cbn [fmap list_fmap app].
  rewrite app_nil_r. split_and!; try done.
  intros Hin. apply elem_of_replicate in Hin as [? _]. done.
Qed.

Lemma pool_ok_step (newRAWFiles : list FileInfo) (numWorkers : nat) (p p' : pool) :
  pool_ok dngConverter rt newRAWFiles numWorkers p →
  step (length newRAWFiles) dngConverter rt p p' →
  pool_ok dngConverter rt newRAWFiles numWorkers p'.
Proof.
  intros (Hperm & Hlen & Hclosed & Hexit & Hres & Hout) Hs.
  destruct Hs as [p j rest Hts Hcap|p Hts Hcl|p w j rest Hw Hj
      |p w j r Hw Hr Hcap|p w Hw Hj Hcl|p Hcl Hall Hrc|p r rest Hcl Hr];
    unfold pool_ok;
    cbn [to_send jobs jobs_closed workers results results_closed received].
  - split_and!; try done.
    + rewrite <- Hperm, Hts. solve_Permutation.
    + intros Hc. specialize (Hclosed Hc). congruence.
    + intros Hin. destruct (Hexit Hin) as [_ Hc]. specialize (Hclosed Hc). congruence.
  - split_and!; try done.
    + by rewrite <- Hperm, Hts.
    + intros Hin. by destruct (Hexit Hin) as [-> _].
  - pose proof (working_insert (workers p) w Waiting (Working j) Hw) as Hwk.
    cbn [working flat_map app] in Hwk. rewrite app_nil_r in Hwk.
    split_and!; try done.
    + rewrite <- Hperm, Hj, Hwk. solve_Permutation.
    + by rewrite length_insert.
    + intros Hin. exfalso.
      apply list_elem_of_lookup in Hin as [i Hi].
      destruct (decide (i = w)) as [->|Hne].
      * rewrite list_lookup_insert_eq in Hi by (by eapply lookup_lt_Some). done.
      * rewrite list_lookup_insert_ne in Hi by done.
        destruct (Hexit ltac:(by eapply list_elem_of_lookup_2)) as [Hnil _]. congruence.
    + intros Hc. specialize (Hres Hc).
      eapply Forall_lookup_1 in Hres; [|exact Hw]. done.
  - pose proof (working_insert (workers p) w (Working j) Waiting Hw) as Hwk.
    cbn [working flat_map app] in Hwk. rewrite app_nil_r in Hwk.
    pose proof (outcome_job_of j r Hr) as Hjob.
    split_and!; try done.
    + rewrite <- Hperm, <- Hwk, fmap_app. cbn [fmap list_fmap]. rewrite Hjob.
      solve_Permutation.
    + by rewrite length_insert.
    + intros Hin. apply Hexit.
      apply list_elem_of_lookup in Hin as [i Hi].
      destruct (decide (i = w)) as [->|Hne].
      * rewrite list_lookup_insert_eq in Hi by (by eapply lookup_lt_Some). done.
      * rewrite list_lookup_insert_ne in Hi by done.
        by eapply list_elem_of_lookup_2.
    + intros Hc. specialize (Hres Hc).
      eapply Forall_lookup_1 in Hres; [|exact Hw]. done.
    + rewrite <- app_assoc. cbn [app].
      apply Forall_app in Hout as [Ho1 Ho2].
      apply Forall_app. split; [done|]. apply Forall_cons. split; [|done].
      by rewrite Hjob.
  - pose proof (working_insert (workers p) w Waiting Exited Hw) as Hwk.
    cbn [working flat_map app] in Hwk. rewrite !app_nil_r in Hwk.
    split_and!; try done.
    + by rewrite Hwk.
    + by rewrite length_insert.
    + intros Hc. specialize (Hres Hc).
      eapply Forall_lookup_1 in Hres; [|exact Hw]. done.
  - split_and!; done.
  - split_and!; try done.
    + rewrite <- Hperm, Hr, fmap_app. cbn [fmap list_fmap]. solve_Permutation.
    + rewrite Hr in Hout. cbn [app] in Hout.
      apply Forall_cons in Hout as [Ho1 Ho2].
      apply Forall_app in Ho2 as [Ho2 Ho3].
      apply Forall_app. split; [done|]. apply Forall_app. split; [done|].
      by apply Forall_singleton.
Qed.

Lemma pool_ok_reachable (newRAWFiles : list FileInfo) (numWorkers : nat) (p : pool) :
  rtc (step (length newRAWFiles) dngConverter rt) (start newRAWFiles numWorkers) p →
  pool_ok dngConverter rt newRAWFiles numWorkers p.
Proof.
  intros Hr. revert p Hr. apply rtc_ind_r.
  - apply pool_ok_start.
  - intros q q' _ Hs IH. by eapply pool_ok_step.
Qed.



Lemma pool_ok_lengths (newRAWFiles : list FileInfo) (numWorkers : nat) (p : pool) :
  pool_ok dngConverter rt newRAWFiles numWorkers p →
  (length (to_send p) + length (jobs p) + length (working (workers p))
   + length (results p) + length (received p) = length newRAWFiles)%nat.
Proof.
  intros (Hperm & _). apply Permutation_length in Hperm.
  rewrite !length_app, !length_fmap in Hperm. unfold make_jobs in Hperm.
  rewrite length_imap in Hperm. lia.
Qed.

Lemma working_Exited (ws : list worker) :
  Forall (λ w, w = Exited) ws → working ws = [].
Proof. induction 1 as [|w ws -> _ IH]; [done|]. exact IH. Qed.

Lemma working_lookup (ws : list worker) (w : nat) (j : job) :
  ws !! w = Some (Working j) → j ∈ working ws.
Proof.
  revert w. induction ws as [|a ws IH]; intros [|w] Hw; try done.
  - injection Hw as ->. left.
  - unfold working. cbn [flat_map]. apply elem_of_app. right. by eapply IH.
Qed.

Lemma received_files (newRAWFiles : list FileInfo) (rs : list processResult) :
  job_of <$> rs ≡ₚ make_jobs newRAWFiles →
  rawFile <$> rs ≡ₚ newRAWFiles ∧ length rs = length newRAWFiles.
Proof.
  intros Hperm. split.
  - rewrite <- (make_jobs_files newRAWFiles), <- Hperm, <- list_fmap_compose. done.
  - apply Permutation_length in Hperm.
    rewrite length_fmap in Hperm. rewrite Hperm.
    unfold make_jobs. by rewrite length_imap.
Qed.

Lemma finished_pool (newRAWFiles : list FileInfo) (numWorkers : nat)
    (p : pool) :
  (0 < numWorkers)%nat →
  pool_ok dngConverter rt newRAWFiles numWorkers p →
  finished p →
  job_of <$> received p ≡ₚ make_jobs newRAWFiles
  ∧ to_send p = [] ∧ jobs p = [] ∧ jobs_closed p = true
  ∧ Forall (λ w, w = Exited) (workers p).
Proof.
  intros Hpos Hok [Hclosed Hempty].
  destruct Hok as (Hperm & Hlen & Hjc & Hexit & Hres & _).
  specialize (Hres Hclosed).
  assert (Hin : Exited ∈ workers p).
  { destruct (workers p) as [|w ws] eqn:Hws; [cbn in Hlen; lia|].
    apply Forall_cons in Hres as [-> _]. left. }
  destruct (Hexit Hin) as [Hjobs Hjclosed]. specialize (Hjc Hjclosed).
  rewrite Hjc, Hjobs, (working_Exited _ Hres), Hempty in Hperm.
  cbn [app fmap list_fmap] in Hperm.
  split_and!; done.
Qed.

(** X16: when the collecting loop is over, every job has been answered
    exactly once: for a pool of at least one worker, the results received
    are, up to their order, one result per job, each computed by the
    worker's loop body for that job; nothing is left to send, in the
    channels or with a worker, and every worker has exited. *)
Theorem every_job_is_collected_once (newRAWFiles : list FileInfo) (numWorkers : nat)
    (p : pool) :
  (0 < numWorkers)%nat →
  rtc (step (length newRAWFiles) dngConverter rt) (start newRAWFiles numWorkers) p →
  finished p →
  job_of <$> received p ≡ₚ make_jobs newRAWFiles
  ∧ rawFile <$> received p ≡ₚ newRAWFiles
  ∧ length (received p) = length newRAWFiles
  ∧ Forall (λ r, outcome dngConverter rt (job_of r) r) (received p)
  ∧ to_send p = [] ∧ jobs p = [] ∧ jobs_closed p = true
  ∧ Forall (λ w, w = Exited) (workers p).
Proof.
  intros Hpos Hreach Hfin.
  pose proof (pool_ok_reachable newRAWFiles numWorkers p Hreach) as Hok.
  destruct (finished_pool newRAWFiles numWorkers p Hpos Hok Hfin)
    as (Hjobs & Hsent & Hchan & Hjclosed & Hexited).
  destruct (received_files newRAWFiles (received p) Hjobs) as [Hfiles Hlen].
  destruct Hok as (_ & _ & _ & _ & _ & Hout).
  destruct Hfin as [_ Hempty]. rewrite Hempty in Hout. cbn [app] in Hout.
  split_and!; done.
Qed.

(** X17: the pool cannot get stuck, and no send ever waits for room in a
    channel: in every pool a run has reached, the [jobs] channel has room
    whenever the sending loop has a job to send, the [results] channel
    has room whenever a worker has a result to send, and either the
    collecting loop is over or some goroutine can take a step. *)
Theorem pool_never_blocks (newRAWFiles : list FileInfo) (numWorkers : nat) (p : pool) :
  rtc (step (length newRAWFiles) dngConverter rt) (start newRAWFiles numWorkers) p →
  (to_send p ≠ [] → (length (jobs p) < length newRAWFiles)%nat)
  ∧ (∀ w j, workers p !! w = Some (Working j) →
            (length (results p) < length newRAWFiles)%nat)
  ∧ (finished p ∨ ∃ p', step (length newRAWFiles) dngConverter rt p p').
Proof.
  intros Hreach.
  pose proof (pool_ok_reachable newRAWFiles numWorkers p Hreach) as Hok.
  pose proof (pool_ok_lengths newRAWFiles numWorkers p Hok) as Hlens.
  destruct Hok as (Hperm & Hlen & Hjc & Hexit & Hres & Hout).
  assert (Hsend : to_send p ≠ [] → (length (jobs p) < length newRAWFiles)%nat).
  { intros Hne. destruct (to_send p); [done|]. cbn [length] in Hlens. lia. }
  assert (Hwork : ∀ w j, workers p !! w = Some (Working j) →
                         (length (results p) < length newRAWFiles)%nat).
  { intros w j Hw. apply working_lookup in Hw.
    destruct (working (workers p)); [by apply elem_of_nil in Hw|].
    cbn [length] in Hlens. lia. }
  split_and!; [done|done|].
  destruct (to_send p) as [|j rest] eqn:Hts.
  2:{ right. eexists. eapply step_send; [exact Hts|]. apply Hsend. done. }
  destruct (jobs_closed p) eqn:Hcl.
  2:{ right. eexists. by eapply step_close_jobs. }
  destruct (results p) as [|r rest] eqn:Hr.
  2:{ right. eexists. by eapply step_receive. }
  destruct (results_closed p) eqn:Hrc.
  { left. by split. }
  assert (Hdec : ∀ w : worker, {w = Exited} + {w ≠ Exited})
    by (intros [|?|]; (by left) || (by right)).
  destruct (Forall_Exists_dec (λ w, w = Exited) (λ w, w ≠ Exited) Hdec (workers p))
    as [Hall|Hnot].
  { right. eexists. by eapply step_close_results. }
  apply Exists_exists in Hnot as (x & Hx & Hne).
  apply list_elem_of_lookup in Hx as [w Hw].
  destruct x as [|j|]; [| |done].
  - destruct (jobs p) as [|j rest] eqn:Hj.
    + right. eexists. by eapply (step_exit _ _ _ p w).
    + right. eexists. by eapply (step_take _ _ _ p w).
  - right.
    eexists. eapply (step_finish _ _ _ p w j
      (result_of (process_job dngConverter rt
                    (mkSys (λ _ _, ("", None)) (λ _, StatOk))
                    (mkClock (λ _, 0) 0%nat) j))); [done| |].
    + by eexists _, _.
    + rewrite Hr. by eapply Hwork.
Qed.

End pool.

(** ** The command line and the configuration *)

Section command_line.
Import main.

(** X18: the command line can only restrict a run: without flags the
    configuration is used as loaded; a flag can switch the dry run and
    the skipping of the upload on but not off, and RAW processing, the
    upload of camera JPGs and the cleanup off but not on; a limit or a
    worker count of 0 or less leaves the configured value; the settings
    without a flag are never changed; and applying the flags a second
    time changes nothing. *)
Theorem flags_only_restrict (f : Flags) (cfg : config.Config) :
  apply_overrides no_flags cfg = cfg
  ∧ apply_overrides f (apply_overrides f cfg) = apply_overrides f cfg
  ∧ (config.DryRun cfg = true → config.DryRun (apply_overrides f cfg) = true)
  ∧ (config.SkipUpload cfg = true → config.SkipUpload (apply_overrides f cfg) = true)
  ∧ (config.ProcessRAWFiles cfg = false →
       config.ProcessRAWFiles (apply_overrides f cfg) = false)
  ∧ (config.UploadCameraJPGs cfg = false →
       config.UploadCameraJPGs (apply_overrides f cfg) = false)
  ∧ (config.CleanupAfterUpload cfg = false →
       config.CleanupAfterUpload (apply_overrides f cfg) = false)
  ∧ (limit f ≤ 0 → config.Limit (apply_overrides f cfg) = config.Limit cfg)
  ∧ (workers_flag f ≤ 0 → config.Workers (apply_overrides f cfg) = config.Workers cfg)
  ∧ config.RawExtensions (apply_overrides f cfg) = config.RawExtensions cfg
  ∧ config.JPEGQuality (apply_overrides f cfg) = config.JPEGQuality cfg
  ∧ config.ConvertToDNG (apply_overrides f cfg) = config.ConvertToDNG cfg
  ∧ config.CleanupDNGFiles (apply_overrides f cfg) = config.CleanupDNGFiles cfg
  ∧ config.ImmichAlbum (apply_overrides f cfg) = config.ImmichAlbum cfg
  ∧ config.ImmichTags (apply_overrides f cfg) = config.ImmichTags cfg
  ∧ config.TagWithProfileName (apply_overrides f cfg) = config.TagWithProfileName cfg.
Proof.
  split_and!.
  - by destruct cfg.
  - unfold apply_overrides. cbn.
    destruct (String.eqb (driveLabel f) ""), (String.eqb (profilePath f) ""),
      (String.eqb (outputDir f) ""), (String.eqb (serverURL f) ""),
      (String.eqb (apiKey f) ""), (jpgOnly f), (noCameraJPGs f), (keepFiles f),
      (dryRun f), (skipUpload f), (limit f >? 0), (workers_flag f >? 0); reflexivity.
  - intros Hd. cbn. rewrite Hd. by destruct (dryRun f).
  - intros Hd. cbn. rewrite Hd. by destruct (skipUpload f).
  - intros Hd. cbn. rewrite Hd. by destruct (jpgOnly f).
  - intros Hd. cbn. rewrite Hd. by destruct (noCameraJPGs f).
  - intros Hd. cbn. rewrite Hd. by destruct (keepFiles f).
  - intros Hl. cbn. destruct (limit f >? 0) eqn:E; [|done].
    apply Z.gtb_gt in E. lia.
  - intros Hl. cbn. destruct (workers_flag f >? 0) eqn:E; [|done].
    apply Z.gtb_gt in E. lia.
  - done.
  - done.
  - done.
  - done.
  - done.
  - done.
  - done.
Qed.

Lemma Validate_None (cfg : config.Config) (stat : string → processor.stat_result) :
  config.Validate cfg stat = None
  ↔ config.DriveLabel cfg ≠ ""
    ∧ (config.ProcessRAWFiles cfg = true →
         config.PP3ProfilePath cfg ≠ ""
         ∧ stat (config.PP3ProfilePath cfg) ≠ processor.StatNotExist)
    ∧ (config.SkipUpload cfg = false →
         config.ImmichServerURL cfg ≠ "" ∧ config.ImmichAPIKey cfg ≠ "")
    ∧ 1 ≤ config.JPEGQuality cfg ≤ 100.
Proof.
  unfold config.Validate.
  destruct (String.eqb_spec (config.DriveLabel cfg) "") as [Hd|Hd].
  { split; [done|]. by intros [? _]. }
  destruct (config.ProcessRAWFiles cfg) eqn:Hraw; cbn [andb].
  - destruct (String.eqb_spec (config.PP3ProfilePath cfg) "") as [Hp|Hp].
    { split; [done|]. intros (_ & Hx & _). by destruct (Hx eq_refl). }
    destruct (stat (config.PP3ProfilePath cfg)) eqn:Hs;
      try (split; [done|]; intros (_ & Hx & _); by destruct (Hx eq_refl)).
    all: destruct (config.SkipUpload cfg) eqn:Hsk; cbn [negb andb].
    all: try destruct (String.eqb_spec (config.ImmichServerURL cfg) "") as [Hu|Hu];
      try (split; [done|]; intros (_ & _ & Hx & _); by destruct (Hx eq_refl)).
    all: try destruct (String.eqb_spec (config.ImmichAPIKey cfg) "") as [Hk|Hk];
      try (split; [done|]; intros (_ & _ & Hx & _); by destruct (Hx eq_refl)).
    all: destruct (config.JPEGQuality cfg <? 1) eqn:Hlo;
      destruct (config.JPEGQuality cfg >? 100) eqn:Hhi; cbn [orb];
      try apply Z.ltb_lt in Hlo; try apply Z.ltb_ge in Hlo;
      try apply Z.gtb_gt in Hhi;
      try (rewrite Z.gtb_ltb in Hhi; apply Z.ltb_ge in Hhi);
      (split; [try done; intros _; split_and!; try done; lia
              |try done; intros (_ & _ & _ & ?); lia]).
  - destruct (config.SkipUpload cfg) eqn:Hsk; cbn [negb andb].
    all: try destruct (String.eqb_spec (config.ImmichServerURL cfg) "") as [Hu|Hu];
      try (split; [done|]; intros (_ & _ & Hx & _); by destruct (Hx eq_refl)).
    all: try destruct (String.eqb_spec (config.ImmichAPIKey cfg) "") as [Hk|Hk];
      try (split; [done|]; intros (_ & _ & Hx & _); by destruct (Hx eq_refl)).
    all: destruct (config.JPEGQuality cfg <? 1) eqn:Hlo;
      destruct (config.JPEGQuality cfg >? 100) eqn:Hhi; cbn [orb];
      try apply Z.ltb_lt in Hlo; try apply Z.ltb_ge in Hlo;
      try apply Z.gtb_gt in Hhi;
      try (rewrite Z.gtb_ltb in Hhi; apply Z.ltb_ge in Hhi);
      (split; [try done; intros _; split_and!; try done; lia
              |try done; intros (_ & _ & _ & ?); lia]).
Qed.

End command_line.

Section uploader_setup.
Import main.

(** X19: [Validate] accepts a configuration exactly when the drive label
    is set, the JPEG quality lies between 1 and 100, the profile is set
    and not missing if RAW files are processed, and the server URL and
    API key are set unless the upload is skipped.  After it, the only
    error with which [run] can fail to set up the uploader is a missing
    [immich-go]; and when the upload is skipped, [run] makes no call and
    leaves the uploader [nil]. *)
Theorem validated_config_has_what_the_uploader_needs (cfg : config.Config)
    (stat : string → processor.stat_result) :
  (config.Validate cfg stat = None
   ↔ config.DriveLabel cfg ≠ ""
     ∧ (config.ProcessRAWFiles cfg = true →
          config.PP3ProfilePath cfg ≠ ""
          ∧ stat (config.PP3ProfilePath cfg) ≠ processor.StatNotExist)
     ∧ (config.SkipUpload cfg = false →
          config.ImmichServerURL cfg ≠ "" ∧ config.ImmichAPIKey cfg ≠ "")
     ∧ 1 ≤ config.JPEGQuality cfg ≤ 100)
  ∧ (config.Validate cfg stat = None → config.SkipUpload cfg = false →
     ∀ verbose find w log,
       match (init_uploader cfg verbose find w log).1 with
       | sys.Value (inl (Some im)) =>
           uploader.ServerURL im = config.ImmichServerURL cfg
           ∧ uploader.APIKey im = config.ImmichAPIKey cfg
           ∧ uploader.Album im = config.ImmichAlbum cfg
           ∧ uploader.Tags im = config.ImmichTags cfg
           ∧ uploader.ShowProgress im = verbose
       | sys.Value (inl None) => False
       | sys.Value (inr err) =>
           ∃ exe e, err = ("failed to initialize Immich uploader: "
                           ++ "immich-go not found at '" ++ exe ++ "': " ++ e)%string
       | sys.Panic _ => ∃ msg log', find w log = (sys.Panic msg, log')
       end)
  ∧ (config.SkipUpload cfg = true →
     ∀ verbose find w log,
       init_uploader cfg verbose find w log = (sys.Value (inl None), log)).
Proof.
  split_and!.
  - apply Validate_None.
  - intros Hv Hsk verbose find w log.
    apply Validate_None in Hv as (_ & _ & Hup & _).
    destruct (Hup Hsk) as [Hurl Hkey].
    apply String.eqb_neq in Hurl, Hkey.
    unfold init_uploader. rewrite Hsk. cbn [negb].
    unfold uploader.NewImmich, immichConfig, sys.bind, sys.ret, sys.exec_LookPath.
    cbn [uploader.ExecutablePath uploader.ServerURL uploader.APIKey uploader.Album
         uploader.Tags uploader.ShowProgress].
    destruct (String.eqb (config.ImmichExecutable cfg) "").
    + destruct (find w log) as [[exe|msg] log'] eqn:Hfind.
      * cbn [uploader.ExecutablePath uploader.ServerURL uploader.APIKey].
        destruct (sys.look_path w (length log') exe) as [p|e]; cbv beta iota.
        -- cbn [uploader.ExecutablePath uploader.ServerURL uploader.APIKey].
           rewrite Hurl, Hkey. cbn. repeat split.
        -- cbn. by eexists _, _.
      * cbn. by eexists _, _.
    + cbv beta iota.
      cbn [uploader.ExecutablePath uploader.ServerURL uploader.APIKey].
      destruct (sys.look_path w (length log) (config.ImmichExecutable cfg)) as [p|e];
        cbv beta iota.
      * cbn [uploader.ExecutablePath uploader.ServerURL uploader.APIKey].
        rewrite Hurl, Hkey. cbn. repeat split.
      * cbn. by eexists _, _.
  - intros Hsk verbose find w log. unfold init_uploader. by rewrite Hsk.
Qed.

End uploader_setup.

Section jpg_only.
Import state scanner main.
Context `{TimeJSON}.

(** [uploadSingleFile], call by call. *)
Lemma uploadSingleFile_calls (im : uploader.Immich) (filePath : string)
    (tags : list string) (w : sys.World) (log : list sys.call) :
  uploader.uploadSingleFile im filePath tags w log
  = let n := length log in
    match sys.stat w n filePath with
    | processor.StatNotExist =>
        (sys.Value (Some ("file not found: " ++ filePath)%string),
         (log ++ [sys.Stat filePath])%list)
    | _ =>
        match sys.mkdir_temp w (n + 1)%nat "" "immich-upload-*" with
        | inr err =>
            (sys.Value (Some ("failed to create temp directory: " ++ err)%string),
             (log ++ [sys.Stat filePath; sys.MkdirTemp "" "immich-upload-*"])%list)
        | inl tempDir =>
            let destPath := filepath.Join [tempDir; filepath.Base filePath] in
            match sys.copy_file w (n + 2)%nat filePath destPath with
            | Some err =>
                (sys.Value
                   (Some ("failed to copy file to temp directory: " ++ err)%string),
                 (log ++ [sys.Stat filePath; sys.MkdirTemp "" "immich-upload-*";
                          sys.CopyFile filePath destPath;
                          sys.RemoveAll tempDir])%list)
            | None =>
                match im with
                | None =>
                    (sys.Panic uploader.nil_dereference,
                     (log ++ [sys.Stat filePath; sys.MkdirTemp "" "immich-upload-*";
                              sys.CopyFile filePath destPath;
                              sys.RemoveAll tempDir])%list)
                | Some config =>
                    let exe := uploader.ExecutablePath config in
                    let args := uploader.upload_args config tempDir tags false in
                    (sys.Value
                       match sys.run w (n + 3)%nat exe args with
                       | (_, None) => None
                       | (output, Some err) =>
                           if uploader.ShowProgress config
                           then Some ("immich-go upload failed: " ++ err)%string
                           else Some ("immich-go upload failed: " ++ err
                                      ++ processor.newline ++ "Output: " ++ output)%string
                       end,
                     (log ++ [sys.Stat filePath; sys.MkdirTemp "" "immich-upload-*";
                              sys.CopyFile filePath destPath;
                              sys.Run exe args;
                              sys.RemoveAll tempDir])%list)
                end
            end
        end
    end.
Proof.
  cbv zeta. unfold uploader.uploadSingleFile, sys.bind, sys.os_Stat, sys.os_MkdirTemp,
    sys.defer, sys.copy, sys.os_RemoveAll, sys.ret.
  cbv beta iota.
  destruct (sys.stat w (length log) filePath) eqn:Hst; cbv beta iota; try done.
  all: rewrite !length_app; cbn [length].
  all: destruct (sys.mkdir_temp w (length log + 1) "" "immich-upload-*")
         as [tempDir|e] eqn:Hmk; cbv beta iota;
       [|by rewrite <- !app_assoc].
  all: rewrite !length_app; cbn [length];
       rewrite <- !Nat.add_assoc; cbn [Nat.add].
  all: destruct (sys.copy_file w (length log + 2) filePath _) as [e|] eqn:Hcp;
       cbv beta iota; cbn [fst snd];
       [by rewrite <- !app_assoc|].
  all: destruct im as [config|]; cbn [uploader.uploadDirectory];
       unfold sys.bind, sys.cmd_Run, sys.panic, sys.ret;
       [|cbn [fst snd]; by rewrite <- !app_assoc].
  all: rewrite !length_app; cbn [length];
       rewrite <- !Nat.add_assoc; cbn [Nat.add].
  all: destruct (sys.run w (length log + 3) _ _) as [output [err|]];
       [destruct (uploader.ShowProgress config)|];
       cbn [fst snd]; by rewrite <- !app_assoc.
Qed.

Lemma no_Run_in (calls : list sys.call) :
  Forall (λ c, match c with sys.Run _ _ => False | _ => True end) calls →
  ∀ exe args, sys.Run exe args ∉ calls.
Proof.
  intros Hall exe args Hin. eapply Forall_forall in Hall; [|exact Hin]. done.
Qed.

(** What one upload makes of the log and when it succeeds. *)
Lemma UploadFile_outcome (im : uploader.Immich) (filePath : string)
    (tags : list string) (w : sys.World) (log : list sys.call) :
  let out := uploader.UploadFile im filePath tags w log in
  ∃ calls, out.2 = (log ++ calls)%list
    ∧ (im = None → ∀ exe args, sys.Run exe args ∉ calls)
    ∧ match out.1 with
      | sys.Value None =>
          ∃ i exe args,
            out.2 !! i = Some (sys.Run exe args)
            ∧ (length log ≤ i)%nat ∧ (sys.run w i exe args).2 = None
            ∧ im ≠ None
      | sys.Value (Some _) => True
      | sys.Panic _ => im = None
      end.
Proof.
  cbv zeta. unfold uploader.UploadFile. rewrite uploadSingleFile_calls. cbv zeta.
  destruct (sys.stat w (length log) filePath).
  1,3: destruct (sys.mkdir_temp w (length log + 1) "" "immich-upload-*") as [tempDir|e].
  1,3: destruct (sys.copy_file w (length log + 2) filePath _) as [e|].
  2,4: destruct im as [config|].
  2,4: destruct (sys.run w (length log + 3) (uploader.ExecutablePath config) _)
         as [output [err|]] eqn:Hrun.
  all: cbn [fst snd].
  all: eexists; split; [reflexivity|].
  all: split; [first [ done | intros _; apply no_Run_in; by repeat constructor ]|].
  all: try done.
  all: try (by destruct (uploader.ShowProgress config)).
  all: eexists (length log + 3)%nat, _, _; split_and!; [|lia| |done].
  all: try (rewrite lookup_app_r by lia;
            replace (length log + 3 - length log)%nat with 3%nat by lia; reflexivity).
  all: by rewrite Hrun.
Qed.

Lemma upload_jpgs_cons (im : uploader.Immich) (tags : list string) (f : FileInfo)
    (rest : list FileInfo) (s : State) (c : Clock) (n : Z) (w : sys.World)
    (log : list sys.call) :
  upload_jpgs im tags (f :: rest) s c n w log
  = match uploader.UploadFile im (Path f) tags w log with
    | (sys.Value (Some _), log1) => upload_jpgs im tags rest s c n w log1
    | (sys.Value None, log1) =>
        upload_jpgs im tags rest
          (MarkProcessed s (Name f) "jpg-only" (Path f) c).1
          (MarkProcessed s (Name f) "jpg-only" (Path f) c).2 (n + 1) w log1
    | (sys.Panic msg, log1) => (sys.Panic msg, log1)
    end.
Proof.
  cbn [upload_jpgs]. unfold sys.bind.
  destruct (uploader.UploadFile im (Path f) tags w log) as [[[e|]|msg] log1]; try done.
Qed.

Lemma upload_jpgs_marks (im : uploader.Immich) (tags : list string)
    (files : list FileInfo) (w : sys.World) (s : State) (c : Clock) (n : Z)
    (log : list sys.call) (s' : State) (c' : Clock) (n' : Z) (log' : list sys.call) :
  upload_jpgs im tags files s c n w log = (sys.Value (s', c', n'), log') →
  (∀ name pf, ProcessedFiles s' !! name = Some pf →
     ProcessedFiles s !! name = Some pf
     ∨ (ProfileUsed pf = "jpg-only" ∧ Filename pf = name
        ∧ (∃ f, f ∈ files ∧ Name f = name)
        ∧ sys.ran_between w log log'))
  ∧ (∀ name, (∀ f, f ∈ files → Name f ≠ name) →
       ProcessedFiles s' !! name = ProcessedFiles s !! name)
  ∧ Version s' = Version s ∧ CardID s' = CardID s ∧ statePath s' = statePath s
  ∧ (∃ calls, log' = (log ++ calls)%list
              ∧ (im = None → ∀ exe args, sys.Run exe args ∉ calls))
  ∧ n ≤ n' ≤ n + Z.of_nat (length files)
  ∧ (im = None → s' = s ∧ c' = c ∧ n' = n)
  ∧ (sys.commands_fail w → s' = s ∧ c' = c ∧ n' = n).
Proof.
  revert s c n log. induction files as [|f rest IH]; intros s c n log Hrun.
  - cbn in Hrun. injection Hrun as <- <- <- <-.
    split_and!.
    + by left.
    + done.
    + done.
    + done.
    + done.
    + exists []. split; [by rewrite app_nil_r|]. intros _ exe args Hin.
      by apply elem_of_nil in Hin.
    + lia.
    + cbn [length]. lia.
    + intros; repeat split.
    + intros; repeat split.
  - rewrite upload_jpgs_cons in Hrun.
    pose proof (UploadFile_outcome im (Path f) tags w log) as (calls1 & Hlog1 & Hno1 & Hres).
    cbv zeta in Hlog1, Hres.
    destruct (uploader.UploadFile im (Path f) tags w log) as [[[e|]|msg] log1];
      cbn [fst snd] in Hlog1, Hres; [| |done].
    + (* the upload has failed *)
      destruct (IH _ _ _ _ Hrun)
        as (Hnew & Hother & Hv & Hc & Hp & (calls & Hlog & Hno) & Hn & Hnil & Hfail).
      split_and!.
      * intros name pf Hpf. destruct (Hnew name pf Hpf) as [?|(? & ? & (g & Hg & ?) & Hup)];
          [by left|right].
        split_and!; try done.
        -- exists g. split; [by right|done].
        -- destruct Hup as (i & exe & args & ? & ? & ?). exists i, exe, args.
           split_and!; try done. rewrite Hlog1, length_app in *. lia.
      * intros name Hname. apply Hother. intros g Hg. apply Hname. by right.
      * done.
      * done.
      * done.
      * exists (calls1 ++ calls)%list. split; [by rewrite Hlog, Hlog1, app_assoc|].
        intros Him exe args [Hin|Hin]%elem_of_app; [by eapply Hno1|by eapply Hno].
      * lia.
      * cbn [length]. lia.
      * done.
      * done.
    + (* the upload has succeeded *)
      destruct Hres as (i0 & exe0 & args0 & Hi0 & Hle0 & Hrun0 & Him).
      destruct (IH _ _ _ _ Hrun)
        as (Hnew & Hother & Hv & Hc & Hp & (calls & Hlog & Hno) & Hn & Hnil & Hfail).
      unfold MarkProcessed, time_Now in Hnew, Hother, Hv, Hc, Hp.
      cbn [fst snd ProcessedFiles Version CardID statePath] in Hnew, Hother, Hv, Hc, Hp.
      split_and!.
      * intros name pf Hpf.
        destruct (Hnew name pf Hpf) as [Hold|(? & ? & (g & Hg & ?) & Hup)].
        -- destruct (decide (name = Name f)) as [->|Hne].
           ++ rewrite lookup_insert_eq in Hold. injection Hold as <-. right.
              cbn [ProfileUsed Filename]. split_and!; try done.
              ** exists f. split; [left|done].
              ** exists i0, exe0, args0. split_and!; try done.
                 rewrite Hlog. by apply lookup_app_l_Some.
           ++ rewrite lookup_insert_ne in Hold by done. by left.
        -- right. split_and!; try done.
           ++ exists g. split; [by right|done].
           ++ destruct Hup as (i & exe & args & ? & ? & ?). exists i, exe, args.
              split_and!; try done. rewrite Hlog1, length_app in *. lia.
      * intros name Hname. rewrite Hother.
        -- rewrite lookup_insert_ne; [done|]. intros Heq. apply (Hname f); [left|done].
        -- intros g Hg. apply Hname. by right.
      * done.
      * done.
      * done.
      * exists (calls1 ++ calls)%list. split; [by rewrite Hlog, Hlog1, app_assoc|].
        intros Hnone. done.
      * lia.
      * cbn [length]. lia.
      * intros Hnone. done.
      * intros Hall. exfalso. specialize (Hall i0 exe0 args0). rewrite Hrun0 in Hall.
        by destruct Hall.
Qed.

Lemma new_files_absent (files : list FileInfo) (s : State) (f : FileInfo) :
  f ∈ FilterNewFiles files (GetProcessedFilesMap s) →
  f ∈ files ∧ ProcessedFiles s !! Name f = None.
Proof.
  rewrite FilterNewFiles_absent. unfold absent_files.
  intros [? ?]%list_elem_of_filter. done.
Qed.

Lemma no_new_files (files : list FileInfo) (s : State) :
  FilterNewFiles files (GetProcessedFilesMap s) = []
  ↔ ∀ f, f ∈ files → is_Some (ProcessedFiles s !! Name f).
Proof.
  rewrite FilterNewFiles_absent. unfold absent_files. split.
  - intros Hnil f Hf. destruct (ProcessedFiles s !! Name f) eqn:E; [by eexists|].
    assert (Hin : f ∈ filter (λ f, ProcessedFiles s !! Name f = None) files)
      by (by apply list_elem_of_filter).
    rewrite Hnil in Hin. by apply elem_of_nil in Hin.
  - intros Hall. apply filter_none. intros f Hf Hnone.
    destruct (Hall f Hf) as [pf Hpf]. congruence.
Qed.

(** X20: in JPG-only mode a file is marked only after [immich-go] has run
    for it without error: every entry of the state after the run is an
    entry from before it, or the entry of a JPG of the scan that had
    none, with the profile [jpg-only], and then some [immich-go] command
    of this run has succeeded; no earlier entry is lost; when every
    command fails, the state is saved unchanged; and on a dry run
    nothing is called, marked or saved. *)
Theorem jpg_only_marks_what_it_uploads (cfg : config.Config) (st : store)
    (scanResult : ScanResult) (im : uploader.Immich) (w : sys.World)
    (log : list sys.call) (err : option string) (st' : store) (log' : list sys.call) :
  runJPGOnlyMode cfg st scanResult im w log = (sys.Value (err, st'), log') →
  (∀ name pf, ProcessedFiles (the_state st') !! name = Some pf →
     ProcessedFiles (the_state st) !! name = Some pf
     ∨ (ProcessedFiles (the_state st) !! name = None
        ∧ ProfileUsed pf = "jpg-only" ∧ Filename pf = name
        ∧ (∃ f, f ∈ JPGFiles scanResult ∧ Name f = name)
        ∧ sys.ran_between w log log'
        ∧ config.DryRun cfg = false))
  ∧ (∀ name pf, ProcessedFiles (the_state st) !! name = Some pf →
       ProcessedFiles (the_state st') !! name = Some pf)
  ∧ (sys.commands_fail w →
       the_state st' = the_state st ∧ the_clock st' = the_clock st)
  ∧ (config.DryRun cfg = true → err = None ∧ st' = st ∧ log' = log)
  ∧ (the_files st' = the_files st
     ∨ the_files st' = (Save (the_state st') (the_files st)).2)
  ∧ (err = None
     ∨ ∃ e, (Save (the_state st') (the_files st)).1 = Some e
            ∧ err = Some ("failed to save state: " ++ e)%string).
Proof.
  unfold runJPGOnlyMode. cbv zeta.
  set (new := FilterNewFiles (JPGFiles scanResult) (GetProcessedFilesMap (the_state st))).
  destruct (length new =? 0)%nat eqn:Hlen.
  { intros [= <- <- <-]. split_and!; try done; by left. }
  destruct (config.DryRun cfg) eqn:Hdry.
  { intros [= <- <- <-]. split_and!; try done; by left. }
  unfold sys.bind.
  destruct (upload_jpgs im ["camera-original"] new (the_state st) (the_clock st) 0 w log)
    as [[[[s1 c1] n1]|msg] log1] eqn:Hloop; [|done].
  pose proof (upload_jpgs_marks _ _ _ _ _ _ _ _ _ _ _ _ Hloop)
    as (Hnew & Hother & _ & _ & _ & _ & _ & _ & Hfail).
  assert (Hres : ∀ e fs, (sys.Value (e, mkStore s1 c1 fs), log1)
                         = (sys.Value (err, st'), log') →
            e = err ∧ st' = mkStore s1 c1 fs ∧ log1 = log') by (by intros ? ? [= -> <- ->]).
  intros Hout.
  assert (Hst : the_state st' = s1 ∧ the_clock st' = c1
                ∧ the_files st' = (Save s1 (the_files st)).2
                ∧ log1 = log'
                ∧ (err = None
                   ∨ ∃ e, (Save s1 (the_files st)).1 = Some e
                          ∧ err = Some ("failed to save state: " ++ e)%string)).
  { destruct (Save s1 (the_files st)) as [[e|] fs]; unfold sys.ret in Hout;
      apply Hres in Hout as (<- & -> & ->); cbn [the_state the_clock the_files fst snd];
      split_and!; try done; [right; by eexists|by left]. }
  destruct Hst as (Hs & Hc & Hf & <- & Herr). rewrite Hs, Hc.
  split_and!.
  - intros name pf Hpf.
    destruct (Hnew name pf Hpf) as [?|(Hprof & Hname & (f & Hf' & Hn) & Hup)]; [by left|].
    apply new_files_absent in Hf' as [Hin Hnone]. right.
    split_and!; try done.
    + by rewrite <- Hn.
    + by exists f.
  - intros name pf Hpf. rewrite Hother; [done|].
    intros f Hf' Hn. apply new_files_absent in Hf' as [_ Hnone]. congruence.
  - intros Hw. by destruct (Hfail Hw) as (-> & -> & _).
  - done.
  - right. by rewrite Hf.
  - done.
Qed.

(** X21: when the upload is skipped, [run] leaves the uploader [nil], and
    JPG-only mode then marks nothing: no [immich-go] command is run, a
    run that returns has left the state as it was, and as soon as a new
    JPG has been staged for upload the program stops with a nil
    dereference, before anything is saved. *)
Theorem jpg_only_with_skip_upload_marks_nothing (cfg : config.Config) (verbose : bool)
    (find : sys.M string) (st : store) (scanResult : ScanResult) (w : sys.World)
    (log : list sys.call) :
  config.SkipUpload cfg = true →
  init_uploader cfg verbose find w log = (sys.Value (inl None), log)
  ∧ let out := runJPGOnlyMode cfg st scanResult None w log in
    (∃ calls, out.2 = (log ++ calls)%list ∧ ∀ exe args, sys.Run exe args ∉ calls)
    ∧ match out.1 with
      | sys.Value (err, st') =>
          the_state st' = the_state st ∧ the_clock st' = the_clock st
      | sys.Panic msg => msg = uploader.nil_dereference
      end
    ∧ (sys.staging_succeeds w → config.DryRun cfg = false →
       FilterNewFiles (JPGFiles scanResult) (GetProcessedFilesMap (the_state st)) ≠ [] →
       out.1 = sys.Panic uploader.nil_dereference).
Proof.
  intros Hskip. split.
  { unfold init_uploader. by rewrite Hskip. }
  cbv zeta. unfold runJPGOnlyMode. cbv zeta.
  set (new := FilterNewFiles (JPGFiles scanResult) (GetProcessedFilesMap (the_state st))).
  assert (Hnone : ∃ calls : list sys.call,
            log = (log ++ calls)%list ∧ ∀ exe args, sys.Run exe args ∉ calls).
  { exists []. split; [by rewrite app_nil_r|]. intros exe args Hin.
    by apply elem_of_nil in Hin. }
  destruct (length new =? 0)%nat eqn:Hlen.
  { cbn [fst snd sys.ret]. split_and!; try done.
    intros _ _ Hne. apply Nat.eqb_eq in Hlen. by destruct new. }
  destruct (config.DryRun cfg) eqn:Hdry.
  { cbn [fst snd sys.ret]. split_and!; done. }
  unfold sys.bind.
  assert (Hloop : ∀ files s c n log0,
    let r := upload_jpgs None ["camera-original"] files s c n w log0 in
    (∃ calls, r.2 = (log0 ++ calls)%list ∧ ∀ exe args, sys.Run exe args ∉ calls)
    ∧ match r.1 with
      | sys.Value (s', c', n') => s' = s ∧ c' = c
      | sys.Panic msg => msg = uploader.nil_dereference
      end
    ∧ (sys.staging_succeeds w → files ≠ [] → r.1 = sys.Panic uploader.nil_dereference)).
  { induction files as [|f rest IH]; intros s c n log0; cbv zeta.
    - cbn [upload_jpgs sys.ret fst snd]. split_and!; try done.
      exists []. split; [by rewrite app_nil_r|]. intros exe args Hin.
      by apply elem_of_nil in Hin.
    - rewrite upload_jpgs_cons. unfold uploader.UploadFile.
      rewrite uploadSingleFile_calls. cbv zeta.
      assert (Hext : ∀ (calls1 : list sys.call)
                       (r : sys.result (State * Clock * Z) * list sys.call),
                Forall (λ c, match c with sys.Run _ _ => False | _ => True end) calls1 →
                (∃ calls, r.2 = ((log0 ++ calls1) ++ calls)%list
                          ∧ ∀ exe args, sys.Run exe args ∉ calls) →
                ∃ calls, r.2 = (log0 ++ calls)%list ∧ ∀ exe args, sys.Run exe args ∉ calls).
      { intros calls1 r Hc1 (calls & -> & Hno). exists (calls1 ++ calls)%list.
        split; [by rewrite app_assoc|].
        intros exe args [Hin|Hin]%elem_of_app; [by eapply no_Run_in|by eapply Hno]. }
      destruct (sys.stat w (length log0) (Path f)) eqn:Hst.
      2:{ destruct (IH s c n (log0 ++ [sys.Stat (Path f)])%list) as (Hl & Hr & Hp).
          cbv zeta in Hl, Hr, Hp. split_and!; try done.
          - eapply Hext; [|exact Hl]. by repeat constructor.
          - intros (Hs & _) _. by destruct (Hs (length log0) (Path f)). }
      all: destruct (sys.mkdir_temp w (length log0 + 1) "" "immich-upload-*")
             as [tempDir|e] eqn:Hmk.
      2,4: destruct (IH s c n (log0 ++ [sys.Stat (Path f);
                                         sys.MkdirTemp "" "immich-upload-*"])%list)
             as (Hl & Hr & Hp);
           cbv zeta in Hl, Hr, Hp; split_and!; try done;
           [eapply Hext; [|exact Hl]; by repeat constructor
           |intros (_ & Hm & _) _;
            destruct (Hm (length log0 + 1)%nat "" "immich-upload-*") as [? ?]; congruence].
      all: destruct (sys.copy_file w (length log0 + 2) (Path f) _) as [e|] eqn:Hcp.
      1,3: match goal with
           | |- context [upload_jpgs None _ _ _ _ _ _ ?l] =>
               destruct (IH s c n l) as (Hl & Hr & Hp)
           end;
           cbv zeta in Hl, Hr, Hp; split_and!; try done;
           [eapply Hext; [|exact Hl]; by repeat constructor
           |intros (_ & _ & Hcopy) _; rewrite Hcopy in Hcp; done].
      all: cbn [fst snd]; split_and!; try done.
      all: eexists; split; [reflexivity|]; apply no_Run_in; by repeat constructor. }
  destruct (Hloop new (the_state st) (the_clock st) 0 log) as (Hl & Hr & Hp).
  cbv zeta in Hl, Hr, Hp.
  destruct (upload_jpgs None ["camera-original"] new (the_state st) (the_clock st) 0 w log)
    as [[[[s1 c1] n1]|msg] log1] eqn:Hrun; cbn [fst snd] in Hl, Hr, Hp.
  - destruct Hr as [-> ->].
    destruct (Save (the_state st) (the_files st)) as [[e|] fs]; cbn [sys.ret fst snd];
      (split_and!; try done; intros Hs _ Hne; by specialize (Hp Hs Hne)).
  - cbn [fst snd]. split_and!; try done. intros Hs _ Hne. by subst msg.
Qed.

End jpg_only.

Section jpg_only_again.
Import state scanner main.
Context `{TimeJSON}.

Lemma upload_jpgs_all (config : uploader.ImmichConfig) (tags : list string)
    (files : list FileInfo) (w : sys.World) (s : State) (c : Clock) (n : Z)
    (log : list sys.call) :
  sys.staging_succeeds w → sys.commands_succeed w →
  ∃ s' c' log',
    upload_jpgs (Some config) tags files s c n w log
    = (sys.Value (s', c', n + Z.of_nat (length files)), log')
    ∧ (∀ f, f ∈ files → ∃ pf, ProcessedFiles s' !! Name f = Some pf
                               ∧ ProfileUsed pf = "jpg-only")
    ∧ (∀ name, (∀ f, f ∈ files → Name f ≠ name) →
         ProcessedFiles s' !! name = ProcessedFiles s !! name).
Proof.
  intros (Hstat & Hmk & Hcp) Hrun. revert s c n log.
  induction files as [|f rest IH]; intros s c n log.
  - exists s, c, log. cbn [upload_jpgs length sys.ret]. rewrite Z.add_0_r.
    split_and!; try done. intros f Hf. by apply elem_of_nil in Hf.
  - rewrite upload_jpgs_cons. unfold uploader.UploadFile.
    rewrite uploadSingleFile_calls. cbv zeta.
    destruct (Hmk (length log + 1)%nat "" "immich-upload-*") as [tempDir Htemp].
    rewrite Htemp, Hcp.
    pose proof (Hrun (length log + 3)%nat (uploader.ExecutablePath config)
                  (uploader.upload_args config tempDir tags false)) as Hok.
    destruct (sys.run w (length log + 3) _ _) as [output err]. cbn [snd] in Hok. subst err.
    pose proof (Hstat (length log) (Path f)) as Hst.
    assert (Hstep : ∀ log1,
      ∃ s' c' log',
        upload_jpgs (Some config) tags rest
          (MarkProcessed s (Name f) "jpg-only" (Path f) c).1
          (MarkProcessed s (Name f) "jpg-only" (Path f) c).2 (n + 1) w log1
        = (sys.Value (s', c', n + Z.of_nat (length (f :: rest))), log')
        ∧ (∀ g, g ∈ f :: rest → ∃ pf, ProcessedFiles s' !! Name g = Some pf
                                     ∧ ProfileUsed pf = "jpg-only")
        ∧ (∀ name, (∀ g, g ∈ f :: rest → Name g ≠ name) →
             ProcessedFiles s' !! name = ProcessedFiles s !! name)).
    { intros log1.
      destruct (IH (MarkProcessed s (Name f) "jpg-only" (Path f) c).1
                  (MarkProcessed s (Name f) "jpg-only" (Path f) c).2 (n + 1) log1)
        as (s' & c' & log' & Heq & Hall & Hother).
      exists s', c', log'. split_and!.
      - rewrite Heq. do 3 f_equal. cbn [length]. lia.
      - intros g [->|Hg]%elem_of_cons; [|by apply Hall].
        destruct (decide (Name f ∈ Name <$> rest)) as [Hin|Hnot].
        + apply list_elem_of_fmap in Hin as (g & Hn & Hg). rewrite Hn. by apply Hall.
        + rewrite Hother.
          * unfold MarkProcessed, time_Now. cbn [fst ProcessedFiles].
            rewrite lookup_insert_eq. by eexists.
          * intros g Hg Hn. apply Hnot. apply list_elem_of_fmap. by exists g.
      - intros name Hname. rewrite Hother.
        + unfold MarkProcessed, time_Now. cbn [fst ProcessedFiles].
          rewrite lookup_insert_ne; [done|]. intros Heq'. apply (Hname f); [left|done].
        + intros g Hg. apply Hname. by right. }
    destruct (sys.stat w (length log) (Path f)); [|done|]; apply Hstep.
Qed.

(** X22: when every call succeeds, one JPG-only run marks every JPG of the
    scan, those it has uploaded with the profile [jpg-only], and saves
    the state; a second run on the same scan then finds nothing new: it
    makes no call, uploads nothing and returns at once, whatever its
    configuration and uploader. *)
Theorem uploaded_jpgs_are_not_uploaded_again (cfg : config.Config) (st : store)
    (scanResult : ScanResult) (config : uploader.ImmichConfig) (w : sys.World)
    (log : list sys.call) :
  config.DryRun cfg = false → sys.staging_succeeds w → sys.commands_succeed w →
  ∃ err st' log',
    runJPGOnlyMode cfg st scanResult (Some config) w log = (sys.Value (err, st'), log')
    ∧ (∀ f, f ∈ JPGFiles scanResult →
         IsProcessed (the_state st') (Name f) = true
         ∧ (IsProcessed (the_state st) (Name f) = false →
            ∃ pf, ProcessedFiles (the_state st') !! Name f = Some pf
                  ∧ ProfileUsed pf = "jpg-only"))
    ∧ (the_files st' = the_files st
       ∨ the_files st' = (Save (the_state st') (the_files st)).2)
    ∧ ∀ cfg' im' w' log'',
        runJPGOnlyMode cfg' st' scanResult im' w' log'' = (sys.Value (None, st'), log'').
Proof.
  intros Hdry Hstage Hcmd. unfold runJPGOnlyMode at 1. cbv zeta.
  set (new := FilterNewFiles (JPGFiles scanResult) (GetProcessedFilesMap (the_state st))).
  assert (Hagain : ∀ st',
    (∀ f, f ∈ JPGFiles scanResult → is_Some (ProcessedFiles (the_state st') !! Name f)) →
    ∀ cfg' im' w' log'',
      runJPGOnlyMode cfg' st' scanResult im' w' log'' = (sys.Value (None, st'), log'')).
  { intros st' Hall cfg' im' w' log''. unfold runJPGOnlyMode. cbv zeta.
    by rewrite (proj2 (no_new_files _ _) Hall). }
  destruct (length new =? 0)%nat eqn:Hlen.
  { apply Nat.eqb_eq in Hlen.
    assert (Hnil : new = []) by (by destruct new).
    pose proof (proj1 (no_new_files _ _) Hnil) as Hall.
    exists None, st, log. split_and!; try done; [|by left|by apply Hagain].
    intros f Hf. split; [by apply IsProcessed_true, Hall|].
    intros Hno. pose proof (proj2 (IsProcessed_true _ _) (Hall f Hf)). congruence. }
  rewrite Hdry. unfold sys.bind.
  destruct (upload_jpgs_all config ["camera-original"] new w (the_state st) (the_clock st)
              0 log Hstage Hcmd) as (s1 & c1 & log1 & Hloop & Hall & Hother).
  rewrite Hloop.
  assert (Hmarked : ∀ f, f ∈ JPGFiles scanResult → is_Some (ProcessedFiles s1 !! Name f)).
  { intros f Hf.
    destruct (decide (Name f ∈ Name <$> new)) as [Hin|Hnot].
    - apply list_elem_of_fmap in Hin as (g & -> & Hg).
      destruct (Hall g Hg) as (pf & Hpf & _). by eexists.
    - rewrite Hother.
      + destruct (ProcessedFiles (the_state st) !! Name f) eqn:E; [by eexists|].
        exfalso. apply Hnot. apply list_elem_of_fmap. exists f. split; [done|].
        unfold new. rewrite FilterNewFiles_absent. by apply list_elem_of_filter.
      + intros g Hg Hn. apply Hnot. apply list_elem_of_fmap. by exists g. }
  assert (Hprofile : ∀ f, f ∈ JPGFiles scanResult →
            IsProcessed (the_state st) (Name f) = false →
            ∃ pf, ProcessedFiles s1 !! Name f = Some pf ∧ ProfileUsed pf = "jpg-only").
  { intros f Hf Hno. apply Hall. unfold new. rewrite FilterNewFiles_absent.
    apply list_elem_of_filter. split; [|done].
    destruct (ProcessedFiles (the_state st) !! Name f) eqn:E; [|done].
    assert (IsProcessed (the_state st) (Name f) = true)
      by (apply IsProcessed_true; by eexists).
    congruence. }
  destruct (Save s1 (the_files st)) as [[e|] fs] eqn:Hsave; cbn [sys.ret].
  - exists (Some ("failed to save state: " ++ e)%string), (mkStore s1 c1 fs), log1.
    cbn [the_state the_files]. rewrite Hsave. split_and!; try done.
    + intros f Hf. split; [by apply IsProcessed_true, Hmarked|by apply Hprofile].
    + by right.
    + by apply Hagain.
  - exists None, (mkStore s1 c1 fs), log1.
    cbn [the_state the_files]. rewrite Hsave. split_and!; try done.
    + intros f Hf. split; [by apply IsProcessed_true, Hmarked|by apply Hprofile].
    + by right.
    + by apply Hagain.
Qed.

End jpg_only_again.

(** ** After the collecting loop *)

Section after_collecting.
Import state scanner main.
Context `{TimeJSON}.

Ltac flatten_apps := repeat (progress (rewrite <- ?app_assoc; cbn [app])).

Lemma copy_into_calls (tempDir : string) (paths : list string) (w : sys.World)
    (log : list sys.call) :
  copy_into tempDir paths w log
  = (sys.Value tt,
     (log ++ ((λ p, sys.CopyFile p (filepath.Join [tempDir; filepath.Base p]))
                <$> paths))%list).
Proof.
  revert log. induction paths as [|p paths IH]; intros log.
  - cbn. by rewrite app_nil_r.
  - cbn [copy_into fmap list_fmap]. unfold sys.bind, sys.copy. rewrite IH.
    by rewrite <- app_assoc.
Qed.

Lemma remove_each_calls (paths : list string) (count : Z) (w : sys.World)
    (log : list sys.call) :
  ∃ n, remove_each paths count w log
       = (sys.Value n, (log ++ (sys.Remove <$> paths))%list).
Proof.
  revert count log. induction paths as [|p paths IH]; intros count log.
  - exists count. cbn. by rewrite app_nil_r.
  - cbn [remove_each fmap list_fmap]. unfold sys.bind, sys.os_Remove.
    destruct (sys.remove w (length log) p).
    + destruct (IH count (log ++ [sys.Remove p])%list) as [n ->]. exists n.
      by rewrite <- app_assoc.
    + destruct (IH (count + 1) (log ++ [sys.Remove p])%list) as [n ->]. exists n.
      by rewrite <- app_assoc.
Qed.

Lemma cleanup_and_save_calls (cfg : config.Config)
    (processedJPGs dngFilesToCleanup : list string) (st : store) (w : sys.World)
    (log : list sys.call) :
  cleanup_and_save cfg processedJPGs dngFilesToCleanup st w log
  = (sys.Value (saved st),
     (log ++ removals cfg processedJPGs dngFilesToCleanup)%list).
Proof.
  unfold cleanup_and_save, removals, saved, sys.bind.
  assert (Hfirst : ∃ n,
    (if config.CleanupAfterUpload cfg && negb (config.SkipUpload cfg)
        && (0 <? length processedJPGs)%nat
     then remove_each processedJPGs 0 else sys.ret 0) w log
    = (sys.Value n,
       (log ++ (if config.CleanupAfterUpload cfg && negb (config.SkipUpload cfg)
                then sys.Remove <$> processedJPGs else []))%list)).
  { destruct (config.CleanupAfterUpload cfg && negb (config.SkipUpload cfg)); cbn [andb].
    - destruct processedJPGs as [|p l]; [exists 0; cbn; by rewrite app_nil_r|].
      cbn [length Nat.ltb Nat.leb]. apply remove_each_calls.
    - exists 0. cbn. by rewrite app_nil_r. }
  destruct Hfirst as [n1 ->].
  assert (Hsecond : ∀ log1, ∃ n,
    (if config.ConvertToDNG cfg && config.CleanupDNGFiles cfg
        && (0 <? length dngFilesToCleanup)%nat
     then remove_each dngFilesToCleanup 0 else sys.ret 0) w log1
    = (sys.Value n,
       (log1 ++ (if config.ConvertToDNG cfg && config.CleanupDNGFiles cfg
                 then sys.Remove <$> dngFilesToCleanup else []))%list)).
  { intros log1.
    destruct (config.ConvertToDNG cfg && config.CleanupDNGFiles cfg); cbn [andb].
    - destruct dngFilesToCleanup as [|p l]; [exists 0; cbn; by rewrite app_nil_r|].
      cbn [length Nat.ltb Nat.leb]. apply remove_each_calls.
    - exists 0. cbn. by rewrite app_nil_r. }
  destruct (Hsecond (log ++ (if config.CleanupAfterUpload cfg && negb (config.SkipUpload cfg)
                             then sys.Remove <$> processedJPGs else []))%list) as [n2 ->].
  rewrite <- app_assoc.
  by destruct (Save (the_state st) (the_files st)) as [[e|] fs].
Qed.

Lemma UploadFolder_calls (config : uploader.ImmichConfig) (folderPath : string)
    (tags : list string) (recursive : bool) (w : sys.World) (log : list sys.call) :
  ∃ err, uploader.UploadFolder (Some config) folderPath tags recursive w log
         = (sys.Value err,
            (log ++ [sys.Run (uploader.ExecutablePath config)
                       (uploader.upload_args config folderPath tags recursive)])%list).
Proof.
  unfold uploader.UploadFolder, uploader.uploadDirectory, sys.bind, sys.cmd_Run.
  destruct (sys.run w (length log) _ _) as [output [err|]].
  - destruct (uploader.ShowProgress config); by eexists.
  - by eexists.
Qed.

(** One batch upload followed by the rest of the function. *)
Lemma batch_then (config : uploader.ImmichConfig) (pattern : string)
    (tags paths : list string) (rest : sys.M (option string * store))
    (r : option string * store) (after : list sys.call) (w : sys.World)
    (log : list sys.call) :
  let calls := batch_calls config pattern tags paths
                 (sys.mkdir_temp w (length log) "" pattern) in
  rest w (log ++ calls.1)%list = (sys.Value r, ((log ++ calls.1) ++ after)%list) →
  (made <- sys.os_MkdirTemp "" pattern;;
   match made with
   | inr _ => rest
   | inl tempDir =>
       sys.defer (sys.os_RemoveAll tempDir)
         (_ <- copy_into tempDir paths;;
          _ <- uploader.UploadFolder (Some config) tempDir tags false;;
          rest)
   end) w log
  = (sys.Value r, (log ++ calls.1 ++ after ++ calls.2)%list).
Proof.
  cbv zeta. unfold sys.bind at 1. unfold sys.os_MkdirTemp, batch_calls.
  destruct (sys.mkdir_temp w (length log) "" pattern) as [tempDir|e]; cbn [fst snd];
    intros Hrest.
  - unfold sys.defer, sys.bind, sys.os_RemoveAll. rewrite copy_into_calls.
    destruct (UploadFolder_calls config tempDir tags false w
                ((log ++ [sys.MkdirTemp "" pattern])
                 ++ ((λ p, sys.CopyFile p (filepath.Join [tempDir; filepath.Base p]))
                       <$> paths))%list) as [err ->].
    rewrite <- !app_assoc in *. cbn [app] in *. rewrite Hrest. cbn [fst snd]. f_equal.
    by flatten_apps.
  - rewrite Hrest. by rewrite <- !app_assoc, app_nil_r.
Qed.

Lemma upload_and_finish_trace (cfg : config.Config) (config : uploader.ImmichConfig)
    (profileName : string) (processedJPGs cameraJPGs dngFilesToCleanup : list string)
    (st : store) (w : sys.World) (log : list sys.call) :
  let tags :=
    ((if config.TagWithProfileName cfg then ["profile:" +:+ profileName] else [])
     ++ ["processed"])%list in
  let processed :=
    if negb (config.SkipUpload cfg) && (0 <? length processedJPGs)%nat
    then batch_calls config "processed-jpgs-*" tags processedJPGs
           (sys.mkdir_temp w (length log) "" "processed-jpgs-*")
    else ([], []) in
  let camera :=
    if negb (config.SkipUpload cfg) && (0 <? length cameraJPGs)%nat
       && config.UploadCameraJPGs cfg
    then batch_calls config "camera-jpgs-*" ["camera-original"] cameraJPGs
           (sys.mkdir_temp w (length log + length processed.1) "" "camera-jpgs-*")
    else ([], []) in
  upload_and_finish cfg (Some config) profileName processedJPGs cameraJPGs
    dngFilesToCleanup st w log
  = (sys.Value (saved st),
     (log ++ processed.1 ++ camera.1
      ++ removals cfg processedJPGs dngFilesToCleanup
      ++ camera.2 ++ processed.2)%list).
Proof.
  assert (Hcamera : ∀ w0 log1,
    upload_camera_JPGs cfg (Some config) processedJPGs cameraJPGs dngFilesToCleanup st
      w0 log1
    = (sys.Value (saved st),
       (log1
        ++ (if negb (config.SkipUpload cfg) && (0 <? length cameraJPGs)%nat
               && config.UploadCameraJPGs cfg
            then batch_calls config "camera-jpgs-*" ["camera-original"] cameraJPGs
                   (sys.mkdir_temp w0 (length log1) "" "camera-jpgs-*")
            else ([], [])).1
        ++ removals cfg processedJPGs dngFilesToCleanup
        ++ (if negb (config.SkipUpload cfg) && (0 <? length cameraJPGs)%nat
               && config.UploadCameraJPGs cfg
            then batch_calls config "camera-jpgs-*" ["camera-original"] cameraJPGs
                   (sys.mkdir_temp w0 (length log1) "" "camera-jpgs-*")
            else ([], [])).2)%list)).
  { intros w0 log1. unfold upload_camera_JPGs. cbv zeta.
    destruct (negb (config.SkipUpload cfg) && (0 <? length cameraJPGs)%nat
              && config.UploadCameraJPGs cfg).
    - apply (batch_then config "camera-jpgs-*" ["camera-original"] cameraJPGs
               (cleanup_and_save cfg processedJPGs dngFilesToCleanup st) (saved st)
               (removals cfg processedJPGs dngFilesToCleanup) w0 log1).
      apply cleanup_and_save_calls.
    - rewrite cleanup_and_save_calls. cbn [fst snd app]. by rewrite app_nil_r. }
  assert (Hall : ∀ w0,
    upload_and_finish cfg (Some config) profileName processedJPGs cameraJPGs
      dngFilesToCleanup st w0 log
    = (sys.Value (saved st),
       (log
        ++ (if negb (config.SkipUpload cfg) && (0 <? length processedJPGs)%nat
            then batch_calls config "processed-jpgs-*"
                   ((if config.TagWithProfileName cfg then ["profile:" +:+ profileName]
                     else []) ++ ["processed"])%list processedJPGs
                   (sys.mkdir_temp w0 (length log) "" "processed-jpgs-*")
            else ([], [])).1
        ++ (if negb (config.SkipUpload cfg) && (0 <? length cameraJPGs)%nat
               && config.UploadCameraJPGs cfg
            then batch_calls config "camera-jpgs-*" ["camera-original"] cameraJPGs
                   (sys.mkdir_temp w0
                      (length log
                       + length (if negb (config.SkipUpload cfg)
                                    && (0 <? length processedJPGs)%nat
                                 then batch_calls config "processed-jpgs-*"
                                        ((if config.TagWithProfileName cfg
                                          then ["profile:" +:+ profileName]
                                          else []) ++ ["processed"])%list processedJPGs
                                        (sys.mkdir_temp w0 (length log) ""
                                           "processed-jpgs-*")
                                 else ([], [])).1)
                      "" "camera-jpgs-*")
            else ([], [])).1
        ++ removals cfg processedJPGs dngFilesToCleanup
        ++ (if negb (config.SkipUpload cfg) && (0 <? length cameraJPGs)%nat
               && config.UploadCameraJPGs cfg
            then batch_calls config "camera-jpgs-*" ["camera-original"] cameraJPGs
                   (sys.mkdir_temp w0
                      (length log
                       + length (if negb (config.SkipUpload cfg)
                                    && (0 <? length processedJPGs)%nat
                                 then batch_calls config "processed-jpgs-*"
                                        ((if config.TagWithProfileName cfg
                                          then ["profile:" +:+ profileName]
                                          else []) ++ ["processed"])%list processedJPGs
                                        (sys.mkdir_temp w0 (length log) ""
                                           "processed-jpgs-*")
                                 else ([], [])).1)
                      "" "camera-jpgs-*")
            else ([], [])).2
        ++ (if negb (config.SkipUpload cfg) && (0 <? length processedJPGs)%nat
            then batch_calls config "processed-jpgs-*"
                   ((if config.TagWithProfileName cfg then ["profile:" +:+ profileName]
                     else []) ++ ["processed"])%list processedJPGs
                   (sys.mkdir_temp w0 (length log) "" "processed-jpgs-*")
            else ([], [])).2)%list)).
  { intros w0. unfold upload_and_finish. cbv zeta.
    destruct (config.SkipUpload cfg) eqn:Hskip; cbn [negb andb].
    - rewrite Hcamera, ?Hskip. cbn [negb andb fst snd app length].
      by rewrite !app_nil_r.
    - destruct (0 <? length processedJPGs)%nat eqn:Hpos.
      + cbn [andb fst snd].
        rewrite (batch_then config "processed-jpgs-*" _ processedJPGs _ (saved st)
                   _ w0 log (Hcamera w0 _)).
        rewrite length_app. f_equal. by rewrite <- !app_assoc.
      + rewrite Hcamera. cbn [fst snd app length]. rewrite Nat.add_0_r.
        by rewrite !app_nil_r. }
  exact (Hall w).
Qed.

(** X23: what [runWithRAWProcessing] does after the collecting loop, call
    by call: the batch upload of the processed JPEGs, then that of the
    camera JPGs, each through a temporary directory that is removed when
    the function returns; then the removal of the processed JPEGs and of
    the DNG files; then the save.  Which calls are made and what is
    returned depends on no result of a copy, of [immich-go] or of a
    removal: the processed JPEGs are removed and the state is saved with
    every mark also when the upload has failed, and a failed upload is
    not an error of the run. *)
Theorem upload_and_finish_calls (cfg : config.Config) (config : uploader.ImmichConfig)
    (profileName : string) (processedJPGs cameraJPGs dngFilesToCleanup : list string)
    (st : store) (w : sys.World) (log : list sys.call) :
  let tags :=
    ((if config.TagWithProfileName cfg then ["profile:" +:+ profileName] else [])
     ++ ["processed"])%list in
  let processed :=
    if negb (config.SkipUpload cfg) && (0 <? length processedJPGs)%nat
    then batch_calls config "processed-jpgs-*" tags processedJPGs
           (sys.mkdir_temp w (length log) "" "processed-jpgs-*")
    else ([], []) in
  let camera :=
    if negb (config.SkipUpload cfg) && (0 <? length cameraJPGs)%nat
       && config.UploadCameraJPGs cfg
    then batch_calls config "camera-jpgs-*" ["camera-original"] cameraJPGs
           (sys.mkdir_temp w (length log + length processed.1) "" "camera-jpgs-*")
    else ([], []) in
  let out :=
    upload_and_finish cfg (Some config) profileName processedJPGs cameraJPGs
      dngFilesToCleanup st w log in
  out = (sys.Value (saved st),
         (log ++ processed.1 ++ camera.1
          ++ removals cfg processedJPGs dngFilesToCleanup
          ++ camera.2 ++ processed.2)%list)
  ∧ (the_state (saved st).2 = the_state st
     ∧ the_files (saved st).2 = (Save (the_state st) (the_files st)).2)
  ∧ (config.CleanupAfterUpload cfg = true → config.SkipUpload cfg = false →
     ∀ p, p ∈ processedJPGs → sys.Remove p ∈ out.2)
  ∧ (∀ w',
       (∀ i dir pattern, sys.mkdir_temp w' i dir pattern = sys.mkdir_temp w i dir pattern) →
       upload_and_finish cfg (Some config) profileName processedJPGs cameraJPGs
         dngFilesToCleanup st w' log = out)
  ∧ (config.SkipUpload cfg = true →
     ∀ im, upload_and_finish cfg im profileName processedJPGs cameraJPGs
             dngFilesToCleanup st w log
           = (sys.Value (saved st),
              (log ++ (if config.ConvertToDNG cfg && config.CleanupDNGFiles cfg
                       then sys.Remove <$> dngFilesToCleanup else []))%list)).
Proof.
  pose proof (upload_and_finish_trace cfg config profileName processedJPGs cameraJPGs
                dngFilesToCleanup st) as Hall. cbv zeta in Hall.
  cbv zeta. split_and!.
  - apply Hall.
  - unfold saved. by destruct (Save (the_state st) (the_files st)) as [[e|] fs].
  - unfold saved. by destruct (Save (the_state st) (the_files st)) as [[e|] fs].
  - intros Hclean Hskip p Hp. rewrite Hall. cbn [snd].
    rewrite !elem_of_app. right. right. right. left.
    unfold removals. rewrite Hclean, Hskip. cbn [andb negb].
    apply elem_of_app. left. apply list_elem_of_fmap. by exists p.
  - intros w' Hsame. rewrite !Hall. by rewrite !Hsame.
  - intros Hskip im. unfold upload_and_finish, upload_camera_JPGs. cbv zeta.
    rewrite Hskip. cbn [negb andb]. rewrite cleanup_and_save_calls.
    unfold removals. rewrite Hskip. by rewrite andb_false_r.
Qed.

End after_collecting.

Section raw_run.
Import state scanner processor main.
Context `{TimeJSON}.

(** X24: a run with RAW processing, from the start of the workers to its
    return: whatever the order in which the workers deliver, and whether
    or not the uploads succeed, the run returns the result of the save,
    and the state it saves holds the entries it started with and the
    names of the files converted without error, and no others; one result
    is counted for each new file. *)
Theorem raw_run_records_the_converted_files (cfg : config.Config)
    (config : uploader.ImmichConfig) (profileName : string)
    (dngConverter : option DNGConverterConfig) (rt : RawTherapeeConfig)
    (s : State) (c : Clock) (fs : os.FS) (scanResult : ScanResult)
    (numWorkers : nat) (p : pool) (w : sys.World) (log : list sys.call) :
  let files := newRAWFiles (settings cfg) s scanResult in
  (0 < numWorkers)%nat →
  rtc (step (length files) dngConverter rt) (start files numWorkers) p →
  finished p →
  let final :=
    collect (settings cfg) scanResult profileName (mkCollected s c 0 0 [] [] [])
      (received p) in
  let out :=
    upload_and_finish cfg (Some config) profileName (processedJPGs final)
      (cameraJPGs final) (dngFilesToCleanup final)
      (mkStore (appState final) (clock final) fs) w log in
  ∃ error st',
    out.1 = sys.Value (error, st')
    ∧ the_state st' = appState final
    ∧ the_files st' = (Save (appState final) fs).2
    ∧ (error = None ↔ (Save (appState final) fs).1 = None)
    ∧ (∀ name, is_Some (ProcessedFiles (the_state st') !! name)
               ↔ is_Some (ProcessedFiles s !! name)
                 ∨ ∃ r, r ∈ received p ∧ err r = None ∧ Name (rawFile r) = name)
    ∧ (∀ r, r ∈ received p →
         rawFile r ∈ files ∧ ProcessedFiles s !! Name (rawFile r) = None)
    ∧ rawFile <$> received p ≡ₚ files
    ∧ processedCount final = Z.of_nat (length files)
    ∧ processedJPGs final = outputPath <$> filter (λ r, err r = None) (received p).
Proof.
  intros files Hpos Hreach Hfin final out.
  pose proof (pool_ok_reachable dngConverter rt files numWorkers p Hreach) as Hok.
  destruct (finished_pool dngConverter rt files numWorkers p Hpos Hok Hfin)
    as (Hjobs & _).
  destruct (received_files files (received p) Hjobs) as [Hperm Hlen].
  pose proof (upload_and_finish_trace cfg config profileName (processedJPGs final)
                (cameraJPGs final) (dngFilesToCleanup final)
                (mkStore (appState final) (clock final) fs) w log) as Htrace.
  cbv zeta in Htrace. fold out in Htrace.
  destruct (collect_counts (settings cfg) scanResult profileName (received p)
              (mkCollected s c 0 0 [] [] [])) as (Hcount & _ & Hjpgs & _).
  fold final in Hcount, Hjpgs.
  cbn [processedCount processedJPGs app] in Hcount, Hjpgs.
  exists (saved (mkStore (appState final) (clock final) fs)).1,
         (saved (mkStore (appState final) (clock final) fs)).2.
  assert (Hsaved :
    the_state (saved (mkStore (appState final) (clock final) fs)).2 = appState final
    ∧ the_files (saved (mkStore (appState final) (clock final) fs)).2
      = (Save (appState final) fs).2
    ∧ ((saved (mkStore (appState final) (clock final) fs)).1 = None
       ↔ (Save (appState final) fs).1 = None)).
  { unfold saved. cbn [the_state the_files the_clock].
    by destruct (Save (appState final) fs) as [[e|] fs']. }
  destruct Hsaved as (Hst & Hfs & Herr).
  split_and!.
  - rewrite Htrace. cbn [fst]. by rewrite <- surjective_pairing.
  - done.
  - done.
  - done.
  - intros name. rewrite Hst. unfold final. rewrite collect_lookup. done.
  - intros r Hr.
    assert (Hin : rawFile r ∈ files).
    { rewrite <- Hperm. apply list_elem_of_fmap. by exists r. }
    split; [done|].
    by apply (newRAWFiles_are_absent (settings cfg) s scanResult).
  - done.
  - rewrite Hcount, Hlen. lia.
  - done.
Qed.

End raw_run.

Section temporary_directories.
Import state scanner processor processor_init main.
Context `{TimeJSON}.

Lemma tidy_ret {A : Type} (P : string → Prop) (a : A) : sys.tidy P (sys.ret a).
Proof.
  intros w log. cbn [sys.ret snd]. split_and!.
  - exists []. rewrite app_nil_r. split; [done|]. intros path Hin.
    by apply elem_of_nil in Hin.
  - intros i dir pattern made Hi Hl. apply lookup_lt_Some in Hl. lia.
  - intros j made Hj Hl. apply lookup_lt_Some in Hl. lia.
Qed.

Lemma tidy_panic {A : Type} (P : string → Prop) (msg : string) :
  sys.tidy P (@sys.panic A msg).
Proof.
  intros w log. cbn [sys.panic snd]. split_and!.
  - exists []. rewrite app_nil_r. split; [done|]. intros path Hin.
    by apply elem_of_nil in Hin.
  - intros i dir pattern made Hi Hl. apply lookup_lt_Some in Hl. lia.
  - intros j made Hj Hl. apply lookup_lt_Some in Hl. lia.
Qed.

Lemma tidy_bind {A B : Type} (P : string → Prop) (m : sys.M A) (k : A → sys.M B) :
  sys.tidy P m → (∀ a, sys.tidy P (k a)) → sys.tidy P (sys.bind m k).
Proof.
  intros Hm Hk w log. unfold sys.bind.
  destruct (Hm w log) as ((c1 & Hc1 & Hp1) & Hr1 & Ho1).
  destruct (m w log) as [[a|msg] log1] eqn:Hmw; cbn [snd] in *; [|by eauto].
  destruct (Hk a w log1) as ((c2 & Hc2 & Hp2) & Hr2 & Ho2).
  destruct (k a w log1) as [r2 log2]; cbn [snd] in *. subst log1 log2.
  split_and!.
  - exists (c1 ++ c2)%list. rewrite app_assoc. split; [done|].
    intros path [Hin|Hin]%elem_of_app; auto.
  - intros i dir pattern made Hi Hl Hmade.
    destruct (decide (i < length (log ++ c1))%nat) as [Hlt|Hge].
    + rewrite lookup_app_l in Hl by done.
      destruct (Hr1 i dir pattern made Hi Hl Hmade) as (j & Hij & Hj).
      exists j. split; [done|]. rewrite lookup_app_l; [done|].
      by apply lookup_lt_Some in Hj.
    + apply (Hr2 i dir pattern made); [lia|done|done].
  - intros j made Hj Hl.
    destruct (decide (j < length (log ++ c1))%nat) as [Hlt|Hge].
    + rewrite lookup_app_l in Hl by done.
      destruct (Ho1 j made Hj Hl) as (i & dir & pattern & Hij & Hi & Hmade).
      exists i, dir, pattern. split_and!; try done; [lia|lia|].
      rewrite lookup_app_l; [done|]. by apply lookup_lt_Some in Hi.
    + destruct (Ho2 j made) as (i & dir & pattern & Hij & Hi & Hmade); [lia|done|].
      exists i, dir, pattern. rewrite length_app in Hij. split_and!; try done; lia.
Qed.

Lemma tidy_weaken {A : Type} (P Q : string → Prop) (m : sys.M A) :
  (∀ path, P path → Q path) → sys.tidy P m → sys.tidy Q m.
Proof.
  intros HPQ Hm w log. destruct (Hm w log) as ((c & Hc & Hp) & Hr & Ho).
  split_and!; [|done|done]. exists c. split; [done|]. auto.
Qed.

(** A call that is no [os.MkdirTemp] and no [os.RemoveAll]. *)
Lemma tidy_call {A : Type} (P : string → Prop) (answer : sys.World → nat → A)
    (c : sys.call) :
  (∀ dir pattern, c ≠ sys.MkdirTemp dir pattern) →
  (∀ path, c ≠ sys.RemoveAll path) →
  (∀ path, c = sys.Remove path → P path) →
  sys.tidy P (λ w log, (sys.Value (answer w (length log)), (log ++ [c])%list)).
Proof.
  intros Hc Hc' Hp w log. cbn [snd]. split_and!.
  - eexists. split; [done|]. intros path Hin%list_elem_of_singleton. by apply Hp.
  - intros i dir pattern made Hi Hl Hmade.
    rewrite lookup_app_r in Hl by done.
    destruct (i - length log)%nat as [|n]; cbn in Hl; [|done].
    injection Hl as Hl. by destruct (Hc dir pattern).
  - intros j made Hj Hl.
    rewrite lookup_app_r in Hl by done.
    destruct (j - length log)%nat as [|n]; cbn in Hl; [|done].
    injection Hl as Hl. by destruct (Hc' made).
Qed.
(** [os.MkdirTemp] followed by [defer os.RemoveAll]. *)
Lemma tidy_temp_dir {A : Type} (P : string → Prop) (dir pattern : string)
    (failed : string → sys.M A) (body : string → sys.M A) :
  (∀ e, sys.tidy P (failed e)) → (∀ d, sys.tidy P (body d)) →
  sys.tidy P (sys.bind (sys.os_MkdirTemp dir pattern)
            (λ made, match made with
                     | inr e => failed e
                     | inl tempDir => sys.defer (sys.os_RemoveAll tempDir) (body tempDir)
                     end)).
Proof.
  intros Hfailed Hbody w log. unfold sys.bind, sys.os_MkdirTemp.
  destruct (sys.mkdir_temp w (length log) dir pattern) as [d|e] eqn:Hmk.
  - unfold sys.defer, sys.os_RemoveAll.
    destruct (Hbody d w (log ++ [sys.MkdirTemp dir pattern])%list)
      as ((c & Hc & Hp) & Hr & Ho).
    destruct (body d w _) as [r log2]; cbn [snd] in *. subst log2.
    assert (Hfirst : ∀ x, (((log ++ [sys.MkdirTemp dir pattern]) ++ c)
                           ++ [sys.RemoveAll d])%list !! length log = Some x →
                          x = sys.MkdirTemp dir pattern).
    { intros x. rewrite <- !app_assoc. rewrite lookup_app_r by done.
      rewrite Nat.sub_diag. cbn. congruence. }
    split_and!.
    + eexists. rewrite <- !app_assoc. split; [done|].
      intros path [Hin|[Hin|Hin]%elem_of_app]%elem_of_cons; [done|by apply Hp|].
      by apply list_elem_of_singleton in Hin.
    + intros i dir' pattern' made Hi Hl Hmade.
      destruct (decide (i = length log)) as [->|Hne].
      * apply Hfirst in Hl. injection Hl as -> ->.
        rewrite Hmk in Hmade. injection Hmade as <-.
        exists (length ((log ++ [sys.MkdirTemp dir pattern]) ++ c)).
        split; [rewrite !length_app; cbn; lia|].
        rewrite lookup_app_r by done. by rewrite Nat.sub_diag.
      * destruct (decide (i < length ((log ++ [sys.MkdirTemp dir pattern]) ++ c))%nat)
          as [Hlt|Hge].
        -- rewrite lookup_app_l in Hl by done.
           destruct (Hr i dir' pattern' made) as (j & Hij & Hj); [|done|done|].
           { rewrite length_app. cbn. lia. }
           exists j. split; [done|]. rewrite lookup_app_l; [done|].
           by apply lookup_lt_Some in Hj.
        -- rewrite lookup_app_r in Hl by lia.
           destruct (i - _)%nat; cbn in Hl; done.
    + intros j made Hj Hl.
      destruct (decide (j = length log)) as [->|Hne]; [by apply Hfirst in Hl|].
      destruct (decide (j < length ((log ++ [sys.MkdirTemp dir pattern]) ++ c))%nat)
        as [Hlt|Hge].
      * rewrite lookup_app_l in Hl by done.
        destruct (Ho j made) as (i & dir' & pattern' & Hij & Hi & Hmade); [|done|].
        { rewrite length_app. cbn. lia. }
        exists i, dir', pattern'. rewrite length_app in Hij. cbn in Hij.
        split_and!; try done; [lia|lia|].
        rewrite lookup_app_l; [done|]. by apply lookup_lt_Some in Hi.
      * rewrite lookup_app_r in Hl by lia.
        destruct (j - _)%nat eqn:Hsub; cbn in Hl; [|done].
        injection Hl as <-.
        exists (length log), dir, pattern. rewrite !length_app in Hge. cbn in Hge.
        split_and!; [lia|lia| |done].
        rewrite <- !app_assoc. rewrite lookup_app_r by done.
        by rewrite Nat.sub_diag.
  - destruct (Hfailed e w (log ++ [sys.MkdirTemp dir pattern])%list)
      as ((c & Hc & Hp) & Hr & Ho).
    destruct (failed e w _) as [r log2]; cbn [snd] in *. subst log2.
    assert (Hfirst : ∀ x, ((log ++ [sys.MkdirTemp dir pattern]) ++ c)%list
                            !! length log = Some x →
                          x = sys.MkdirTemp dir pattern).
    { intros x. rewrite <- !app_assoc. rewrite lookup_app_r by done.
      rewrite Nat.sub_diag. cbn. congruence. }
    split_and!.
    + eexists. rewrite <- !app_assoc. split; [done|].
      intros path [Hin|Hin]%elem_of_cons; [done|by apply Hp].
    + intros i dir' pattern' made Hi Hl Hmade.
      destruct (decide (i = length log)) as [->|Hne].
      * apply Hfirst in Hl. injection Hl as -> ->. rewrite Hmk in Hmade. done.
      * apply (Hr i dir' pattern' made); [|done|done].
        rewrite length_app. cbn. lia.
    + intros j made Hj Hl.
      destruct (decide (j = length log)) as [->|Hne]; [by apply Hfirst in Hl|].
      destruct (Ho j made) as (i & dir' & pattern' & Hij & Hi & Hmade); [|done|].
      { rewrite length_app. cbn. lia. }
      exists i, dir', pattern'. rewrite length_app in Hij. cbn in Hij.
      split_and!; try done; lia.
Qed.

Lemma tidy_os_Stat (P : string → Prop) (path : string) : sys.tidy P (sys.os_Stat path).
Proof. by apply (tidy_call P (λ w n, sys.stat w n path)). Qed.

Lemma tidy_exec_LookPath (P : string → Prop) (file : string) :
  sys.tidy P (sys.exec_LookPath file).
Proof. by apply (tidy_call P (λ w n, sys.look_path w n file)). Qed.

Lemma tidy_os_MkdirAll (P : string → Prop) (path : string) :
  sys.tidy P (sys.os_MkdirAll path).
Proof. by apply (tidy_call P (λ w n, sys.mkdir_all w n path)). Qed.

Lemma tidy_copy (P : string → Prop) (src dst : string) : sys.tidy P (sys.copy src dst).
Proof. by apply (tidy_call P (λ w n, sys.copy_file w n src dst)). Qed.

Lemma tidy_cmd_Run (P : string → Prop) (exe : string) (args : list string) :
  sys.tidy P (sys.cmd_Run exe args).
Proof. by apply (tidy_call P (λ w n, sys.run w n exe args)). Qed.

Lemma tidy_os_Remove (P : string → Prop) (path : string) :
  P path → sys.tidy P (sys.os_Remove path).
Proof.
  intros Hp. apply (tidy_call P (λ w n, sys.remove w n path)); [done|done|].
  by intros path' [= <-].
Qed.

Lemma tidy_uploadDirectory (P : string → Prop) (im : uploader.Immich)
    (dirPath : string) (tags : list string) (recursive : bool) :
  sys.tidy P (uploader.uploadDirectory im dirPath tags recursive).
Proof.
  destruct im as [config|]; cbn [uploader.uploadDirectory]; [|apply tidy_panic].
  apply tidy_bind; [apply tidy_cmd_Run|].
  intros [output [err|]]; [|apply tidy_ret].
  destruct (uploader.ShowProgress config); apply tidy_ret.
Qed.

Lemma tidy_uploadSingleFile (P : string → Prop) (im : uploader.Immich)
    (filePath : string) (tags : list string) :
  sys.tidy P (uploader.uploadSingleFile im filePath tags).
Proof.
  unfold uploader.uploadSingleFile.
  apply tidy_bind; [apply tidy_os_Stat|].
  assert (Hrest : sys.tidy P
    (sys.bind (sys.os_MkdirTemp "" "immich-upload-*")
       (λ made, match made with
                | inr err =>
                    sys.ret (Some ("failed to create temp directory: " ++ err)%string)
                | inl tempDir =>
                    sys.defer (sys.os_RemoveAll tempDir)
                      (sys.bind
                         (sys.copy filePath
                            (filepath.Join [tempDir; filepath.Base filePath]))
                         (λ copied,
                            match copied with
                            | Some err =>
                                sys.ret
                                  (Some ("failed to copy file to temp directory: "
                                         ++ err)%string)
                            | None => uploader.uploadDirectory im tempDir tags false
                            end))
                end))).
  { apply (tidy_temp_dir P "" "immich-upload-*"
             (λ err, sys.ret (Some ("failed to create temp directory: " ++ err)%string))
             (λ tempDir,
                sys.bind
                  (sys.copy filePath (filepath.Join [tempDir; filepath.Base filePath]))
                  (λ copied,
                     match copied with
                     | Some err =>
                         sys.ret
                           (Some ("failed to copy file to temp directory: " ++ err)%string)
                     | None => uploader.uploadDirectory im tempDir tags false
                     end))).
    - intros e. apply tidy_ret.
    - intros d. apply tidy_bind; [apply tidy_copy|].
      intros [e|]; [apply tidy_ret|apply tidy_uploadDirectory]. }
  intros [| |]; [exact Hrest|apply tidy_ret|exact Hrest].
Qed.

Lemma tidy_UploadFiles (P : string → Prop) (im : uploader.Immich)
    (filePaths tags : list string) :
  sys.tidy P (uploader.UploadFiles im filePaths tags).
Proof.
  induction filePaths as [|filePath rest IH]; cbn [uploader.UploadFiles];
    [apply tidy_ret|].
  apply tidy_bind; [apply tidy_uploadSingleFile|]. intros err.
  apply tidy_bind; [exact IH|]. intros results. apply tidy_ret.
Qed.

Lemma tidy_upload_jpgs (P : string → Prop) (im : uploader.Immich) (tags : list string)
    (files : list FileInfo) (s : State) (c : Clock) (n : Z) :
  sys.tidy P (upload_jpgs im tags files s c n).
Proof.
  revert s c n. induction files as [|f rest IH]; intros s c n; cbn [upload_jpgs];
    [apply tidy_ret|].
  apply tidy_bind; [apply tidy_uploadSingleFile|].
  intros [e|]; [apply IH|].
  destruct (MarkProcessed s (Name f) "jpg-only" (Path f) c) as [s' c']. apply IH.
Qed.

Lemma tidy_runJPGOnlyMode (P : string → Prop) (cfg : config.Config) (st : store)
    (scanResult : ScanResult) (im : uploader.Immich) :
  sys.tidy P (runJPGOnlyMode cfg st scanResult im).
Proof.
  unfold runJPGOnlyMode. cbv zeta.
  destruct (_ =? _)%nat; [apply tidy_ret|].
  destruct (config.DryRun cfg); [apply tidy_ret|].
  apply tidy_bind; [apply tidy_upload_jpgs|].
  intros [[appState c] n].
  destruct (Save appState (the_files st)) as [[e|] fs]; apply tidy_ret.
Qed.

Lemma tidy_copy_into (P : string → Prop) (tempDir : string) (paths : list string) :
  sys.tidy P (copy_into tempDir paths).
Proof.
  induction paths as [|p rest IH]; cbn [copy_into]; [apply tidy_ret|].
  apply tidy_bind; [apply tidy_copy|]. intros _. exact IH.
Qed.

Lemma tidy_remove_each (P : string → Prop) (paths : list string) (count : Z) :
  (∀ p, p ∈ paths → P p) → sys.tidy P (remove_each paths count).
Proof.
  revert count. induction paths as [|p rest IH]; intros count Hp; cbn [remove_each];
    [apply tidy_ret|].
  apply tidy_bind; [apply tidy_os_Remove, Hp; left|].
  intros [e|]; apply IH; intros q Hq; apply Hp; by right.
Qed.

Lemma tidy_cleanup_and_save (cfg : config.Config)
    (processedJPGs dngFilesToCleanup : list string) (st : store) :
  sys.tidy (λ p, p ∈ processedJPGs ∨ p ∈ dngFilesToCleanup)
    (cleanup_and_save cfg processedJPGs dngFilesToCleanup st).
Proof.
  unfold cleanup_and_save.
  apply tidy_bind.
  { destruct (_ && _ && _); [apply tidy_remove_each; by left|apply tidy_ret]. }
  intros _. apply tidy_bind.
  { destruct (_ && _ && _); [apply tidy_remove_each; by right|apply tidy_ret]. }
  intros _. destruct (Save _ _) as [[e|] fs]; apply tidy_ret.
Qed.

Lemma tidy_upload_camera_JPGs (cfg : config.Config) (im : uploader.Immich)
    (processedJPGs cameraJPGs dngFilesToCleanup : list string) (st : store) :
  sys.tidy (λ p, p ∈ processedJPGs ∨ p ∈ dngFilesToCleanup)
    (upload_camera_JPGs cfg im processedJPGs cameraJPGs dngFilesToCleanup st).
Proof.
  unfold upload_camera_JPGs. cbv zeta.
  pose proof (tidy_cleanup_and_save cfg processedJPGs dngFilesToCleanup st) as Hrest.
  destruct (_ && _ && _); [|exact Hrest].
  apply (tidy_temp_dir _ "" "camera-jpgs-*"
           (λ _, cleanup_and_save cfg processedJPGs dngFilesToCleanup st)
           (λ tempDir,
              sys.bind (copy_into tempDir cameraJPGs)
                (λ _, sys.bind
                        (uploader.UploadFolder im tempDir ["camera-original"] false)
                        (λ _, cleanup_and_save cfg processedJPGs dngFilesToCleanup st)))).
  - intros _. exact Hrest.
  - intros d. apply tidy_bind; [apply tidy_copy_into|]. intros _.
    apply tidy_bind; [apply tidy_uploadDirectory|]. intros _. exact Hrest.
Qed.

Lemma tidy_upload_and_finish (cfg : config.Config) (im : uploader.Immich)
    (profileName : string) (processedJPGs cameraJPGs dngFilesToCleanup : list string)
    (st : store) :
  sys.tidy (λ p, p ∈ processedJPGs ∨ p ∈ dngFilesToCleanup)
    (upload_and_finish cfg im profileName processedJPGs cameraJPGs
       dngFilesToCleanup st).
Proof.
  unfold upload_and_finish. cbv zeta.
  pose proof (tidy_upload_camera_JPGs cfg im processedJPGs cameraJPGs
                dngFilesToCleanup st) as Hrest.
  destruct (config.SkipUpload cfg); [exact Hrest|].
  destruct (0 <? _)%nat; [|exact Hrest].
  set (tags := ((if config.TagWithProfileName cfg then ["profile:" +:+ profileName]
                 else []) ++ ["processed"])%list).
  apply (tidy_temp_dir _ "" "processed-jpgs-*"
           (λ _, upload_camera_JPGs cfg im processedJPGs cameraJPGs dngFilesToCleanup st)
           (λ tempDir,
              sys.bind (copy_into tempDir processedJPGs)
                (λ _, sys.bind (uploader.UploadFolder im tempDir tags false)
                        (λ _, upload_camera_JPGs cfg im processedJPGs cameraJPGs
                                dngFilesToCleanup st)))).
  - intros _. exact Hrest.
  - intros d. apply tidy_bind; [apply tidy_copy_into|]. intros _.
    apply tidy_bind; [apply tidy_uploadDirectory|]. intros _. exact Hrest.
Qed.

Lemma tidy_find_rawtherapee (P : string → Prop) (names : list string) :
  sys.tidy P (find_rawtherapee names).
Proof.
  induction names as [|name rest IH]; cbn [find_rawtherapee]; [apply tidy_ret|].
  apply tidy_bind; [apply tidy_exec_LookPath|].
  intros [path|e]; [apply tidy_ret|].
  apply tidy_bind; [apply tidy_os_Stat|].
  intros [| |]; [apply tidy_ret|exact IH|exact IH].
Qed.

Lemma tidy_find_dng_converter (P : string → Prop) (paths : list string) :
  sys.tidy P (find_dng_converter paths).
Proof.
  induction paths as [|path rest IH]; cbn [find_dng_converter]; [apply tidy_ret|].
  apply tidy_bind; [apply tidy_os_Stat|].
  intros [| |]; [apply tidy_ret|exact IH|exact IH].
Qed.

Lemma tidy_NewRawTherapee (P : string → Prop) (goos : GOOS) (config : RawTherapeeConfig) :
  sys.tidy P (NewRawTherapee goos config).
Proof.
  unfold NewRawTherapee. apply tidy_bind.
  { destruct (String.eqb _ _); [apply tidy_find_rawtherapee|apply tidy_ret]. }
  intros exe. cbv zeta. apply tidy_bind; [apply tidy_exec_LookPath|].
  intros [found|err]; [|apply tidy_ret].
  assert (Hout : ∀ config' : RawTherapeeConfig, sys.tidy P
            (if negb (String.eqb (OutputDir config') "") then
               sys.bind (sys.os_MkdirAll (OutputDir config'))
                 (λ made, match made with
                          | Some err =>
                              sys.ret (inr ("failed to create output directory: "
                                            ++ err))
                          | None => sys.ret (inl config')
                          end)
             else sys.ret (inl config'))).
  { intros config'. destruct (negb _); [|apply tidy_ret].
    apply tidy_bind; [apply tidy_os_MkdirAll|]. intros [e|]; apply tidy_ret. }
  destruct (negb (String.eqb _ _)); [|apply Hout].
  apply tidy_bind; [apply tidy_os_Stat|].
  intros [| |]; [apply Hout|apply tidy_ret|apply Hout].
Qed.

Lemma tidy_NewDNGConverter (P : string → Prop) (goos : GOOS)
    (config : DNGConverterConfig) :
  sys.tidy P (NewDNGConverter goos config).
Proof.
  unfold NewDNGConverter. apply tidy_bind.
  { destruct (String.eqb _ _); [apply tidy_find_dng_converter|apply tidy_ret]. }
  intros exe. cbv zeta. destruct (String.eqb _ _); [apply tidy_ret|].
  apply tidy_bind; [apply tidy_os_Stat|].
  assert (Hout : sys.tidy P
            (if negb (String.eqb
                        (DNGOutputDir (mkDNGConverterConfig exe (DNGOutputDir config)
                                         (Compressed config) (EmbedOriginal config))) "")
             then
               sys.bind
                 (sys.os_MkdirAll
                    (DNGOutputDir (mkDNGConverterConfig exe (DNGOutputDir config)
                                     (Compressed config) (EmbedOriginal config))))
                 (λ made, match made with
                          | Some err =>
                              sys.ret (inr ("failed to create DNG output directory: "
                                            ++ err))
                          | None =>
                              sys.ret (inl (mkDNGConverterConfig exe (DNGOutputDir config)
                                              (Compressed config) (EmbedOriginal config)))
                          end)
             else sys.ret (inl (mkDNGConverterConfig exe (DNGOutputDir config)
                                  (Compressed config) (EmbedOriginal config))))).
  { destruct (negb _); [|apply tidy_ret].
    apply tidy_bind; [apply tidy_os_MkdirAll|]. intros [e|]; apply tidy_ret. }
  intros [| |]; [apply Hout|apply tidy_ret|apply Hout].
Qed.

(** The files of the results without error: what a run may delete. *)
Lemma products_of_collect (cfg : Config) (scanResult : ScanResult)
    (profileName : string) (s : State) (c : Clock) (results : list processResult)
    (p : string) :
  let final := collect cfg scanResult profileName (mkCollected s c 0 0 [] [] []) results in
  p ∈ processedJPGs final ∨ p ∈ dngFilesToCleanup final →
  ∃ r, r ∈ results ∧ err r = None ∧ (p = outputPath r ∨ (p = dngPath r ∧ p ≠ "")).
Proof.
  intros final.
  destruct (collect_counts cfg scanResult profileName results
              (mkCollected s c 0 0 [] [] [])) as (_ & _ & Hjpgs & Hdng).
  fold final in Hjpgs, Hdng. cbn [processedJPGs dngFilesToCleanup app] in Hjpgs, Hdng.
  rewrite Hjpgs, Hdng.
  intros [Hin|Hin]; apply list_elem_of_fmap in Hin as (r & -> & Hr);
    apply list_elem_of_filter in Hr as [Hok Hr].
  - exists r. by eauto.
  - exists r. destruct Hok as [Hok Hne]. by eauto.
Qed.

Lemma tidy_process_and_upload (cfg : config.Config) (im : uploader.Immich) (goos : GOOS)
    (scanResult : ScanResult) (st : store)
    (deliver : option DNGConverterConfig → RawTherapeeConfig → list processResult) :
  sys.tidy (λ p, ∃ dngConverter rt r,
               r ∈ deliver dngConverter rt ∧ err r = None
               ∧ (p = outputPath r ∨ (p = dngPath r ∧ p ≠ "")))
    (process_and_upload cfg im goos scanResult st deliver).
Proof.
  set (P := λ p : string, ∃ dngConverter rt r,
                 r ∈ deliver dngConverter rt ∧ err r = None
                 ∧ (p = outputPath r ∨ (p = dngPath r ∧ p ≠ ""))).
  unfold process_and_upload. cbv zeta.
  assert (Hrt : ∀ dngConverter, sys.tidy P
    (sys.bind (NewRawTherapee goos (rtConfig cfg))
       (λ made,
          match made with
          | inr err =>
              sys.ret (Some ("failed to initialize RawTherapee: " ++ err)%string, st)
          | inl rt =>
              upload_and_finish cfg im (GetProfileName rt)
                (processedJPGs
                   (collect (settings cfg) scanResult (GetProfileName rt)
                      (mkCollected (the_state st) (the_clock st) 0 0 [] [] [])
                      (deliver dngConverter rt)))
                (cameraJPGs
                   (collect (settings cfg) scanResult (GetProfileName rt)
                      (mkCollected (the_state st) (the_clock st) 0 0 [] [] [])
                      (deliver dngConverter rt)))
                (dngFilesToCleanup
                   (collect (settings cfg) scanResult (GetProfileName rt)
                      (mkCollected (the_state st) (the_clock st) 0 0 [] [] [])
                      (deliver dngConverter rt)))
                (mkStore
                   (appState
                      (collect (settings cfg) scanResult (GetProfileName rt)
                         (mkCollected (the_state st) (the_clock st) 0 0 [] [] [])
                         (deliver dngConverter rt)))
                   (clock
                      (collect (settings cfg) scanResult (GetProfileName rt)
                         (mkCollected (the_state st) (the_clock st) 0 0 [] [] [])
                         (deliver dngConverter rt)))
                   (the_files st))
          end))).
  { intros dngConverter. apply tidy_bind; [apply tidy_NewRawTherapee|].
    intros [rt|e]; [|apply tidy_ret].
    eapply tidy_weaken; [|apply tidy_upload_and_finish].
    intros p Hp. apply products_of_collect in Hp as (r & Hr & Hok & Hpath).
    by exists dngConverter, rt, r. }
  destruct (config.ConvertToDNG cfg); [|apply Hrt].
  assert (Hdng : ∀ dir, sys.tidy P
    (sys.bind (NewDNGConverter goos (dngConfig cfg dir))
       (λ made,
          match made with
          | inr err =>
              sys.ret (Some ("failed to initialize DNG Converter: " ++ err)%string, st)
          | inl dngConverter =>
              sys.bind (NewRawTherapee goos (rtConfig cfg))
                (λ made,
                   match made with
                   | inr err =>
                       sys.ret (Some ("failed to initialize RawTherapee: "
                                      ++ err)%string, st)
                   | inl rt =>
                       upload_and_finish cfg im (GetProfileName rt)
                         (processedJPGs
                            (collect (settings cfg) scanResult (GetProfileName rt)
                               (mkCollected (the_state st) (the_clock st) 0 0 [] [] [])
                               (deliver (Some dngConverter) rt)))
                         (cameraJPGs
                            (collect (settings cfg) scanResult (GetProfileName rt)
                               (mkCollected (the_state st) (the_clock st) 0 0 [] [] [])
                               (deliver (Some dngConverter) rt)))
                         (dngFilesToCleanup
                            (collect (settings cfg) scanResult (GetProfileName rt)
                               (mkCollected (the_state st) (the_clock st) 0 0 [] [] [])
                               (deliver (Some dngConverter) rt)))
                         (mkStore
                            (appState
                               (collect (settings cfg) scanResult (GetProfileName rt)
                                  (mkCollected (the_state st) (the_clock st) 0 0 [] [] [])
                                  (deliver (Some dngConverter) rt)))
                            (clock
                               (collect (settings cfg) scanResult (GetProfileName rt)
                                  (mkCollected (the_state st) (the_clock st) 0 0 [] [] [])
                                  (deliver (Some dngConverter) rt)))
                            (the_files st))
                   end)
          end))).
  { intros dir. apply tidy_bind; [apply tidy_NewDNGConverter|].
    intros [dc|e]; [apply Hrt|apply tidy_ret]. }
  destruct (String.eqb _ _).
  - apply (tidy_temp_dir P "" "camera-to-immich-dng-*"
             (λ err, sys.ret (Some ("failed to create temp directory for DNG files: "
                                    ++ err)%string, st))).
    + intros e. apply tidy_ret.
    + intros d. apply Hdng.
  - apply tidy_bind; [apply tidy_os_MkdirAll|].
    intros [e|]; [apply tidy_ret|apply Hdng].
Qed.

(** Where a worker's files lie. *)
Lemma outcome_paths (dngConverter : option DNGConverterConfig) (rt : RawTherapeeConfig)
    (j : job) (r : processResult) :
  outcome dngConverter rt j r → err r = None →
  (∃ name, outputPath r = filepath.Join [OutputDir rt; name ++ ".jpg"])
  ∧ (dngPath r = ""
     ∨ ∃ dc name,
         dngConverter = Some dc
         ∧ (dngPath r = filepath.Join [DNGOutputDir dc; name ++ ".dng"]
            ∨ dngPath r = filepath.Join [DNGOutputDir dc; name ++ ".DNG"])).
Proof.
  intros (sys & c & ->). unfold result_of, process_job.
  destruct (time_Now c) as [rtStart c1].
  assert (Hrt : ∀ inputPath dng before,
    err (let '(outputPath, err, calls) := ProcessFile rt sys inputPath in
         let '(now, c2) := time_Now c1 in
         (mkProcessResult (jobIndex j) (jobRawFile j) outputPath dng (now - rtStart) err,
          (before ++ calls)%list, c2)).1.1 = None →
    ∃ name,
      outputPath (let '(outputPath, err, calls) := ProcessFile rt sys inputPath in
                  let '(now, c2) := time_Now c1 in
                  (mkProcessResult (jobIndex j) (jobRawFile j) outputPath dng
                     (now - rtStart) err,
                   (before ++ calls)%list, c2)).1.1
      = filepath.Join [OutputDir rt; name ++ ".jpg"]
      ∧ dngPath (let '(outputPath, err, calls) := ProcessFile rt sys inputPath in
                 let '(now, c2) := time_Now c1 in
                 (mkProcessResult (jobIndex j) (jobRawFile j) outputPath dng
                    (now - rtStart) err,
                  (before ++ calls)%list, c2)).1.1 = dng).
  { intros inputPath dng before. unfold ProcessFile. cbv zeta.
    destruct (CombinedOutput sys _ _) as [output [e|]];
      destruct (time_Now c1) as [now c2]; cbn [fst snd err outputPath dngPath];
      [done|].
    destruct (Stat sys _); cbn [fst snd err outputPath dngPath]; [|done|];
      intros _; by eexists. }
  destruct dngConverter as [dc|].
  - unfold ConvertFile. cbv zeta.
    destruct (CombinedOutput sys (DNGExecutablePath dc) _) as [output [e|]].
    { destruct (time_Now c1) as [now c2]. cbn [fst snd err]. done. }
    destruct (Stat sys (filepath.Join [DNGOutputDir dc; _])) eqn:Hst1.
    2: destruct (Stat sys (filepath.Join [DNGOutputDir dc; _ ++ ".DNG"])) eqn:Hst2.
    all: try (destruct (time_Now c1) as [now c2]; cbn [fst snd err]; done).
    all: intros Hok; destruct (Hrt _ _ _ Hok) as (name & Hout & Hdng);
         (split; [by exists name|]); right; exists dc; eexists;
         (split; [done|]); rewrite Hdng; by eauto.
  - intros Hok. destruct (Hrt _ _ _ Hok) as (name & Hout & Hdng).
    split; [by exists name|]. by left.
Qed.

(** X25: no temporary directory is left behind: in every call of
    [UploadFile] and [UploadFiles], of [runJPGOnlyMode] and of
    [runWithRAWProcessing] from the initialisation of the processors
    on, each [os.MkdirTemp] that has made a directory is followed by
    the [os.RemoveAll] of that directory before the call is over,
    whatever fails in between and also when the call ends in a panic (a
    [nil] uploader); the calls are added to the log of those made
    before. *)
Theorem temporary_directories_are_removed (im : uploader.Immich) (w : sys.World)
    (log : list sys.call) :
  (∀ filePath tags,
     let out := uploader.UploadFile im filePath tags w log in
     (∃ calls, out.2 = (log ++ calls)%list) ∧ sys.temp_dirs_removed w log out.2)
  ∧ (∀ filePaths tags,
       let out := uploader.UploadFiles im filePaths tags w log in
       (∃ calls, out.2 = (log ++ calls)%list) ∧ sys.temp_dirs_removed w log out.2)
  ∧ (∀ cfg st scanResult,
       let out := runJPGOnlyMode cfg st scanResult im w log in
       (∃ calls, out.2 = (log ++ calls)%list) ∧ sys.temp_dirs_removed w log out.2)
  ∧ (∀ cfg goos scanResult st deliver,
       let out := process_and_upload cfg im goos scanResult st deliver w log in
       (∃ calls, out.2 = (log ++ calls)%list) ∧ sys.temp_dirs_removed w log out.2).
Proof.
  split_and!.
  - intros filePath tags.
    destruct (tidy_uploadSingleFile (λ _, True) im filePath tags w log)
      as ((calls & Hcalls & _) & Hremoved & _).
    split; [by exists calls|done].
  - intros filePaths tags.
    destruct (tidy_UploadFiles (λ _, True) im filePaths tags w log)
      as ((calls & Hcalls & _) & Hremoved & _).
    split; [by exists calls|done].
  - intros cfg st scanResult.
    destruct (tidy_runJPGOnlyMode (λ _, True) cfg st scanResult im w log)
      as ((calls & Hcalls & _) & Hremoved & _).
    split; [by exists calls|done].
  - intros cfg goos scanResult st deliver.
    destruct (tidy_process_and_upload cfg im goos scanResult st deliver w log)
      as ((calls & Hcalls & _) & Hremoved & _).
    split; [by exists calls|done].
Qed.

(** X26: the program deletes only what it has made.  [runJPGOnlyMode]
    calls [os.Remove] for no file, and [runWithRAWProcessing] only for
    the JPEG or the DNG of a result that has come without error, which
    lie in the output directory of RawTherapee and of the DNG converter;
    and either calls [os.RemoveAll] only for a directory that an
    [os.MkdirTemp] of the same run has made before. *)
Theorem only_own_files_are_deleted (im : uploader.Immich) (w : sys.World)
    (log : list sys.call) :
  (∀ cfg st scanResult,
     let out := runJPGOnlyMode cfg st scanResult im w log in
     ∃ calls, out.2 = (log ++ calls)%list
       ∧ (∀ path, sys.Remove path ∉ calls)
       ∧ sys.removes_own_dirs w log out.2)
  ∧ (∀ cfg goos scanResult st deliver,
       let out := process_and_upload cfg im goos scanResult st deliver w log in
       ∃ calls, out.2 = (log ++ calls)%list
         ∧ (∀ path, sys.Remove path ∈ calls →
              ∃ dngConverter rt r,
                r ∈ deliver dngConverter rt ∧ err r = None
                ∧ (path = outputPath r ∨ (path = dngPath r ∧ path ≠ "")))
         ∧ sys.removes_own_dirs w log out.2)
  ∧ (∀ dngConverter rt j r,
       outcome dngConverter rt j r → err r = None →
       (∃ name, outputPath r = filepath.Join [OutputDir rt; name ++ ".jpg"])
       ∧ (dngPath r = ""
          ∨ ∃ dc name,
              dngConverter = Some dc
              ∧ (dngPath r = filepath.Join [DNGOutputDir dc; name ++ ".dng"]
                 ∨ dngPath r = filepath.Join [DNGOutputDir dc; name ++ ".DNG"]))).
Proof.
  split_and!.
  - intros cfg st scanResult.
    destruct (tidy_runJPGOnlyMode (λ _, False) cfg st scanResult im w log)
      as ((calls & Hcalls & Hnone) & _ & Hown).
    exists calls. split_and!; [done| |done]. intros path Hin. by apply (Hnone path).
  - intros cfg goos scanResult st deliver.
    destruct (tidy_process_and_upload cfg im goos scanResult st deliver w log)
      as ((calls & Hcalls & Hprod) & _ & Hown).
    by exists calls.
  - apply outcome_paths.
Qed.

End temporary_directories.

Section output_names.
Import processor.

Lemma append_cons (c : ascii) (s t : string) : String c s ++ t = String c (s ++ t).
Proof. reflexivity. Qed.

Lemma append_nil_r (s : string) : s ++ "" = s.
Proof. induction s as [|c s IH]; [done|]. by rewrite append_cons, IH. Qed.

Lemma append_assoc (s t u : string) : (s ++ t) ++ u = s ++ (t ++ u).
Proof. induction s as [|c s IH]; [done|]. by rewrite !append_cons, IH. Qed.

Lemma length_append (s t : string) :
  String.length (s ++ t) = (String.length s + String.length t)%nat.
Proof. induction s as [|c s IH]; [done|]. rewrite append_cons. cbn. by rewrite IH. Qed.

Lemma rev_app_append (s t acc : string) :
  String.rev_app (s ++ t) acc = String.rev_app t (String.rev_app s acc).
Proof.
  revert acc. induction s as [|c s IH]; intros acc; [done|].
  rewrite append_cons. cbn [String.rev_app]. apply IH.
Qed.

(** The scans of [Ext] and [Base] over the last element of a path. *)
Lemma ext_scan_element (name tail rest acc : string) :
  drive.no_separator name = true → drive.no_separator tail = true →
  filepath.ext_scan (String.rev_app name (tail ++ String "/" rest)) acc
  = filepath.ext_scan (String.rev_app name tail) acc.
Proof.
  revert tail acc. induction name as [|c name IH]; intros tail acc Hname Htail.
  - cbn [String.rev_app]. revert acc.
    induction tail as [|c tail IHt]; intros acc; [done|].
    cbn [drive.no_separator] in Htail. apply andb_true_iff in Htail as [Hc Htail].
    rewrite append_cons. cbn [filepath.ext_scan].
    destruct (Ascii.eqb c "/"); [done|]. destruct (Ascii.eqb c "."); [done|].
    by apply IHt.
  - cbn [drive.no_separator] in Hname. apply andb_true_iff in Hname as [Hc Hname].
    cbn [String.rev_app]. rewrite <- append_cons. apply IH; [done|].
    cbn [drive.no_separator]. by rewrite Hc.
Qed.

Lemma take_element_element (name rest acc : string) :
  drive.no_separator name = true →
  filepath.take_element (String.rev_app name rest) acc
  = filepath.take_element rest (name ++ acc).
Proof.
  revert rest acc. induction name as [|c name IH]; intros rest acc Hname; [done|].
  cbn [drive.no_separator] in Hname. apply andb_true_iff in Hname as [Hc Hname].
  cbn [String.rev_app]. rewrite IH by done. cbn [filepath.take_element].
  by destruct (Ascii.eqb c "/").
Qed.

Lemma rev_app_element (name rest : string) :
  name ≠ "" → drive.no_separator name = true →
  ∃ c r, String.rev_app name rest = String c r ∧ Ascii.eqb c "/" = false.
Proof.
  revert rest. induction name as [|c name IH]; intros rest Hne Hname; [done|].
  cbn [drive.no_separator] in Hname. apply andb_true_iff in Hname as [Hc Hname].
  cbn [String.rev_app]. destruct name as [|c' name'].
  - exists c, rest. split; [done|]. by destruct (Ascii.eqb c "/").
  - by apply IH.
Qed.

(** [Ext] and [Base] of a file in a directory are those of its name. *)
Lemma Ext_in_directory (dir name : string) :
  drive.no_separator name = true →
  filepath.Ext (dir ++ "/" ++ name) = filepath.Ext name.
Proof.
  intros Hname. unfold filepath.Ext, String.rev.
  rewrite rev_app_append. change ("/" ++ name) with (String "/" name).
  cbn [String.rev_app].
  apply (ext_scan_element name "" (String.rev_app dir "") ""); done.
Qed.

Lemma Base_in_directory (dir name : string) :
  name ≠ "" → drive.no_separator name = true →
  filepath.Base (dir ++ "/" ++ name) = name.
Proof.
  intros Hne Hname. unfold filepath.Base.
  assert (Hpath : String.eqb (dir ++ "/" ++ name) "" = false).
  { destruct dir; done. }
  rewrite Hpath. cbv zeta. unfold String.rev.
  rewrite rev_app_append. change ("/" ++ name) with (String "/" name).
  cbn [String.rev_app].
  destruct (rev_app_element name (String "/" (String.rev_app dir "")) Hne Hname)
    as (c & r & Hrev & Hc).
  assert (Hdrop : filepath.drop_slashes
                    (String.rev_app name (String "/" (String.rev_app dir "")))
                  = String.rev_app name (String "/" (String.rev_app dir ""))).
  { rewrite Hrev. cbn [filepath.drop_slashes]. by rewrite Hc. }
  rewrite Hdrop, take_element_element by done.
  cbn [filepath.take_element Ascii.eqb]. cbn. rewrite append_nil_r.
  destruct name; done.
Qed.

Lemma no_separator_append (s t : string) :
  drive.no_separator (s ++ t) = drive.no_separator s && drive.no_separator t.
Proof.
  induction s as [|c s IH]; [done|]. rewrite append_cons. cbn [drive.no_separator].
  rewrite IH. by rewrite andb_assoc.
Qed.

Lemma plain_no_separator (e : string) :
  filepath.plain e = true → drive.no_separator e = true.
Proof.
  induction e as [|c e IH]; [done|]. cbn [filepath.plain drive.no_separator].
  intros [[Hc _]%andb_true_iff He]%andb_true_iff. by rewrite Hc, IH.
Qed.

Lemma ext_scan_plain (e rest acc : string) :
  filepath.plain e = true →
  filepath.ext_scan (String.rev_app e rest) acc = filepath.ext_scan rest (e ++ acc).
Proof.
  revert rest acc. induction e as [|c e IH]; intros rest acc He; [done|].
  cbn [filepath.plain] in He. apply andb_true_iff in He as [[Hs Hd]%andb_true_iff He].
  cbn [String.rev_app]. rewrite IH by done. cbn [filepath.ext_scan].
  destruct (Ascii.eqb c "/"); [done|]. by destruct (Ascii.eqb c ".").
Qed.

Lemma Ext_of_name (stem e : string) :
  filepath.plain e = true → filepath.Ext (stem ++ "." ++ e) = "." ++ e.
Proof.
  intros He. unfold filepath.Ext, String.rev.
  rewrite rev_app_append. change ("." ++ e) with (String "." e).
  cbn [String.rev_app]. rewrite ext_scan_plain by done.
  cbn [filepath.ext_scan Ascii.eqb]. cbn. by rewrite append_nil_r.
Qed.

Lemma substring_append_l (s t : string) : substring 0 (String.length s) (s ++ t) = s.
Proof.
  induction s as [|c s IH]; [by destruct t|].
  rewrite append_cons. cbn [String.length substring]. by rewrite IH.
Qed.

Lemma substring_append_r (s t : string) :
  substring (String.length s) (String.length t) (s ++ t) = t.
Proof.
  induction s as [|c s IH].
  - change ("" ++ t) with t. cbn [String.length].
    rewrite <- (append_nil_r t) at 2. apply substring_append_l.
  - rewrite append_cons. cbn [String.length substring]. exact IH.
Qed.

Lemma TrimSuffix_append (stem ext : string) :
  go_strings.TrimSuffix (stem ++ ext) ext = stem.
Proof.
  unfold go_strings.TrimSuffix, go_strings.HasSuffix.
  rewrite length_append.
  replace (String.length stem + String.length ext - String.length ext)%nat
    with (String.length stem) by lia.
  rewrite substring_append_r, String.eqb_refl.
  replace (String.length ext <=? String.length stem + String.length ext)%nat
    with true by (symmetry; apply Nat.leb_le; lia).
  cbn [andb]. apply substring_append_l.
Qed.

(** The name without its extension, as [ProcessFile] and [ConvertFile]
    compute it for a file in a directory. *)
Lemma baseName_of_input (dir stem e : string) :
  drive.no_separator stem = true → filepath.plain e = true →
  go_strings.TrimSuffix (filepath.Base (dir ++ "/" ++ stem ++ "." ++ e))
    (filepath.Ext (dir ++ "/" ++ stem ++ "." ++ e))
  = stem.
Proof.
  intros Hstem He.
  assert (Hname : drive.no_separator (stem ++ "." ++ e) = true).
  { rewrite no_separator_append, Hstem. change ("." ++ e) with (String "." e).
    cbn [drive.no_separator Ascii.eqb]. cbn. by apply plain_no_separator. }
  assert (Hne : stem ++ "." ++ e ≠ "").
  { destruct stem; done. }
  rewrite Base_in_directory, Ext_in_directory, Ext_of_name by done.
  apply TrimSuffix_append.
Qed.

(** X27: the JPEG and the DNG of a RAW file are named after the file's
    name without its extension, whatever the directory and the extension:
    for an input [dir/stem.ext], [ProcessFile] asks [rawtherapee-cli]
    for [stem.jpg] in the output directory and returns that path when it
    succeeds, and [ConvertFile] returns [stem.dng] or [stem.DNG] in the
    DNG directory.  So two RAW files with the same name in different
    directories of the card, or with the same name but for the
    extension, are converted to the same JPEG. *)
Theorem outputs_are_named_after_the_stem (rt : RawTherapeeConfig)
    (dc : DNGConverterConfig) (sys sys' : Sys) (dir dir' stem e e' : string) :
  drive.no_separator stem = true → filepath.plain e = true → filepath.plain e' = true →
  let input := dir ++ "/" ++ stem ++ "." ++ e in
  let input' := dir' ++ "/" ++ stem ++ "." ++ e' in
  let jpeg := filepath.Join [OutputDir rt; stem ++ ".jpg"] in
  (∀ out, (ProcessFile rt sys input).1 = (out, None) → out = jpeg)
  ∧ (∃ rest, (ProcessFile rt sys input).2
             = [RunRawTherapee (ExecutablePath rt) ("-o" :: jpeg :: rest)])
  ∧ ((ProcessFile rt sys input).1.2 = None →
     (ProcessFile rt sys' input').1.2 = None →
     (ProcessFile rt sys input).1.1 = (ProcessFile rt sys' input').1.1)
  ∧ (∀ out, (ConvertFile dc sys input).1 = (out, None) →
       out = filepath.Join [DNGOutputDir dc; stem ++ ".dng"]
       ∨ out = filepath.Join [DNGOutputDir dc; stem ++ ".DNG"]).
Proof.
  intros Hstem He He' input input' jpeg.
  assert (Hjpeg : ∀ sys0 d e0, filepath.plain e0 = true →
            ∀ out, (ProcessFile rt sys0 (d ++ "/" ++ stem ++ "." ++ e0)).1 = (out, None) →
                   out = jpeg).
  { intros sys0 d e0 He0 out. unfold ProcessFile. cbv zeta.
    rewrite (baseName_of_input d stem e0 Hstem He0). fold jpeg.
    destruct (CombinedOutput sys0 _ _) as [output [err|]]; cbn [fst]; [done|].
    destruct (Stat sys0 jpeg); cbn [fst]; congruence. }
  split_and!.
  - by apply Hjpeg.
  - unfold ProcessFile, input. cbv zeta.
    rewrite (baseName_of_input dir stem e Hstem He). fold jpeg.
    destruct (CombinedOutput sys _ _) as [output [err|]]; cbn [snd]; [by eexists|].
    destruct (Stat sys jpeg); cbn [snd]; by eexists.
  - intros Hok Hok'.
    destruct (ProcessFile rt sys input) as [[out err] calls] eqn:Hp.
    destruct (ProcessFile rt sys' input') as [[out' err'] calls'] eqn:Hp'.
    cbn [fst snd] in *. subst err err'.
    rewrite (Hjpeg sys dir e He out), (Hjpeg sys' dir' e' He' out'); [done| |].
    + fold input'. by rewrite Hp'.
    + fold input. by rewrite Hp.
  - intros out. unfold ConvertFile, input. cbv zeta.
    rewrite (baseName_of_input dir stem e Hstem He).
    destruct (CombinedOutput sys _ _) as [output [err|]]; cbn [fst]; [done|].
    destruct (Stat sys (filepath.Join [DNGOutputDir dc; stem ++ ".dng"])); cbn [fst].
    + intros [= <-]. by left.
    + destruct (Stat sys (filepath.Join [DNGOutputDir dc; stem ++ ".DNG"]));
        cbn [fst]; [|done|done].
      intros [= <-]. by right.
    + intros [= <-]. by left.
Qed.

End output_names.

Section initialisation.
Import state scanner processor processor_init main.
Context `{TimeJSON}.

Lemma probing_ret {A : Type} (a : A) : sys.probing (sys.ret a).
Proof. intros w log. exists a, []. by rewrite app_nil_r. Qed.

Lemma probing_bind {A B : Type} (m : sys.M A) (k : A → sys.M B) :
  sys.probing m → (∀ a, sys.probing (k a)) → sys.probing (sys.bind m k).
Proof.
  intros Hm Hk w log. unfold sys.bind.
  destruct (Hm w log) as (a & c1 & -> & H1).
  destruct (Hk a w (log ++ c1)%list) as (b & c2 & -> & H2).
  exists b, (c1 ++ c2)%list. rewrite app_assoc. split; [done|].
  by apply Forall_app.
Qed.

Lemma probing_os_Stat (path : string) : sys.probing (sys.os_Stat path).
Proof. intros w log. eexists _, [_]. split; [done|]. by repeat constructor. Qed.

Lemma probing_exec_LookPath (file : string) : sys.probing (sys.exec_LookPath file).
Proof. intros w log. eexists _, [_]. split; [done|]. by repeat constructor. Qed.

Lemma probing_os_MkdirAll (path : string) : sys.probing (sys.os_MkdirAll path).
Proof. intros w log. eexists _, [_]. split; [done|]. by repeat constructor. Qed.

Lemma probing_find_rawtherapee (names : list string) : sys.probing (find_rawtherapee names).
Proof.
  induction names as [|name rest IH]; cbn [find_rawtherapee]; [apply probing_ret|].
  apply probing_bind; [apply probing_exec_LookPath|].
  intros [path|e]; [apply probing_ret|].
  apply probing_bind; [apply probing_os_Stat|].
  intros [| |]; [apply probing_ret|exact IH|exact IH].
Qed.

Lemma probing_find_dng_converter (paths : list string) :
  sys.probing (find_dng_converter paths).
Proof.
  induction paths as [|path rest IH]; cbn [find_dng_converter]; [apply probing_ret|].
  apply probing_bind; [apply probing_os_Stat|].
  intros [| |]; [apply probing_ret|exact IH|exact IH].
Qed.

(** What [NewRawTherapee] returns, and that it only probes. *)
Lemma NewRawTherapee_returns (goos : GOOS) (config : RawTherapeeConfig)
    (w : sys.World) (log : list sys.call) :
  ∃ made calls,
    NewRawTherapee goos config w log = (sys.Value made, (log ++ calls)%list)
    ∧ Forall sys.probe calls
    ∧ ∀ rt, made = inl rt →
        ProfilePath rt = ProfilePath config
        ∧ OutputDir rt = OutputDir config
        ∧ Quality rt = (if Quality config =? 0 then 92 else Quality config)
        ∧ (ExecutablePath config ≠ "" → ExecutablePath rt = ExecutablePath config).
Proof.
  unfold NewRawTherapee.
  assert (Hexe : sys.probing
            (if String.eqb (ExecutablePath config) "" then findRawTherapeeExecutable goos
             else sys.ret (ExecutablePath config))).
  { destruct (String.eqb _ _); [apply probing_find_rawtherapee|apply probing_ret]. }
  unfold sys.bind at 1.
  destruct (Hexe w log) as (exe & c1 & Hrun & H1). rewrite Hrun.
  assert (Hsame : ExecutablePath config ≠ "" → exe = ExecutablePath config).
  { intros Hne. destruct (String.eqb (ExecutablePath config) "") eqn:He.
    - by apply String.eqb_eq in He.
    - cbn in Hrun. by injection Hrun as <- _. }
  clear Hrun Hexe. cbv zeta. cbn [ExecutablePath ProfilePath OutputDir Quality].
  unfold sys.bind at 1, sys.exec_LookPath at 1.
  destruct (sys.look_path w _ exe) as [found|err].
  2:{ eexists _, (c1 ++ [_])%list. rewrite app_assoc. split; [done|].
      split; [apply Forall_app; split; [done|by repeat constructor]|done]. }
  set (config' := mkRawTherapeeConfig exe (ProfilePath config) (OutputDir config)
                    (if Quality config =? 0 then 92 else Quality config)).
  assert (Hout : ∀ log0,
    ∃ made calls,
      (if negb (String.eqb (OutputDir config) "") then
         sys.bind (sys.os_MkdirAll (OutputDir config))
           (λ made, match made with
                    | Some err =>
                        sys.ret (inr ("failed to create output directory: " ++ err))
                    | None => sys.ret (inl config')
                    end)
       else sys.ret (inl config')) w log0
      = (sys.Value made, (log0 ++ calls)%list)
      ∧ Forall sys.probe calls ∧ ∀ rt, made = inl rt → rt = config').
  { intros log0. destruct (negb _).
    - unfold sys.bind, sys.os_MkdirAll.
      destruct (sys.mkdir_all w _ _) as [err|]; eexists _, [_];
        (split; [done|]); (split; [by repeat constructor|]); congruence.
    - eexists _, []. rewrite app_nil_r. split; [done|]. split; [done|]. congruence. }
  assert (Hfields : ∀ rt, rt = config' →
            ProfilePath rt = ProfilePath config
            ∧ OutputDir rt = OutputDir config
            ∧ Quality rt = (if Quality config =? 0 then 92 else Quality config)
            ∧ (ExecutablePath config ≠ "" → ExecutablePath rt = ExecutablePath config)).
  { intros rt ->. done. }
  destruct (negb (String.eqb (ProfilePath config) "")).
  - unfold sys.bind at 1, sys.os_Stat at 1.
    destruct (sys.stat w _ (ProfilePath config)).
    2:{ eexists _, (c1 ++ [_; _])%list.
        rewrite <- !app_assoc. split; [done|].
        split; [apply Forall_app; split; [done|by repeat constructor]|done]. }
    all: destruct (Hout (((log ++ c1) ++ [sys.LookPath exe])
                         ++ [sys.Stat (ProfilePath config)])%list)
           as (made & c2 & -> & H2 & Hrt).
    all: exists made, (c1 ++ [sys.LookPath exe; sys.Stat (ProfilePath config)] ++ c2)%list.
    all: split; [by rewrite <- !app_assoc|].
    all: split; [repeat (apply Forall_app; split); by repeat constructor|].
    all: intros rt Hm; apply Hfields; by apply Hrt.
  - destruct (Hout ((log ++ c1) ++ [sys.LookPath exe])%list)
      as (made & c2 & -> & H2 & Hrt).
    exists made, (c1 ++ [sys.LookPath exe] ++ c2)%list.
    split; [by rewrite <- !app_assoc|].
    split; [repeat (apply Forall_app; split); by repeat constructor|].
    intros rt Hm; apply Hfields; by apply Hrt.
Qed.

(** What [NewDNGConverter] returns, and that it only probes. *)
Lemma NewDNGConverter_returns (goos : GOOS) (config : DNGConverterConfig)
    (w : sys.World) (log : list sys.call) :
  ∃ made calls,
    NewDNGConverter goos config w log = (sys.Value made, (log ++ calls)%list)
    ∧ Forall sys.probe calls
    ∧ ∀ dc, made = inl dc →
        DNGOutputDir dc = DNGOutputDir config
        ∧ Compressed dc = Compressed config
        ∧ EmbedOriginal dc = EmbedOriginal config
        ∧ DNGExecutablePath dc ≠ ""
        ∧ (DNGExecutablePath config ≠ "" →
           DNGExecutablePath dc = DNGExecutablePath config).
Proof.
  unfold NewDNGConverter.
  assert (Hexe : sys.probing
            (if String.eqb (DNGExecutablePath config) ""
             then findDNGConverterExecutable goos
             else sys.ret (DNGExecutablePath config))).
  { destruct (String.eqb _ _); [apply probing_find_dng_converter|apply probing_ret]. }
  unfold sys.bind at 1.
  destruct (Hexe w log) as (exe & c1 & Hrun & H1). rewrite Hrun.
  assert (Hsame : DNGExecutablePath config ≠ "" → exe = DNGExecutablePath config).
  { intros Hne. destruct (String.eqb (DNGExecutablePath config) "") eqn:He.
    - by apply String.eqb_eq in He.
    - cbn in Hrun. by injection Hrun as <- _. }
  clear Hrun Hexe. cbv zeta.
  cbn [DNGExecutablePath DNGOutputDir Compressed EmbedOriginal].
  destruct (String.eqb exe "") eqn:Hexe.
  { eexists _, c1. split; [done|]. split; [done|]. done. }
  apply String.eqb_neq in Hexe.
  unfold sys.bind at 1, sys.os_Stat at 1.
  destruct (sys.stat w _ exe).
  2:{ eexists _, (c1 ++ [_])%list. rewrite app_assoc. split; [done|].
      split; [apply Forall_app; split; [done|by repeat constructor]|done]. }
  all: destruct (negb (String.eqb (DNGOutputDir config) "")).
  all: unfold sys.bind, sys.os_MkdirAll, sys.ret.
  all: try destruct (sys.mkdir_all w _ _) as [err|].
  all: try (eexists _, (c1 ++ [_; _])%list; rewrite <- !app_assoc; split; [done|];
            split; [apply Forall_app; split; [done|by repeat constructor]|];
            intros dc [= <-]; done).
  all: try (eexists _, (c1 ++ [_; _])%list; rewrite <- !app_assoc; split; [done|];
            split; [apply Forall_app; split; [done|by repeat constructor]|]; done).
  all: eexists _, (c1 ++ [_])%list; rewrite <- !app_assoc; split; [done|];
       split; [apply Forall_app; split; [done|by repeat constructor]|];
       intros dc [= <-]; done.
Qed.

Lemma probe_quiet (calls : list sys.call) : Forall sys.probe calls → Forall sys.quiet calls.
Proof. intros Hp. eapply Forall_impl; [exact Hp|]. by intros []. Qed.

(** From the initialisation of the DNG converter on; [pre] holds the
    calls made before and [post] the deferred ones. *)
Lemma converter_stage (cfg : config.Config) (im : uploader.Immich) (goos : GOOS)
    (scanResult : ScanResult) (st : store)
    (deliver : option DNGConverterConfig → RawTherapeeConfig → list processResult)
    (w : sys.World) (log : list sys.call) (dir : string) (log0 pre post : list sys.call) :
  Forall sys.quiet pre → Forall sys.quiet post → log0 = (log ++ pre)%list →
  ∀ out0,
    (∀ deliver',
       out0 deliver'
       = let r :=
           sys.bind (NewDNGConverter goos (dngConfig cfg dir))
             (λ made,
                match made with
                | inr err =>
                    sys.ret (Some ("failed to initialize DNG Converter: "
                                   ++ err)%string, st)
                | inl dngConverter =>
                    sys.bind (NewRawTherapee goos (rtConfig cfg))
                      (λ made,
                         match made with
                         | inr err =>
                             sys.ret (Some ("failed to initialize RawTherapee: "
                                            ++ err)%string, st)
                         | inl rt =>
                             let profileName := GetProfileName rt in
                             let final :=
                               collect (settings cfg) scanResult profileName
                                 (mkCollected (the_state st) (the_clock st)
                                    0 0 [] [] [])
                                 (deliver' (Some dngConverter) rt) in
                             upload_and_finish cfg im profileName
                               (processedJPGs final) (cameraJPGs final)
                               (dngFilesToCleanup final)
                               (mkStore (appState final) (clock final)
                                  (the_files st))
                         end)
                end) w log0 in
         (r.1, (r.2 ++ post)%list)) →
    (∃ e calls,
       out0 deliver = (sys.Value (Some e, st), (log ++ calls)%list)
       ∧ Forall sys.quiet calls
       ∧ (∃ err, e = ("failed to create temp directory for DNG files: "
                      ++ err)%string
                 ∨ e = ("failed to create DNG output directory: " ++ err)%string
                 ∨ e = ("failed to initialize DNG Converter: " ++ err)%string
                 ∨ e = ("failed to initialize RawTherapee: " ++ err)%string)
       ∧ ∀ deliver', out0 deliver' = out0 deliver)
    ∨ (∃ dc rt calls,
         Forall sys.quiet calls
         ∧ ProfilePath rt = config.PP3ProfilePath cfg
         ∧ OutputDir rt = config.OutputDirectory cfg
         ∧ Quality rt = (if config.JPEGQuality cfg =? 0 then 92
                         else config.JPEGQuality cfg)
         ∧ (Compressed dc = config.DNGCompressed cfg
            ∧ EmbedOriginal dc = config.DNGEmbedOriginal cfg
            ∧ DNGExecutablePath dc ≠ ""
            ∧ DNGOutputDir dc = dir)
         ∧ out0 deliver
           = (let profileName := GetProfileName rt in
              let final :=
                collect (settings cfg) scanResult profileName
                  (mkCollected (the_state st) (the_clock st) 0 0 [] [] [])
                  (deliver (Some dc) rt) in
              let rest :=
                upload_and_finish cfg im profileName (processedJPGs final)
                  (cameraJPGs final) (dngFilesToCleanup final)
                  (mkStore (appState final) (clock final) (the_files st))
                  w (log ++ calls)%list in
              (rest.1, (rest.2 ++ post)%list))).
Proof.
  intros Hpre Hpost -> out0 Hout0.
destruct (NewDNGConverter_returns goos (dngConfig cfg dir) w (log ++ pre)%list)
  as (made & c1 & Hnew & Hp1 & Hdc).
destruct made as [dc|err].
- destruct (Hdc dc eq_refl) as (Hdir & Hcomp & Hemb & Hexe & _).
  cbn [dngConfig DNGOutputDir Compressed EmbedOriginal] in Hdir, Hcomp, Hemb.
  destruct (NewRawTherapee_returns goos (rtConfig cfg) w ((log ++ pre) ++ c1)%list)
    as (made & c2 & Hrt & Hp2 & Hfields).
  destruct made as [rt|err].
  + right. exists dc, rt, (pre ++ c1 ++ c2)%list.
    destruct (Hfields rt eq_refl) as (Hp & Ho & Hq & _).
    cbn [rtConfig ProfilePath OutputDir Quality] in Hp, Ho, Hq.
    split_and!; try done.
    * repeat (apply Forall_app; split); [done|by apply probe_quiet..].
    * rewrite Hout0. cbv zeta. unfold sys.bind. rewrite Hnew, Hrt.
      by rewrite !app_assoc.
  + left. exists ("failed to initialize RawTherapee: " ++ err)%string,
                 (pre ++ c1 ++ c2 ++ post)%list.
    assert (Hall : ∀ deliver',
              out0 deliver'
              = (sys.Value (Some ("failed to initialize RawTherapee: "
                                  ++ err)%string, st),
                 (log ++ pre ++ c1 ++ c2 ++ post)%list)).
    { intros deliver'. rewrite Hout0. cbv zeta. unfold sys.bind.
      rewrite Hnew, Hrt. cbn [sys.ret fst snd]. by rewrite <- !app_assoc. }
    split_and!.
    * apply Hall.
    * repeat (apply Forall_app; split); [done|by apply probe_quiet..|done].
    * exists err. by do 3 right.
    * intros deliver'. by rewrite !Hall.
- left. exists ("failed to initialize DNG Converter: " ++ err)%string,
               (pre ++ c1 ++ post)%list.
  assert (Hall : ∀ deliver',
            out0 deliver'
            = (sys.Value (Some ("failed to initialize DNG Converter: "
                                ++ err)%string, st),
               (log ++ pre ++ c1 ++ post)%list)).
  { intros deliver'. rewrite Hout0. cbv zeta. unfold sys.bind.
    rewrite Hnew. cbn [sys.ret fst snd]. by rewrite <- !app_assoc. }
  split_and!.
  + apply Hall.
  + repeat (apply Forall_app; split); [done|by apply probe_quiet|done].
  + exists err. right. right. by left.
  + intros deliver'. by rewrite !Hall.
Qed.

(** X28: [runWithRAWProcessing] initialises its processors before it
    does any work.  When an initialisation fails, the function returns
    that error with the state as it was: no command has been run and no
    file copied or deleted, and no result of a worker is looked at.
    Otherwise the collecting loop and the uploads run with the processors
    made: RawTherapee with the configured profile and output directory
    and the configured quality (92 for 0), and, if DNG conversion is on,
    a converter that writes to the configured DNG directory or else to a
    new temporary directory, which is removed last of all when the
    function returns. *)
Theorem processors_are_initialised_first (cfg : config.Config) (im : uploader.Immich)
    (goos : GOOS) (scanResult : ScanResult) (st : store)
    (deliver : option DNGConverterConfig → RawTherapeeConfig → list processResult)
    (w : sys.World) (log : list sys.call) :
  let out := process_and_upload cfg im goos scanResult st deliver w log in
  (∃ e calls,
     out = (sys.Value (Some e, st), (log ++ calls)%list)
     ∧ Forall sys.quiet calls
     ∧ (∃ err, e = ("failed to create temp directory for DNG files: " ++ err)%string
               ∨ e = ("failed to create DNG output directory: " ++ err)%string
               ∨ e = ("failed to initialize DNG Converter: " ++ err)%string
               ∨ e = ("failed to initialize RawTherapee: " ++ err)%string)
     ∧ ∀ deliver', process_and_upload cfg im goos scanResult st deliver' w log = out)
  ∨ (∃ dngConverter rt calls deferred,
       Forall sys.quiet calls
       ∧ ProfilePath rt = config.PP3ProfilePath cfg
       ∧ OutputDir rt = config.OutputDirectory cfg
       ∧ Quality rt = (if config.JPEGQuality cfg =? 0 then 92
                       else config.JPEGQuality cfg)
       ∧ match dngConverter with
         | None => config.ConvertToDNG cfg = false ∧ deferred = []
         | Some dc =>
             config.ConvertToDNG cfg = true
             ∧ Compressed dc = config.DNGCompressed cfg
             ∧ EmbedOriginal dc = config.DNGEmbedOriginal cfg
             ∧ DNGExecutablePath dc ≠ ""
             ∧ if String.eqb (config.DNGOutputDirectory cfg) "" then
                 sys.mkdir_temp w (length log) "" "camera-to-immich-dng-*"
                 = inl (DNGOutputDir dc)
                 ∧ deferred = [sys.RemoveAll (DNGOutputDir dc)]
               else DNGOutputDir dc = config.DNGOutputDirectory cfg ∧ deferred = []
         end
       ∧ let profileName := GetProfileName rt in
         let final :=
           collect (settings cfg) scanResult profileName
             (mkCollected (the_state st) (the_clock st) 0 0 [] [] [])
             (deliver dngConverter rt) in
         let rest :=
           upload_and_finish cfg im profileName (processedJPGs final)
             (cameraJPGs final) (dngFilesToCleanup final)
             (mkStore (appState final) (clock final) (the_files st))
             w (log ++ calls)%list in
         out = (rest.1, (rest.2 ++ deferred)%list)).
Proof.
  intros out.
  set (out0 := λ deliver', process_and_upload cfg im goos scanResult st deliver' w log).
  change out with (out0 deliver).
  change (∀ deliver', process_and_upload cfg im goos scanResult st deliver' w log
                      = out0 deliver)
    with (∀ deliver', out0 deliver' = out0 deliver).
  destruct (config.ConvertToDNG cfg) eqn:Hdng.
  - destruct (String.eqb (config.DNGOutputDirectory cfg) "") eqn:Hdir.
    + destruct (sys.mkdir_temp w (length log) "" "camera-to-immich-dng-*")
        as [d|err] eqn:Hmk.
      * destruct (converter_stage cfg im goos scanResult st deliver w log d
                    (log ++ [sys.MkdirTemp "" "camera-to-immich-dng-*"])%list
                    [sys.MkdirTemp "" "camera-to-immich-dng-*"] [sys.RemoveAll d])
          with (out0 := out0)
          as [(e & calls & Hout & Hq & He & Hall)|(dc & rt & calls & Hq & Hp & Ho & Hqu
                                                     & Hdc & Hout)].
        -- by repeat constructor.
        -- by repeat constructor.
        -- done.
        -- intros deliver'. unfold out0, process_and_upload. cbv zeta.
           rewrite Hdng, Hdir. unfold sys.bind at 1, sys.os_MkdirTemp at 1.
           rewrite Hmk. unfold sys.defer, sys.os_RemoveAll.
           by destruct (sys.bind _ _ w _).
        -- left. by exists e, calls.
        -- right. exists (Some dc), rt, calls, [sys.RemoveAll d].
           destruct Hdc as (Hc & He & Hx & Hd). subst d.
           split_and!; try done.
      * left. exists ("failed to create temp directory for DNG files: " ++ err)%string,
                     [sys.MkdirTemp "" "camera-to-immich-dng-*"].
        assert (Hall : ∀ deliver',
                  out0 deliver'
                  = (sys.Value (Some ("failed to create temp directory for DNG files: "
                                      ++ err)%string, st),
                     (log ++ [sys.MkdirTemp "" "camera-to-immich-dng-*"])%list)).
        { intros deliver'. unfold out0, process_and_upload. cbv zeta.
          rewrite Hdng, Hdir. unfold sys.bind at 1, sys.os_MkdirTemp at 1.
          by rewrite Hmk. }
        split_and!; [apply Hall|by repeat constructor|exists err; by left|].
        intros deliver'. by rewrite !Hall.
    + destruct (sys.mkdir_all w (length log) (config.DNGOutputDirectory cfg))
        as [err|] eqn:Hmk.
      * left. exists ("failed to create DNG output directory: " ++ err)%string,
                     [sys.MkdirAll (config.DNGOutputDirectory cfg)].
        assert (Hall : ∀ deliver',
                  out0 deliver'
                  = (sys.Value (Some ("failed to create DNG output directory: "
                                      ++ err)%string, st),
                     (log ++ [sys.MkdirAll (config.DNGOutputDirectory cfg)])%list)).
        { intros deliver'. unfold out0, process_and_upload. cbv zeta.
          rewrite Hdng, Hdir. unfold sys.bind at 1, sys.os_MkdirAll at 1.
          by rewrite Hmk. }
        split_and!; [apply Hall|by repeat constructor|exists err; right; by left|].
        intros deliver'. by rewrite !Hall.
      * destruct (converter_stage cfg im goos scanResult st deliver w log
                    (config.DNGOutputDirectory cfg)
                    (log ++ [sys.MkdirAll (config.DNGOutputDirectory cfg)])%list
                    [sys.MkdirAll (config.DNGOutputDirectory cfg)] [])
          with (out0 := out0)
          as [(e & calls & Hout & Hq & He & Hall)|(dc & rt & calls & Hq & Hp & Ho & Hqu
                                                     & Hdc & Hout)].
        -- by repeat constructor.
        -- done.
        -- done.
        -- intros deliver'. unfold out0, process_and_upload. cbv zeta.
           rewrite Hdng, Hdir. unfold sys.bind at 1, sys.os_MkdirAll at 1.
           rewrite Hmk. rewrite app_nil_r. by destruct (sys.bind _ _ w _).
        -- left. by exists e, calls.
        -- right. exists (Some dc), rt, calls, [].
           destruct Hdc as (Hc & He & Hx & Hd).
           split_and!; try done.
  - destruct (NewRawTherapee_returns goos (rtConfig cfg) w log)
      as (made & calls & Hrt & Hprobe & Hfields).
    assert (Hunfold : ∀ deliver',
              out0 deliver'
              = match made with
                | inr err =>
                    (sys.Value (Some ("failed to initialize RawTherapee: "
                                      ++ err)%string, st), (log ++ calls)%list)
                | inl rt =>
                    let profileName := GetProfileName rt in
                    let final :=
                      collect (settings cfg) scanResult profileName
                        (mkCollected (the_state st) (the_clock st) 0 0 [] [] [])
                        (deliver' None rt) in
                    upload_and_finish cfg im profileName (processedJPGs final)
                      (cameraJPGs final) (dngFilesToCleanup final)
                      (mkStore (appState final) (clock final) (the_files st))
                      w (log ++ calls)%list
                end).
    { intros deliver'. unfold out0, process_and_upload. cbv zeta.
      rewrite Hdng. unfold sys.bind at 1. rewrite Hrt. by destruct made. }
    destruct made as [rt|err].
    + right. exists None, rt, calls, [].
      destruct (Hfields rt eq_refl) as (Hp & Ho & Hq & _).
      cbn [rtConfig ProfilePath OutputDir Quality] in Hp, Ho, Hq.
      split_and!; try done; [by apply probe_quiet|].
      rewrite Hunfold. cbv zeta. rewrite app_nil_r.
      by destruct (upload_and_finish _ _ _ _ _ _ _ _ _).
    + left. exists ("failed to initialize RawTherapee: " ++ err)%string, calls.
      split_and!; [apply Hunfold|by apply probe_quiet|exists err; by do 3 right|].
      intros deliver'. by rewrite !Hunfold.
Qed.

End initialisation.

(** ** The further properties on concrete runs *)

Lemma converted_file_witness :
  let final :=
    main.collect (main.mkConfig 0 0 false true)
      (scanner.mkScanResult [samples.raw_file "A"; samples.raw_file "B"] []
         samples.card_path) "vivid"
      (main.mkCollected samples.fresh samples.ticking 0 0 [] [] [])
      [samples.failed_A; samples.converted_B] in
  state.IsProcessed (main.appState final) "B.ORF" = true
  ∧ ∀ j, j ∈ (main.plan (main.mkConfig 0 0 false true) (main.appState final)
                samples.card_with_DCIM samples.card_path {[ ".ORF" := true ]}).2 →
         scanner.Name (main.jobRawFile j) ≠ "B.ORF".
Proof.
  apply (converted_file_is_not_resubmitted (main.mkConfig 0 0 false true)
           (main.mkConfig 0 0 false true)
           (scanner.mkScanResult [samples.raw_file "A"; samples.raw_file "B"] []
              samples.card_path) "vivid"
           (main.mkCollected samples.fresh samples.ticking 0 0 [] [] [])
           [samples.failed_A; samples.converted_B] samples.converted_B).
  - right. left.
  - reflexivity.
Defined.

Lemma arrival_order_witness :
  let cfg := main.mkConfig 0 0 false true in
  let scan := scanner.mkScanResult [samples.raw_file "A"; samples.raw_file "B"] []
                samples.card_path in
  let acc := main.mkCollected samples.fresh samples.ticking 0 0 [] [] [] in
  let final := main.collect cfg scan "vivid" acc [samples.failed_A; samples.converted_B] in
  let final' := main.collect cfg scan "vivid" acc [samples.converted_B; samples.failed_A] in
  dom (state.ProcessedFiles (main.appState final))
  = dom (state.ProcessedFiles (main.appState final'))
  ∧ main.processedCount final = 2.
Proof.
  intros cfg scan acc final final'.
  destruct (marks_do_not_depend_on_arrival_order cfg scan "vivid" acc
              [samples.failed_A; samples.converted_B]
              [samples.converted_B; samples.failed_A])
    as (Hdom & _ & Hcount & _).
  - apply perm_swap.
  - split; [exact Hdom|exact Hcount].
Defined.


(** Two volumes and a file under [/Volumes]; the camera's card is found
    whatever the case of the label asked for. *)
Lemma volumes_witness :
  drive.listAllDrivesImpl_darwin
    (inl [("Macintosh HD", true); (".DS_Store", false); ("OM SYSTEM", true)]) (λ _, true)
  = inl [drive.mkDriveInfo "/Volumes/Macintosh HD" "Macintosh HD" "";
         drive.mkDriveInfo "/Volumes/OM SYSTEM" "OM SYSTEM" ""].
Proof.
  destruct (volumes_are_listed_under_Volumes
              [("Macintosh HD", true); (".DS_Store", false); ("OM SYSTEM", true)]
              (λ _, true)) as [Hlist _].
  - repeat constructor.
  - rewrite Hlist. reflexivity.
Defined.

(** The buffer that holds [C:\] and [E:\] is read back as two drives. *)
Lemma drive_strings_witness :
  drive.listAllDrivesImpl_windows samples.utf16 (λ _, "OM SYSTEM")
    [67; 58; 92; 0; 69; 58; 92; 0; 0] 8 "The operation completed successfully."
  = drive.Returns
      (inl (drive.drive_of samples.utf16 (λ _, "OM SYSTEM") <$> [[67; 58; 92]; [69; 58; 92]])).
Proof.
  apply (drive_strings_are_parsed_back samples.utf16 (λ _, "OM SYSTEM")
           [[67; 58; 92]; [69; 58; 92]] [0]
           "The operation completed successfully.").
  - discriminate.
  - repeat constructor; discriminate.
Defined.

(** One worker converts the one new file: it is sent, the channel is
    closed, the worker takes it, answers and leaves, and the result is
    received. *)
Lemma one_file_run :
  rtc (main.step 1 None samples.rawtherapee)
    (main.start [samples.raw_file "A"] 1) samples.pool_done.
Proof.
  eapply rtc_l; [eapply main.step_send; [reflexivity|cbn; lia]|].
  eapply rtc_l; [eapply main.step_close_jobs; reflexivity|].
  eapply rtc_l; [eapply (main.step_take _ _ _ _ 0%nat); reflexivity|].
  eapply rtc_l;
    [eapply (main.step_finish _ _ _ _ 0%nat);
     [reflexivity|exists samples.converting_sys, samples.epoch; reflexivity|cbn; lia]|].
  eapply rtc_l; [eapply (main.step_exit _ _ _ _ 0%nat); reflexivity|].
  eapply rtc_l;
    [eapply main.step_close_results; [reflexivity|repeat constructor|reflexivity]|].
  eapply rtc_l; [eapply main.step_receive; reflexivity|].
  apply rtc_refl.
Qed.

Lemma every_job_witness :
  length (main.received samples.pool_done) = 1%nat
  ∧ Forall (λ w, w = main.Exited) (main.workers samples.pool_done).
Proof.
  destruct (every_job_is_collected_once None samples.rawtherapee
              [samples.raw_file "A"] 1 samples.pool_done)
    as (_ & _ & Hlen & _ & _ & _ & _ & Hexited).
  - lia.
  - exact one_file_run.
  - split; reflexivity.
  - split; [exact Hlen|exact Hexited].
Defined.

Lemma pool_never_blocks_witness :
  main.finished samples.pool_done
  ∨ ∃ p', main.step 1 None samples.rawtherapee samples.pool_done p'.
Proof.
  destruct (pool_never_blocks None samples.rawtherapee [samples.raw_file "A"] 1
              samples.pool_done) as (_ & _ & Hnext).
  - exact one_file_run.
  - exact Hnext.
Defined.

(** One new JPG is uploaded and marked. *)
Lemma jpg_only_witness :
  let st := main.mkStore samples.fresh samples.epoch samples.empty_disk in
  let scan := scanner.mkScanResult [] [samples.jpg_file "P1010003"] samples.card_path in
  ∃ err st' log',
    @main.runJPGOnlyMode sample_times samples.configured st scan (Some samples.immich)
      samples.obliging [] = (sys.Value (err, st'), log')
    ∧ ∀ name pf, state.ProcessedFiles (main.the_state st') !! name = Some pf →
        state.ProcessedFiles (main.the_state st) !! name = Some pf
        ∨ state.ProfileUsed pf = "jpg-only".
Proof.
  intros st scan.
  assert (Hrun : ∃ err st' log',
            @main.runJPGOnlyMode sample_times samples.configured st scan
              (Some samples.immich) samples.obliging [] = (sys.Value (err, st'), log')).
  { eexists _, _, _. vm_compute. reflexivity. }
  destruct Hrun as (err & st' & log' & Hrun).
  exists err, st', log'. split; [exact Hrun|].
  intros name pf Hpf.
  destruct (@jpg_only_marks_what_it_uploads sample_times samples.configured st scan
              (Some samples.immich) samples.obliging [] err st' log' Hrun)
    as (Hmarks & _).
  destruct (Hmarks name pf Hpf) as [Hold|(_ & Hprofile & _)]; [by left|by right].
Defined.

(** With [-jpg-only -skip-upload] and one new JPG on the card, the run
    stops with a nil dereference. *)
Lemma skip_upload_witness :
  let st := main.mkStore samples.fresh samples.epoch samples.empty_disk in
  let scan := scanner.mkScanResult [] [samples.jpg_file "P1010003"] samples.card_path in
  main.init_uploader samples.skipping false (sys.ret "immich-go") samples.obliging []
  = (sys.Value (inl None), [])
  ∧ (@main.runJPGOnlyMode sample_times samples.skipping st scan None samples.obliging []).1
    = sys.Panic uploader.nil_dereference.
Proof.
  intros st scan.
  destruct (@jpg_only_with_skip_upload_marks_nothing sample_times samples.skipping false
              (sys.ret "immich-go") st scan samples.obliging [])
    as (Hinit & _ & _ & Hpanic).
  - reflexivity.
  - split; [exact Hinit|]. apply Hpanic.
    + split; [discriminate|split; [by eexists|reflexivity]].
    + reflexivity.
    + discriminate.
Defined.

(** After one run that uploads the one JPG, a second run has nothing to
    do. *)
Lemma uploaded_again_witness :
  let st := main.mkStore samples.fresh samples.epoch samples.empty_disk in
  let scan := scanner.mkScanResult [] [samples.jpg_file "P1010003"] samples.card_path in
  ∃ err st' log',
    @main.runJPGOnlyMode sample_times samples.configured st scan (Some samples.immich)
      samples.obliging [] = (sys.Value (err, st'), log')
    ∧ state.IsProcessed (main.the_state st') "P1010003.JPG" = true
    ∧ @main.runJPGOnlyMode sample_times samples.configured st' scan (Some samples.immich)
        samples.offline log' = (sys.Value (None, st'), log').
Proof.
  intros st scan.
  destruct (@uploaded_jpgs_are_not_uploaded_again sample_times samples.configured st scan
              samples.immich samples.obliging [])
    as (err & st' & log' & Hrun & Hmarked & _ & Hagain).
  - reflexivity.
  - split; [discriminate|split; [by eexists|reflexivity]].
  - intros i exe args. reflexivity.
  - exists err, st', log'. split; [exact Hrun|]. split; [|apply Hagain].
    apply (Hmarked (samples.jpg_file "P1010003")). left.
Defined.

(** One new RAW file, one worker and a converter that succeeds: the file
    is recorded. *)
Lemma raw_run_witness :
  let scan := scanner.mkScanResult [samples.raw_file "A"] [] samples.card_path in
  let final :=
    main.collect (main.settings samples.configured) scan "vivid"
      (main.mkCollected samples.fresh samples.epoch 0 0 [] [] [])
      (main.received samples.pool_done) in
  ∃ error st',
    (@main.upload_and_finish sample_times samples.configured (Some samples.immich) "vivid"
       (main.processedJPGs final) (main.cameraJPGs final) (main.dngFilesToCleanup final)
       (main.mkStore (main.appState final) (main.clock final) samples.empty_disk)
       samples.offline []).1 = sys.Value (error, st')
    ∧ is_Some (state.ProcessedFiles (main.the_state st') !! "A.ORF").
Proof.
  intros scan final.
  destruct (@raw_run_records_the_converted_files sample_times samples.configured
              samples.immich "vivid" None samples.rawtherapee samples.fresh samples.epoch
              samples.empty_disk scan 1 samples.pool_done samples.offline [])
    as (error & st' & Hout & _ & _ & _ & Hnames & _).
  - lia.
  - exact one_file_run.
  - split; reflexivity.
  - exists error, st'. split; [exact Hout|].
    apply Hnames. right. eexists. split; [left|]. split; reflexivity.
Defined.

(** [P1010001.ORF] in one folder of the card and [P1010001.CR2] in
    another are converted to the same JPEG. *)
Lemma outputs_witness :
  (processor.ProcessFile samples.rawtherapee samples.converting_sys
     ("/Volumes/OM SYSTEM/DCIM/100OLYMP" ++ "/" ++ "P1010001" ++ "." ++ "ORF")).1.1
  = (processor.ProcessFile samples.rawtherapee samples.converting_sys
       ("/Volumes/OM SYSTEM/DCIM/101OLYMP" ++ "/" ++ "P1010001" ++ "." ++ "CR2")).1.1.
Proof.
  destruct (outputs_are_named_after_the_stem samples.rawtherapee samples.dng_converter
              samples.converting_sys samples.converting_sys
              "/Volumes/OM SYSTEM/DCIM/100OLYMP" "/Volumes/OM SYSTEM/DCIM/101OLYMP"
              "P1010001" "ORF" "CR2") as (_ & _ & Hsame & _).
  - reflexivity.
  - reflexivity.
  - reflexivity.
  - apply Hsame; reflexivity.
Defined.

(** The extension [orf] is keyed [.ORF], and so are its upper-case,
    lower-case and dotted spellings. *)
Lemma raw_extensions_witness :
  config.normalized "orf" = ".ORF"
  ∧ config.normalized (go_strings.ToUpper "orf") = config.normalized "orf"
  ∧ config.normalized (go_strings.ToLower "orf") = config.normalized "orf"
  ∧ config.normalized ("." ++ "orf") = config.normalized "orf".
Proof.
  destruct (raw_extensions_are_matched_without_case samples.configured)
    as (_ & _ & Hascii & _).
  destruct (Hascii "orf" eq_refl) as (_ & _ & Hu & Hl & Hd).
  split; [reflexivity|]. split; [exact Hu|]. split; [exact Hl|]. exact (Hd eq_refl).
Defined.
